(** * canedge-ccp-xcp: the DAQ configuration compiler of [utils.py]

    A shallow embedding of the grouping engine ([group_signals]), the two
    command encoders ([create_daq_frames_ccp], [create_daq_frames_xcp]), the
    transmit schedule builder ([create_transmit_list]) and the decode layout
    generator ([create_dbc]) of class [CANedgeDAQ], with the properties the
    specification states about them.
    The helpers around them follow: the name shortening of [create_dbc],
    [extract_can_id], [data_type_map], [expand_matrix_signal],
    [load_signal_file], [filter_a2l_signals] and [create_status_csv], with
    properties read off the code.

    Conventions of the embedding.
    - Python [int] is [Z]; [len(...)], [enumerate] indices and the loop
      counters that start at 0 and are only incremented are [nat].
    - Python [str] is [string]; the hexadecimal renderings the source builds
      with f-strings and [to_bytes(..).hex().upper()] are built character by
      character, so that identifiers such as ["0x0000"] are the very strings
      the source compares and sorts.
    - A signal is a [dict]; the keys the core reads are the fields of
      [Signal], the three keys [group_signals] assigns are the fields that
      [GroupedSignal] adds.  Every element of the list [group_signals]
      receives is a [dict] of its own ([filter_a2l_signals] builds one per
      signal name), so the in-place assignment of the three keys is the
      construction of a [GroupedSignal] around the unchanged signal.
    - [sys.exit] and the exceptions the built-ins raise are the constructors
      of [failure]; a function that can fail returns a [result]. *)

From Stdlib Require Import ZArith List String Ascii Bool Lia Permutation Sorted.
From Stdlib Require DecimalString DecimalNat.
Import ListNotations.

Local Open Scope string_scope.
Local Open Scope Z_scope.

(* ================================================================== *)
(** * Failures and the error monad *)
(* ================================================================== *)

Inductive failure : Type :=
| NoMatchedSignals
    (** [group_signals]: "No matched signals - exiting script!", [sys.exit()] *)
| CapacityExceeded (daq_id : string) (odt_count max_odts : Z)
    (** [group_signals]: "ERROR: DAQ list .. exceeds maximum ODT capacity!",
        with the assigned and the maximum number of ODTs, [sys.exit(1)] *)
| TooManyFrames (frames max_frames : Z)
    (** [create_transmit_list]: frame count over the device limit, [sys.exit()] *)
| TooManyBytes (total_data_bytes max_data_bytes : Z)
    (** [create_transmit_list]: payload bytes over the device limit, [sys.exit()] *)
| ValueError      (** [int(s, 16)] on a string that is no hexadecimal literal *)
| OverflowError   (** [int.to_bytes]: "int too big to convert" or negative *)
| KeyError        (** a key missing from [a2l_params] *)
| StopIteration   (** [next(...)] on a generator that yields nothing *)
| UnboundLocalError. (** a local variable read before any assignment *)

Inductive result (A : Type) : Type :=
| Ok (a : A)
| Raise (e : failure).

Arguments Ok {A} a.
Arguments Raise {A} e.

Definition bind {A B : Type} (m : result A) (k : A -> result B) : result B :=
  match m with
  | Ok a => k a
  | Raise e => Raise e
  end.

Notation "x <- m ;; k" := (bind m (fun x => k))
  (at level 61, m at next level, right associativity).

Notation "' pat <- m ;; k" := (bind m (fun x => match x with pat => k end))
  (at level 61, pat pattern, m at next level, right associativity).

(** [for x in xs: acc = step acc x], stopping at the first failure. *)
Fixpoint foldM {A S : Type} (step : S -> A -> result S) (xs : list A) (s : S)
  : result S :=
  match xs with
  | [] => Ok s
  | x :: xs' => s' <- step s x ;; foldM step xs' s'
  end.

(** [[f(x) for x in xs]] where [f] can fail. *)
Fixpoint mapM {A B : Type} (f : A -> result B) (xs : list A) : result (list B) :=
  match xs with
  | [] => Ok []
  | x :: xs' => y <- f x ;; ys <- mapM f xs' ;; Ok (y :: ys)
  end.

(* ================================================================== *)
(** * Hexadecimal text: f-strings, [to_bytes(..).hex().upper()], [int(s, 16)] *)
(* ================================================================== *)

Module Hex.

(** The upper-case digit of a value below 16. *)
Definition digit (d : Z) : ascii :=
  match d with
  | 0 => "0" | 1 => "1" | 2 => "2" | 3 => "3" | 4 => "4" | 5 => "5"
  | 6 => "6" | 7 => "7" | 8 => "8" | 9 => "9" | 10 => "A" | 11 => "B"
  | 12 => "C" | 13 => "D" | 14 => "E" | _ => "F"
  end%char.

(** The value of a hexadecimal digit, either case, as [int(s, 16)] reads it:
    the characters 0-9 (codes 48 to 57), A-F (65 to 70) and a-f (97 to 102). *)
Definition digit_val (c : ascii) : option Z :=
  let code := Z.of_nat (nat_of_ascii c) in
  if (48 <=? code) && (code <=? 57) then Some (code - 48)
  else if (65 <=? code) && (code <=? 70) then Some (code - 55)
  else if (97 <=? code) && (code <=? 102) then Some (code - 87)
  else None.

(** The digits of [n >= 0], most significant first, in front of [acc].
    [fuel] bounds the number of divisions; [Z.log2 n] is enough. *)
Fixpoint digits (fuel : nat) (n : Z) (acc : string) : string :=
  match fuel with
  | O => String (digit n) acc
  | S fuel' =>
      if n <? 16 then String (digit n) acc
      else digits fuel' (n / 16) (String (digit (n mod 16)) acc)
  end.

(** [format(n, "X")] for [n >= 0]. *)
Definition upper (n : Z) : string := digits (Z.to_nat (Z.log2 n)) n EmptyString.

Fixpoint zeros (k : nat) : string :=
  match k with
  | O => EmptyString
  | S k' => String "0" (zeros k')
  end.

(** [s.rjust(w, "0")]. *)
Definition zfill (w : nat) (s : string) : string :=
  zeros (w - String.length s) ++ s.

(** [f"{n:0wX}"]: upper-case hexadecimal, zero-padded to at least [w]
    characters, the sign (if any) in front of the padding. *)
Definition fmt (w : nat) (n : Z) : string :=
  if n <? 0 then String "-" (zfill (w - 1) (upper (- n)))
  else zfill w (upper n).

(** The two characters [bytes([b]).hex().upper()] renders a byte with. *)
Definition byte (b : Z) : string :=
  String (digit (b / 16)) (String (digit (b mod 16)) EmptyString).

(** The bytes of [v] in [n] bytes, most significant first. *)
Fixpoint be_bytes (n : nat) (v : Z) : list Z :=
  match n with
  | O => []
  | S n' => be_bytes n' (v / 256) ++ [v mod 256]
  end.

Fixpoint of_bytes (bs : list Z) : string :=
  match bs with
  | [] => EmptyString
  | b :: bs' => byte b ++ of_bytes bs'
  end.

Fixpoint parse (s : string) (acc : Z) : option Z :=
  match s with
  | EmptyString => Some acc
  | String c s' =>
      match digit_val c with
      | Some d => parse s' (16 * acc + d)
      | None => None
      end
  end.

(** The digits of a literal: at least one, all hexadecimal. *)
Definition parse_digits (s : string) : option Z :=
  match s with
  | EmptyString => None
  | _ => parse s 0
  end.

(** The literal after an optional sign: an optional [0x] or [0X] prefix. *)
Definition parse_unsigned (s : string) : option Z :=
  match s with
  | String "0" (String "x" r) => parse_digits r
  | String "0" (String "X" r) => parse_digits r
  | _ => parse_digits s
  end.

End Hex.

Inductive byte_order : Type := big | little.

(** [int(s, 16)]: an optional sign, an optional [0x]/[0X] prefix, then
    hexadecimal digits of either case; anything else is a [ValueError].
    (The literals of the A2L tokens and of the stripped CSV cells carry no
    blanks and no digit-group underscores; such spellings are outside this
    model and are read as malformed.) *)
Definition int16 (s : string) : result Z :=
  let r :=
    match s with
    | String "-" r => option_map Z.opp (Hex.parse_unsigned r)
    | String "+" r => Hex.parse_unsigned r
    | _ => Hex.parse_unsigned s
    end in
  match r with
  | Some v => Ok v
  | None => Raise ValueError
  end.

(** [v.to_bytes(n, order).hex().upper()]; [OverflowError] when [v] is
    negative or does not fit [n] bytes. *)
Definition to_bytes_hex (n : nat) (order : byte_order) (v : Z) : result string :=
  if (v <? 0) || (256 ^ Z.of_nat n <=? v) then Raise OverflowError
  else
    let bs := Hex.be_bytes n v in
    Ok (Hex.of_bytes (match order with big => bs | little => rev bs end)).

(** [ctr_hex(counter)]: [counter.to_bytes(1, 'big').hex().upper()]. *)
Definition ctr_hex (counter : Z) : result string := to_bytes_hex 1 big counter.

(* ================================================================== *)
(** * Data model *)
(* ================================================================== *)

(** The keys of a signal [dict] that the core reads.  [Length] is the byte
    length [load_a2l_signals] takes from [data_type_map]; [EventConfigured]
    is the event cell of the user's signal file, kept as text. *)
Record Signal : Type := {
  Name : string;
  EventConfigured : string;
  Length : Z;
  ECU_ADDRESS : string;
  Signage : string;
  LowerLimit : string;
  UpperLimit : string;
  Scale : string;
  Offset : string;
  Unit : string
}.

(** A signal after [group_signals]: the same [dict] with the three keys
    [DAQ_LIST_NUMBER], [ODT_NUMBER] and [ODT_ENTRY_NUMBER] assigned. *)
Record GroupedSignal : Type := {
  signal : Signal;
  DAQ_LIST_NUMBER : string;
  ODT_NUMBER : string;
  ODT_ENTRY_NUMBER : string
}.

(** An element of [a2l_params["DAQ_LISTS"]] (CCP, from the QP_BLOB sections). *)
Module DaqList.
Record entry : Type := {
  Id : string;
  Length : string;
  FirstPID : string
}.
End DaqList.

(** An element of [a2l_params["EVENTS"]]. *)
Record Event : Type := {
  EventName : string;
  EventChannelNumber : Z;
  EventPriority : string
}.

Inductive Protocol : Type := ccp | xcp.

(** [a2l_params].  ["DAQ_LISTS"] is the one key whose presence the source
    tests ([group_signals]), so it is optional here. *)
Record A2LParams : Type := {
  MAX_CTO : string;
  MAX_DTO : string;
  BYTE_ORDER : byte_order;
  CAN_ID_MASTER : string;
  CAN_ID_MASTER_EXTENDED : bool;
  CAN_ID_SLAVE : string;
  CAN_ID_SLAVE_EXTENDED : bool;
  CAN_ID_DTO : string;
  ECU_STATION_ADDRESS : string;
  BYTES_ONLY : bool;
  BAUDRATE : Z;
  CAN_FD_DATA_TRANSFER_BAUDRATE : option Z;
  EVENTS : list Event;
  DAQ_LISTS : option (list DaqList.entry)
}.

(** An element of [daq_frames]: a label and the payload as hexadecimal text. *)
Record Frame : Type := {
  FrameName : string;
  DATA : string
}.

(* ================================================================== *)
(** * Grouping engine: [group_signals] *)
(* ================================================================== *)

(** [daq_lists[event_channel].append(signal)] on a [defaultdict(list)]: the
    dictionary keeps its keys in insertion order. *)
Fixpoint bucket_append (daq_lists : list (string * list Signal))
    (event_channel : string) (s : Signal) : list (string * list Signal) :=
  match daq_lists with
  | [] => [(event_channel, [s])]
  | (k, v) :: rest =>
      if (k =? event_channel)%string then (k, (v ++ [s])%list) :: rest
      else (k, v) :: bucket_append rest event_channel s
  end.

(** The first loop of [group_signals]. *)
Definition group_by_event (signals : list Signal) : list (string * list Signal) :=
  fold_left (fun daq_lists s => bucket_append daq_lists (EventConfigured s) s)
            signals [].

(** The inner loop of [group_signals] over the signals of one event channel;
    the result lists the signals in the order they are appended to
    [signals_grouped]. *)
Fixpoint assign_odts (max_payload : Z) (daq_counter : nat)
    (event_signals : list Signal)
    (odt_counter : nat) (current_odt_size : Z) (odt_entries : list GroupedSignal)
  : list GroupedSignal :=
  match event_signals with
  | [] => []
  | s :: rest =>
      let signal_length := Length s in
      let '(odt_counter, current_odt_size, odt_entries) :=
        if current_odt_size + signal_length >? max_payload
        then (S odt_counter, 0, [])
        else (odt_counter, current_odt_size, odt_entries) in
      let odt_entry_number := List.length odt_entries in
      let g := {| signal := s;
                  DAQ_LIST_NUMBER := "0x" ++ Hex.fmt 4 (Z.of_nat daq_counter);
                  ODT_NUMBER := "0x" ++ Hex.fmt 2 (Z.of_nat odt_counter);
                  ODT_ENTRY_NUMBER := "0x" ++ Hex.fmt 2 (Z.of_nat odt_entry_number) |} in
      g :: assign_odts max_payload daq_counter rest
             odt_counter (current_odt_size + signal_length)
             (odt_entries ++ [g])%list
  end.

(** The outer loop: one DAQ list per event channel, numbered in order. *)
Fixpoint assign_daq_lists (max_payload : Z)
    (daq_lists : list (string * list Signal)) (daq_counter : nat)
  : list GroupedSignal :=
  match daq_lists with
  | [] => []
  | (event_channel, event_signals) :: rest =>
      (assign_odts max_payload daq_counter event_signals 0%nat 0 []
       ++ assign_daq_lists max_payload rest (S daq_counter))%list
  end.

(** [odt_set.add(odt_id)]: a set of strings, as the list of its members. *)
Definition set_add (x : string) (l : list string) : list string :=
  if existsb (String.eqb x) l then l else (l ++ [x])%list.

(** [daq_odt_counts[daq_id].add(odt_id)], creating the set on first use. *)
Fixpoint odt_count_add (daq_odt_counts : list (string * list string))
    (daq_id odt_id : string) : list (string * list string) :=
  match daq_odt_counts with
  | [] => [(daq_id, [odt_id])]
  | (k, v) :: rest =>
      if (k =? daq_id)%string then (k, set_add odt_id v) :: rest
      else (k, v) :: odt_count_add rest daq_id odt_id
  end.

Definition count_odts (signals_grouped : list GroupedSignal)
  : list (string * list string) :=
  fold_left (fun m g => odt_count_add m (DAQ_LIST_NUMBER g) (ODT_NUMBER g))
            signals_grouped [].

(** [next((dl for dl in a2l_params['DAQ_LISTS'] if dl['Id'] == daq_id), None)]:
    the identifiers are compared as text. *)
Definition find_daq_list_by_text (daq_lists : list DaqList.entry) (daq_id : string)
  : option DaqList.entry :=
  find (fun dl => (DaqList.Id dl =? daq_id)%string) daq_lists.

(** The body of the loop "Check against DAQ_LISTS limits". *)
Definition check_capacity (daq_lists : list DaqList.entry)
    (item : string * list string) : result unit :=
  let '(daq_id, odt_set) := item in
  let odt_count := Z.of_nat (List.length odt_set) in
  match find_daq_list_by_text daq_lists daq_id with
  | Some daq_list_entry =>
      max_odts <- int16 (DaqList.Length daq_list_entry) ;;
      if odt_count >? max_odts
      then Raise (CapacityExceeded daq_id odt_count max_odts)
      else Ok tt
  | None => Ok tt
  end.

Definition max_payload_of (a2l_params : A2LParams) : result Z :=
  max_dto <- int16 (MAX_DTO a2l_params) ;;
  Ok (Z.min max_dto 64 - 1).

Definition group_signals (signals : list Signal) (a2l_params : A2LParams)
    (protocol : Protocol) : result (list GroupedSignal) :=
  match signals with
  | [] => Raise NoMatchedSignals
  | _ =>
      max_payload <- max_payload_of a2l_params ;;
      let daq_lists := group_by_event signals in
      let signals_grouped := assign_daq_lists max_payload daq_lists 0%nat in
      match protocol, DAQ_LISTS a2l_params with
      | ccp, Some declared =>
          _ <- foldM (fun _ item => check_capacity declared item)
                     (count_odts signals_grouped) tt ;;
          Ok signals_grouped
      | _, _ => Ok signals_grouped
      end
  end.

(* ================================================================== *)
(** * [sorted(set(...))] over identifier strings *)
(* ================================================================== *)

(** Insertion into an ascending list without duplicates; [String.compare]
    is the character-by-character order Python compares [str] with. *)
Fixpoint insert_sorted (x : string) (l : list string) : list string :=
  match l with
  | [] => [x]
  | y :: rest =>
      match String.compare x y with
      | Lt => x :: l
      | Eq => l
      | Gt => y :: insert_sorted x rest
      end
  end.

(** [sorted(set(l))]: the distinct members of [l], ascending. *)
Definition sorted_set (l : list string) : list string :=
  fold_right insert_sorted [] l.

(** [[s for s in signals_grouped if s['DAQ_LIST_NUMBER'] == daq_list]]. *)
Definition daq_signals_of (signals_grouped : list GroupedSignal) (daq_list : string)
  : list GroupedSignal :=
  filter (fun s => (DAQ_LIST_NUMBER s =? daq_list)%string) signals_grouped.

(** [[s for s in signals_grouped if s['DAQ_LIST_NUMBER'] == daq_list
      and s['ODT_NUMBER'] == odt]]. *)
Definition odt_signals_of (signals_grouped : list GroupedSignal)
    (daq_list odt : string) : list GroupedSignal :=
  filter (fun s => (DAQ_LIST_NUMBER s =? daq_list)%string
                   && (ODT_NUMBER s =? odt)%string) signals_grouped.

(** [sorted(set(signal['DAQ_LIST_NUMBER'] for signal in signals_grouped))]. *)
Definition daq_lists_of (signals_grouped : list GroupedSignal) : list string :=
  sorted_set (map DAQ_LIST_NUMBER signals_grouped).

(** [sorted(set(s['ODT_NUMBER'] for s in signals_grouped
                if s['DAQ_LIST_NUMBER'] == daq_list))]. *)
Definition odts_of (signals_grouped : list GroupedSignal) (daq_list : string)
  : list string :=
  sorted_set (map ODT_NUMBER (daq_signals_of signals_grouped daq_list)).

(* ================================================================== *)
(** * Decode layout generator: [create_dbc] *)
(* ================================================================== *)

(** What one [SG_] line of the DTO message carries about its signal: the
    multiplexor value [m<pid_counter>], the start bit, the bit length, the
    byte-order flag and the sign character.  (The signal's name as shortened
    for the DBC, its scale, offset, limits and unit are copied from the
    signal and play no part in the layout; they are read off [row_signal].) *)
Record DecodeRow : Type := {
  row_signal : GroupedSignal;
  multiplexor_value : Z;
  start_bit : Z;
  bit_length : Z;
  byte_order_flag : ascii;
  sign : ascii
}.

(** The loop [for signal in odt_signals] of [create_dbc], from the bit
    cursor [bit_start]. *)
Fixpoint dbc_odt_rows (flag : ascii) (pid_counter : Z)
    (odt_signals : list GroupedSignal) (bit_start : Z) : list DecodeRow :=
  match odt_signals with
  | [] => []
  | s :: rest =>
      let bit_length := Length (signal s) * 8 in
      let sign := if (Signage (signal s) =? "unsigned")%string
                  then "+"%char else "-"%char in
      let dbc_start_bit :=
        if (flag =? "0")%char then bit_start + 7 else bit_start in
      {| row_signal := s;
         multiplexor_value := pid_counter;
         start_bit := dbc_start_bit;
         bit_length := bit_length;
         byte_order_flag := flag;
         sign := sign |}
      :: dbc_odt_rows flag pid_counter rest (bit_start + bit_length)
  end.

(** The loop [for odt in odts]: the rows of the ODTs of one DAQ list and
    the value of [pid_counter] after them. *)
Fixpoint dbc_odts (flag : ascii) (signals_grouped : list GroupedSignal)
    (daq_list : string) (odts : list string) (pid_counter : Z)
  : list DecodeRow * Z :=
  match odts with
  | [] => ([], pid_counter)
  | odt :: rest =>
      let odt_signals := odt_signals_of signals_grouped daq_list odt in
      let rows := dbc_odt_rows flag pid_counter odt_signals 8 in
      let '(rows', pid_counter') :=
        dbc_odts flag signals_grouped daq_list rest (pid_counter + 1) in
      ((rows ++ rows')%list, pid_counter')
  end.

(** [next((dl for dl in a2l_params['DAQ_LISTS']
           if int(dl['Id'],16) == int(daq_list,16)), None)]: the identifiers
    are compared as numbers; the generator stops at the first match. *)
Fixpoint find_daq_list_by_number (daq_lists : list DaqList.entry)
    (daq_list : string) : result (option DaqList.entry) :=
  match daq_lists with
  | [] => Ok None
  | dl :: rest =>
      a <- int16 (DaqList.Id dl) ;;
      b <- int16 daq_list ;;
      if a =? b then Ok (Some dl) else find_daq_list_by_number rest daq_list
  end.

(** The value of [pid_counter] with which the ODTs of [daq_list] start. *)
Definition first_pid (a2l_params : A2LParams) (protocol : Protocol)
    (daq_list : string) (pid_counter : Z) : result Z :=
  match protocol with
  | ccp =>
      match DAQ_LISTS a2l_params with
      | None => Raise KeyError
      | Some declared =>
          daq_list_entry <- find_daq_list_by_number declared daq_list ;;
          match daq_list_entry with
          | Some e => int16 (DaqList.FirstPID e)
          | None => Ok pid_counter
          end
      end
  | xcp => Ok pid_counter
  end.

(** The loop [for daq_list in sorted(set(..))] of [create_dbc]. *)
Fixpoint dbc_daq_lists (flag : ascii) (signals_grouped : list GroupedSignal)
    (a2l_params : A2LParams) (protocol : Protocol)
    (daq_lists : list string) (pid_counter : Z) : result (list DecodeRow) :=
  match daq_lists with
  | [] => Ok []
  | daq_list :: rest =>
      pid_counter <- first_pid a2l_params protocol daq_list pid_counter ;;
      let odts := odts_of signals_grouped daq_list in
      let '(rows, pid_counter) :=
        dbc_odts flag signals_grouped daq_list odts pid_counter in
      rows' <- dbc_daq_lists flag signals_grouped a2l_params protocol
                 rest pid_counter ;;
      Ok (rows ++ rows')%list
  end.

(** The DTO message of the DBC: its identifier, its length and its signal
    rows. *)
Record Dbc : Type := {
  dbc_can_id : Z;
  dbc_dlc : Z;
  dbc_rows : list DecodeRow
}.

Definition create_dbc (signals_grouped : list GroupedSignal)
    (a2l_params : A2LParams) (protocol : Protocol) : result Dbc :=
  let flag := match BYTE_ORDER a2l_params with
              | little => "1"%char
              | big => "0"%char
              end in
  can_id_slave <- int16 (CAN_ID_SLAVE a2l_params) ;;
  let can_id_slave :=
    if CAN_ID_SLAVE_EXTENDED a2l_params
    then Z.lor can_id_slave 0x80000000 else can_id_slave in
  max_cto <- int16 (MAX_CTO a2l_params) ;;
  dlc <- (if max_cto >? 8 then Ok 64
          else max_dto <- int16 (MAX_DTO a2l_params) ;;
               Ok (if max_dto >? 8 then 64 else 8)) ;;
  rows <- dbc_daq_lists flag signals_grouped a2l_params protocol
            (daq_lists_of signals_grouped) 0 ;;
  Ok {| dbc_can_id := can_id_slave; dbc_dlc := dlc; dbc_rows := rows |}.

(* ================================================================== *)
(** * Text helpers of the encoders *)
(* ================================================================== *)

(** [c.upper()] on the ASCII letters. *)
Definition upper_char (c : ascii) : ascii :=
  let n := nat_of_ascii c in
  if (97 <=? n)%nat && (n <=? 122)%nat then ascii_of_nat (n - 32) else c.

(** [s.upper()]. *)
Fixpoint str_upper (s : string) : string :=
  match s with
  | EmptyString => EmptyString
  | String c r => String (upper_char c) (str_upper r)
  end.

(** [s.replace('0X', '')]: the occurrences are removed from left to right. *)
Fixpoint remove_0X (s : string) : string :=
  match s with
  | String "0" (String "X" r) => remove_0X r
  | String c r => String c (remove_0X r)
  | EmptyString => EmptyString
  end.

(** [s.replace('0x', '')]. *)
Fixpoint remove_0x (s : string) : string :=
  match s with
  | String "0" (String "x" r) => remove_0x r
  | String c r => String c (remove_0x r)
  | EmptyString => EmptyString
  end.

(** [s.ljust(w, '0')[:w]]. *)
Definition ljust_cut (w : nat) (s : string) : string :=
  substring 0 w (s ++ Hex.zeros (w - String.length s)).

(** [''.join(l)]. *)
Definition join (l : list string) : string := String.concat EmptyString l.

(** [int(s, 16).to_bytes(n, order).hex().upper()]. *)
Definition hex_field (n : nat) (order : byte_order) (s : string) : result string :=
  v <- int16 s ;; to_bytes_hex n order v.

(** [next(s for s in signals_grouped if s['DAQ_LIST_NUMBER'] == daq_list)];
    [None] stands for the exhausted generator. *)
Definition first_signal_of (signals_grouped : list GroupedSignal)
    (daq_list : string) : option GroupedSignal :=
  find (fun s => (DAQ_LIST_NUMBER s =? daq_list)%string) signals_grouped.

(* ================================================================== *)
(** * Command encoder, XCP: [create_daq_frames_xcp] *)
(* ================================================================== *)

Module Xcp.

Definition max_payload_size : nat := 64 - 1.
Definition address_extension : string := "00".
Definition prescaler : string := "01".
Definition start_stop_mode : string := "02".
Definition bit_offset : string := "FF".
Definition dummy_byte : string := "00".

(** The entry descriptor of a signal in a WRITE_DAQ_MULTIPLE frame. *)
Definition signal_entry (order : byte_order) (s : GroupedSignal) : result string :=
  let length := Length (signal s) in
  ecu_address <- hex_field 4 order (ECU_ADDRESS (signal s)) ;;
  Ok (bit_offset ++ Hex.fmt 2 length ++ ecu_address
        ++ address_extension ++ dummy_byte).

(** The WRITE_DAQ_MULTIPLE frame of the descriptors collected in
    [frame_data]. *)
Definition write_daq_multi_frame (frame_data : list string) : Frame :=
  {| FrameName := "WRITE_DAQ_MULTI";
     DATA := ljust_cut 128
               ("C7" ++ Hex.fmt 2 (Z.of_nat (List.length frame_data))
                     ++ join frame_data) |}.

(** The branch [if max_cto == 64] for one ODT, from the descriptors already
    collected in [frame_data]. *)
Fixpoint write_daq_multiple (order : byte_order)
    (odt_signals : list GroupedSignal) (frame_data : list string)
  : result (list Frame) :=
  match odt_signals with
  | [] =>
      Ok (match frame_data with
          | [] => []
          | _ => [write_daq_multi_frame frame_data]
          end)
  | s :: rest =>
      entry <- signal_entry order s ;;
      if (max_payload_size <? String.length (join frame_data ++ entry) / 2)%nat
      then
        frames <- write_daq_multiple order rest [entry] ;;
        Ok (write_daq_multi_frame frame_data :: frames)
      else write_daq_multiple order rest (frame_data ++ [entry])%list
  end.

(** The branch [else]: one WRITE_DAQ frame per entry, [idx] counting from
    the position of the first signal of [odt_signals] in its ODT. *)
Fixpoint write_daq_each (order : byte_order)
    (odt_signals : list GroupedSignal) (idx : nat) : result (list Frame) :=
  match odt_signals with
  | [] => Ok []
  | s :: rest =>
      let length := Length (signal s) in
      ecu_address <- hex_field 4 order (ECU_ADDRESS (signal s)) ;;
      frames <- write_daq_each order rest (S idx) ;;
      Ok ({| FrameName := "WRITE_DAQ_0x" ++ Hex.fmt 2 (Z.of_nat idx);
             DATA := "E1FF" ++ Hex.fmt 2 length ++ address_extension
                            ++ ecu_address |} :: frames)
  end.

(** One iteration of [for odt in odts] in the SET_DAQ_PTR section. *)
Definition odt_frames (order : byte_order) (max_cto : Z)
    (daq_signals : list GroupedSignal) (daq_list odt : string)
  : result (list Frame) :=
  let odt_signals :=
    filter (fun s => (ODT_NUMBER s =? odt)%string) daq_signals in
  daq_number <- hex_field 2 order daq_list ;;
  odt_number <- hex_field 1 big odt ;;
  let set_daq_ptr :=
    {| FrameName := "SET_DAQ_PTR";
       DATA := "E200" ++ daq_number ++ odt_number ++ "00" |} in
  writes <- (if max_cto =? 64
             then write_daq_multiple order odt_signals []
             else write_daq_each order odt_signals 0) ;;
  Ok (set_daq_ptr :: writes).

(** [mapM] whose results are lists, concatenated: a loop that appends the
    frames of each iteration to [daq_frames]. *)
Fixpoint concatM {A B : Type} (f : A -> result (list B)) (xs : list A)
  : result (list B) :=
  match xs with
  | [] => Ok []
  | x :: xs' => ys <- f x ;; zs <- concatM f xs' ;; Ok (ys ++ zs)%list
  end.

Definition al_odt (order : byte_order) (signals_grouped : list GroupedSignal)
    (daq_list : string) : result Frame :=
  let odts := odts_of signals_grouped daq_list in
  daq_number <- hex_field 2 order daq_list ;;
  Ok {| FrameName := "AL_ODT_" ++ daq_list;
        DATA := "D400" ++ daq_number ++ Hex.fmt 2 (Z.of_nat (List.length odts)) |}.

Definition al_odt_entry (signals_grouped : list GroupedSignal)
    (daq_list daq_number odt : string) : result Frame :=
  let entries := odt_signals_of signals_grouped daq_list odt in
  odt_number <- hex_field 1 big odt ;;
  Ok {| FrameName := "AL_ODT_ENT_" ++ odt;
        DATA := "D300" ++ daq_number ++ odt_number
                       ++ Hex.fmt 2 (Z.of_nat (List.length entries)) |}.

Definition al_odt_entries (order : byte_order)
    (signals_grouped : list GroupedSignal) (daq_list : string)
  : result (list Frame) :=
  let odts := odts_of signals_grouped daq_list in
  daq_number <- hex_field 2 order daq_list ;;
  mapM (al_odt_entry signals_grouped daq_list daq_number) odts.

Definition set_daq_ptr_and_writes (order : byte_order) (max_cto : Z)
    (signals_grouped : list GroupedSignal) (daq_list : string)
  : result (list Frame) :=
  let daq_signals := daq_signals_of signals_grouped daq_list in
  let odts := sorted_set (map ODT_NUMBER daq_signals) in
  concatM (odt_frames order max_cto daq_signals daq_list) odts.

(** The priority lookup in [a2l_params["EVENTS"]], default ["00"]. *)
Fixpoint event_priority_of (events : list Event) (event_channel : Z) : string :=
  match events with
  | [] => "00"
  | event :: rest =>
      if EventChannelNumber event =? event_channel
      then remove_0X (str_upper (EventPriority event))
      else event_priority_of rest event_channel
  end.

Definition set_daq_list_mode (order : byte_order) (events : list Event)
    (signals_grouped : list GroupedSignal) (daq_list : string)
  : result Frame :=
  match first_signal_of signals_grouped daq_list with
  | None => Raise StopIteration
  | Some s =>
      event_channel <- int16 (EventConfigured (signal s)) ;;
      let event_priority := event_priority_of events event_channel in
      daq_number <- hex_field 2 order daq_list ;;
      event_channel_hex <- to_bytes_hex 2 order event_channel ;;
      Ok {| FrameName := "SET_DAQ_LIST_MOD";
            DATA := "E000" ++ daq_number ++ event_channel_hex
                           ++ prescaler ++ event_priority |}
  end.

Definition start_stop_daq_list (order : byte_order) (daq_list : string)
  : result Frame :=
  daq_number <- hex_field 2 order daq_list ;;
  Ok {| FrameName := "START_STOP_DAQ";
        DATA := "DE" ++ start_stop_mode ++ daq_number |}.

Definition create_daq_frames_xcp (signals_grouped : list GroupedSignal)
    (a2l_params : A2LParams) : result (list Frame) :=
  let order := BYTE_ORDER a2l_params in
  max_cto <- int16 (MAX_CTO a2l_params) ;;
  let max_cto := Z.min max_cto 64 in
  let init := [ {| FrameName := "CONNECT"; DATA := "FF00" |};
                {| FrameName := "GET_STATUS"; DATA := "FD" |};
                {| FrameName := "FREE_DAQ"; DATA := "D6" |} ] in
  let daq_lists := daq_lists_of signals_grouped in
  daq_count <- to_bytes_hex 2 order (Z.of_nat (List.length daq_lists)) ;;
  let al_daq := {| FrameName := "AL_DAQ"; DATA := "D500" ++ daq_count |} in
  al_odts <- mapM (al_odt order signals_grouped) daq_lists ;;
  al_entries <- concatM (al_odt_entries order signals_grouped) daq_lists ;;
  writes <- concatM (set_daq_ptr_and_writes order max_cto signals_grouped)
                    daq_lists ;;
  modes <- mapM (set_daq_list_mode order (EVENTS a2l_params) signals_grouped)
                daq_lists ;;
  starts <- mapM (start_stop_daq_list order) daq_lists ;;
  Ok (init ++ [al_daq] ++ al_odts ++ al_entries ++ writes ++ modes ++ starts
        ++ [ {| FrameName := "START_STOP_SYNCH"; DATA := "DD01" |} ])%list.

End Xcp.

(* ================================================================== *)
(** * Command encoder, CCP: [create_daq_frames_ccp] *)
(* ================================================================== *)

Module Ccp.

Definition address_extension : string := "00".
Definition start_stop_mode : string := "02".

(** A piece of the encoder: from the value of [ctr] it is entered with, the
    frames it appends to [daq_frames] and the value of [ctr] it leaves. *)
Definition emitter : Type := Z -> result (list Frame * Z).

(** A [for] loop whose body appends frames and advances [ctr]. *)
Fixpoint for_each {A : Type} (body : A -> emitter) (xs : list A) : emitter :=
  fun ctr =>
    match xs with
    | [] => Ok ([], ctr)
    | x :: xs' =>
        '(frames, ctr) <- body x ctr ;;
        '(frames', ctr) <- for_each body xs' ctr ;;
        Ok ((frames ++ frames')%list, ctr)
    end.

(** [bytes_only == False]: SET_DAQ_PTR and WRITE_DAQ for one signal. *)
Definition entry_frames (order : byte_order) (daq_number odt_number : string)
    (s : GroupedSignal) : emitter :=
  fun ctr =>
    let length := Length (signal s) in
    odt_entry <- hex_field 1 big (ODT_ENTRY_NUMBER s) ;;
    c <- ctr_hex ctr ;;
    let ptr :=
      {| FrameName := "PTR_D" ++ daq_number ++ "_O" ++ odt_number
                              ++ "_E" ++ odt_entry;
         DATA := "15" ++ c ++ daq_number ++ odt_number ++ odt_entry
                      ++ "AAAAAA" |} in
    let ctr := ctr + 1 in
    ecu_address <- hex_field 4 order (ECU_ADDRESS (signal s)) ;;
    c <- ctr_hex ctr ;;
    let write :=
      {| FrameName := "WRITE_DAQ";
         DATA := "16" ++ c ++ Hex.fmt 2 length ++ address_extension
                      ++ ecu_address |} in
    let ctr := ctr + 1 in
    Ok ([ptr; write], ctr).

(** [bytes_only == True]: the loop [for signal_chunk_idx in range(length)]
    of one signal, from the entry number [odt_entry_manual]; the result
    carries the entry number the loop leaves. *)
Fixpoint chunk_frames (order : byte_order) (daq_number odt_number : string)
    (s : GroupedSignal) (chunks : list nat) (odt_entry_manual : Z) (ctr : Z)
  : result (list Frame * Z * Z) :=
  match chunks with
  | [] => Ok ([], odt_entry_manual, ctr)
  | signal_chunk_idx :: rest =>
      odt_entry <- to_bytes_hex 1 big odt_entry_manual ;;
      c <- ctr_hex ctr ;;
      let ptr :=
        {| FrameName := "PTR_D" ++ daq_number ++ "_O" ++ odt_number
                                ++ "_E" ++ odt_entry;
           DATA := "15" ++ c ++ daq_number ++ odt_number ++ odt_entry
                        ++ "AAAAAA" |} in
      let ctr := ctr + 1 in
      let odt_entry_manual := odt_entry_manual + 1 in
      ecu_address_base <- int16 (ECU_ADDRESS (signal s)) ;;
      ecu_address_with_offset <-
        to_bytes_hex 4 order (ecu_address_base + Z.of_nat signal_chunk_idx) ;;
      c <- ctr_hex ctr ;;
      let write :=
        {| FrameName := "WRITE_DAQ";
           DATA := "16" ++ c ++ "01" ++ address_extension
                        ++ ecu_address_with_offset |} in
      let ctr := ctr + 1 in
      '(frames, odt_entry_manual, ctr) <-
        chunk_frames order daq_number odt_number s rest odt_entry_manual ctr ;;
      Ok (ptr :: write :: frames, odt_entry_manual, ctr)
  end.

(** [bytes_only == True]: the loop over the signals of one ODT. *)
Fixpoint bytes_only_frames (order : byte_order) (daq_number odt_number : string)
    (odt_signals : list GroupedSignal) (odt_entry_manual : Z) (ctr : Z)
  : result (list Frame * Z) :=
  match odt_signals with
  | [] => Ok ([], ctr)
  | s :: rest =>
      let length := Length (signal s) in
      '(frames, odt_entry_manual, ctr) <-
        chunk_frames order daq_number odt_number s
          (seq 0 (Z.to_nat length)) odt_entry_manual ctr ;;
      '(frames', ctr) <-
        bytes_only_frames order daq_number odt_number rest odt_entry_manual ctr ;;
      Ok ((frames ++ frames')%list, ctr)
  end.

(** One iteration of [for odt in odts] in the first loop. *)
Definition odt_frames (order : byte_order) (bytes_only : bool)
    (daq_signals : list GroupedSignal) (daq_number odt : string) : emitter :=
  fun ctr =>
    let odt_signals :=
      filter (fun s => (ODT_NUMBER s =? odt)%string) daq_signals in
    odt_number <- hex_field 1 big odt ;;
    if bytes_only
    then bytes_only_frames order daq_number odt_number odt_signals 0 ctr
    else for_each (entry_frames order daq_number odt_number) odt_signals ctr.

(** One iteration of the loop "GET_DAQ_SIZE + SET_DAQ_PTR + WRITE_DAQ". *)
Definition daq_list_frames (order : byte_order) (bytes_only : bool)
    (can_id_dto : Z) (signals_grouped : list GroupedSignal) (daq_list : string)
  : emitter :=
  fun ctr =>
    let daq_signals := daq_signals_of signals_grouped daq_list in
    let odts := sorted_set (map ODT_NUMBER daq_signals) in
    daq_number <- hex_field 1 big daq_list ;;
    c <- ctr_hex ctr ;;
    can_id <- to_bytes_hex 4 big can_id_dto ;;
    let get_daq_size :=
      {| FrameName := "GET_DAQ_SIZE_" ++ daq_number;
         DATA := "14" ++ c ++ daq_number ++ "AA" ++ can_id |} in
    let ctr := ctr + 1 in
    '(frames, ctr) <-
      for_each (odt_frames order bytes_only daq_signals daq_number) odts ctr ;;
    Ok (get_daq_size :: frames, ctr).

(** The loop [for odt in odts] of the START_STOP section: it only leaves
    the numbers of the list and of its last ODT in [daq_number] and
    [odt_number].  [numbers] is what the two variables hold on entry. *)
Fixpoint last_odt_numbers (daq_list : string) (odts : list string)
    (numbers : option (string * string)) : result (option (string * string)) :=
  match odts with
  | [] => Ok numbers
  | odt :: rest =>
      daq_number <- hex_field 1 big daq_list ;;
      odt_number <- hex_field 1 big odt ;;
      last_odt_numbers daq_list rest (Some (daq_number, odt_number))
  end.

(** One iteration of the loop "START_STOP_DAQ_LIST".  [odts] holds the ODT
    of every signal of [daq_list] and [daq_list] is the list of some signal,
    so the two variables are always assigned by the inner loop; the model
    reads the case in which they are not as an unassigned local. *)
Definition start_stop_frame (order : byte_order)
    (signals_grouped : list GroupedSignal) (daq_list : string) : emitter :=
  fun ctr =>
    let daq_signals := daq_signals_of signals_grouped daq_list in
    let odts := sorted_set (map ODT_NUMBER daq_signals) in
    match first_signal_of signals_grouped daq_list with
    | None => Raise StopIteration
    | Some s =>
        event_channel <- int16 (EventConfigured (signal s)) ;;
        event_channel_hex <- to_bytes_hex 1 order event_channel ;;
        let event_scaler_hex := "0001" in
        numbers <- last_odt_numbers daq_list odts None ;;
        match numbers with
        | None => Raise UnboundLocalError
        | Some (daq_number, odt_number) =>
            c <- ctr_hex ctr ;;
            Ok ([ {| FrameName := "START_STOP_D" ++ daq_number;
                     DATA := "06" ++ c ++ start_stop_mode ++ daq_number
                                  ++ odt_number ++ event_channel_hex
                                  ++ event_scaler_hex |} ],
                ctr + 1)
        end
    end.

Definition connect_frame (ecu_station_address : string) : emitter :=
  fun ctr =>
    c <- ctr_hex ctr ;;
    station <- hex_field 2 little ecu_station_address ;;
    Ok ([ {| FrameName := "CONNECT";
             DATA := "01" ++ c ++ station ++ "AAAAAAAA" |} ], ctr + 1).

Definition exchange_id_frame : emitter :=
  fun ctr =>
    c <- ctr_hex ctr ;;
    Ok ([ {| FrameName := "EXCHANGE_ID";
             DATA := "17" ++ c ++ "AAAAAAAAAAAA" |} ], ctr + 1).

Definition start_stop_all_frame : emitter :=
  fun ctr =>
    c <- ctr_hex ctr ;;
    Ok ([ {| FrameName := "START_STOP_ALL";
             DATA := "08" ++ c ++ "01AAAAAAAAAA" |} ], ctr + 1).

(** The whole command sequence with the counter it ends on. *)
Definition encode (signals_grouped : list GroupedSignal)
    (a2l_params : A2LParams) : result (list Frame * Z) :=
  let order := BYTE_ORDER a2l_params in
  max_cto <- int16 (MAX_CTO a2l_params) ;;
  can_id_dto <- int16 (CAN_ID_DTO a2l_params) ;;
  match DAQ_LISTS a2l_params with
  | None => Raise KeyError
  | Some _ =>
      let bytes_only := BYTES_ONLY a2l_params in
      let can_id_dto :=
        if CAN_ID_SLAVE_EXTENDED a2l_params
        then Z.lor can_id_dto 0x80000000 else can_id_dto in
      let ctr := 1 in
      '(connect, ctr) <- connect_frame (ECU_STATION_ADDRESS a2l_params) ctr ;;
      '(exchange, ctr) <- exchange_id_frame ctr ;;
      let daq_lists := daq_lists_of signals_grouped in
      '(lists, ctr) <-
        for_each (daq_list_frames order bytes_only can_id_dto signals_grouped)
                 daq_lists ctr ;;
      '(starts, ctr) <-
        for_each (start_stop_frame order signals_grouped) daq_lists ctr ;;
      '(start_all, ctr) <- start_stop_all_frame ctr ;;
      Ok ((connect ++ exchange ++ lists ++ starts ++ start_all)%list, ctr)
  end.

Definition create_daq_frames_ccp (signals_grouped : list GroupedSignal)
    (a2l_params : A2LParams) : result (list Frame) :=
  '(daq_frames, _) <- encode signals_grouped a2l_params ;;
  Ok daq_frames.

End Ccp.

(* ================================================================== *)
(** * Transmit schedule builder: [create_transmit_list] *)
(* ================================================================== *)

Record Settings : Type := {
  start_delay : Z;
  frame_spacing : Z;
  max_frames : Z;
  max_data_bytes : Z
}.

(** An element of [transmit_list]. *)
Record TransmitEntry : Type := {
  tx_name : string;
  tx_state : Z;
  tx_id_format : Z;
  tx_frame_format : Z;
  tx_brs : Z;
  tx_log : Z;
  tx_period : Z;
  tx_delay : Z;
  tx_id : string;
  tx_data : string
}.

(** The loop [for frame in daq_frames], from the current [delay] and
    [total_data_bytes]; the result carries the final [total_data_bytes]. *)
Fixpoint transmit_entries (id_format frame_format_default brs : Z)
    (can_id_master : string) (frame_spacing : Z)
    (daq_frames : list Frame) (delay total_data_bytes : Z)
  : list TransmitEntry * Z :=
  match daq_frames with
  | [] => ([], total_data_bytes)
  | frame :: rest =>
      let frame_format :=
        if (16 <? String.length (DATA frame))%nat then 1
        else frame_format_default in
      let frame_data_length := Z.of_nat (String.length (DATA frame) / 2) in
      let total_data_bytes := total_data_bytes + frame_data_length in
      let entry :=
        {| tx_name := FrameName frame; tx_state := 1;
           tx_id_format := id_format; tx_frame_format := frame_format;
           tx_brs := brs; tx_log := 1; tx_period := 0; tx_delay := delay;
           tx_id := can_id_master; tx_data := DATA frame |} in
      let '(entries, total_data_bytes) :=
        transmit_entries id_format frame_format_default brs can_id_master
          frame_spacing rest (delay + frame_spacing) total_data_bytes in
      (entry :: entries, total_data_bytes)
  end.

(** What a call of [create_transmit_list] does: the value it returns or the
    failure it ends with, and the contents it has written to the output
    file, in order (the JSON text is the serialization of the list). *)
Record TransmitOutcome : Type := {
  tx_result : result (list TransmitEntry);
  tx_written : list (list TransmitEntry)
}.

Definition create_transmit_list (daq_frames : list Frame)
    (a2l_params : A2LParams) (settings : Settings) : TransmitOutcome :=
  let fd :=
    match CAN_FD_DATA_TRANSFER_BAUDRATE a2l_params with
    | Some rate => negb (rate =? BAUDRATE a2l_params)
    | None => false
    end in
  let frame_format_default := if fd then 1 else 0 in
  let brs := if fd then 1 else 0 in
  let can_id_master := str_upper (remove_0x (CAN_ID_MASTER a2l_params)) in
  let id_format := if CAN_ID_MASTER_EXTENDED a2l_params then 1 else 0 in
  let '(transmit_list, total_data_bytes) :=
    transmit_entries id_format frame_format_default brs can_id_master
      (frame_spacing settings) daq_frames (start_delay settings) 0 in
  let frames := Z.of_nat (List.length transmit_list) in
  if frames >? max_frames settings then
    {| tx_result := Raise (TooManyFrames frames (max_frames settings));
       tx_written := [] |}
  else if total_data_bytes >? max_data_bytes settings then
    {| tx_result :=
         Raise (TooManyBytes total_data_bytes (max_data_bytes settings));
       tx_written := [] |}
  else
    {| tx_result := Ok transmit_list; tx_written := [transmit_list] |}.

(* ================================================================== *)
(** * Dictionaries with string keys *)
(* ================================================================== *)

(** A [dict] whose order of insertion matters is the list of its items;
    the keys of the list are pairwise different. *)

(** [k in d]. *)
Definition dict_mem {V : Type} (d : list (string * V)) (k : string) : bool :=
  existsb (fun kv => (fst kv =? k)%string) d.

(** [d.get(k)]. *)
Fixpoint dict_get {V : Type} (d : list (string * V)) (k : string) : option V :=
  match d with
  | [] => None
  | (k', v) :: rest => if (k' =? k)%string then Some v else dict_get rest k
  end.

(** [d[k] = v]: a present key keeps its place and takes the new value, a
    new key goes to the end. *)
Fixpoint dict_set {V : Type} (d : list (string * V)) (k : string) (v : V)
  : list (string * V) :=
  match d with
  | [] => [(k, v)]
  | (k', v') :: rest =>
      if (k' =? k)%string then (k, v) :: rest
      else (k', v') :: dict_set rest k v
  end.

(* ================================================================== *)
(** * Signal names of the DBC: the shortening in [create_dbc] *)
(* ================================================================== *)

(** [str(n)] for [n >= 0]: the decimal digits, no leading zero. *)
Definition decimal (n : nat) : string :=
  DecimalString.NilEmpty.string_of_uint (Nat.to_uint n).

(** [f"{n:02d}"] for [n >= 0]. *)
Definition fmt_02d (n : nat) : string := Hex.zfill 2 (decimal n).

(** [s.replace('.', '_')]. *)
Fixpoint replace_dots (s : string) : string :=
  match s with
  | EmptyString => EmptyString
  | String c r =>
      String (if (c =? ".")%char then "_"%char else c) (replace_dots r)
  end.

(** [f"{base_name}_{suffix:02d}"]. *)
Definition suffixed (base_name : string) (suffix : nat) : string :=
  base_name ++ "_" ++ fmt_02d suffix.

(** The loop [while new_signal_name in signal_name_map: suffix += 1; ..],
    entered with [suffix]; [fuel] bounds the number of increments, and
    [None] says that it did not suffice. *)
Fixpoint free_suffix (fuel : nat) (base_name : string)
    (signal_name_map : list (string * string)) (suffix : nat) : option string :=
  let new_signal_name := suffixed base_name suffix in
  if dict_mem signal_name_map new_signal_name then
    match fuel with
    | O => None
    | S fuel' => free_suffix fuel' base_name signal_name_map (S suffix)
    end
  else Some new_signal_name.

(** The branch [if settings.get("shorten_signals", False)] for one signal:
    its name in the DBC and the name map after it.  The loop is given as
    many increments as the map has items. *)
Definition shortened_name (signal_name_map : list (string * string))
    (dbc_signal_name : string) : option (string * list (string * string)) :=
  let base_name := substring 0 29 dbc_signal_name in
  let new_signal_name :=
    if dict_mem signal_name_map base_name
    then free_suffix (List.length signal_name_map) base_name signal_name_map 0
    else Some base_name in
  match new_signal_name with
  | Some name => Some (name, dict_set signal_name_map name dbc_signal_name)
  | None => None
  end.

(** The name of one signal, with the setting on or off. *)
Definition dbc_signal_name_of (shorten_signals : bool)
    (signal_name_map : list (string * string)) (s : GroupedSignal)
  : option (string * list (string * string)) :=
  let dbc_signal_name := replace_dots (Name (signal s)) in
  if shorten_signals then shortened_name signal_name_map dbc_signal_name
  else Some (dbc_signal_name, signal_name_map).

(** The names of the [SG_] lines, the signals in the order of their rows:
    [signal_name_map] is shared by all DAQ lists and ODTs. *)
Fixpoint dbc_signal_names (shorten_signals : bool)
    (signal_name_map : list (string * string)) (signals : list GroupedSignal)
  : option (list string) :=
  match signals with
  | [] => Some []
  | s :: rest =>
      match dbc_signal_name_of shorten_signals signal_name_map s with
      | None => None
      | Some (name, signal_name_map') =>
          match dbc_signal_names shorten_signals signal_name_map' rest with
          | None => None
          | Some names => Some (name :: names)
          end
      end
  end.

(** The names [create_dbc] writes for the rows of a decode table. *)
Definition create_dbc_names (shorten_signals : bool) (dbc : Dbc)
  : option (list string) :=
  dbc_signal_names shorten_signals [] (map row_signal (dbc_rows dbc)).

(* ================================================================== *)
(** * Text helpers of the loaders *)
(* ================================================================== *)

(** [c.isspace()] for a character below 256: the codes 9 to 13, 28 to 32,
    133 and 160. *)
Definition is_space (c : ascii) : bool :=
  let n := nat_of_ascii c in
  ((9 <=? n) && (n <=? 13) || (28 <=? n) && (n <=? 32)
   || (n =? 133) || (n =? 160))%nat.

(** [s.lstrip()], [s.rstrip()] and [s.strip()]. *)
Fixpoint lstrip (s : string) : string :=
  match s with
  | EmptyString => EmptyString
  | String c r => if is_space c then lstrip r else s
  end.

Fixpoint rstrip (s : string) : string :=
  match s with
  | EmptyString => EmptyString
  | String c r =>
      match rstrip r with
      | EmptyString => if is_space c then EmptyString else String c EmptyString
      | r' => String c r'
      end
  end.

Definition strip (s : string) : string := rstrip (lstrip s).

(** [c in s] for a character [c]. *)
Fixpoint has_char (c : ascii) (s : string) : bool :=
  match s with
  | EmptyString => false
  | String c' r => (c' =? c)%char || has_char c r
  end.

Definition is_digit (c : ascii) : bool :=
  let n := nat_of_ascii c in ((48 <=? n) && (n <=? 57))%nat.

Definition newline : ascii := ascii_of_nat 10.

(** The pattern [(.+)_MX_([0-9]+)$] of [filter_a2l_signals], read with
    [match]: the text starts with a non-empty run of characters other than
    the newline, followed by [_MX_] and digits that reach the end of the
    text (or the newline that ends it). *)

(** [[0-9]+$] at the start of [s]; [seen] says that a digit has been read. *)
Fixpoint digits_to_end (s : string) (seen : bool) : bool :=
  match s with
  | EmptyString => seen
  | String c r =>
      if is_digit c then digits_to_end r true
      else seen && (c =? newline)%char
           && match r with EmptyString => true | _ => false end
  end.

(** [_MX_([0-9]+)$] at the start of [s]. *)
Definition matrix_tail (s : string) : bool :=
  match s with
  | String "_" (String "M" (String "X" (String "_" r))) => digits_to_end r false
  | _ => false
  end.

(** [matrix_pattern.match(name)]: [group(1)] of the match, [None] without
    one.  The longer prefixes are tried first, as the greedy [.+] does. *)
Fixpoint matrix_base (name : string) : option string :=
  match name with
  | EmptyString => None
  | String c r =>
      if (c =? newline)%char then None
      else match matrix_base r with
           | Some base_name => Some (String c base_name)
           | None => if matrix_tail r then Some (String c EmptyString) else None
           end
  end.

(** [c.lower()] on the ASCII letters, and [s.lower()]. *)
Definition lower_char (c : ascii) : ascii :=
  let n := nat_of_ascii c in
  if ((65 <=? n) && (n <=? 90))%nat then ascii_of_nat (n + 32) else c.

Fixpoint str_lower (s : string) : string :=
  match s with
  | EmptyString => EmptyString
  | String c r => String (lower_char c) (str_lower r)
  end.

(** [hex(n)]: the sign, [0x] and the digits in lower case. *)
Definition hex (n : Z) : string :=
  if n <? 0 then "-0x" ++ str_lower (Hex.upper (- n))
  else "0x" ++ str_lower (Hex.upper n).

(* ================================================================== *)
(** * CAN identifiers of the A2L: [extract_can_id] *)
(* ================================================================== *)

(** [extract_can_id(can_id_str)]: bit 31 marks an extended identifier. *)
Definition extract_can_id (can_id_str : string) : result (string * bool) :=
  can_id <- int16 can_id_str ;;
  if negb (Z.land can_id 0x80000000 =? 0)
  then Ok (hex (Z.land can_id 0x1FFFFFFF), true)
  else Ok (hex (Z.land can_id 0x7FF), false).

(* ================================================================== *)
(** * Signals of the A2L: [data_type_map], [expand_matrix_signal] *)
(* ================================================================== *)

(** [self.data_type_map]: the signage and the byte length of a data type. *)
Definition data_type_map : list (string * (string * Z)) :=
  [ ("uchar", ("unsigned", 1)); ("schar", ("signed", 1));
    ("ubyte", ("unsigned", 1)); ("sbyte", ("signed", 1));
    ("uword", ("unsigned", 2)); ("sword", ("signed", 2));
    ("slong", ("signed", 4));
    ("a_uint64", ("unsigned", 8)); ("a_int64", ("signed", 8));
    ("char", ("signed", 1));
    ("uint", ("unsigned", 2)); ("int", ("signed", 2));
    ("ulong", ("unsigned", 4)); ("long", ("signed", 4));
    ("float", ("float", 4)); ("float32_ieee", ("float", 4));
    ("float64_ieee", ("double", 8)) ].

(** [self.data_type_map.get(dt, ("unknown", 0))] with
    [dt = signal.get("Datatype", ..).strip().lower()], as
    [load_a2l_signals] computes the signage and the length of a signal. *)
Definition data_type_of (datatype : string) : string * Z :=
  match dict_get data_type_map (str_lower (strip datatype)) with
  | Some entry => entry
  | None => ("unknown", 0)
  end.

(** An element of [a2l_signals_all], the list [load_a2l_signals] returns:
    the keys of a signal before the filter adds [EventConfigured]. *)
Module A2L.
Record signal : Type := {
  Name : string;
  Length : Z;
  ECU_ADDRESS : string;
  Signage : string;
  LowerLimit : string;
  UpperLimit : string;
  Scale : string;
  Offset : string;
  Unit : string;
  MatrixDim : Z
}.
End A2L.

(** [signal.copy()] with the keys [Name] and [ECU_ADDRESS] set. *)
Definition renamed (s : A2L.signal) (name ecu_address : string) : A2L.signal :=
  {| A2L.Name := name; A2L.Length := A2L.Length s;
     A2L.ECU_ADDRESS := ecu_address; A2L.Signage := A2L.Signage s;
     A2L.LowerLimit := A2L.LowerLimit s; A2L.UpperLimit := A2L.UpperLimit s;
     A2L.Scale := A2L.Scale s; A2L.Offset := A2L.Offset s;
     A2L.Unit := A2L.Unit s; A2L.MatrixDim := A2L.MatrixDim s |}.

(** Element [i] of an expanded matrix signal. *)
Definition matrix_element (s : A2L.signal) (ecu_addr : Z) (i : nat) : A2L.signal :=
  let new_addr := ecu_addr + Z.of_nat i * A2L.Length s in
  renamed s (A2L.Name s ++ "_MX_" ++ decimal i) ("0x" ++ Hex.fmt 0 new_addr).

(** [expand_matrix_signal(signal)]: a signal without matrix dimension,
    without address or with an address that is no hexadecimal literal is
    returned alone. *)
Definition expand_matrix_signal (s : A2L.signal) : list A2L.signal :=
  let matrix_dim := A2L.MatrixDim s in
  if matrix_dim <=? 0 then [s]
  else
    match A2L.ECU_ADDRESS s with
    | EmptyString => [s]
    | ecu_addr_str =>
        match int16 (remove_0x ecu_addr_str) with
        | Raise _ => [s]
        | Ok ecu_addr =>
            map (matrix_element s ecu_addr) (seq 0 (Z.to_nat matrix_dim))
        end
    end.

(* ================================================================== *)
(** * The user's signal file: [load_signal_file] *)
(* ================================================================== *)

(** The loop over the rows the CSV reader yields. *)
Definition load_signal_row (csv_mapping : list (string * string))
    (row : list string) : list (string * string) :=
  match row with
  | c0 :: c1 :: _ =>
      if (String.length (strip c0) =? 0)%nat || has_char "[" c0
      then csv_mapping
      else dict_set csv_mapping (strip c0) (strip c1)
  | _ => csv_mapping
  end.

Definition load_signal_file (rows : list (list string)) : list (string * string) :=
  fold_left load_signal_row rows [].

(* ================================================================== *)
(** * The signal filter: [filter_a2l_signals] *)
(* ================================================================== *)

(** The signal the filter builds: the name, the event and the other keys
    of the A2L signal. *)
Definition new_signal_of (signal_name event_config : string) (s : A2L.signal)
  : Signal :=
  {| Name := signal_name; EventConfigured := event_config;
     Length := A2L.Length s; ECU_ADDRESS := A2L.ECU_ADDRESS s;
     Signage := A2L.Signage s; LowerLimit := A2L.LowerLimit s;
     UpperLimit := A2L.UpperLimit s; Scale := A2L.Scale s;
     Offset := A2L.Offset s; Unit := A2L.Unit s |}.

(** [signals_filtered_dict] and [self.matched_signals]. *)
Record FilterState : Type := {
  signals_filtered_dict : list (string * Signal);
  matched_signals : list string
}.

(** One iteration of the second pass.  (The first pass fills
    [matrix_signals], which nothing reads.) *)
Definition filter_step (max_dto : Z) (user_signals : list (string * string))
    (st : FilterState) (s : A2L.signal) : FilterState :=
  let signal_name := strip (A2L.Name s) in
  let direct_match := dict_mem user_signals signal_name in
  let matrix_match := matrix_base signal_name in
  let base_name_match :=
    match matrix_match with
    | Some base_name => dict_mem user_signals base_name
    | None => false
    end in
  if direct_match || base_name_match then
    let event_config :=
      if direct_match then dict_get user_signals signal_name
      else match matrix_match with
           | Some base_name => dict_get user_signals base_name
           | None => None
           end in
    match event_config with
    | Some event =>
        if dict_mem (signals_filtered_dict st) signal_name then st
        else
          let new_signal := new_signal_of signal_name event s in
          if Length new_signal =? 0 then st
          else if (Length new_signal =? 8) && (max_dto =? 8) then st
          else
            let matched := set_add signal_name (matched_signals st) in
            {| signals_filtered_dict :=
                 dict_set (signals_filtered_dict st) signal_name new_signal;
               matched_signals :=
                 match matrix_match with
                 | Some base_name =>
                     if base_name_match then set_add base_name matched
                     else matched
                 | None => matched
                 end |}
    | None => st
    end
  else st.

(** [filter_a2l_signals]: the list it returns, together with the set
    [self.matched_signals] it leaves behind. *)
Definition filter_a2l_signals (a2l_signals_all : list A2L.signal)
    (user_signals : list (string * string)) (a2l_params : A2LParams)
  : result (list Signal * list string) :=
  max_dto <- int16 (MAX_DTO a2l_params) ;;
  let max_dto := Z.min max_dto 64 in
  let st := fold_left (filter_step max_dto user_signals) a2l_signals_all
              {| signals_filtered_dict := []; matched_signals := [] |} in
  Ok (map snd (signals_filtered_dict st), matched_signals st).

(* ================================================================== *)
(** * The status report: [create_status_csv] *)
(* ================================================================== *)

(** The rows under the header: the unmatched signals of the user's file
    first, then the matched ones. *)
Definition create_status_csv (user_signals : list (string * string))
    (matched_signals : list string) : list (list string) :=
  let is_matched (kv : string * string) :=
    existsb (String.eqb (fst kv)) matched_signals in
  (map (fun kv => [fst kv; snd kv; "Not Matched"])
       (filter (fun kv => negb (is_matched kv)) user_signals)
   ++ map (fun kv => [fst kv; snd kv; "Matched"])
          (filter is_matched user_signals))%list.

(* ================================================================== *)
(** * Vocabulary of the statements *)
(* ================================================================== *)

(** ** Identifiers *)

(** The identifier strings [group_signals] writes for a DAQ list, an ODT and
    an ODT entry: [f"0x{n:04X}"] and [f"0x{n:02X}"]. *)
Definition daq_id (n : nat) : string := "0x" ++ Hex.fmt 4 (Z.of_nat n).
Definition odt_id (n : nat) : string := "0x" ++ Hex.fmt 2 (Z.of_nat n).
Definition entry_id (n : nat) : string := "0x" ++ Hex.fmt 2 (Z.of_nat n).

(** A signal with its assignment to entry [e] of ODT [o] of DAQ list [d]. *)
Definition grouped (s : Signal) (d o e : nat) : GroupedSignal :=
  {| signal := s;
     DAQ_LIST_NUMBER := daq_id d;
     ODT_NUMBER := odt_id o;
     ODT_ENTRY_NUMBER := entry_id e |}.

(** [a < b] as Python compares two [str]. *)
Definition str_lt (a b : string) : Prop := String.compare a b = Lt.

(** ** Grouping *)

(** The distinct members of [keys] in the order of their first occurrence. *)
Definition first_seen (keys : list string) : list string :=
  fold_left (fun seen k =>
               if existsb (String.eqb k) seen then seen else (seen ++ [k])%list)
            keys [].

(** The input signals that request the event channel [ch], in input order. *)
Definition on_channel (ch : string) (signals : list Signal) : list Signal :=
  filter (fun s => (EventConfigured s =? ch)%string) signals.

(** The signals of [l] that carry the ODT number [o]. *)
Definition with_odt (o : string) (l : list GroupedSignal) : list GroupedSignal :=
  filter (fun g => (ODT_NUMBER g =? o)%string) l.

(** The summed [length_bytes] of a list of grouped signals. *)
Definition sum_length (l : list GroupedSignal) : Z :=
  fold_right (fun g acc => Length (signal g) + acc) 0 l.

(** The set of ODT identifiers that the capacity check of [group_signals]
    has counted for DAQ list [d] in [daq_odt_counts]. *)
Fixpoint counted_odts (m : list (string * list string)) (d : string)
  : option (list string) :=
  match m with
  | [] => None
  | (k, v) :: rest => if (k =? d)%string then Some v else counted_odts rest d
  end.

(** The packing bound at one input: when [group_signals] returns the
    grouping [out] of the non-empty list [signals], the member signals of
    every ODT of [out] have summed length at most [max_dto - 1], where
    [max_dto = min(MAX_DTO, 64)]. *)
Definition packing_bound (signals : list Signal) (p : A2LParams) (pr : Protocol)
  : Prop :=
  signals <> [] ->
  forall out max_dto,
    group_signals signals p pr = Ok out ->
    int16 (MAX_DTO p) = Ok max_dto ->
    forall g, In g out ->
      sum_length (odt_signals_of out (DAQ_LIST_NUMBER g) (ODT_NUMBER g))
      <= Z.min max_dto 64 - 1.

(** ** Decode layout *)

(** The ODTs of a grouping as (DAQ list, ODT) identifier pairs, the way
    [create_dbc] and the encoders enumerate them: DAQ lists ascending, the
    ODTs of each list ascending. *)
Definition odt_keys (signals_grouped : list GroupedSignal)
  : list (string * string) :=
  flat_map (fun d => map (pair d) (odts_of signals_grouped d))
           (daq_lists_of signals_grouped).

(** The lexicographic order of (DAQ list, ODT) identifier pairs. *)
Definition odt_key_lt (a b : string * string) : Prop :=
  str_lt (fst a) (fst b) \/ (fst a = fst b /\ str_lt (snd a) (snd b)).

(** The ODT a decode row belongs to. *)
Definition row_key (r : DecodeRow) : string * string :=
  (DAQ_LIST_NUMBER (row_signal r), ODT_NUMBER (row_signal r)).

(** Whether the PID counter carries over into DAQ list [d]: always for XCP,
    and for CCP when [DAQ_LISTS] declares no entry for [d]. *)
Definition carries_over (p : A2LParams) (pr : Protocol) (d : string) : Prop :=
  match pr with
  | xcp => True
  | ccp => exists declared, DAQ_LISTS p = Some declared /\
                            find_daq_list_by_number declared d = Ok None
  end.

(** Whether DAQ list [d] has the declared first PID [pid0] (CCP): the first
    entry of [DAQ_LISTS] whose [Id] is the number of [d] carries it. *)
Definition declares_first_pid (p : A2LParams) (pr : Protocol) (d : string)
    (pid0 : Z) : Prop :=
  pr = ccp /\
  exists declared e,
    DAQ_LISTS p = Some declared /\
    find_daq_list_by_number declared d = Ok (Some e) /\
    int16 (DaqList.FirstPID e) = Ok pid0.

(** ** Payloads *)

(** Byte [i] of a payload given as hexadecimal text ([bytes.fromhex(data)[i]]). *)
Definition payload_byte (i : nat) (data : string) : option Z :=
  match substring (2 * i) 2 data with
  | String a (String b EmptyString) =>
      match Hex.digit_val a, Hex.digit_val b with
      | Some x, Some y => Some (16 * x + y)
      | _, _ => None
      end
  | _ => None
  end.

(** The cumulative payload byte count of a list of frames, as
    [create_transmit_list] counts it: [len(frame['DATA']) // 2] per frame. *)
Definition total_payload_bytes (frames : list Frame) : Z :=
  fold_right (fun f acc => Z.of_nat (String.length (DATA f) / 2) + acc) 0 frames.

(** ** Transmit schedule *)

(** The delays of a transmit list increase strictly: every entry is due
    earlier than every later one. *)
Definition delays_increase (transmit_list : list TransmitEntry) : Prop :=
  forall i j ei ej, (i < j)%nat ->
    nth_error transmit_list i = Some ei ->
    nth_error transmit_list j = Some ej ->
    tx_delay ei < tx_delay ej.

(** ** WRITE_DAQ_MULTIPLE *)

(** A descriptor: bit offset [FF], the length byte, the address in 4
    bytes, the address extension and the dummy byte: 8 bytes. *)
Definition is_descriptor (order : byte_order) (s : GroupedSignal) (e : string)
  : Prop :=
  exists address,
    hex_field 4 order (ECU_ADDRESS (signal s)) = Ok address /\
    String.length address = 8%nat /\
    e = ("FF" ++ Hex.byte (Length (signal s)) ++ address ++ "00" ++ "00")%string.

(** The WRITE_DAQ_MULTIPLE frame of a group [g] of descriptors: its label,
    its 64 bytes, the opcode, the count byte, and its text. *)
Definition is_write_daq_multiple (g : list string) (f : Frame) : Prop :=
  FrameName f = "WRITE_DAQ_MULTI" /\
  String.length (DATA f) = 128%nat /\
  payload_byte 0 (DATA f) = Some 0xC7 /\
  payload_byte 1 (DATA f) = Some (Z.of_nat (List.length g)) /\
  DATA f = ("C7" ++ Hex.byte (Z.of_nat (List.length g)) ++ join g
                 ++ Hex.zeros (124 - 16 * List.length g))%string.

(** The frames the WRITE_DAQ_MULTIPLE branch builds from descriptors that
    are already rendered: [cur] is [frame_data], [l] the descriptors of the
    signals still to come. *)
Fixpoint multi_frames_from (cur l : list string) : list Frame :=
  match l with
  | [] => match cur with
          | [] => []
          | _ => [Xcp.write_daq_multi_frame cur]
          end
  | e :: rest =>
      if (Xcp.max_payload_size <? String.length (join cur ++ e) / 2)%nat
      then Xcp.write_daq_multi_frame cur :: multi_frames_from [e] rest
      else multi_frames_from (cur ++ [e])%list rest
  end.

(** Groups of at most [n] consecutive members of [cur ++ l], the first
    group continuing [cur]; a group is closed when it holds [n] members
    and another one arrives. *)
Fixpoint groups_from {A : Type} (n : nat) (cur l : list A) : list (list A) :=
  match l with
  | [] => match cur with
          | [] => []
          | _ => [cur]
          end
  | e :: rest =>
      if (List.length cur =? n)%nat
      then cur :: groups_from n [e] rest
      else groups_from n (cur ++ [e])%list rest
  end.

(** ** The CCP command counter *)

(** The frames [fs], emitted from the counter value [c] on, carry the
    successive counter values [c], [c + 1], ... in their second payload
    byte, each of them a byte value. *)
Definition counted (c : Z) (fs : list Frame) : Prop :=
  forall i f, nth_error fs i = Some f ->
    0 <= c + Z.of_nat i < 256 /\
    payload_byte 1 (DATA f) = Some (c + Z.of_nat i).

(** A piece of the CCP encoder that numbers its frames and leaves the
    counter just after the last of them. *)
Definition numbers_frames (m : Ccp.emitter) : Prop :=
  forall ctr fs ctr',
    m ctr = Ok (fs, ctr') ->
    ctr' = ctr + Z.of_nat (List.length fs) /\ counted ctr fs.

(** Silent wrap-around at one input: the encoder returns and the counter
    byte of frame [i] continues modulo 256. *)
Definition counter_wraps (sg : list GroupedSignal) (p : A2LParams) : Prop :=
  exists frames,
    Ccp.create_daq_frames_ccp sg p = Ok frames /\
    forall i f, nth_error frames i = Some f ->
      payload_byte 1 (DATA f) = Some ((Z.of_nat i + 1) mod 256).

(* ================================================================== *)
(** * Sample inputs *)
(* ================================================================== *)

(** The settings of [canedge_daq.py]. *)
Definition script_settings : Settings :=
  {| start_delay := 1000; frame_spacing := 10;
     max_frames := 224; max_data_bytes := 4096 |}.

Module Sample.

Definition sig (name event : string) (length : Z) (address : string) : Signal :=
  {| Name := name; EventConfigured := event; Length := length;
     ECU_ADDRESS := address; Signage := "unsigned";
     LowerLimit := "0"; UpperLimit := "65535";
     Scale := "1"; Offset := "0"; Unit := EmptyString |}.

(** Parameters for classic CAN with one event (channel 3, priority 5). *)
Definition params (max_cto max_dto : string) (order : byte_order)
    (daq_lists : option (list DaqList.entry)) : A2LParams :=
  {| MAX_CTO := max_cto; MAX_DTO := max_dto; BYTE_ORDER := order;
     CAN_ID_MASTER := "0x7e0"; CAN_ID_MASTER_EXTENDED := false;
     CAN_ID_SLAVE := "0x7e8"; CAN_ID_SLAVE_EXTENDED := false;
     CAN_ID_DTO := "0x7e8"; ECU_STATION_ADDRESS := "0x0000";
     BYTES_ONLY := false; BAUDRATE := 500000;
     CAN_FD_DATA_TRANSFER_BAUDRATE := None;
     EVENTS := [ {| EventName := "10ms"; EventChannelNumber := 3;
                    EventPriority := "0x05" |} ];
     DAQ_LISTS := daq_lists |}.

(** Four signals on two event channels, the channels interleaved. *)
Definition speed : Signal := sig "Speed" "3" 2 "0x1000".
Definition torque : Signal := sig "Torque" "1" 4 "0x1004".
Definition rpm : Signal := sig "Rpm" "3" 4 "0x1008".
Definition temp : Signal := sig "Temp" "3" 2 "0x100C".

Definition signals : list Signal := [speed; torque; rpm; temp].

(** What [group_signals] returns for them with [MAX_DTO = 0x08]. *)
Definition signals_grouped : list GroupedSignal :=
  [ grouped speed 0 0 0; grouped rpm 0 0 1; grouped temp 0 1 0;
    grouped torque 1 0 0 ].

(** A 4-byte signal, for parameters whose [MAX_DTO] is 4. *)
Definition wide : Signal := sig "Wide" "3" 4 "0x2000".

(** CCP: three 4-byte signals on one event channel need three ODTs with
    [MAX_DTO = 0x08]; the A2L declares DAQ list 0, spelled [id], with room
    for two ODTs and the first PID 0x10. *)
Definition three_odts : list Signal :=
  [ sig "A" "3" 4 "0x1000"; sig "B" "3" 4 "0x1004"; sig "C" "3" 4 "0x1008" ].

Definition daq_list_0 (id : string) : DaqList.entry :=
  {| DaqList.Id := id; DaqList.Length := "0x02"; DaqList.FirstPID := "0x10" |}.

Definition ccp_params (id : string) : A2LParams :=
  params "0x08" "0x08" little (Some [daq_list_0 id]).

(** CCP: [n] 2-byte signals on one event channel. *)
Definition many (n : nat) : list Signal :=
  map (fun k => sig "S" "3" 2 ("0x" ++ Hex.fmt 4 (Z.of_nat (2 * k))))
      (seq 0 n).

(** XCP on CAN FD: nine 4-byte signals in one ODT. *)
Definition nine : list GroupedSignal :=
  map (fun k => grouped (sig "S" "3" 4 ("0x" ++ Hex.fmt 4 (Z.of_nat (4 * k))))
                        0 0 k)
      (seq 0 9).

(** Two command frames, and the settings of the script with the frame
    spacing set to 0. *)
Definition two_frames : list Frame :=
  [ {| FrameName := "CONNECT"; DATA := "FF00" |};
    {| FrameName := "GET_STATUS"; DATA := "FD" |} ].

Definition no_spacing : Settings :=
  {| start_delay := 1000; frame_spacing := 0;
     max_frames := 224; max_data_bytes := 4096 |}.

End Sample.

(* ================================================================== *)
(** * Vocabulary of the further properties *)
(* ================================================================== *)

(** ** Frame sizes and counts *)

(** A CCP command frame is a full classic CAN frame: 8 bytes of payload. *)
Definition full_frame (f : Frame) : Prop := String.length (DATA f) = 16%nat.

(** The number of ODT entries the CCP encoder writes for a signal: one, or
    one per byte when the ECU addresses bytes only ([range(length)]). *)
Definition entries_of (bytes_only : bool) (s : GroupedSignal) : nat :=
  if bytes_only then Z.to_nat (Length (signal s)) else 1%nat.

Definition entries_written (bytes_only : bool) (sg : list GroupedSignal) : nat :=
  list_sum (map (entries_of bytes_only) sg).

(** ** Decode layout *)

(** The rows of a decode table that belong to ODT [o] of DAQ list [d]. *)
Definition rows_of_odt (d o : string) (rows : list DecodeRow) : list DecodeRow :=
  filter (fun r => (DAQ_LIST_NUMBER (row_signal r) =? d)%string
                   && (ODT_NUMBER (row_signal r) =? o)%string) rows.

(** The offset the DBC start bit of a signal has from the least significant
    bit of its first byte: 7 for big endian (the start bit names the most
    significant bit), 0 for little endian. *)
Definition msb_offset (order : byte_order) : Z :=
  match order with big => 7 | little => 0 end.

(** ** The signal filter *)

(** The event the filter configures for a name: that of the name itself
    when the user's file lists it, else that of its matrix base name. *)
Definition event_for (user_signals : list (string * string)) (name : string)
  : option string :=
  match dict_get user_signals name with
  | Some event => Some event
  | None =>
      match matrix_base name with
      | Some base_name => dict_get user_signals base_name
      | None => None
      end
  end.

(** The lengths the validation checks of the filter let pass. *)
Definition keeps_length (max_dto length : Z) : bool :=
  negb (length =? 0) && negb ((length =? 8) && (max_dto =? 8)).

(** What holds of the filter's state after any number of iterations over
    signals of [universe]. *)
Definition filter_inv (max_dto : Z) (user_signals : list (string * string))
    (universe : list A2L.signal) (st : FilterState) : Prop :=
  NoDup (map fst (signals_filtered_dict st)) /\
  (forall k s, In (k, s) (signals_filtered_dict st) ->
     keeps_length max_dto (Length s) = true /\
     event_for user_signals k = Some (EventConfigured s) /\
     exists a, In a universe /\ strip (A2L.Name a) = k /\
               s = new_signal_of k (EventConfigured s) a) /\
  (forall u, In u (matched_signals st) <->
     exists k s, In (k, s) (signals_filtered_dict st) /\
                 (u = k \/ matrix_base k = Some u /\ dict_mem user_signals u = true)).

(** A signal the filter lets pass if no signal of its name came before. *)
Definition passes_filter (max_dto : Z) (user_signals : list (string * string))
    (a : A2L.signal) : Prop :=
  keeps_length max_dto (A2L.Length a) = true /\
  exists event, event_for user_signals (strip (A2L.Name a)) = Some event.

(** The lengths of [data_type_map], and 0 for an unknown data type. *)
Definition typed_length (a : A2L.signal) : Prop :=
  exists datatype, A2L.Length a = snd (data_type_of datatype).

(** ** The XCP command sequence *)

(** The labels of the XCP command sequence for classic CAN frames, read
    off a grouping: the four opening commands, an AL_ODT per DAQ list, an
    AL_ODT_ENT per ODT, per ODT a SET_DAQ_PTR followed by a WRITE_DAQ per
    signal, a SET_DAQ_LIST_MOD and a START_STOP_DAQ per DAQ list, and
    START_STOP_SYNCH. *)
Definition xcp_frame_names (sg : list GroupedSignal) : list string :=
  ([ "CONNECT"; "GET_STATUS"; "FREE_DAQ"; "AL_DAQ" ]
   ++ map (fun d => "AL_ODT_" ++ d)%string (daq_lists_of sg)
   ++ map (fun k => "AL_ODT_ENT_" ++ snd k)%string (odt_keys sg)
   ++ flat_map (fun k =>
        "SET_DAQ_PTR"
        :: map (fun i => "WRITE_DAQ_0x" ++ Hex.fmt 2 (Z.of_nat i))%string
               (seq 0 (List.length (odt_signals_of sg (fst k) (snd k)))))
        (odt_keys sg)
   ++ map (fun _ => "SET_DAQ_LIST_MOD") (daq_lists_of sg)
   ++ map (fun _ => "START_STOP_DAQ") (daq_lists_of sg)
   ++ [ "START_STOP_SYNCH" ])%list.

(** A frame that fits a classic CAN frame: at most 8 bytes of payload. *)
Definition classic_frame (f : Frame) : Prop :=
  (String.length (DATA f) <= 16)%nat.

(** ** Characters of a text *)

(** All characters of [s] satisfy [f]. *)
Fixpoint all_chars (f : ascii -> bool) (s : string) : bool :=
  match s with
  | EmptyString => true
  | String c r => f c && all_chars f r
  end.

(** The upper-case hexadecimal digits. *)
Definition is_upper_hex (c : ascii) : bool :=
  let n := nat_of_ascii c in
  ((48 <=? n) && (n <=? 57) || (65 <=? n) && (n <=? 70))%nat.

(** ** The rows of the user's signal file *)

(** The item a row of the signal file sets, if it sets one. *)
Definition row_item (row : list string) : option (string * string) :=
  match row with
  | c0 :: c1 :: _ =>
      if (String.length (strip c0) =? 0)%nat || has_char "[" c0 then None
      else Some (strip c0, strip c1)
  | _ => None
  end.

(** The items the rows of the signal file set, in the order of the rows. *)
Definition row_items (rows : list (list string)) : list (string * string) :=
  flat_map (fun row => match row_item row with
                       | Some kv => [kv]
                       | None => []
                       end) rows.

(** ** Sample inputs of the loaders *)

Module A2LSample.

Definition measurement (name : string) (length : Z) (address : string)
    (dim : Z) : A2L.signal :=
  {| A2L.Name := name; A2L.Length := length; A2L.ECU_ADDRESS := address;
     A2L.Signage := "unsigned"; A2L.LowerLimit := "0";
     A2L.UpperLimit := "65535"; A2L.Scale := "1"; A2L.Offset := "0";
     A2L.Unit := EmptyString; A2L.MatrixDim := dim |}.

(** A matrix of two bytes at 0x2000. *)
Definition arr : A2L.signal := measurement "Arr" 1 "0x2000" 2.

(** A 2-byte signal, a signal of unknown data type (length 0), an 8-byte
    signal, the elements of the matrix, and a signal the user does not
    list. *)
Definition a2l_signals_all : list A2L.signal :=
  ([ measurement "Speed" 2 "0x1000" 0; measurement "Ghost" 0 "0x1002" 0;
     measurement "Wide" 8 "0x1008" 0 ]
   ++ expand_matrix_signal arr
   ++ [ measurement "Other" 4 "0x3000" 0 ])%list.

(** The user's file lists the first three and the matrix by its base name. *)
Definition user_signals : list (string * string) :=
  [ ("Speed", "3"); ("Ghost", "3"); ("Wide", "3"); ("Arr", "1") ].

End A2LSample.

(** ** Identifiers as numbers *)

(** The reading of the order of the ODTs by the numbers of their
    identifiers: within a DAQ list, the ODT with the smaller number has the
    smaller multiplexor value. *)
Definition numbered_in_id_order (dbc : Dbc) : Prop :=
  forall r1 r2 d o1 o2,
    In r1 (dbc_rows dbc) -> In r2 (dbc_rows dbc) ->
    row_key r1 = (daq_id d, odt_id o1) ->
    row_key r2 = (daq_id d, odt_id o2) ->
    (o1 < o2)%nat ->
    multiplexor_value r1 < multiplexor_value r2.

(** [n] signals of 4 bytes on one event channel: with [MAX_DTO = 0x08]
    (7 bytes of payload) no two of them share an ODT. *)
Definition four_byte_signals (n : nat) : list Signal :=
  map (fun k => Sample.sig "S" "3" 4 ("0x" ++ Hex.fmt 4 (Z.of_nat (4 * k))))
      (seq 0 n).

(** ** Failures of the encoders *)

(** [int(s, 16)] accepts the text [s]. *)
Definition is_hex_text (s : string) : Prop := exists v, int16 s = Ok v.

(** The texts the CCP encoder converts with [int(.., 16)] are hexadecimal
    literals, and the parameters hold the key [DAQ_LISTS]. *)
Definition ccp_texts_parse (sg : list GroupedSignal) (p : A2LParams) : Prop :=
  is_hex_text (MAX_CTO p) /\ is_hex_text (CAN_ID_DTO p) /\
  is_hex_text (ECU_STATION_ADDRESS p) /\
  DAQ_LISTS p <> None /\
  Forall (fun g => is_hex_text (DAQ_LIST_NUMBER g) /\
                   is_hex_text (ODT_NUMBER g) /\
                   is_hex_text (ODT_ENTRY_NUMBER g) /\
                   is_hex_text (ECU_ADDRESS (signal g)) /\
                   is_hex_text (EventConfigured (signal g))) sg.

(** A computation whose only failure is [OverflowError]. *)
Definition overflow_only {A : Type} (m : result A) : Prop :=
  forall e, m = Raise e -> e = OverflowError.

(** The number of frames of the CCP command sequence of a grouping:
    CONNECT, EXCHANGE_ID and START_STOP_ALL, a GET_DAQ_SIZE and a
    START_STOP per DAQ list, a SET_DAQ_PTR and a WRITE_DAQ per ODT entry. *)
Definition ccp_frames_required (sg : list GroupedSignal) (p : A2LParams) : nat :=
  3 + 2 * List.length (daq_lists_of sg) + 2 * entries_written (BYTES_ONLY p) sg.

(* ================================================================== *)
(** * Proofs *)
(* ================================================================== *)

Local Open Scope list_scope.

(** One step through a sequence of binds that ends in [Ok]. *)
Ltac ok_step H :=
  match type of H with
  | bind ?m _ = Ok _ =>
      let E := fresh "E" in
      destruct m eqn:E; cbn [bind] in H; [| discriminate]
  | (match ?m with Ok _ => _ | Raise _ => _ end) = Ok _ =>
      let E := fresh "E" in
      destruct m eqn:E; [| discriminate]
  | (match ?x with Some _ => _ | None => Raise _ end) = Ok _ =>
      destruct x as [[? ?] |]; [| discriminate]
  | (let '(_, _) := ?x in _) = Ok _ => destruct x
  end.

(** ** Hexadecimal text *)

Lemma digit_val_digit (d : Z) : 0 <= d < 16 -> Hex.digit_val (Hex.digit d) = Some d.
Proof.
  intros H.
  assert (C : d = 0 \/ d = 1 \/ d = 2 \/ d = 3 \/ d = 4 \/ d = 5 \/ d = 6 \/ d = 7
              \/ d = 8 \/ d = 9 \/ d = 10 \/ d = 11 \/ d = 12 \/ d = 13 \/ d = 14
              \/ d = 15) by lia.
  repeat (destruct C as [-> | C]; [reflexivity |]). subst; reflexivity.
Qed.

Lemma parse_digits_fuel (fuel : nat) :
  forall n acc, 0 <= n -> Z.log2 n <= Z.of_nat fuel ->
    Hex.parse (Hex.digits fuel n acc) 0 = Hex.parse acc n.
Proof.
  induction fuel as [| fuel IH]; intros n acc Hn Hlog.
  - assert (n < 16).
    { destruct (Z.eq_dec n 0) as [-> | Hz]; [lia |].
      assert (Z.log2 n = 0) by (pose proof (Z.log2_nonneg n); lia).
      pose proof (Z.log2_spec n ltac:(lia)) as Hs. rewrite H in Hs. simpl in Hs. lia. }
    simpl. rewrite digit_val_digit by lia. reflexivity.
  - simpl. destruct (n <? 16) eqn:E.
    + apply Z.ltb_lt in E. simpl. rewrite digit_val_digit by lia. reflexivity.
    + apply Z.ltb_ge in E. rewrite IH.
      * cbn [Hex.parse]. rewrite digit_val_digit by (apply Z.mod_pos_bound; lia).
        f_equal. pose proof (Z.div_mod n 16 ltac:(lia)). lia.
      * apply Z.div_pos; lia.
      * assert (Z.log2 (n / 16) = Z.log2 n - 4).
        { change 16 with (2 ^ 4). rewrite <- Z.shiftr_div_pow2 by lia.
          rewrite Z.log2_shiftr by lia.
          assert (4 <= Z.log2 n) by (change 4 with (Z.log2 16); apply Z.log2_le_mono; lia).
          lia. }
        lia.
Qed.

Lemma parse_upper (n : Z) : 0 <= n -> Hex.parse (Hex.upper n) 0 = Some n.
Proof.
  intros Hn. unfold Hex.upper. rewrite parse_digits_fuel; [reflexivity | lia |].
  pose proof (Z.log2_nonneg n). lia.
Qed.

Lemma parse_zeros (k : nat) (s : string) :
  Hex.parse (Hex.zeros k ++ s)%string 0 = Hex.parse s 0.
Proof. induction k as [| k IH]; simpl; [reflexivity | exact IH]. Qed.

Lemma digits_nonempty fuel n acc : Hex.digits fuel n acc <> EmptyString.
Proof.
  revert n acc. induction fuel as [| fuel IH]; intros n acc; simpl.
  - discriminate.
  - destruct (n <? 16); [discriminate | apply IH].
Qed.

Lemma append_nonempty_r (a b : string) : b <> EmptyString -> (a ++ b)%string <> EmptyString.
Proof. destruct a; simpl; [auto | discriminate]. Qed.

Lemma parse_digits_fmt (w : nat) (n : Z) :
  0 <= n -> Hex.parse_digits (Hex.fmt w n) = Some n.
Proof.
  intros Hn. unfold Hex.fmt. replace (n <? 0) with false by (symmetry; apply Z.ltb_ge; lia).
  unfold Hex.zfill, Hex.parse_digits.
  destruct (Hex.zeros _ ++ Hex.upper n)%string eqn:E.
  - exfalso. revert E. apply append_nonempty_r. apply digits_nonempty.
  - rewrite <- E. rewrite parse_zeros. apply parse_upper; exact Hn.
Qed.

(** [int(f"0x{n:0wX}", 16) == n]. *)
Lemma int16_0x_fmt (w : nat) (n : Z) :
  0 <= n -> int16 ("0x" ++ Hex.fmt w n)%string = Ok n.
Proof.
  intros Hn. unfold int16. simpl. rewrite parse_digits_fmt by exact Hn. reflexivity.
Qed.

Lemma fmt_0x_inj (w : nat) (a b : nat) :
  ("0x" ++ Hex.fmt w (Z.of_nat a))%string = ("0x" ++ Hex.fmt w (Z.of_nat b))%string -> a = b.
Proof.
  intros E. apply (f_equal int16) in E.
  rewrite !int16_0x_fmt in E by lia. injection E; lia.
Qed.

Lemma daq_id_inj a b : daq_id a = daq_id b -> a = b.
Proof. apply fmt_0x_inj. Qed.

Lemma odt_id_inj a b : odt_id a = odt_id b -> a = b.
Proof. apply fmt_0x_inj. Qed.

Lemma existsb_eqb_In (k : string) (l : list string) :
  existsb (String.eqb k) l = true <-> In k l.
Proof.
  rewrite existsb_exists. split.
  - intros [x [Hin E]]. apply String.eqb_eq in E. subst; exact Hin.
  - intros Hin. exists k. split; [exact Hin | apply String.eqb_refl].
Qed.

Lemma existsb_eqb_notIn (k : string) (l : list string) :
  existsb (String.eqb k) l = false <-> ~ In k l.
Proof.
  rewrite <- existsb_eqb_In. destruct (existsb _ l); split; intros; congruence.
Qed.

(** ** First-seen order *)

Lemma first_seen_snoc (l : list string) (k : string) :
  first_seen (l ++ [k]) =
  if existsb (String.eqb k) (first_seen l) then first_seen l
  else first_seen l ++ [k].
Proof. unfold first_seen. rewrite fold_left_app. reflexivity. Qed.

Lemma first_seen_In (l : list string) (k : string) :
  In k (first_seen l) <-> In k l.
Proof.
  induction l as [| x l IH] using rev_ind.
  - simpl. tauto.
  - rewrite first_seen_snoc, in_app_iff. simpl.
    destruct (existsb (String.eqb x) (first_seen l)) eqn:E.
    + apply existsb_eqb_In in E. rewrite IH in *. intuition (subst; auto).
    + rewrite in_app_iff, IH. simpl. tauto.
Qed.

Lemma first_seen_NoDup (l : list string) : NoDup (first_seen l).
Proof.
  induction l as [| x l IH] using rev_ind.
  - constructor.
  - rewrite first_seen_snoc.
    destruct (existsb (String.eqb x) (first_seen l)) eqn:E; [exact IH |].
    apply existsb_eqb_notIn in E.
    apply NoDup_app; repeat split; auto.
    + repeat constructor. simpl; tauto.
    + intros a Ha [<- | []]. contradiction.
Qed.

(** ** The buckets of [group_by_event] *)

Lemma bucket_append_map (F : string -> list Signal) (k : string) (s : Signal) :
  forall ks, NoDup ks ->
    bucket_append (map (fun c => (c, F c)) ks) k s =
    if existsb (String.eqb k) ks
    then map (fun c => (c, if (c =? k)%string then F c ++ [s] else F c)) ks
    else map (fun c => (c, F c)) ks ++ [(k, [s])].
Proof.
  induction ks as [| c ks IH]; intros Hnd; [reflexivity |].
  inversion Hnd as [| ? ? Hc Hks]; subst. simpl.
  rewrite (String.eqb_sym k c).
  destruct (String.eqb_spec c k) as [-> | Hne]; simpl.
  - f_equal. apply map_ext_in. intros a Ha.
    destruct (String.eqb_spec a k) as [-> | _]; [contradiction | reflexivity].
  - rewrite IH by exact Hks.
    destruct (existsb (String.eqb k) ks); reflexivity.
Qed.

Lemma on_channel_snoc (ch : string) (l : list Signal) (s : Signal) :
  on_channel ch (l ++ [s]) =
  on_channel ch l ++ (if (EventConfigured s =? ch)%string then [s] else []).
Proof. unfold on_channel. rewrite filter_app. reflexivity. Qed.

Lemma on_channel_nil (ch : string) (l : list Signal) :
  ~ In ch (map EventConfigured l) -> on_channel ch l = [].
Proof.
  induction l as [| s l IH]; simpl; intros H; [reflexivity |].
  destruct (String.eqb_spec (EventConfigured s) ch) as [E | _].
  - exfalso. apply H. left; exact E.
  - apply IH. intros Hin. apply H. right; exact Hin.
Qed.

(** The dictionary [daq_lists] after the first loop: one bucket per event
    channel, in first-seen order, holding the signals of that channel in
    input order. *)
Lemma group_by_event_spec (signals : list Signal) :
  group_by_event signals =
  map (fun ch => (ch, on_channel ch signals))
      (first_seen (map EventConfigured signals)).
Proof.
  induction signals as [| s l IH] using rev_ind; [reflexivity |].
  unfold group_by_event in *. rewrite fold_left_app. simpl. rewrite IH.
  rewrite bucket_append_map by apply first_seen_NoDup.
  rewrite map_app. simpl. rewrite first_seen_snoc.
  destruct (existsb _ _) eqn:E.
  - apply map_ext. intros c. rewrite on_channel_snoc.
    rewrite (String.eqb_sym c). destruct (_ =? c)%string; [reflexivity |].
    rewrite app_nil_r. reflexivity.
  - rewrite map_app. simpl. f_equal.
    + apply map_ext_in. intros c Hc. rewrite on_channel_snoc.
      destruct (String.eqb_spec (EventConfigured s) c) as [<- | _].
      * apply existsb_eqb_notIn in E. contradiction.
      * rewrite app_nil_r. reflexivity.
    + rewrite on_channel_snoc, String.eqb_refl.
      rewrite on_channel_nil; [reflexivity |].
      apply existsb_eqb_notIn in E. rewrite first_seen_In in E. exact E.
Qed.

(** ** The inner loop of [group_signals] *)

Lemma assign_odts_cons mp d s rest oc sz es :
  assign_odts mp d (s :: rest) oc sz es =
  if sz + Length s >? mp
  then grouped s d (S oc) 0
       :: assign_odts mp d rest (S oc) (0 + Length s) [grouped s d (S oc) 0]
  else grouped s d oc (List.length es)
       :: assign_odts mp d rest oc (sz + Length s)
            (es ++ [grouped s d oc (List.length es)]).
Proof. simpl. destruct (sz + Length s >? mp); reflexivity. Qed.

Lemma assign_odts_signals mp d sigs :
  forall oc sz es, map signal (assign_odts mp d sigs oc sz es) = sigs.
Proof.
  induction sigs as [| s rest IH]; intros oc sz es; [reflexivity |].
  rewrite assign_odts_cons.
  destruct (sz + Length s >? mp); simpl; rewrite IH; reflexivity.
Qed.

Lemma assign_odts_daq mp d sigs :
  forall oc sz es g, In g (assign_odts mp d sigs oc sz es) ->
    DAQ_LIST_NUMBER g = daq_id d.
Proof.
  induction sigs as [| s rest IH]; intros oc sz es g; [intros [] |].
  rewrite assign_odts_cons.
  destruct (sz + Length s >? mp); (intros [<- | Hin]; [reflexivity | eauto]).
Qed.

Lemma with_odt_cons_eq o g l :
  ODT_NUMBER g = o -> with_odt o (g :: l) = g :: with_odt o l.
Proof. intros <-. unfold with_odt. simpl. rewrite String.eqb_refl. reflexivity. Qed.

Lemma with_odt_cons_neq o g l :
  ODT_NUMBER g <> o -> with_odt o (g :: l) = with_odt o l.
Proof.
  intros H. unfold with_odt. simpl.
  destruct (String.eqb_spec (ODT_NUMBER g) o); [contradiction | reflexivity].
Qed.

(** The loop never returns to an ODT number below its current one. *)
Lemma assign_odts_no_earlier mp d o sigs :
  forall oc sz es,
    (forall c, (oc <= c)%nat -> o <> odt_id c) ->
    with_odt o (assign_odts mp d sigs oc sz es) = [].
Proof.
  induction sigs as [| s rest IH]; intros oc sz es Ho; [reflexivity |].
  rewrite assign_odts_cons.
  destruct (sz + Length s >? mp).
  - rewrite with_odt_cons_neq by (simpl; intros E; apply (Ho (S oc)); auto).
    apply IH. intros c Hc. apply Ho. lia.
  - rewrite with_odt_cons_neq by (simpl; intros E; apply (Ho oc); auto).
    apply IH. exact Ho.
Qed.

Lemma odt_id_later oc c : (S oc <= c)%nat -> odt_id oc <> odt_id c.
Proof. intros H E. apply odt_id_inj in E. lia. Qed.

(** The packing bound of one ODT, from any state of the loop: the members of
    ODT [o] still to come, together with what the current ODT already
    holds when [o] is the current one, stay within [max_payload]. *)
Lemma assign_odts_sum mp d o sigs :
  Forall (fun s => Length s <= mp) sigs ->
  forall oc sz es,
    let run := with_odt o (assign_odts mp d sigs oc sz es) in
    run = [] \/
    sum_length run + (if (o =? odt_id oc)%string then sz else 0) <= mp.
Proof.
  induction 1 as [| s rest Hs Hrest IH]; intros oc sz es; [left; reflexivity |].
  cbv zeta. rewrite assign_odts_cons.
  destruct (sz + Length s >? mp) eqn:E.
  - destruct (String.eqb_spec o (odt_id (S oc))) as [-> | Hne].
    + right. rewrite with_odt_cons_eq by reflexivity.
      destruct (String.eqb_spec (odt_id (S oc)) (odt_id oc)) as [E' | _];
        [apply odt_id_inj in E'; lia |].
      specialize (IH (S oc) (0 + Length s) [grouped s d (S oc) 0]).
      cbv zeta in IH. rewrite String.eqb_refl in IH.
      destruct IH as [-> | IH]; simpl in *; lia.
    + rewrite with_odt_cons_neq by (simpl; congruence).
      destruct (String.eqb_spec o (odt_id oc)) as [-> | Hne'].
      * left. apply assign_odts_no_earlier. intros c Hc. apply odt_id_later. exact Hc.
      * specialize (IH (S oc) (0 + Length s) [grouped s d (S oc) 0]).
        cbv zeta in IH.
        destruct (String.eqb_spec o (odt_id (S oc))); [contradiction |]. exact IH.
  - rewrite Z.gtb_ltb in E. apply Z.ltb_ge in E.
    specialize (IH oc (sz + Length s) (es ++ [grouped s d oc (List.length es)])).
    cbv zeta in IH.
    destruct (String.eqb_spec o (odt_id oc)) as [-> | Hne].
    + right. rewrite with_odt_cons_eq by reflexivity.
      destruct IH as [-> | IH]; simpl in *; lia.
    + rewrite with_odt_cons_neq by (simpl; congruence). exact IH.
Qed.

(** The entry numbers of one ODT, from any state of the loop. *)
Lemma assign_odts_entries mp d o sigs :
  forall oc sz es,
    let run := with_odt o (assign_odts mp d sigs oc sz es) in
    map ODT_ENTRY_NUMBER run =
    map entry_id (seq (if (o =? odt_id oc)%string then List.length es else 0%nat)
                      (List.length run)).
Proof.
  induction sigs as [| s rest IH]; intros oc sz es; [reflexivity |].
  cbv zeta. rewrite assign_odts_cons.
  destruct (sz + Length s >? mp).
  - destruct (String.eqb_spec o (odt_id (S oc))) as [-> | Hne].
    + rewrite with_odt_cons_eq by reflexivity.
      destruct (String.eqb_spec (odt_id (S oc)) (odt_id oc)) as [E' | _];
        [apply odt_id_inj in E'; lia |].
      specialize (IH (S oc) (0 + Length s) [grouped s d (S oc) 0]).
      cbv zeta in IH. rewrite String.eqb_refl in IH.
      cbn [map List.length seq] in *. rewrite IH. reflexivity.
    + rewrite with_odt_cons_neq by (simpl; congruence).
      destruct (String.eqb_spec o (odt_id oc)) as [-> | Hne'].
      * rewrite assign_odts_no_earlier; [reflexivity |].
        intros c Hc. apply odt_id_later. exact Hc.
      * specialize (IH (S oc) (0 + Length s) [grouped s d (S oc) 0]).
        cbv zeta in IH.
        destruct (String.eqb_spec o (odt_id (S oc))); [contradiction |]. exact IH.
  - specialize (IH oc (sz + Length s) (es ++ [grouped s d oc (List.length es)])).
    cbv zeta in IH.
    destruct (String.eqb_spec o (odt_id oc)) as [-> | Hne].
    + rewrite with_odt_cons_eq by reflexivity.
      cbn [map List.length seq]. rewrite IH.
      rewrite length_app. cbn [List.length]. rewrite Nat.add_1_r. reflexivity.
    + rewrite with_odt_cons_neq by (simpl; congruence). exact IH.
Qed.

(** ** The outer loop of [group_signals] *)

Lemma assign_daq_lists_signals mp B :
  forall d0, map signal (assign_daq_lists mp B d0) = List.concat (map snd B).
Proof.
  induction B as [| [ch sigs] B IH]; intros d0; [reflexivity |].
  simpl. rewrite map_app, assign_odts_signals, IH. reflexivity.
Qed.

Lemma assign_daq_lists_daq mp B :
  forall d0 g, In g (assign_daq_lists mp B d0) ->
    exists j, (j < List.length B)%nat /\ DAQ_LIST_NUMBER g = daq_id (d0 + j).
Proof.
  induction B as [| [ch sigs] B IH]; intros d0 g; [intros [] |].
  simpl. rewrite in_app_iff. intros [Hin | Hin].
  - exists 0%nat. split; [lia |]. rewrite Nat.add_0_r.
    eapply assign_odts_daq; eassumption.
  - destruct (IH _ _ Hin) as [j [Hj E]]. exists (S j). split; [lia |].
    rewrite E. f_equal. lia.
Qed.

Lemma daq_signals_of_app l1 l2 d :
  daq_signals_of (l1 ++ l2) d = daq_signals_of l1 d ++ daq_signals_of l2 d.
Proof. apply filter_app. Qed.

Lemma daq_signals_of_all l d :
  (forall g, In g l -> DAQ_LIST_NUMBER g = d) -> daq_signals_of l d = l.
Proof.
  induction l as [| g l IH]; intros H; [reflexivity |].
  unfold daq_signals_of in *. simpl.
  rewrite (H g (or_introl eq_refl)), String.eqb_refl. f_equal.
  apply IH. intros g' Hg'. apply H. right; exact Hg'.
Qed.

Lemma daq_signals_of_none l d :
  (forall g, In g l -> DAQ_LIST_NUMBER g <> d) -> daq_signals_of l d = [].
Proof.
  induction l as [| g l IH]; intros H; [reflexivity |].
  unfold daq_signals_of in *. simpl.
  destruct (String.eqb_spec (DAQ_LIST_NUMBER g) d) as [E | _].
  - exfalso. exact (H g (or_introl eq_refl) E).
  - apply IH. intros g' Hg'. apply H. right; exact Hg'.
Qed.

(** DAQ list [d0 + j] of the grouping is the packing of bucket [j]. *)
Lemma assign_daq_lists_daq_signals mp B :
  forall d0 j,
    daq_signals_of (assign_daq_lists mp B d0) (daq_id (d0 + j)) =
    assign_odts mp (d0 + j) (nth j (map snd B) []) 0%nat 0 [].
Proof.
  induction B as [| [ch sigs] B IH]; intros d0 j.
  - destruct j; reflexivity.
  - simpl assign_daq_lists. rewrite daq_signals_of_app. destruct j as [| j].
    + rewrite Nat.add_0_r. simpl nth.
      rewrite daq_signals_of_all by (intros g; apply assign_odts_daq).
      rewrite daq_signals_of_none; [apply app_nil_r |].
      intros g Hg E. apply assign_daq_lists_daq in Hg. destruct Hg as [j [_ Hj]].
      rewrite Hj in E. apply daq_id_inj in E. lia.
    + rewrite daq_signals_of_none.
      * replace (d0 + S j)%nat with (S d0 + j)%nat by lia.
        cbn [app map snd nth]. apply IH.
      * intros g Hg E. apply assign_odts_daq in Hg. rewrite Hg in E.
        apply daq_id_inj in E. lia.
Qed.

Lemma odt_signals_of_with_odt l d o :
  odt_signals_of l d o = with_odt o (daq_signals_of l d).
Proof.
  unfold odt_signals_of, with_odt, daq_signals_of.
  induction l as [| g l IH]; [reflexivity |]. simpl.
  destruct (DAQ_LIST_NUMBER g =? d)%string; simpl;
    [destruct (ODT_NUMBER g =? o)%string |]; rewrite IH; reflexivity.
Qed.

(** ** The first loop yields a rearrangement of the input *)

Lemma bucket_append_concat B k s :
  Permutation (List.concat (map snd (bucket_append B k s)))
              (List.concat (map snd B) ++ [s]).
Proof.
  induction B as [| [c v] B IH]; [reflexivity |]. simpl.
  destruct (c =? k)%string; simpl.
  - rewrite <- !app_assoc. apply Permutation_app_head, Permutation_app_comm.
  - rewrite <- app_assoc. apply Permutation_app_head, IH.
Qed.

Lemma group_by_event_concat (signals : list Signal) :
  Permutation (List.concat (map snd (group_by_event signals))) signals.
Proof.
  induction signals as [| s l IH] using rev_ind; [reflexivity |].
  unfold group_by_event in *. rewrite fold_left_app. simpl.
  rewrite bucket_append_concat. apply Permutation_app_tail, IH.
Qed.

(** ** What a successful call of [group_signals] returns *)

Lemma group_signals_ok signals p pr out :
  group_signals signals p pr = Ok out ->
  signals <> [] /\
  exists mp, max_payload_of p = Ok mp /\
             out = assign_daq_lists mp (group_by_event signals) 0%nat.
Proof.
  unfold group_signals. destruct signals as [| s l]; [discriminate |].
  destruct (max_payload_of p) as [mp |]; [| discriminate]. simpl bind.
  intros H. split; [discriminate |]. exists mp. split; [reflexivity |].
  destruct pr; [destruct (DAQ_LISTS p) |]; try (injection H; auto; fail).
  destruct (foldM _ _ _); simpl in H; [injection H; auto | discriminate].
Qed.

Lemma max_payload_of_ok p mp :
  max_payload_of p = Ok mp ->
  exists max_dto, int16 (MAX_DTO p) = Ok max_dto /\ mp = Z.min max_dto 64 - 1.
Proof.
  unfold max_payload_of. destruct (int16 (MAX_DTO p)) as [v |]; [| discriminate].
  simpl. intros H. injection H as <-. eauto.
Qed.

Lemma nth_map_nth_error {A B : Type} (f : A -> list B) (l : list A) (k : nat) :
  nth k (map f l) [] =
  match nth_error l k with Some a => f a | None => [] end.
Proof.
  revert k. induction l as [| a l IH]; intros [| k]; simpl; auto.
Qed.

Lemma bucket_of_grouping signals k :
  nth k (map snd (group_by_event signals)) [] =
  match nth_error (first_seen (map EventConfigured signals)) k with
  | Some ch => on_channel ch signals
  | None => []
  end.
Proof.
  rewrite group_by_event_spec, map_map. simpl. apply nth_map_nth_error.
Qed.

Lemma on_channel_incl ch signals s : In s (on_channel ch signals) -> In s signals.
Proof. unfold on_channel. rewrite filter_In. tauto. Qed.

Lemma bucket_incl signals k s :
  In s (nth k (map snd (group_by_event signals)) []) -> In s signals.
Proof.
  rewrite bucket_of_grouping. destruct (nth_error _ k); [apply on_channel_incl | intros []].
Qed.

(** ** The order of identifier strings and [sorted(set(...))] *)

Lemma ascii_compare_refl (c : ascii) : Ascii.compare c c = Eq.
Proof. unfold Ascii.compare. apply N.compare_refl. Qed.

Lemma ascii_compare_lt_trans (a b c : ascii) :
  Ascii.compare a b = Lt -> Ascii.compare b c = Lt -> Ascii.compare a c = Lt.
Proof.
  unfold Ascii.compare. rewrite !N.compare_lt_iff. apply N.lt_trans.
Qed.

Lemma str_compare_refl (s : string) : String.compare s s = Eq.
Proof.
  induction s as [| c s IH]; simpl; [reflexivity |].
  rewrite ascii_compare_refl. exact IH.
Qed.

Lemma str_lt_irrefl (s : string) : ~ str_lt s s.
Proof. unfold str_lt. rewrite str_compare_refl. discriminate. Qed.

Lemma str_lt_trans (a b c : string) : str_lt a b -> str_lt b c -> str_lt a c.
Proof.
  unfold str_lt. revert b c.
  induction a as [| x a IH]; intros [| y b] [| z c]; simpl; try congruence.
  destruct (Ascii.compare x y) eqn:Exy; try discriminate;
    destruct (Ascii.compare y z) eqn:Eyz; try discriminate; intros H1 H2.
  - apply Ascii.compare_eq_iff in Exy, Eyz. subst.
    rewrite ascii_compare_refl. eapply IH; eassumption.
  - apply Ascii.compare_eq_iff in Exy. subst. rewrite Eyz. reflexivity.
  - apply Ascii.compare_eq_iff in Eyz. subst. rewrite Exy. reflexivity.
  - rewrite (ascii_compare_lt_trans _ _ _ Exy Eyz). reflexivity.
Qed.

Lemma str_compare_gt_lt (a b : string) :
  String.compare a b = Gt -> str_lt b a.
Proof.
  unfold str_lt. intros H. rewrite String.compare_antisym, H. reflexivity.
Qed.

Lemma insert_sorted_In (x y : string) (l : list string) :
  In y (insert_sorted x l) <-> y = x \/ In y l.
Proof.
  induction l as [| z l IH]; simpl; [intuition |].
  destruct (String.compare x z) eqn:E; simpl.
  - apply String.compare_eq_iff in E. subst. intuition.
  - intuition.
  - rewrite IH. intuition.
Qed.

Lemma insert_sorted_sorted (x : string) (l : list string) :
  StronglySorted str_lt l -> StronglySorted str_lt (insert_sorted x l).
Proof.
  induction 1 as [| z l Hl IH Hz]; simpl.
  - repeat constructor.
  - destruct (String.compare x z) eqn:E.
    + constructor; assumption.
    + constructor; [constructor; assumption |].
      constructor; [exact E |].
      rewrite Forall_forall in *. intros y Hy.
      eapply str_lt_trans; [exact E | apply Hz; exact Hy].
    + constructor; [exact IH |].
      rewrite Forall_forall in *. intros y Hy.
      apply insert_sorted_In in Hy. destruct Hy as [-> | Hy];
        [apply str_compare_gt_lt; exact E | apply Hz; exact Hy].
Qed.

Lemma sorted_set_In (x : string) (l : list string) :
  In x (sorted_set l) <-> In x l.
Proof.
  induction l as [| y l IH]; simpl; [tauto |].
  rewrite insert_sorted_In, IH. intuition.
Qed.

Lemma sorted_set_sorted (l : list string) : StronglySorted str_lt (sorted_set l).
Proof.
  induction l as [| y l IH]; simpl; [constructor | apply insert_sorted_sorted, IH].
Qed.

Lemma sorted_NoDup (l : list string) : StronglySorted str_lt l -> NoDup l.
Proof.
  induction 1 as [| z l Hl IH Hz]; constructor; [| exact IH].
  intros Hin. rewrite Forall_forall in Hz. exact (str_lt_irrefl z (Hz z Hin)).
Qed.

Lemma sorted_set_NoDup (l : list string) : NoDup (sorted_set l).
Proof. apply sorted_NoDup, sorted_set_sorted. Qed.

(** ** The loops of [create_dbc] *)

Lemma dbc_odt_rows_spec flag pid sigs :
  forall bit_start,
    map row_signal (dbc_odt_rows flag pid sigs bit_start) = sigs /\
    Forall (fun r => multiplexor_value r = pid)
           (dbc_odt_rows flag pid sigs bit_start).
Proof.
  induction sigs as [| s sigs IH]; intros b; simpl; [split; constructor |].
  destruct (IH (b + Length (signal s) * 8)) as [E F]. split.
  - rewrite E. reflexivity.
  - constructor; [reflexivity | exact F].
Qed.

Lemma odt_signals_of_In sg d o g :
  In g (odt_signals_of sg d o) <->
  In g sg /\ DAQ_LIST_NUMBER g = d /\ ODT_NUMBER g = o.
Proof.
  unfold odt_signals_of. rewrite filter_In, andb_true_iff, !String.eqb_eq. tauto.
Qed.

Lemma dbc_odts_spec flag sg d odts :
  forall pid rows pid',
    dbc_odts flag sg d odts pid = (rows, pid') ->
    pid' = pid + Z.of_nat (List.length odts) /\
    map row_signal rows = flat_map (odt_signals_of sg d) odts /\
    (forall r, In r rows ->
       In (row_signal r) sg /\
       DAQ_LIST_NUMBER (row_signal r) = d /\
       exists j, nth_error odts j = Some (ODT_NUMBER (row_signal r)) /\
                 multiplexor_value r = pid + Z.of_nat j).
Proof.
  induction odts as [| o odts IH]; intros pid rows pid' H; simpl in H.
  - injection H as <- <-. simpl. split; [lia |]. split; [reflexivity |]. intros r [].
  - destruct (dbc_odts flag sg d odts (pid + 1)) as [rows' p'] eqn:E.
    injection H as <- <-.
    destruct (IH _ _ _ E) as [Hp [Hs Hr]].
    destruct (dbc_odt_rows_spec flag pid (odt_signals_of sg d o) 8) as [Es Fs].
    split; [| split].
    + rewrite Hp. simpl List.length. lia.
    + rewrite map_app, Es, Hs. reflexivity.
    + intros r Hin. apply in_app_or in Hin. destruct Hin as [Hin | Hin].
      * assert (Hsig : In (row_signal r) (odt_signals_of sg d o))
          by (rewrite <- Es; apply in_map; exact Hin).
        apply odt_signals_of_In in Hsig. destruct Hsig as [Hg [Hd Ho]].
        repeat split; auto. exists 0%nat. split; [simpl; congruence |].
        rewrite Forall_forall in Fs. rewrite (Fs r Hin). lia.
      * destruct (Hr r Hin) as [Hg [Hd [j [Hj Hm]]]].
        repeat split; auto. exists (S j). split; [exact Hj | lia].
Qed.

(** The counter with which the ODTs of a DAQ list start: how [first_pid]
    depends on the protocol and on the declared lists. *)
Lemma first_pid_xcp p d pid : first_pid p xcp d pid = Ok pid.
Proof. reflexivity. Qed.

Lemma first_pid_ccp p d pid pid0 :
  first_pid p ccp d pid = Ok pid0 ->
  exists declared,
    DAQ_LISTS p = Some declared /\
    ((exists e, find_daq_list_by_number declared d = Ok (Some e) /\
                int16 (DaqList.FirstPID e) = Ok pid0) \/
     (find_daq_list_by_number declared d = Ok None /\ pid0 = pid)).
Proof.
  unfold first_pid. destruct (DAQ_LISTS p) as [declared |]; [| discriminate].
  intros H. exists declared. split; [reflexivity |].
  destruct (find_daq_list_by_number declared d) as [[e |] |]; simpl in H;
    try discriminate.
  - left. eauto.
  - right. injection H as <-. auto.
Qed.

Lemma first_pid_cases p pr d pid pid0 :
  first_pid p pr d pid = Ok pid0 ->
  (carries_over p pr d /\ pid0 = pid) \/ declares_first_pid p pr d pid0.
Proof.
  destruct pr; intros H.
  - apply first_pid_ccp in H. destruct H as [declared [Hd [[e [Hf Hp]] | [Hf ->]]]].
    + right. split; [reflexivity |]. eauto.
    + left. split; [exists declared; auto | reflexivity].
  - injection H as <-. left. split; [exact I | reflexivity].
Qed.

Lemma carries_over_excludes p pr d pid0 :
  carries_over p pr d -> declares_first_pid p pr d pid0 -> False.
Proof.
  intros Hc [-> [declared [e [Hd [Hf _]]]]].
  destruct Hc as [declared' [Hd' Hf']]. congruence.
Qed.

Lemma declares_first_pid_unique p pr d a b :
  declares_first_pid p pr d a -> declares_first_pid p pr d b -> a = b.
Proof.
  intros [_ [d1 [e1 [H1 [F1 P1]]]]] [_ [d2 [e2 [H2 [F2 P2]]]]]. congruence.
Qed.

(** The outer loop, for distinct DAQ lists: there is a start value per DAQ
    list such that ODT [j] of list [d] carries [start d + j]; the start
    value is the declared first PID where one is declared, and otherwise
    the counter as the preceding lists left it. *)
Lemma dbc_daq_lists_spec flag sg p pr dls :
  NoDup dls ->
  forall pid rows,
    dbc_daq_lists flag sg p pr dls pid = Ok rows ->
    map row_signal rows =
      flat_map (fun d => flat_map (odt_signals_of sg d) (odts_of sg d)) dls /\
    exists start : string -> Z,
      (forall r, In r rows ->
         In (row_signal r) sg /\
         In (DAQ_LIST_NUMBER (row_signal r)) dls /\
         exists j,
           nth_error (odts_of sg (DAQ_LIST_NUMBER (row_signal r))) j
             = Some (ODT_NUMBER (row_signal r)) /\
           multiplexor_value r
             = start (DAQ_LIST_NUMBER (row_signal r)) + Z.of_nat j) /\
      (forall d pid0, In d dls -> declares_first_pid p pr d pid0 -> start d = pid0) /\
      (forall d, nth_error dls 0 = Some d -> carries_over p pr d -> start d = pid) /\
      (forall m d d', nth_error dls m = Some d -> nth_error dls (S m) = Some d' ->
         carries_over p pr d' ->
         start d' = start d + Z.of_nat (List.length (odts_of sg d))).
Proof.
  induction dls as [| d dls IH]; intros Hnd pid rows H.
  - simpl in H. injection H as <-. split; [reflexivity |].
    exists (fun _ => 0).
    split; [intros r [] |]. split; [intros d pid0 [] |].
    split; [intros d Hd; discriminate | intros [| m] d d' Hd; discriminate].
  - inversion Hnd as [| ? ? Hd Hdls]; subst.
    simpl in H.
    destruct (first_pid p pr d pid) as [pid0 |] eqn:Ef; simpl in H; [| discriminate].
    destruct (dbc_odts flag sg d (odts_of sg d) pid0) as [rows_d pid1] eqn:Eo.
    destruct (dbc_daq_lists flag sg p pr dls pid1) as [rows_r |] eqn:Er;
      simpl in H; [| discriminate].
    injection H as <-.
    destruct (dbc_odts_spec _ _ _ _ _ _ _ Eo) as [Hp1 [Hs Hrows]].
    destruct (IH Hdls _ _ Er) as [Hs' [start [Hr [Hdecl [Hfirst Hnext]]]]].
    split; [simpl; rewrite map_app, Hs, Hs'; reflexivity |].
    exists (fun x => if (x =? d)%string then pid0 else start x).
    split; [| split; [| split]].
    + intros r Hin. apply in_app_or in Hin. destruct Hin as [Hin | Hin].
      * destruct (Hrows r Hin) as [Hg [Hdq [j [Hj Hm]]]].
        rewrite Hdq, String.eqb_refl. split; [exact Hg |].
        split; [left; reflexivity |]. exists j. auto.
      * destruct (Hr r Hin) as [Hg [Hdq [j [Hj Hm]]]].
        destruct (String.eqb_spec (DAQ_LIST_NUMBER (row_signal r)) d) as [E | _];
          [rewrite E in Hdq; contradiction |].
        split; [exact Hg |]. split; [right; exact Hdq |]. exists j. auto.
    + intros x v Hx Hv. destruct (String.eqb_spec x d) as [-> | Hne].
      * destruct (first_pid_cases _ _ _ _ _ Ef) as [[Hc _] | Hd'].
        -- exfalso. eapply carries_over_excludes; eassumption.
        -- eapply declares_first_pid_unique; eassumption.
      * destruct Hx as [-> | Hx]; [congruence |]. apply Hdecl; assumption.
    + intros x Hx Hc. simpl in Hx. injection Hx as <-. rewrite String.eqb_refl.
      destruct (first_pid_cases _ _ _ _ _ Ef) as [[_ ->] | Hd']; [reflexivity |].
      exfalso. eapply carries_over_excludes; eassumption.
    + intros m x x' Hx Hx' Hc.
      assert (Hx'in : In x' dls) by (eapply nth_error_In; exact Hx').
      destruct (String.eqb_spec x' d) as [-> | _]; [contradiction |].
      destruct m as [| m]; simpl in Hx.
      * injection Hx as <-. rewrite String.eqb_refl.
        rewrite (Hfirst x' Hx' Hc). lia.
      * assert (Hxin : In x dls) by (eapply nth_error_In; exact Hx).
        destruct (String.eqb_spec x d) as [-> | _]; [contradiction |].
        apply (Hnext m); assumption.
Qed.

(** ** The enumeration of the ODTs *)

Lemma nth_error_NoDup_eq {A : Type} (l : list A) (i j : nat) (x : A) :
  NoDup l -> nth_error l i = Some x -> nth_error l j = Some x -> i = j.
Proof.
  intros Hnd Hi Hj. rewrite NoDup_nth_error in Hnd. apply Hnd.
  - apply nth_error_Some. congruence.
  - congruence.
Qed.

Lemma StronglySorted_app {A : Type} (R : A -> A -> Prop) (l1 l2 : list A) :
  StronglySorted R l1 -> StronglySorted R l2 ->
  (forall a b, In a l1 -> In b l2 -> R a b) ->
  StronglySorted R (l1 ++ l2).
Proof.
  induction 1 as [| a l1 Hl1 IH Ha]; intros H2 H12; simpl; [exact H2 |].
  constructor.
  - apply IH; [exact H2 |]. intros x y Hx Hy. apply H12; [right |]; assumption.
  - rewrite Forall_forall in *. intros x Hx. apply in_app_or in Hx.
    destruct Hx as [Hx | Hx]; [apply Ha; exact Hx |].
    apply H12; [left; reflexivity | exact Hx].
Qed.

Lemma StronglySorted_map_pair (d : string) (l : list string) :
  StronglySorted str_lt l -> StronglySorted odt_key_lt (map (pair d) l).
Proof.
  induction 1 as [| o l Hl IH Ho]; simpl; constructor; [exact IH |].
  rewrite Forall_forall in *. intros k Hk. apply in_map_iff in Hk.
  destruct Hk as [o' [<- Ho']]. right. simpl. split; [reflexivity | apply Ho; exact Ho'].
Qed.

Lemma keys_sorted (f : string -> list string) (dls : list string) :
  (forall d, StronglySorted str_lt (f d)) ->
  StronglySorted str_lt dls ->
  StronglySorted odt_key_lt (flat_map (fun d => map (pair d) (f d)) dls).
Proof.
  intros Hf. induction 1 as [| d dls Hdls IH Hd]; simpl; [constructor |].
  apply StronglySorted_app; [apply StronglySorted_map_pair, Hf | exact IH |].
  intros a b Ha Hb. apply in_map_iff in Ha. destruct Ha as [o [<- _]].
  apply in_flat_map in Hb. destruct Hb as [d' [Hd' Hb]].
  apply in_map_iff in Hb. destruct Hb as [o' [<- _]].
  left. simpl. rewrite Forall_forall in Hd. apply Hd; exact Hd'.
Qed.

Lemma odt_key_lt_irrefl (k : string * string) : ~ odt_key_lt k k.
Proof. intros [H | [_ H]]; exact (str_lt_irrefl _ H). Qed.

Lemma odt_keys_sorted sg : StronglySorted odt_key_lt (odt_keys sg).
Proof.
  apply keys_sorted; [intros d |]; apply sorted_set_sorted.
Qed.

Lemma odt_keys_NoDup sg : NoDup (odt_keys sg).
Proof.
  pose proof (odt_keys_sorted sg) as H.
  induction H as [| k l Hl IH Hk]; constructor; [| exact IH].
  intros Hin. rewrite Forall_forall in Hk. exact (odt_key_lt_irrefl k (Hk k Hin)).
Qed.

Lemma daq_signals_of_In sg d g :
  In g (daq_signals_of sg d) <-> In g sg /\ DAQ_LIST_NUMBER g = d.
Proof. unfold daq_signals_of. rewrite filter_In, String.eqb_eq. tauto. Qed.

Lemma daq_lists_of_In sg d :
  In d (daq_lists_of sg) <-> exists g, In g sg /\ DAQ_LIST_NUMBER g = d.
Proof.
  unfold daq_lists_of. rewrite sorted_set_In, in_map_iff.
  split; intros [g H]; exists g; tauto.
Qed.

Lemma odts_of_In sg d o :
  In o (odts_of sg d) <->
  exists g, In g sg /\ DAQ_LIST_NUMBER g = d /\ ODT_NUMBER g = o.
Proof.
  unfold odts_of. rewrite sorted_set_In, in_map_iff.
  split; intros [g H]; exists g; rewrite daq_signals_of_In in *; tauto.
Qed.

Lemma odt_keys_In sg d o :
  In (d, o) (odt_keys sg) <->
  exists g, In g sg /\ DAQ_LIST_NUMBER g = d /\ ODT_NUMBER g = o.
Proof.
  unfold odt_keys. rewrite in_flat_map. split.
  - intros [d' [_ H]]. apply in_map_iff in H. destruct H as [o' [E H]].
    injection E as -> ->. apply odts_of_In. exact H.
  - intros H. exists d. split.
    + apply daq_lists_of_In. destruct H as [g [Hg [Hd _]]]. eauto.
    + apply in_map, odts_of_In. exact H.
Qed.

(** Positions in a concatenation of blocks. *)
Lemma flat_map_firstn_succ {A B : Type} (f : A -> list B) (l : list A) :
  forall m a, nth_error l m = Some a ->
    List.length (flat_map f (firstn (S m) l)) =
    (List.length (flat_map f (firstn m l)) + List.length (f a))%nat.
Proof.
  induction l as [| x l IH]; intros [| m] a H; simpl in H; try discriminate.
  - injection H as ->. simpl. rewrite app_nil_r. reflexivity.
  - rewrite !firstn_cons. cbn [flat_map]. rewrite !length_app, (IH m a H). lia.
Qed.

Lemma flat_map_nth_error {A B : Type} (f : A -> list B) (l : list A) :
  forall m a j b,
    nth_error l m = Some a -> nth_error (f a) j = Some b ->
    nth_error (flat_map f l) (List.length (flat_map f (firstn m l)) + j) = Some b.
Proof.
  induction l as [| x l IH]; intros [| m] a j b Hm Hj; simpl in Hm; try discriminate.
  - injection Hm as ->. simpl. rewrite nth_error_app1; [exact Hj |].
    apply nth_error_Some. congruence.
  - rewrite firstn_cons. cbn [flat_map].
    rewrite length_app, <- Nat.add_assoc, nth_error_app2 by lia.
    replace (_ + _ - _)%nat with (List.length (flat_map f (firstn m l)) + j)%nat by lia.
    eapply IH; eassumption.
Qed.

Lemma create_dbc_rows sg p pr dbc :
  create_dbc sg p pr = Ok dbc ->
  exists flag,
    dbc_daq_lists flag sg p pr (daq_lists_of sg) 0 = Ok (dbc_rows dbc).
Proof.
  unfold create_dbc. intros Hok.
  destruct (int16 (CAN_ID_SLAVE p)); [| discriminate]. simpl bind in Hok.
  destruct (int16 (MAX_CTO p)); [| discriminate]. simpl bind in Hok.
  match type of Hok with
  | bind ?m _ = _ => destruct m; [| discriminate]
  end. simpl bind in Hok.
  match type of Hok with
  | bind (dbc_daq_lists ?f _ _ _ _ _) _ = _ =>
      destruct (dbc_daq_lists f sg p pr (daq_lists_of sg) 0) eqn:E;
      [| discriminate]; exists f
  end.
  simpl in Hok. injection Hok as <-. exact E.
Qed.

Lemma flat_map_pairs {B : Type} (f : string -> list string)
    (g : string * string -> list B) (l : list string) :
  flat_map g (flat_map (fun d => map (pair d) (f d)) l) =
  flat_map (fun d => flat_map (fun o => g (d, o)) (f d)) l.
Proof.
  induction l as [| d l IH]; [reflexivity |]. simpl.
  rewrite flat_map_app, IH. f_equal.
  induction (f d) as [| o os IHo]; [reflexivity |]. simpl. rewrite IHo. reflexivity.
Qed.

Lemma flat_map_pairs_length (f : string -> list string) (l : list string) :
  List.length (flat_map (fun d => map (pair d) (f d)) l) =
  List.length (flat_map f l).
Proof.
  induction l as [| d l IH]; [reflexivity |]. simpl.
  rewrite !length_app, length_map, IH. reflexivity.
Qed.

(** ** Lengths of rendered text *)

Lemma str_length_app (a b : string) :
  String.length (a ++ b)%string = (String.length a + String.length b)%nat.
Proof. induction a as [| c a IH]; simpl; [reflexivity | rewrite IH; reflexivity]. Qed.

Lemma of_bytes_length (bs : list Z) :
  String.length (Hex.of_bytes bs) = (2 * List.length bs)%nat.
Proof.
  induction bs as [| b bs IH]; [reflexivity |].
  change (Hex.of_bytes (b :: bs)) with (Hex.byte b ++ Hex.of_bytes bs)%string.
  rewrite str_length_app, IH. simpl. lia.
Qed.

Lemma be_bytes_length (n : nat) : forall v, List.length (Hex.be_bytes n v) = n.
Proof.
  induction n as [| n IH]; intros v; [reflexivity |].
  simpl. rewrite length_app, IH. simpl. lia.
Qed.

Lemma to_bytes_hex_length n order v s :
  to_bytes_hex n order v = Ok s -> String.length s = (2 * n)%nat.
Proof.
  unfold to_bytes_hex. destruct (_ || _); [discriminate |].
  intros H. injection H as <-. rewrite of_bytes_length.
  destruct order; [| rewrite length_rev]; rewrite be_bytes_length; reflexivity.
Qed.

Lemma hex_field_length n order t s :
  hex_field n order t = Ok s -> String.length s = (2 * n)%nat.
Proof.
  unfold hex_field. destruct (int16 t); [| discriminate]. apply to_bytes_hex_length.
Qed.

(** [f"{b:02X}"] of a byte value is its two hexadecimal digits. *)
Lemma fmt2_byte (b : Z) : 0 <= b < 256 -> Hex.fmt 2 b = Hex.byte b.
Proof.
  intros H.
  assert (E : forallb (fun n => (Hex.fmt 2 (Z.of_nat n) =? Hex.byte (Z.of_nat n))%string)
                      (seq 0 256) = true) by (vm_compute; reflexivity).
  rewrite forallb_forall in E.
  specialize (E (Z.to_nat b)). rewrite Z2Nat.id in E by lia.
  apply String.eqb_eq, E, in_seq. lia.
Qed.

Lemma payload_byte_1 (a b : ascii) (v : Z) (rest : string) :
  0 <= v < 256 ->
  payload_byte 1 (String a (String b (Hex.byte v ++ rest)%string)) = Some v.
Proof.
  intros Hv. unfold payload_byte, Hex.byte.
  cbn [substring Nat.mul Nat.add append].
  rewrite !digit_val_digit.
  - replace (substring 0 0 rest) with EmptyString by (destruct rest; reflexivity).
    f_equal. pose proof (Z.div_mod v 16 ltac:(lia)). lia.
  - apply Z.mod_pos_bound; lia.
  - split; [apply Z.div_pos; lia | apply Z.div_lt_upper_bound; lia].
Qed.

(** ** WRITE_DAQ_MULTIPLE: descriptors and their grouping into frames *)

Lemma str_append_nil_r (s : string) : (s ++ EmptyString)%string = s.
Proof. induction s as [| c s IH]; simpl; [reflexivity | rewrite IH; reflexivity]. Qed.

Lemma join_cons (x : string) (xs : list string) :
  join (x :: xs) = (x ++ join xs)%string.
Proof.
  unfold join. destruct xs as [| y ys]; simpl; [rewrite str_append_nil_r |]; reflexivity.
Qed.

Lemma join_length (l : list string) :
  Forall (fun e => String.length e = 16%nat) l ->
  String.length (join l) = (16 * List.length l)%nat.
Proof.
  induction 1 as [| e l He Hl IH]; [reflexivity |].
  rewrite join_cons, str_length_app, He, IH. simpl List.length. lia.
Qed.

Lemma mapM_cons_ok {A B : Type} (f : A -> result B) x xs y ys :
  f x = Ok y -> mapM f xs = Ok ys -> mapM f (x :: xs) = Ok (y :: ys).
Proof. intros Hx Hxs. simpl. rewrite Hx, Hxs. reflexivity. Qed.

(** The loop as a function of the rendered descriptors. *)
Lemma write_daq_multiple_pure order sigs :
  forall cur frames,
    Xcp.write_daq_multiple order sigs cur = Ok frames ->
    exists descs,
      mapM (Xcp.signal_entry order) sigs = Ok descs /\
      frames = multi_frames_from cur descs.
Proof.
  induction sigs as [| s sigs IH]; intros cur frames H; simpl in H.
  - injection H as <-. exists []. split; reflexivity.
  - destruct (Xcp.signal_entry order s) as [e |] eqn:Ee; simpl in H; [| discriminate].
    destruct (Xcp.max_payload_size <? _)%nat eqn:Ec.
    + destruct (Xcp.write_daq_multiple order sigs [e]) as [fs |] eqn:Er;
        simpl in H; [| discriminate].
      injection H as <-. destruct (IH _ _ Er) as [descs [Hd ->]].
      exists (e :: descs). split; [apply mapM_cons_ok; assumption |].
      simpl. rewrite Ec. reflexivity.
    + destruct (IH _ _ H) as [descs [Hd ->]].
      exists (e :: descs). split; [apply mapM_cons_ok; assumption |].
      simpl. rewrite Ec. reflexivity.
Qed.

Lemma signal_entry_descriptor order s e :
  0 <= Length (signal s) < 256 ->
  Xcp.signal_entry order s = Ok e -> is_descriptor order s e.
Proof.
  intros HL. unfold Xcp.signal_entry.
  destruct (hex_field 4 order (ECU_ADDRESS (signal s))) as [address |] eqn:Ea;
    [| discriminate].
  simpl. intros H. injection H as <-. exists address.
  split; [exact Ea |]. split; [apply (hex_field_length _ _ _ _ Ea) |].
  rewrite fmt2_byte by exact HL. reflexivity.
Qed.

Lemma is_descriptor_length order s e :
  is_descriptor order s e -> String.length e = 16%nat.
Proof.
  intros [address [_ [Hl ->]]]. simpl. rewrite str_length_app, Hl. reflexivity.
Qed.

Lemma mapM_descriptors order sigs :
  Forall (fun s => 0 <= Length (signal s) < 256) sigs ->
  forall descs, mapM (Xcp.signal_entry order) sigs = Ok descs ->
    Forall2 (is_descriptor order) sigs descs.
Proof.
  induction 1 as [| s sigs Hs Hsigs IH]; intros descs H; simpl in H.
  - injection H as <-. constructor.
  - destruct (Xcp.signal_entry order s) as [e |] eqn:Ee; simpl in H; [| discriminate].
    destruct (mapM (Xcp.signal_entry order) sigs) as [es |]; simpl in H; [| discriminate].
    injection H as <-. constructor; [apply signal_entry_descriptor; assumption |].
    apply IH. reflexivity.
Qed.

(** With 8-byte descriptors a frame is closed exactly when it holds 7. *)
Lemma multi_frames_groups (l : list string) :
  Forall (fun e => String.length e = 16%nat) l ->
  forall cur,
    Forall (fun e => String.length e = 16%nat) cur ->
    (List.length cur <= 7)%nat ->
    multi_frames_from cur l = map Xcp.write_daq_multi_frame (groups_from 7 cur l).
Proof.
  induction 1 as [| e l He Hl IH]; intros cur Hcur Hlen;
    cbn [multi_frames_from groups_from].
  - destruct cur; reflexivity.
  - rewrite str_length_app, (join_length _ Hcur), He.
    assert (E : (Xcp.max_payload_size <? (16 * List.length cur + 16) / 2)%nat
                = (List.length cur =? 7)%nat).
    { replace ((16 * List.length cur + 16) / 2)%nat with (8 * List.length cur + 8)%nat
        by (apply Nat.div_unique_exact; lia).
      unfold Xcp.max_payload_size.
      destruct (Nat.eqb_spec (List.length cur) 7) as [E | E].
      - apply Nat.ltb_lt. rewrite E. simpl. lia.
      - apply Nat.ltb_ge. simpl. lia. }
    rewrite E. destruct (Nat.eqb_spec (List.length cur) 7) as [E7 | E7].
    + cbn [map]. f_equal. apply IH; [repeat constructor; exact He | simpl; lia].
    + apply IH.
      * apply Forall_app. split; [exact Hcur | repeat constructor; exact He].
      * rewrite length_app. simpl. lia.
Qed.

(** ** Groups of at most [n] *)

Section Groups.
Context {A : Type} (n : nat) (Hn : (1 <= n)%nat).

Lemma groups_from_concat (l : list A) :
  forall cur, List.concat (groups_from n cur l) = cur ++ l.
Proof.
  induction l as [| e l IH]; intros cur; simpl.
  - destruct cur; simpl; rewrite ?app_nil_r; reflexivity.
  - destruct (List.length cur =? n)%nat; simpl; rewrite IH.
    + reflexivity.
    + rewrite <- app_assoc. reflexivity.
Qed.

Lemma groups_from_sizes (l : list A) :
  forall cur, (List.length cur <= n)%nat ->
    Forall (fun g => (1 <= List.length g <= n)%nat) (groups_from n cur l).
Proof.
  induction l as [| e l IH]; intros cur Hcur; simpl.
  - destruct cur; [constructor |].
    constructor; [simpl in *; lia | constructor].
  - destruct (Nat.eqb_spec (List.length cur) n) as [E | E].
    + constructor; [lia | apply IH; simpl; lia].
    + apply IH. rewrite length_app. simpl. lia.
Qed.

Lemma groups_from_full (l : list A) :
  forall cur i g,
    nth_error (groups_from n cur l) i = Some g ->
    (S i < List.length (groups_from n cur l))%nat ->
    List.length g = n.
Proof.
  induction l as [| e l IH]; intros cur i g; simpl.
  - destruct cur; simpl; intros _ H; lia.
  - destruct (Nat.eqb_spec (List.length cur) n) as [E | E].
    + destruct i as [| i]; simpl.
      * intros H _. injection H as <-. exact E.
      * intros H Hi. apply (IH _ _ _ H). lia.
    + apply IH.
Qed.
End Groups.

(** ** The WRITE_DAQ_MULTIPLE frame of a group of descriptors *)

Lemma zeros_length (k : nat) : String.length (Hex.zeros k) = k.
Proof. induction k as [| k IH]; simpl; [reflexivity | rewrite IH; reflexivity]. Qed.

Lemma substring_all (s : string) : substring 0 (String.length s) s = s.
Proof. induction s as [| c s IH]; simpl; [reflexivity | rewrite IH; reflexivity]. Qed.

Lemma ljust_cut_short (w : nat) (s : string) :
  (String.length s <= w)%nat ->
  ljust_cut w s = (s ++ Hex.zeros (w - String.length s))%string.
Proof.
  intros H. unfold ljust_cut.
  replace w with (String.length (s ++ Hex.zeros (w - String.length s))%string) at 1
    by (rewrite str_length_app, zeros_length; lia).
  apply substring_all.
Qed.

Lemma payload_byte_0 (a b : ascii) (x y : Z) (rest : string) :
  Hex.digit_val a = Some x -> Hex.digit_val b = Some y ->
  payload_byte 0 (String a (String b rest)) = Some (16 * x + y).
Proof.
  intros Ha Hb. unfold payload_byte. cbn [substring Nat.mul Nat.add].
  replace (substring 0 0 rest) with EmptyString by (destruct rest; reflexivity).
  rewrite Ha, Hb. reflexivity.
Qed.

(** The text of the frame of [g]: opcode [C7], the count byte, the
    descriptors, then zeros up to 64 bytes. *)
Lemma write_daq_multi_frame_data (g : list string) :
  Forall (fun e => String.length e = 16%nat) g ->
  (List.length g <= 7)%nat ->
  DATA (Xcp.write_daq_multi_frame g) =
  ("C7" ++ Hex.byte (Z.of_nat (List.length g)) ++ join g
        ++ Hex.zeros (124 - 16 * List.length g))%string.
Proof.
  intros Hg Hlen. unfold Xcp.write_daq_multi_frame. cbn [DATA].
  rewrite fmt2_byte by lia.
  assert (Hs : String.length
                 ("C7" ++ Hex.byte (Z.of_nat (List.length g)) ++ join g)%string
               = (4 + 16 * List.length g)%nat).
  { cbn [append Hex.byte String.length]. rewrite (join_length _ Hg). reflexivity. }
  rewrite ljust_cut_short by (rewrite Hs; lia).
  rewrite Hs. replace (128 - (4 + 16 * List.length g))%nat
    with (124 - 16 * List.length g)%nat by lia.
  reflexivity.
Qed.

Lemma write_daq_multi_frame_ok (g : list string) :
  Forall (fun e => String.length e = 16%nat) g ->
  (List.length g <= 7)%nat ->
  is_write_daq_multiple g (Xcp.write_daq_multi_frame g).
Proof.
  intros Hg Hlen. pose proof (write_daq_multi_frame_data g Hg Hlen) as E.
  unfold is_write_daq_multiple. rewrite E.
  split; [reflexivity |]. split; [| split; [| split]].
  - cbn [append Hex.byte String.length].
    rewrite str_length_app, (join_length _ Hg), zeros_length. lia.
  - apply (payload_byte_0 "C" "7" 12 7); reflexivity.
  - apply (payload_byte_1 "C" "7"). lia.
  - reflexivity.
Qed.

Lemma Forall2_Forall_r {A B : Type} (R : A -> B -> Prop) (P : B -> Prop) l l' :
  Forall2 R l l' -> (forall a b, R a b -> P b) -> Forall P l'.
Proof. induction 1; intros H'; constructor; eauto. Qed.

Lemma concat_Forall {A : Type} (P : A -> Prop) (ls : list (list A)) :
  Forall P (List.concat ls) -> Forall (Forall P) ls.
Proof.
  induction ls as [| l ls IH]; simpl; intros H; constructor.
  - apply Forall_app in H. tauto.
  - apply IH. apply Forall_app in H. tauto.
Qed.

(** One iteration of the SET_DAQ_PTR section in the branch
    [max_cto == 64]: SET_DAQ_PTR, then the WRITE_DAQ_MULTIPLE frames of the
    descriptors of the signals of the ODT, 7 in every frame but the last. *)
Lemma odt_frames_write_daq_multiple order daq_signals daq_list odt frames :
  Forall (fun s => 0 <= Length (signal s) < 256) (with_odt odt daq_signals) ->
  Xcp.odt_frames order 64 daq_signals daq_list odt = Ok frames ->
  exists set_daq_ptr descriptors groups,
    frames = set_daq_ptr :: map Xcp.write_daq_multi_frame groups /\
    FrameName set_daq_ptr = "SET_DAQ_PTR" /\
    Forall2 (is_descriptor order) (with_odt odt daq_signals) descriptors /\
    List.concat groups = descriptors /\
    (with_odt odt daq_signals <> [] -> groups <> []) /\
    Forall (fun g => (1 <= List.length g <= Xcp.max_payload_size / 8)%nat) groups /\
    (forall i g, nth_error groups i = Some g ->
                 (S i < List.length groups)%nat ->
                 List.length g = (Xcp.max_payload_size / 8)%nat) /\
    Forall (fun g => is_write_daq_multiple g (Xcp.write_daq_multi_frame g)) groups.
Proof.
  intros HL H. unfold Xcp.odt_frames in H.
  destruct (hex_field 2 order daq_list) as [daq_number |]; [| discriminate].
  destruct (hex_field 1 big odt) as [odt_number |]; [| discriminate].
  cbn [bind] in H. rewrite Z.eqb_refl in H.
  fold (with_odt odt daq_signals) in H.
  destruct (Xcp.write_daq_multiple order (with_odt odt daq_signals) [])
    as [writes |] eqn:Ew; [| discriminate].
  cbn [bind] in H. injection H as <-.
  destruct (write_daq_multiple_pure _ _ _ _ Ew) as [descs [Hd ->]].
  pose proof (mapM_descriptors order _ HL _ Hd) as Hdesc.
  assert (H16 : Forall (fun e => String.length e = 16%nat) descs)
    by (eapply Forall2_Forall_r; [exact Hdesc | intros a b; apply is_descriptor_length]).
  change (Xcp.max_payload_size / 8)%nat with 7%nat.
  pose proof (groups_from_concat 7 descs []) as Hc. simpl in Hc.
  pose proof (groups_from_sizes 7 ltac:(lia) descs [] ltac:(simpl; lia)) as Hsz.
  eexists _, descs, (groups_from 7 [] descs).
  split; [f_equal; apply multi_frames_groups; [exact H16 | constructor | simpl; lia] |].
  split; [reflexivity |]. split; [exact Hdesc |]. split; [exact Hc |].
  split; [| split; [exact Hsz | split; [apply groups_from_full; lia |]]].
  - intros Hne Hg. rewrite Hg in Hc. simpl in Hc. subst descs.
    inversion Hdesc; subst; congruence.
  - rewrite <- Hc in H16. apply concat_Forall in H16.
    rewrite Forall_forall in H16, Hsz. apply Forall_forall. intros g Hg.
    apply write_daq_multi_frame_ok; [apply H16; exact Hg |].
    specialize (Hsz g Hg). lia.
Qed.

(** ** The command counter of the CCP encoder *)

Lemma ctr_hex_ok (c : Z) (h : string) :
  ctr_hex c = Ok h -> 0 <= c < 256 /\ h = Hex.byte c.
Proof.
  unfold ctr_hex, to_bytes_hex. change (256 ^ Z.of_nat 1) with 256.
  destruct (c <? 0) eqn:E1; [discriminate |].
  destruct (256 <=? c) eqn:E2; [discriminate |].
  apply Z.ltb_ge in E1. apply Z.leb_gt in E2.
  cbn. intros H. injection H as <-. split; [lia |].
  rewrite Z.mod_small by lia. reflexivity.
Qed.

Lemma counted_nil (c : Z) : counted c [].
Proof. intros [| i] f H; discriminate. Qed.

Lemma counted_cons (c : Z) (f : Frame) (fs : list Frame) :
  0 <= c < 256 -> payload_byte 1 (DATA f) = Some c ->
  counted (c + 1) fs -> counted c (f :: fs).
Proof.
  intros Hc Hf Hfs [| i] g H; simpl in H.
  - injection H as <-. rewrite Z.add_0_r. auto.
  - destruct (Hfs i g H) as [Hb Hp].
    replace (c + Z.of_nat (S i)) with (c + 1 + Z.of_nat i) by lia. auto.
Qed.

Lemma counted_app (c : Z) (fs1 fs2 : list Frame) :
  counted c fs1 -> counted (c + Z.of_nat (List.length fs1)) fs2 ->
  counted c (fs1 ++ fs2).
Proof.
  intros H1 H2 i f H.
  destruct (Nat.lt_ge_cases i (List.length fs1)) as [Hi | Hi].
  - rewrite nth_error_app1 in H by exact Hi. apply H1; exact H.
  - rewrite nth_error_app2 in H by exact Hi.
    destruct (H2 _ _ H) as [Hb Hp].
    replace (c + Z.of_nat i)
      with (c + Z.of_nat (List.length fs1) + Z.of_nat (i - List.length fs1)) by lia.
    auto.
Qed.

(** A frame whose text is a one-byte opcode followed by [ctr_hex(ctr)]. *)
Lemma counted_frame (a b : ascii) (c : Z) (h rest name : string) :
  ctr_hex c = Ok h ->
  0 <= c < 256 /\
  payload_byte 1 (DATA {| FrameName := name;
                          DATA := String a (String b (h ++ rest)%string) |}) = Some c.
Proof.
  intros H. apply ctr_hex_ok in H. destruct H as [Hc ->].
  split; [exact Hc | apply payload_byte_1; exact Hc].
Qed.

Lemma numbers_single (m : Ccp.emitter) :
  (forall ctr fs ctr', m ctr = Ok (fs, ctr') ->
     exists a b h rest name,
       ctr_hex ctr = Ok h /\ ctr' = ctr + 1 /\
       fs = [ {| FrameName := name;
                 DATA := String a (String b (h ++ rest)%string) |} ]) ->
  numbers_frames m.
Proof.
  intros Hm ctr fs ctr' H.
  destruct (Hm _ _ _ H) as [a [b [h [rest [name [Hh [-> ->]]]]]]].
  split; [simpl; lia |].
  destruct (counted_frame a b ctr h rest name Hh) as [Hc Hp].
  apply counted_cons; [exact Hc | exact Hp | apply counted_nil].
Qed.

Lemma connect_frame_numbers station : numbers_frames (Ccp.connect_frame station).
Proof.
  apply numbers_single. intros ctr fs ctr' H. unfold Ccp.connect_frame in H.
  repeat ok_step H. injection H as <- <-.
  do 5 eexists. split; [reflexivity |]. split; reflexivity.
Qed.

Lemma exchange_id_frame_numbers : numbers_frames Ccp.exchange_id_frame.
Proof.
  apply numbers_single. intros ctr fs ctr' H. unfold Ccp.exchange_id_frame in H.
  repeat ok_step H. injection H as <- <-.
  do 5 eexists. split; [reflexivity |]. split; reflexivity.
Qed.

Lemma start_stop_all_frame_numbers : numbers_frames Ccp.start_stop_all_frame.
Proof.
  apply numbers_single. intros ctr fs ctr' H. unfold Ccp.start_stop_all_frame in H.
  repeat ok_step H. injection H as <- <-.
  do 5 eexists. split; [reflexivity |]. split; reflexivity.
Qed.

Lemma start_stop_frame_numbers order sg d :
  numbers_frames (Ccp.start_stop_frame order sg d).
Proof.
  apply numbers_single. intros ctr fs ctr' H. unfold Ccp.start_stop_frame in H.
  destruct (first_signal_of sg d); [| discriminate].
  repeat ok_step H. injection H as <- <-.
  do 5 eexists. split; [reflexivity |]. split; reflexivity.
Qed.

Lemma for_each_numbers {A : Type} (body : A -> Ccp.emitter) (xs : list A) :
  (forall x, numbers_frames (body x)) -> numbers_frames (Ccp.for_each body xs).
Proof.
  intros Hb. induction xs as [| x xs IH]; intros ctr fs ctr' H; simpl in H.
  - injection H as <- <-. split; [simpl; lia | apply counted_nil].
  - destruct (body x ctr) as [[fs1 c1] |] eqn:E1; cbn [bind] in H; [| discriminate].
    destruct (Ccp.for_each body xs c1) as [[fs2 c2] |] eqn:E2;
      cbn [bind] in H; [| discriminate].
    injection H as <- <-.
    destruct (Hb x _ _ _ E1) as [-> H1]. destruct (IH _ _ _ E2) as [-> H2].
    split; [rewrite length_app; lia | apply counted_app; assumption].
Qed.

Lemma counted_cons_frame (a b : ascii) (c : Z) (h rest name : string)
    (fs : list Frame) :
  ctr_hex c = Ok h -> counted (c + 1) fs ->
  counted c ({| FrameName := name;
                DATA := String a (String b (h ++ rest)%string) |} :: fs).
Proof.
  intros Hh Hfs. destruct (counted_frame a b c h rest name Hh) as [Hc Hp].
  apply counted_cons; assumption.
Qed.

Lemma entry_frames_numbers order dn on s :
  numbers_frames (Ccp.entry_frames order dn on s).
Proof.
  intros ctr fs ctr' H. unfold Ccp.entry_frames in H.
  repeat ok_step H. injection H as <- <-.
  split; [simpl; lia |].
  apply counted_cons_frame; [assumption |].
  apply counted_cons_frame; [assumption | apply counted_nil].
Qed.

Lemma chunk_frames_numbers order dn on s chunks :
  forall entry ctr fs entry' ctr',
    Ccp.chunk_frames order dn on s chunks entry ctr = Ok (fs, entry', ctr') ->
    ctr' = ctr + Z.of_nat (List.length fs) /\ counted ctr fs.
Proof.
  induction chunks as [| k chunks IH]; intros entry ctr fs entry' ctr' H;
    cbn [Ccp.chunk_frames] in H.
  - injection H as <- <- <-. split; [simpl; lia | apply counted_nil].
  - repeat ok_step H. injection H as <- <- <-.
    match goal with
    | Er : Ccp.chunk_frames _ _ _ _ chunks _ _ = Ok _ |- _ =>
        destruct (IH _ _ _ _ _ Er) as [-> Hc]
    end.
    split; [simpl List.length; lia |].
    apply counted_cons_frame; [assumption |].
    apply counted_cons_frame; [assumption | exact Hc].
Qed.

Lemma bytes_only_frames_numbers order dn on sigs :
  forall entry, numbers_frames (Ccp.bytes_only_frames order dn on sigs entry).
Proof.
  induction sigs as [| s sigs IH]; intros entry ctr fs ctr' H;
    cbn [Ccp.bytes_only_frames] in H.
  - injection H as <- <-. split; [simpl; lia | apply counted_nil].
  - destruct (Ccp.chunk_frames order dn on s _ entry ctr)
      as [[[fs1 e1] c1] |] eqn:E1; cbn [bind] in H; [| discriminate].
    destruct (Ccp.bytes_only_frames order dn on sigs e1 c1)
      as [[fs2 c2] |] eqn:E2; cbn [bind] in H; [| discriminate].
    injection H as <- <-.
    destruct (chunk_frames_numbers _ _ _ _ _ _ _ _ _ _ E1) as [-> H1].
    destruct (IH _ _ _ _ E2) as [-> H2].
    split; [rewrite length_app; lia | apply counted_app; assumption].
Qed.

Lemma odt_frames_numbers order bytes_only daq_signals dn odt :
  numbers_frames (Ccp.odt_frames order bytes_only daq_signals dn odt).
Proof.
  intros ctr fs ctr' H. unfold Ccp.odt_frames in H.
  ok_step H. destruct bytes_only.
  - eapply bytes_only_frames_numbers; exact H.
  - eapply for_each_numbers; [| exact H].
    intros x. apply entry_frames_numbers.
Qed.

Lemma daq_list_frames_numbers order bytes_only can_id sg d :
  numbers_frames (Ccp.daq_list_frames order bytes_only can_id sg d).
Proof.
  intros ctr fs ctr' H. unfold Ccp.daq_list_frames in H.
  repeat ok_step H. injection H as <- <-.
  match goal with
  | E1 : Ccp.for_each ?b ?xs _ = Ok _ |- _ =>
      assert (Hn : numbers_frames (Ccp.for_each b xs))
        by (apply for_each_numbers; intros x; apply odt_frames_numbers);
      destruct (Hn _ _ _ E1) as [-> H1]
  end.
  split; [simpl List.length; lia |].
  apply counted_cons_frame; [assumption | exact H1].
Qed.

(** The frames of the whole sequence are numbered from 1. *)
Lemma encode_numbers sg p fs ctr' :
  Ccp.encode sg p = Ok (fs, ctr') ->
  ctr' = 1 + Z.of_nat (List.length fs) /\ counted 1 fs.
Proof.
  unfold Ccp.encode. intros H.
  ok_step H. ok_step H.
  destruct (DAQ_LISTS p); [| discriminate].
  destruct (Ccp.connect_frame (ECU_STATION_ADDRESS p) 1) as [[f1 c1] |] eqn:E1;
    cbn [bind] in H; [| discriminate].
  destruct (Ccp.exchange_id_frame c1) as [[f2 c2] |] eqn:E2;
    cbn [bind] in H; [| discriminate].
  match type of H with
  | bind (Ccp.for_each ?b ?xs ?c) _ = _ =>
      destruct (Ccp.for_each b xs c) as [[f3 c3] |] eqn:E3;
      cbn [bind] in H; [| discriminate];
      assert (H3 : numbers_frames (Ccp.for_each b xs))
        by (apply for_each_numbers; intros x; apply daq_list_frames_numbers);
      apply H3 in E3
  end.
  match type of H with
  | bind (Ccp.for_each ?b ?xs ?c) _ = _ =>
      destruct (Ccp.for_each b xs c) as [[f4 c4] |] eqn:E4;
      cbn [bind] in H; [| discriminate];
      assert (H4 : numbers_frames (Ccp.for_each b xs))
        by (apply for_each_numbers; intros x; apply start_stop_frame_numbers);
      apply H4 in E4
  end.
  destruct (Ccp.start_stop_all_frame c4) as [[f5 c5] |] eqn:E5;
    cbn [bind] in H; [| discriminate].
  injection H as <- <-.
  apply connect_frame_numbers in E1. apply exchange_id_frame_numbers in E2.
  apply start_stop_all_frame_numbers in E5.
  destruct E1 as [-> K1], E2 as [-> K2], E3 as [-> K3], E4 as [-> K4], E5 as [-> K5].
  split; [rewrite !length_app; lia |].
  apply counted_app; [exact K1 |].
  apply counted_app; [exact K2 |].
  apply counted_app;
    [replace (1 + _ + _) with (1 + Z.of_nat (List.length f1) + Z.of_nat (List.length f2))
       by lia; exact K3 |].
  apply counted_app;
    [match goal with
     | K : counted ?c' f4 |- counted ?c f4 => replace c with c' by lia; exact K
     end |].
  match goal with
  | K : counted ?c' f5 |- counted ?c f5 => replace c with c' by lia; exact K
  end.
Qed.

(** ** The transmit schedule *)

Lemma transmit_entries_spec idf ffd brs id spacing frames :
  forall delay total entries total',
    transmit_entries idf ffd brs id spacing frames delay total = (entries, total') ->
    total' = total + total_payload_bytes frames /\
    List.length entries = List.length frames /\
    forall i e, nth_error entries i = Some e ->
      tx_delay e = delay + Z.of_nat i * spacing /\
      tx_id e = id /\ tx_id_format e = idf /\
      exists f, nth_error frames i = Some f /\
                tx_name e = FrameName f /\ tx_data e = DATA f.
Proof.
  induction frames as [| f frames IH]; intros delay total entries total' H;
    cbn [transmit_entries] in H.
  - injection H as <- <-. simpl. split; [lia |]. split; [reflexivity |].
    intros [| i] e He; discriminate.
  - match type of H with
    | (let '(_, _) := ?x in _) = _ => destruct x as [es t] eqn:E
    end.
    injection H as <- <-. destruct (IH _ _ _ _ E) as [-> [Hlen Hes]].
    split; [simpl; lia |]. split; [simpl; rewrite Hlen; reflexivity |].
    intros [| i] e He; simpl in He.
    + injection He as <-. cbn. repeat split; try lia. exists f. auto.
    + destruct (Hes i e He) as [Hd [Hid [Hf Hfr]]].
      repeat split; auto. rewrite Hd. lia.
Qed.

(** ** Branches of the CCP encoder that are never taken *)

Lemma int16_failure s e : int16 s = Raise e -> e = ValueError.
Proof.
  unfold int16.
  match goal with
  | |- match ?x with Some _ => _ | None => _ end = _ -> _ => destruct x
  end; congruence.
Qed.

Lemma to_bytes_hex_failure n order v e :
  to_bytes_hex n order v = Raise e -> e = OverflowError.
Proof.
  unfold to_bytes_hex. destruct (_ || _); congruence.
Qed.

Lemma hex_field_failure n order s e :
  hex_field n order s = Raise e -> e = ValueError \/ e = OverflowError.
Proof.
  unfold hex_field. destruct (int16 s) as [v |] eqn:E; cbn [bind].
  - intros H. right. eapply to_bytes_hex_failure; exact H.
  - intros H. injection H as <-. left. eapply int16_failure; exact E.
Qed.

Lemma last_odt_numbers_result d odts :
  forall numbers,
    match Ccp.last_odt_numbers d odts numbers with
    | Ok r => (numbers <> None \/ odts <> []) -> r <> None
    | Raise e => e = ValueError \/ e = OverflowError
    end.
Proof.
  induction odts as [| o odts IH]; intros numbers; simpl.
  - intros [Hn | Hn]; congruence.
  - destruct (hex_field 1 big d) as [dn |] eqn:Ed; cbn [bind];
      [| eapply hex_field_failure; exact Ed].
    destruct (hex_field 1 big o) as [on |] eqn:Eo; cbn [bind];
      [| eapply hex_field_failure; exact Eo].
    specialize (IH (Some (dn, on))).
    destruct (Ccp.last_odt_numbers d odts (Some (dn, on))); [| exact IH].
    intros _. apply IH. left. discriminate.
Qed.

(** For a DAQ list of the grouping, the START_STOP loop finds a signal of
    the list and an ODT: the only failures are those of the conversions,
    neither [StopIteration] nor an unassigned local occurs. *)
Lemma start_stop_frame_failures order sg d ctr e :
  In d (daq_lists_of sg) ->
  Ccp.start_stop_frame order sg d ctr = Raise e ->
  e = ValueError \/ e = OverflowError.
Proof.
  intros Hd. apply daq_lists_of_In in Hd. destruct Hd as [g [Hg Hgd]].
  unfold Ccp.start_stop_frame, first_signal_of.
  destruct (find _ sg) as [s |] eqn:Ef.
  - assert (Hodts : sorted_set (map ODT_NUMBER (daq_signals_of sg d)) <> []).
    { intros E.
      assert (Hin : In (ODT_NUMBER g) (sorted_set (map ODT_NUMBER (daq_signals_of sg d))))
        by (apply sorted_set_In, in_map, daq_signals_of_In; auto).
      rewrite E in Hin. exact Hin. }
    destruct (int16 (EventConfigured (signal s))) as [ev |] eqn:Ee; cbn [bind];
      [| intros H; injection H as <-; left; eapply int16_failure; exact Ee].
    destruct (to_bytes_hex 1 order ev) as [evh |] eqn:Eh; cbn [bind];
      [| intros H; injection H as <-; right; eapply to_bytes_hex_failure; exact Eh].
    pose proof (last_odt_numbers_result d
                  (sorted_set (map ODT_NUMBER (daq_signals_of sg d))) None) as Hl.
    destruct (Ccp.last_odt_numbers d _ None) as [r |]; cbn [bind];
      [| intros H; injection H as <-; exact Hl].
    specialize (Hl (or_intror Hodts)).
    destruct r as [[dn on] |]; [| congruence].
    destruct (ctr_hex ctr) as [c |] eqn:Ec; cbn [bind]; [discriminate |].
    intros H. injection H as <-. right. eapply to_bytes_hex_failure; exact Ec.
  - exfalso. apply (find_none _ _ Ef) in Hg. rewrite Hgd, String.eqb_refl in Hg.
    discriminate.
Qed.

(** ** The capacity check of [group_signals] *)

Lemma odt_count_add_lookup m d o d' :
  counted_odts (odt_count_add m d o) d' =
  if (d' =? d)%string
  then Some (match counted_odts m d with
             | Some set => set_add o set
             | None => [o]
             end)
  else counted_odts m d'.
Proof.
  induction m as [| [k v] m IH]; simpl.
  - rewrite (String.eqb_sym d d'). reflexivity.
  - destruct (String.eqb_spec k d) as [Ekd | Hkd]; simpl.
    + subst k. rewrite (String.eqb_sym d d'). destruct (d' =? d)%string; reflexivity.
    + rewrite IH. destruct (String.eqb_spec d' d) as [Ed | Hd'].
      * subst d'. destruct (String.eqb_spec k d); [contradiction | reflexivity].
      * reflexivity.
Qed.

Lemma odt_count_add_key_In m d o x :
  In x (map fst (odt_count_add m d o)) -> x = d \/ In x (map fst m).
Proof.
  induction m as [| [k v] m IH]; simpl.
  - intros [E | []]. auto.
  - destruct (String.eqb_spec k d); simpl; intros [E | Hin]; auto.
    destruct (IH Hin); auto.
Qed.

Lemma odt_count_add_keys m d o :
  NoDup (map fst m) -> NoDup (map fst (odt_count_add m d o)).
Proof.
  induction m as [| [k v] m IH]; simpl; intros H.
  - repeat constructor. intros [].
  - inversion H as [| ? ? Hk Hm]; subst.
    destruct (String.eqb_spec k d) as [Ekd | Hkd]; simpl.
    + constructor; assumption.
    + constructor; [| apply IH; exact Hm].
      intros Hin. apply odt_count_add_key_In in Hin.
      destruct Hin as [E | Hin]; [congruence | contradiction].
Qed.

Lemma counted_odts_In m d set :
  NoDup (map fst m) -> (In (d, set) m <-> counted_odts m d = Some set).
Proof.
  induction m as [| [k v] m IH]; simpl; intros H.
  - split; [intros [] | discriminate].
  - inversion H as [| ? ? Hk Hm]; subst.
    destruct (String.eqb_spec k d) as [-> | Hkd].
    + split.
      * intros [E | Hin]; [congruence |].
        exfalso. apply Hk. apply (in_map fst) in Hin. exact Hin.
      * intros E. left. congruence.
    + rewrite <- (IH Hm). split; [intros [E | Hin]; [congruence | exact Hin] | auto].
Qed.

Lemma set_add_In x y l : In y (set_add x l) <-> y = x \/ In y l.
Proof.
  unfold set_add. destruct (existsb (String.eqb x) l) eqn:E.
  - apply existsb_eqb_In in E. intuition (subst; auto).
  - rewrite in_app_iff. simpl. intuition (subst; auto).
Qed.

Lemma set_add_NoDup x l : NoDup l -> NoDup (set_add x l).
Proof.
  unfold set_add. intros H. destruct (existsb (String.eqb x) l) eqn:E; [exact H |].
  apply existsb_eqb_notIn in E. apply NoDup_app; repeat split; auto.
  - repeat constructor. intros [].
  - intros a Ha [<- | []]. contradiction.
Qed.

(** What the first loop of the check has counted after the signals [sg]:
    per DAQ list, the distinct ODT identifiers of its signals. *)
Lemma count_odts_spec sg :
  NoDup (map fst (count_odts sg)) /\
  forall d,
    match counted_odts (count_odts sg) d with
    | Some set =>
        NoDup set /\
        forall o, In o set <->
                  exists g, In g sg /\ DAQ_LIST_NUMBER g = d /\ ODT_NUMBER g = o
    | None => forall g, In g sg -> DAQ_LIST_NUMBER g <> d
    end.
Proof.
  unfold count_odts. induction sg as [| g sg IH] using rev_ind.
  - split; [constructor |]. intros d g [].
  - rewrite fold_left_app. simpl. destruct IH as [Hk Hm]. split.
    + apply odt_count_add_keys. exact Hk.
    + intros d. rewrite odt_count_add_lookup.
      destruct (String.eqb_spec d (DAQ_LIST_NUMBER g)) as [-> | Hne].
      * specialize (Hm (DAQ_LIST_NUMBER g)).
        destruct (counted_odts _ (DAQ_LIST_NUMBER g)) as [set |].
        -- destruct Hm as [Hnd Hset]. split; [apply set_add_NoDup; exact Hnd |].
           intros o. rewrite set_add_In, Hset. split.
           ++ intros [-> | [g' [Hg' H']]].
              ** exists g. rewrite in_app_iff. simpl. auto.
              ** exists g'. rewrite in_app_iff. auto.
           ++ intros [g' [Hg' [Hd Ho]]]. apply in_app_or in Hg'.
              destruct Hg' as [Hg' | [<- | []]]; [right; eauto | left; auto].
        -- split; [repeat constructor; intros [] |].
           intros o. simpl. split.
           ++ intros [<- | []]. exists g. rewrite in_app_iff. simpl. auto.
           ++ intros [g' [Hg' [Hd Ho]]]. apply in_app_or in Hg'.
              destruct Hg' as [Hg' | [<- | []]]; [| auto].
              exfalso. exact (Hm g' Hg' Hd).
      * specialize (Hm d). destruct (counted_odts _ d) as [set |].
        -- destruct Hm as [Hnd Hset]. split; [exact Hnd |].
           intros o. rewrite Hset. split; intros [g' [Hg' [Hd Ho]]].
           ++ exists g'. rewrite in_app_iff. auto.
           ++ apply in_app_or in Hg'. destruct Hg' as [Hg' | [<- | []]]; [eauto |].
              congruence.
        -- intros g' Hg'. apply in_app_or in Hg'.
           destruct Hg' as [Hg' | [<- | []]]; [apply Hm; exact Hg' | congruence].
Qed.

(** The number of distinct ODT identifiers counted for a DAQ list is the
    number of its ODTs. *)
Lemma count_odts_length sg d set :
  In (d, set) (count_odts sg) ->
  List.length set = List.length (odts_of sg d) /\
  In d (daq_lists_of sg).
Proof.
  destruct (count_odts_spec sg) as [Hk Hm]. intros Hin.
  apply (counted_odts_In _ _ _ Hk) in Hin. specialize (Hm d). rewrite Hin in Hm.
  destruct Hm as [Hnd Hset]. split.
  - apply Permutation_length, NoDup_Permutation;
      [exact Hnd | apply sorted_set_NoDup |].
    intros o. rewrite Hset, odts_of_In. tauto.
  - apply daq_lists_of_In.
    destruct set as [| o set].
    + (* an entry is created with its first identifier *)
      exfalso. clear -Hin. revert Hin. unfold count_odts.
      induction sg as [| g sg IH] using rev_ind; [discriminate |].
      rewrite fold_left_app. simpl. rewrite odt_count_add_lookup.
      destruct (d =? DAQ_LIST_NUMBER g)%string; [| exact IH].
      destruct (counted_odts _ (DAQ_LIST_NUMBER g)) as [set |]; [| discriminate].
      unfold set_add. destruct (existsb _ set) eqn:E.
      * intros H. injection H as ->. discriminate.
      * destruct set; discriminate.
    + destruct (proj1 (Hset o) (or_introl eq_refl)) as [g [Hg [Hd _]]]. eauto.
Qed.

Lemma count_odts_complete sg d :
  In d (daq_lists_of sg) -> exists set, In (d, set) (count_odts sg).
Proof.
  intros Hd. apply daq_lists_of_In in Hd. destruct Hd as [g [Hg Hgd]].
  destruct (count_odts_spec sg) as [Hk Hm]. specialize (Hm d).
  destruct (counted_odts (count_odts sg) d) as [set |] eqn:E.
  - exists set. apply (counted_odts_In _ _ _ Hk). exact E.
  - exfalso. exact (Hm g Hg Hgd).
Qed.

(** The loop over the counted lists: it returns when every check passes and
    otherwise ends with the failure of the first check that fails. *)
Lemma check_all_result declared items :
  match foldM (fun _ item => check_capacity declared item) items tt with
  | Ok _ => forall item, In item items -> check_capacity declared item = Ok tt
  | Raise e => exists item, In item items /\ check_capacity declared item = Raise e
  end.
Proof.
  induction items as [| item items IH]; simpl; [intros ? [] |].
  destruct (check_capacity declared item) as [[] |] eqn:E; simpl.
  - destruct (foldM _ items tt).
    + intros it [<- | Hin]; [exact E | apply IH; exact Hin].
    + destruct IH as [it [Hin Hit]]. eauto.
  - exists item. auto.
Qed.

(** ** Identifier order and numeric order *)

(** Strings that start with parts of equal length compare part by part. *)
Lemma compare_app_same_length (x1 x2 y1 y2 : string) :
  String.length x1 = String.length x2 ->
  String.compare (x1 ++ y1)%string (x2 ++ y2)%string =
  match String.compare x1 x2 with
  | Eq => String.compare y1 y2
  | c => c
  end.
Proof.
  revert x2. induction x1 as [| a x1 IH]; intros [| b x2] H; simpl in *;
    try discriminate; [reflexivity |].
  destruct (Ascii.compare a b); [apply IH; lia | reflexivity | reflexivity].
Qed.

(** Two hexadecimal digits order the bytes as numbers. *)
Lemma byte_compare (a b : nat) :
  (a < 256)%nat -> (b < 256)%nat ->
  String.compare (Hex.byte (Z.of_nat a)) (Hex.byte (Z.of_nat b)) = Nat.compare a b.
Proof.
  intros Ha Hb.
  assert (E : forallb (fun x => forallb (fun y =>
                 match String.compare (Hex.byte (Z.of_nat x)) (Hex.byte (Z.of_nat y)),
                       Nat.compare x y with
                 | Eq, Eq | Lt, Lt | Gt, Gt => true
                 | _, _ => false
                 end) (seq 0 256)) (seq 0 256) = true)
    by (vm_compute; reflexivity).
  rewrite forallb_forall in E. specialize (E a ltac:(apply in_seq; lia)).
  rewrite forallb_forall in E. specialize (E b ltac:(apply in_seq; lia)).
  destruct (String.compare _ _), (Nat.compare a b); congruence.
Qed.

(** Below 256, the range of [to_bytes(1, ..)] in the encoders, the order
    of the ODT identifiers is the order of the numbers. *)
Lemma odt_id_order (a b : nat) :
  (a < 256)%nat -> (b < 256)%nat ->
  (str_lt (odt_id a) (odt_id b) <-> (a < b)%nat).
Proof.
  intros Ha Hb. unfold str_lt, odt_id. rewrite !fmt2_byte by lia.
  cbn [String.append String.compare].
  replace (Ascii.compare "0" "0") with Eq by reflexivity.
  replace (Ascii.compare "x" "x") with Eq by reflexivity.
  rewrite byte_compare by assumption.
  destruct (Nat.compare_spec a b) as [E | E | E]; split; intros H;
    try discriminate; try reflexivity; lia.
Qed.

(** Past two hexadecimal digits the two orders part: ["0x100" < "0x11"]. *)
Lemma odt_id_order_past_255 : str_lt (odt_id 256) (odt_id 17).
Proof. reflexivity. Qed.

(** [f"{n:04X}"] below 65536 is the high byte followed by the low byte. *)
Lemma fmt4_bytes (h l : Z) :
  0 <= h < 256 -> 0 <= l < 256 ->
  Hex.fmt 4 (256 * h + l) = (Hex.byte h ++ Hex.byte l)%string.
Proof.
  intros Hh Hl.
  assert (E : forallb (fun x => forallb (fun y =>
                 (Hex.fmt 4 (256 * Z.of_nat x + Z.of_nat y) =?
                  Hex.byte (Z.of_nat x) ++ Hex.byte (Z.of_nat y))%string)
                 (seq 0 256)) (seq 0 256) = true)
    by (vm_compute; reflexivity).
  rewrite forallb_forall in E.
  specialize (E (Z.to_nat h) ltac:(apply in_seq; lia)).
  rewrite forallb_forall in E.
  specialize (E (Z.to_nat l) ltac:(apply in_seq; lia)).
  rewrite !Z2Nat.id in E by lia. apply String.eqb_eq. exact E.
Qed.

(** Below 65536, the range of [to_bytes(2, ..)] in the XCP encoder, the
    order of the DAQ list identifiers is the order of the numbers. *)
Lemma daq_id_order_two_bytes (a b : nat) :
  Z.of_nat a < 65536 -> Z.of_nat b < 65536 ->
  (str_lt (daq_id a) (daq_id b) <-> (a < b)%nat).
Proof.
  intros Ha Hb.
  assert (split : forall n : nat, Z.of_nat n < 65536 ->
            (n / 256 < 256)%nat /\ (n mod 256 < 256)%nat /\
            daq_id n = String "0" (String "x"
                         (Hex.byte (Z.of_nat (n / 256))
                          ++ Hex.byte (Z.of_nat (n mod 256))))).
  { intros n Hn.
    assert (Hh : (n / 256 < 256)%nat)
      by (apply Nat2Z.inj_lt; rewrite Nat2Z.inj_div;
          apply Z.div_lt_upper_bound; lia).
    pose proof (Nat.mod_upper_bound n 256 ltac:(lia)) as Hl.
    split; [exact Hh |]. split; [exact Hl |].
    unfold daq_id. rewrite <- fmt4_bytes by lia.
    replace (256 * Z.of_nat (n / 256) + Z.of_nat (n mod 256)) with (Z.of_nat n);
      [reflexivity |].
    rewrite (Nat.div_mod_eq n 256) at 1. lia. }
  destruct (split a Ha) as [Hha [Hla ->]]. destruct (split b Hb) as [Hhb [Hlb ->]].
  unfold str_lt. cbn [String.compare].
  replace (Ascii.compare "0" "0") with Eq by reflexivity.
  replace (Ascii.compare "x" "x") with Eq by reflexivity.
  rewrite compare_app_same_length by reflexivity.
  rewrite !byte_compare by assumption.
  pose proof (Nat.div_mod_eq a 256) as Ea. pose proof (Nat.div_mod_eq b 256) as Eb.
  destruct (Nat.compare_spec (a / 256) (b / 256)) as [E | E | E];
    [destruct (Nat.compare_spec (a mod 256) (b mod 256)) as [F | F | F] | |];
    split; intros H; try discriminate; try reflexivity; lia.
Qed.

(** On identifiers in the range the encoders accept, the order in which
    [create_dbc] and the encoders enumerate the ODTs is the ascending
    order of the pairs of numbers. *)
Lemma odt_key_order (d1 o1 d2 o2 : nat) :
  Z.of_nat d1 < 65536 -> Z.of_nat d2 < 65536 ->
  (o1 < 256)%nat -> (o2 < 256)%nat ->
  (odt_key_lt (daq_id d1, odt_id o1) (daq_id d2, odt_id o2) <->
   (d1 < d2)%nat \/ (d1 = d2 /\ (o1 < o2)%nat)).
Proof.
  intros Hd1 Hd2 Ho1 Ho2. unfold odt_key_lt. cbn [fst snd].
  rewrite daq_id_order_two_bytes, odt_id_order by assumption.
  split; (intros [H | [E H]]; [left; exact H | right; split; [| exact H]]).
  - apply (fmt_0x_inj 4). exact E.
  - rewrite E. reflexivity.
Qed.

(** ** The identifiers the encoders accept *)

Lemma hex_field_range n order s t :
  hex_field n order s = Ok t ->
  exists v, int16 s = Ok v /\ 0 <= v < 256 ^ Z.of_nat n.
Proof.
  unfold hex_field, to_bytes_hex. intros H.
  destruct (int16 s) as [v |]; [| discriminate]. cbn [bind] in H.
  exists v. split; [reflexivity |].
  destruct (v <? 0) eqn:E1; [discriminate |].
  destruct (256 ^ Z.of_nat n <=? v) eqn:E2; [discriminate |].
  apply Z.ltb_ge in E1. apply Z.leb_gt in E2. lia.
Qed.

Lemma mapM_In {A B : Type} (f : A -> result B) (xs : list A) :
  forall ys x, mapM f xs = Ok ys -> In x xs -> exists y, f x = Ok y.
Proof.
  induction xs as [| a xs IH]; intros ys x H Hin; [destruct Hin |].
  simpl in H. destruct (f a) as [b |] eqn:Ea; [| discriminate]. cbn [bind] in H.
  destruct (mapM f xs) as [bs |] eqn:Em; [| discriminate].
  destruct Hin as [<- | Hin]; [eauto | eapply IH; [reflexivity | exact Hin]].
Qed.

Lemma concatM_In {A B : Type} (f : A -> result (list B)) (xs : list A) :
  forall ys x, Xcp.concatM f xs = Ok ys -> In x xs -> exists y, f x = Ok y.
Proof.
  induction xs as [| a xs IH]; intros ys x H Hin; [destruct Hin |].
  simpl in H. destruct (f a) as [b |] eqn:Ea; [| discriminate]. cbn [bind] in H.
  destruct (Xcp.concatM f xs) as [bs |] eqn:Em; [| discriminate].
  destruct Hin as [<- | Hin]; [eauto | eapply IH; [reflexivity | exact Hin]].
Qed.

Lemma for_each_In {A : Type} (body : A -> Ccp.emitter) (xs : list A) :
  forall ctr r x, Ccp.for_each body xs ctr = Ok r -> In x xs ->
    exists c r', body x c = Ok r'.
Proof.
  induction xs as [| a xs IH]; intros ctr r x H Hin; [destruct Hin |].
  simpl in H. destruct (body a ctr) as [[fs c] |] eqn:Ea; [| discriminate].
  cbn [bind] in H.
  destruct (Ccp.for_each body xs c) as [r' |] eqn:Em; [| discriminate].
  destruct Hin as [<- | Hin]; [eauto | eapply IH; [exact Em | exact Hin]].
Qed.

(** The XCP encoder returns only for groupings whose DAQ list numbers fit
    two bytes and whose ODT numbers fit one. *)
Lemma xcp_encoder_id_range sg p frames g :
  Xcp.create_daq_frames_xcp sg p = Ok frames -> In g sg ->
  exists d o,
    int16 (DAQ_LIST_NUMBER g) = Ok d /\ 0 <= d < 65536 /\
    int16 (ODT_NUMBER g) = Ok o /\ 0 <= o < 256.
Proof.
  unfold Xcp.create_daq_frames_xcp. intros H Hg.
  do 4 ok_step H.
  assert (Hd : In (DAQ_LIST_NUMBER g) (daq_lists_of sg))
    by (apply daq_lists_of_In; eauto).
  assert (Ho : In (ODT_NUMBER g) (odts_of sg (DAQ_LIST_NUMBER g)))
    by (apply odts_of_In; eauto).
  match goal with
  | E : Xcp.concatM (Xcp.al_odt_entries _ _) _ = Ok _ |- _ =>
      destruct (concatM_In _ _ _ _ E Hd) as [fs Hfs]
  end.
  unfold Xcp.al_odt_entries in Hfs.
  destruct (hex_field 2 (BYTE_ORDER p) (DAQ_LIST_NUMBER g)) as [dn |] eqn:Edn;
    [| discriminate].
  cbn [bind] in Hfs. destruct (mapM_In _ _ _ _ Hfs Ho) as [f Hf].
  unfold Xcp.al_odt_entry in Hf.
  destruct (hex_field 1 big (ODT_NUMBER g)) as [on |] eqn:Eon; [| discriminate].
  destruct (hex_field_range _ _ _ _ Edn) as [d [Hd1 Hd2]].
  destruct (hex_field_range _ _ _ _ Eon) as [o [Ho1 Ho2]].
  change (256 ^ Z.of_nat 2) with 65536 in Hd2.
  change (256 ^ Z.of_nat 1) with 256 in Ho2.
  exists d, o. repeat split; auto; lia.
Qed.

(** The CCP encoder returns only for groupings whose DAQ list numbers and
    ODT numbers fit one byte. *)
Lemma ccp_encoder_id_range sg p frames g :
  Ccp.create_daq_frames_ccp sg p = Ok frames -> In g sg ->
  exists d o,
    int16 (DAQ_LIST_NUMBER g) = Ok d /\ 0 <= d < 256 /\
    int16 (ODT_NUMBER g) = Ok o /\ 0 <= o < 256.
Proof.
  unfold Ccp.create_daq_frames_ccp. intros H Hg.
  destruct (Ccp.encode sg p) as [[fs c] |] eqn:E; [| discriminate]. clear H.
  unfold Ccp.encode in E.
  do 2 ok_step E. destruct (DAQ_LISTS p); [| discriminate].
  do 5 ok_step E.
  assert (Hd : In (DAQ_LIST_NUMBER g) (daq_lists_of sg))
    by (apply daq_lists_of_In; eauto).
  match goal with
  | F : Ccp.for_each (Ccp.daq_list_frames _ _ _ _) _ _ = Ok _ |- _ =>
      destruct (for_each_In _ _ _ _ _ F Hd) as [c1 [r1 Hr1]]
  end.
  unfold Ccp.daq_list_frames in Hr1.
  destruct (hex_field 1 big (DAQ_LIST_NUMBER g)) as [dn |] eqn:Edn; [| discriminate].
  cbn [bind] in Hr1. do 3 ok_step Hr1.
  assert (Ho : In (ODT_NUMBER g)
                  (sorted_set (map ODT_NUMBER
                                 (daq_signals_of sg (DAQ_LIST_NUMBER g)))))
    by (apply sorted_set_In, in_map, daq_signals_of_In; auto).
  match goal with
  | F : Ccp.for_each (Ccp.odt_frames _ _ _ _) _ _ = Ok _ |- _ =>
      destruct (for_each_In _ _ _ _ _ F Ho) as [c2 [r2 Hr2]]
  end.
  unfold Ccp.odt_frames in Hr2.
  destruct (hex_field 1 big (ODT_NUMBER g)) as [on |] eqn:Eon; [| discriminate].
  destruct (hex_field_range _ _ _ _ Edn) as [d [Hd1 Hd2]].
  destruct (hex_field_range _ _ _ _ Eon) as [o [Ho1 Ho2]].
  change (256 ^ Z.of_nat 1) with 256 in Hd2, Ho2.
  exists d, o. repeat split; auto; lia.
Qed.

(** ** The identifiers [group_signals] writes *)

Lemma assign_odts_odt mp d sigs :
  forall oc sz es g, In g (assign_odts mp d sigs oc sz es) ->
    exists o, ODT_NUMBER g = odt_id o.
Proof.
  induction sigs as [| s sigs IH]; intros oc sz es g Hg; [destruct Hg |].
  rewrite assign_odts_cons in Hg. cbv zeta in Hg.
  destruct (sz + Length s >? mp); destruct Hg as [<- | Hg];
    try (eexists; reflexivity); eapply IH; exact Hg.
Qed.

Lemma assign_daq_lists_ids mp B :
  forall d0 g, In g (assign_daq_lists mp B d0) ->
    exists d o, DAQ_LIST_NUMBER g = daq_id d /\ ODT_NUMBER g = odt_id o.
Proof.
  induction B as [| [ch sigs] B IH]; intros d0 g Hg; [destruct Hg |].
  simpl in Hg. apply in_app_or in Hg. destruct Hg as [Hg | Hg].
  - destruct (assign_odts_odt _ _ _ _ _ _ _ Hg) as [o Ho].
    exists d0, o. split; [eapply assign_odts_daq; exact Hg | exact Ho].
  - eapply IH; exact Hg.
Qed.

(** In a run of the script [create_dbc] receives a grouping that
    [group_signals] has returned and that the encoder of the protocol has
    accepted: its identifiers are [f"0x{d:04X}"] and [f"0x{o:02X}"] for
    numbers [d] and [o] in the range where the order of the identifiers is
    the order of the numbers ([odt_key_order]). *)
Lemma script_id_range signals p pr sg frames g :
  group_signals signals p pr = Ok sg ->
  match pr with
  | xcp => Xcp.create_daq_frames_xcp sg p
  | ccp => Ccp.create_daq_frames_ccp sg p
  end = Ok frames ->
  In g sg ->
  exists d o,
    DAQ_LIST_NUMBER g = daq_id d /\ ODT_NUMBER g = odt_id o /\
    Z.of_nat d < 65536 /\ (o < 256)%nat.
Proof.
  intros Hgr Henc Hg.
  destruct (group_signals_ok _ _ _ _ Hgr) as [_ [mp [_ Hsg]]].
  assert (Hids : exists d o,
            DAQ_LIST_NUMBER g = daq_id d /\ ODT_NUMBER g = odt_id o)
    by (apply (assign_daq_lists_ids mp (group_by_event signals) 0%nat);
        rewrite <- Hsg; exact Hg).
  destruct Hids as [d [o [Ed Eo]]].
  assert (Hr : exists dv ov,
            int16 (DAQ_LIST_NUMBER g) = Ok dv /\ 0 <= dv < 65536 /\
            int16 (ODT_NUMBER g) = Ok ov /\ 0 <= ov < 256).
  { destruct pr.
    - destruct (ccp_encoder_id_range _ _ _ _ Henc Hg) as [dv [ov H]].
      exists dv, ov. intuition lia.
    - exact (xcp_encoder_id_range _ _ _ _ Henc Hg). }
  destruct Hr as [dv [ov [Hdv [Hdr [Hov Hor]]]]].
  rewrite Ed in Hdv. rewrite Eo in Hov. unfold daq_id, odt_id in Hdv, Hov.
  rewrite int16_0x_fmt in Hdv, Hov by lia.
  injection Hdv as <-. injection Hov as <-.
  exists d, o. repeat split; auto; lia.
Qed.

Lemma StronglySorted_nth_error {A : Type} (R : A -> A -> Prop) (l : list A) :
  StronglySorted R l ->
  forall i j a b, (i < j)%nat ->
    nth_error l i = Some a -> nth_error l j = Some b -> R a b.
Proof.
  induction 1 as [| x l Hl IH Hx]; intros i j a b Hij Hi Hj.
  - destruct i; discriminate.
  - destruct j as [| j]; [lia |]. simpl in Hj. destruct i as [| i]; simpl in Hi.
    + injection Hi as <-. rewrite Forall_forall in Hx.
      apply Hx. eapply nth_error_In. exact Hj.
    + apply (IH i j); [lia | exact Hi | exact Hj].
Qed.

(** In a run of the script the enumeration of the ODTs by [create_dbc]
    (and by the encoders) is ascending in the numbers of the DAQ lists and
    of the ODTs. *)
Lemma script_keys_ascend signals p pr sg frames :
  group_signals signals p pr = Ok sg ->
  match pr with
  | xcp => Xcp.create_daq_frames_xcp sg p
  | ccp => Ccp.create_daq_frames_ccp sg p
  end = Ok frames ->
  forall i j k1 k2, (i < j)%nat ->
    nth_error (odt_keys sg) i = Some k1 ->
    nth_error (odt_keys sg) j = Some k2 ->
    exists d1 o1 d2 o2,
      k1 = (daq_id d1, odt_id o1) /\ k2 = (daq_id d2, odt_id o2) /\
      ((d1 < d2)%nat \/ (d1 = d2 /\ (o1 < o2)%nat)).
Proof.
  intros Hgr Henc i j k1 k2 Hij H1 H2.
  pose proof (StronglySorted_nth_error _ _ (odt_keys_sorted sg) _ _ _ _ Hij H1 H2)
    as Hlt.
  assert (Hkey : forall k, In k (odt_keys sg) ->
            exists d o, k = (daq_id d, odt_id o) /\
                        Z.of_nat d < 65536 /\ (o < 256)%nat).
  { intros [d o] Hk. apply odt_keys_In in Hk. destruct Hk as [g [Hg [Hd Ho]]].
    destruct (script_id_range _ _ _ _ _ _ Hgr Henc Hg) as [dn [on [Ed [Eo [Hdn Hon]]]]].
    exists dn, on. split; [congruence | auto]. }
  destruct (Hkey k1 (nth_error_In _ _ H1)) as [d1 [o1 [-> [Hd1 Ho1]]]].
  destruct (Hkey k2 (nth_error_In _ _ H2)) as [d2 [o2 [-> [Hd2 Ho2]]]].
  exists d1, o1, d2, o2. split; [reflexivity |]. split; [reflexivity |].
  apply odt_key_order; assumption.
Qed.

(** ** Sums over the DAQ lists and ODTs of a grouping *)

Lemma list_sum_zero {A : Type} (l : list A) : list_sum (map (fun _ => 0%nat) l) = 0%nat.
Proof. induction l; simpl; auto. Qed.

Lemma list_sum_add {A : Type} (f g : A -> nat) (l : list A) :
  list_sum (map (fun x => (f x + g x)%nat) l)
  = (list_sum (map f l) + list_sum (map g l))%nat.
Proof. induction l as [| a l IH]; simpl; [reflexivity | rewrite IH; lia]. Qed.

Lemma list_sum_indicator (k : string) (c : nat) (ks : list string) :
  NoDup ks -> In k ks ->
  list_sum (map (fun x => if (k =? x)%string then c else 0%nat) ks) = c.
Proof.
  induction 1 as [| x ks Hx Hnd IH]; intros Hin; [destruct Hin |]. simpl.
  destruct (k =? x)%string eqn:E.
  - apply String.eqb_eq in E. subst x.
    rewrite (map_ext_in _ (fun _ => 0%nat)), list_sum_zero; [lia |].
    intros y Hy. destruct (k =? y)%string eqn:E'; [| reflexivity].
    apply String.eqb_eq in E'. subst y. contradiction.
  - destruct Hin as [-> | Hin]; [rewrite String.eqb_refl in E; discriminate |].
    rewrite IH by exact Hin. reflexivity.
Qed.

(** Summing a weight over the classes of a list by a key gives the weight
    of the list. *)
Lemma list_sum_by_key {A : Type} (key : A -> string) (w : A -> nat)
    (ks : list string) (l : list A) :
  NoDup ks -> (forall a, In a l -> In (key a) ks) ->
  list_sum (map (fun x => list_sum (map w (filter (fun a => (key a =? x)%string) l))) ks)
  = list_sum (map w l).
Proof.
  intros Hnd. induction l as [| a l IH]; intros Hin; simpl.
  - apply list_sum_zero.
  - rewrite <- IH by (intros b Hb; apply Hin; right; exact Hb).
    rewrite <- (list_sum_indicator (key a) (w a) ks Hnd)
      by (apply Hin; left; reflexivity).
    rewrite <- list_sum_add. f_equal. apply map_ext. intros x.
    destruct (key a =? x)%string; reflexivity.
Qed.

Lemma entries_written_by_odt bytes_only (l : list GroupedSignal) :
  list_sum (map (fun o => entries_written bytes_only
                            (filter (fun s => (ODT_NUMBER s =? o)%string) l))
                (sorted_set (map ODT_NUMBER l)))
  = entries_written bytes_only l.
Proof.
  unfold entries_written. apply list_sum_by_key; [apply sorted_set_NoDup |].
  intros a Ha. apply sorted_set_In, in_map, Ha.
Qed.

Lemma entries_written_by_daq_list bytes_only (sg : list GroupedSignal) :
  list_sum (map (fun d => entries_written bytes_only (daq_signals_of sg d))
                (daq_lists_of sg))
  = entries_written bytes_only sg.
Proof.
  unfold entries_written, daq_signals_of, daq_lists_of.
  apply list_sum_by_key; [apply sorted_set_NoDup |].
  intros a Ha. apply sorted_set_In, in_map, Ha.
Qed.

(** ** The shape of the CCP command sequence *)

Lemma for_each_shape {A : Type} (body : A -> Ccp.emitter) (w : A -> nat)
    (P : Frame -> Prop) (xs : list A) :
  (forall x, In x xs -> forall ctr fs ctr', body x ctr = Ok (fs, ctr') ->
     List.length fs = w x /\ Forall P fs) ->
  forall ctr fs ctr', Ccp.for_each body xs ctr = Ok (fs, ctr') ->
    List.length fs = list_sum (map w xs) /\ Forall P fs.
Proof.
  induction xs as [| x xs IH]; intros Hb ctr fs ctr' H; simpl in H.
  - injection H as <- <-. split; [reflexivity | constructor].
  - destruct (body x ctr) as [[fs1 c1] |] eqn:E1; cbn [bind] in H; [| discriminate].
    destruct (Ccp.for_each body xs c1) as [[fs2 c2] |] eqn:E2;
      cbn [bind] in H; [| discriminate].
    injection H as <- <-.
    destruct (Hb x (or_introl eq_refl) _ _ _ E1) as [L1 F1].
    destruct (IH (fun y Hy => Hb y (or_intror Hy)) _ _ _ E2) as [L2 F2].
    split; [rewrite length_app; simpl; lia | apply Forall_app; auto].
Qed.

Lemma ctr_hex_length c h : ctr_hex c = Ok h -> String.length h = 2%nat.
Proof. apply to_bytes_hex_length. Qed.

Lemma fmt2_length (v : Z) : 0 <= v < 256 -> String.length (Hex.fmt 2 v) = 2%nat.
Proof. intros H. rewrite fmt2_byte by exact H. reflexivity. Qed.

Ltac full_frame_tac :=
  unfold full_frame, Ccp.address_extension, Ccp.start_stop_mode; cbn [DATA];
  repeat match goal with
         | H : ctr_hex _ = Ok _ |- _ => apply ctr_hex_length in H
         | H : hex_field _ _ _ = Ok _ |- _ => apply hex_field_length in H
         | H : to_bytes_hex _ _ _ = Ok _ |- _ => apply to_bytes_hex_length in H
         end;
  repeat (progress cbn [String.length String.append]
          || rewrite str_length_app
          || rewrite fmt2_length by assumption);
  lia.

Lemma entry_frames_shape order dn on s :
  String.length dn = 2%nat -> String.length on = 2%nat ->
  forall ctr fs ctr', Ccp.entry_frames order dn on s ctr = Ok (fs, ctr') ->
    List.length fs = 2%nat /\
    (0 <= Length (signal s) < 256 -> Forall full_frame fs).
Proof.
  intros Hdn Hon ctr fs ctr' H. unfold Ccp.entry_frames in H.
  repeat ok_step H. injection H as <- <-.
  split; [reflexivity |]. intros HL.
  constructor; [full_frame_tac |]. constructor; [full_frame_tac | constructor].
Qed.

Lemma chunk_frames_shape order dn on s chunks :
  String.length dn = 2%nat -> String.length on = 2%nat ->
  forall entry ctr fs entry' ctr',
    Ccp.chunk_frames order dn on s chunks entry ctr = Ok (fs, entry', ctr') ->
    List.length fs = (2 * List.length chunks)%nat /\ Forall full_frame fs.
Proof.
  intros Hdn Hon.
  induction chunks as [| k chunks IH]; intros entry ctr fs entry' ctr' H;
    cbn [Ccp.chunk_frames] in H.
  - injection H as <- <- <-. split; [reflexivity | constructor].
  - repeat ok_step H. injection H as <- <- <-.
    match goal with
    | Er : Ccp.chunk_frames _ _ _ _ chunks _ _ = Ok _ |- _ =>
        destruct (IH _ _ _ _ _ Er) as [L F]
    end.
    split; [simpl; lia |].
    constructor; [full_frame_tac |]. constructor; [full_frame_tac | exact F].
Qed.

Lemma bytes_only_frames_shape order dn on sigs :
  String.length dn = 2%nat -> String.length on = 2%nat ->
  forall entry ctr fs ctr',
    Ccp.bytes_only_frames order dn on sigs entry ctr = Ok (fs, ctr') ->
    List.length fs = (2 * entries_written true sigs)%nat /\ Forall full_frame fs.
Proof.
  intros Hdn Hon.
  induction sigs as [| s sigs IH]; intros entry ctr fs ctr' H;
    cbn [Ccp.bytes_only_frames] in H.
  - injection H as <- <-. split; [reflexivity | constructor].
  - destruct (Ccp.chunk_frames order dn on s _ entry ctr)
      as [[[fs1 e1] c1] |] eqn:E1; cbn [bind] in H; [| discriminate].
    destruct (Ccp.bytes_only_frames order dn on sigs e1 c1)
      as [[fs2 c2] |] eqn:E2; cbn [bind] in H; [| discriminate].
    injection H as <- <-.
    destruct (chunk_frames_shape _ _ _ _ _ Hdn Hon _ _ _ _ _ E1) as [L1 F1].
    destruct (IH _ _ _ _ E2) as [L2 F2].
    rewrite length_seq in L1.
    split; [| apply Forall_app; auto].
    rewrite length_app, L1, L2. unfold entries_written.
    cbn [map entries_of].
    change (list_sum (?a :: ?l)) with (a + list_sum l)%nat. lia.
Qed.

Lemma list_sum_scale {A : Type} (c : nat) (f : A -> nat) (l : list A) :
  list_sum (map (fun x => (c * f x)%nat) l) = (c * list_sum (map f l))%nat.
Proof.
  induction l as [| a l IH]; simpl; [lia |].
  change (list_sum (map (fun x => (c * f x)%nat) l))
    with (list_sum (map (fun x => (c * f x)%nat) l)) in *.
  rewrite IH. lia.
Qed.

Lemma list_sum_succ {A : Type} (f : A -> nat) (l : list A) :
  list_sum (map (fun x => S (f x)) l) = (List.length l + list_sum (map f l))%nat.
Proof. induction l as [| a l IH]; simpl; [reflexivity | rewrite IH; lia]. Qed.

(** The frames are full when the lengths fit the length byte of WRITE_DAQ
    (no condition when the entries are written byte by byte). *)
Lemma odt_frames_shape order bytes_only daq_signals dn odt :
  String.length dn = 2%nat ->
  forall ctr fs ctr',
    Ccp.odt_frames order bytes_only daq_signals dn odt ctr = Ok (fs, ctr') ->
    List.length fs
    = (2 * entries_written bytes_only
             (filter (fun s => (ODT_NUMBER s =? odt)%string) daq_signals))%nat /\
    Forall (fun f =>
              (bytes_only = false ->
               Forall (fun s => 0 <= Length (signal s) < 256) daq_signals) ->
              full_frame f) fs.
Proof.
  intros Hdn ctr fs ctr' H. unfold Ccp.odt_frames in H.
  destruct (hex_field 1 big odt) as [on |] eqn:Eon; cbn [bind] in H; [| discriminate].
  apply hex_field_length in Eon.
  destruct bytes_only.
  - destruct (bytes_only_frames_shape _ _ _ _ Hdn Eon _ _ _ _ H) as [L F].
    split; [exact L |]. eapply Forall_impl; [| exact F]. auto.
  - unfold entries_written. rewrite <- list_sum_scale.
    eapply for_each_shape; [| exact H].
    intros s Hs c fs0 c' H0. apply filter_In in Hs.
    destruct (entry_frames_shape _ _ _ _ Hdn Eon _ _ _ H0) as [L F].
    split; [exact L |]. apply Forall_forall. intros f Hf HL.
    specialize (HL eq_refl). rewrite Forall_forall in HL.
    specialize (F (HL s (proj1 Hs))). rewrite Forall_forall in F. auto.
Qed.

Lemma daq_list_frames_shape order bytes_only can_id sg d :
  forall ctr fs ctr',
    Ccp.daq_list_frames order bytes_only can_id sg d ctr = Ok (fs, ctr') ->
    List.length fs = S (2 * entries_written bytes_only (daq_signals_of sg d)) /\
    Forall (fun f =>
              (bytes_only = false ->
               Forall (fun s => 0 <= Length (signal s) < 256) sg) ->
              full_frame f) fs.
Proof.
  intros ctr fs ctr' H. unfold Ccp.daq_list_frames in H.
  repeat ok_step H. injection H as <- <-.
  match goal with
  | Edn : hex_field 1 big d = Ok ?dn, F : Ccp.for_each _ _ _ = Ok _ |- _ =>
      pose proof (hex_field_length _ _ _ _ Edn) as Hdn;
      destruct (for_each_shape _ _ _ _
                  (fun o _ => odt_frames_shape order bytes_only
                                (daq_signals_of sg d) dn o Hdn)
                  _ _ _ F) as [L F']
  end.
  rewrite list_sum_scale, entries_written_by_odt in L.
  split; [simpl; rewrite L; reflexivity |].
  constructor; [intros _; full_frame_tac |].
  eapply Forall_impl; [| exact F']. intros f Hf HL. apply Hf.
  intros Hb. specialize (HL Hb). rewrite Forall_forall in *.
  intros s Hs. apply HL. apply daq_signals_of_In in Hs. apply Hs.
Qed.

Lemma start_stop_frame_shape order sg d ctr fs ctr' :
  Ccp.start_stop_frame order sg d ctr = Ok (fs, ctr') ->
  List.length fs = 1%nat /\ Forall full_frame fs.
Proof.
  unfold Ccp.start_stop_frame. intros H.
  destruct (first_signal_of sg d); [| discriminate].
  do 2 ok_step H.
  destruct (Ccp.last_odt_numbers d _ None) as [[[dn on] |] |] eqn:El;
    cbn [bind] in H; try discriminate.
  ok_step H. injection H as <- <-.
  split; [reflexivity |].
  assert (Hn : forall odts numbers dn on,
            Ccp.last_odt_numbers d odts numbers = Ok (Some (dn, on)) ->
            (forall x y, numbers = Some (x, y) ->
               String.length x = 2%nat /\ String.length y = 2%nat) ->
            String.length dn = 2%nat /\ String.length on = 2%nat).
  { induction odts as [| o odts IH]; intros numbers dn' on' Hl Hnum; simpl in Hl.
    - injection Hl as ->. apply Hnum. reflexivity.
    - destruct (hex_field 1 big d) as [x |] eqn:Ex; cbn [bind] in Hl; [| discriminate].
      destruct (hex_field 1 big o) as [y |] eqn:Ey; cbn [bind] in Hl; [| discriminate].
      apply (IH _ _ _ Hl). intros x' y' Exy. injection Exy as <- <-.
      split; [exact (hex_field_length _ _ _ _ Ex) | exact (hex_field_length _ _ _ _ Ey)]. }
  destruct (Hn _ _ _ _ El) as [Hdn Hon]; [intros x y Exy; discriminate |].
  constructor; [full_frame_tac | constructor].
Qed.

(** The whole sequence: CONNECT, EXCHANGE_ID, per DAQ list a GET_DAQ_SIZE and
    two frames per ODT entry, a START_STOP per DAQ list, START_STOP_ALL; all
    of them 8 bytes long. *)
Lemma encode_shape sg p fs ctr' :
  Ccp.encode sg p = Ok (fs, ctr') ->
  List.length fs
  = (3 + 2 * List.length (daq_lists_of sg)
       + 2 * entries_written (BYTES_ONLY p) sg)%nat /\
  ((BYTES_ONLY p = false -> Forall (fun s => 0 <= Length (signal s) < 256) sg) ->
   Forall full_frame fs).
Proof.
  intros H. unfold Ccp.encode in H.
  do 2 ok_step H. destruct (DAQ_LISTS p); [| discriminate].
  destruct (Ccp.connect_frame (ECU_STATION_ADDRESS p) 1) as [[f1 c1] |] eqn:E1;
    cbn [bind] in H; [| discriminate].
  destruct (Ccp.exchange_id_frame c1) as [[f2 c2] |] eqn:E2;
    cbn [bind] in H; [| discriminate].
  match type of H with
  | bind (Ccp.for_each ?b ?xs ?c) _ = _ =>
      destruct (Ccp.for_each b xs c) as [[f3 c3] |] eqn:E3;
      cbn [bind] in H; [| discriminate]
  end.
  match type of H with
  | bind (Ccp.for_each ?b ?xs ?c) _ = _ =>
      destruct (Ccp.for_each b xs c) as [[f4 c4] |] eqn:E4;
      cbn [bind] in H; [| discriminate]
  end.
  destruct (Ccp.start_stop_all_frame c4) as [[f5 c5] |] eqn:E5;
    cbn [bind] in H; [| discriminate].
  injection H as <- <-.
  destruct (for_each_shape _ _ _ _
              (fun d _ => daq_list_frames_shape (BYTE_ORDER p) (BYTES_ONLY p) _ sg d)
              _ _ _ E3) as [L3 F3].
  destruct (for_each_shape _ (fun _ => 1%nat) _ _
              (fun d _ c fs c' => start_stop_frame_shape (BYTE_ORDER p) sg d c fs c')
              _ _ _ E4) as [L4 F4].
  rewrite list_sum_succ, list_sum_scale, entries_written_by_daq_list in L3.
  rewrite (list_sum_scale 1 (fun _ => 1%nat)) in L4 || idtac.
  assert (L4' : List.length f4 = List.length (daq_lists_of sg)).
  { rewrite L4. clear. induction (daq_lists_of sg); simpl; auto. }
  unfold Ccp.connect_frame in E1. unfold Ccp.exchange_id_frame in E2.
  unfold Ccp.start_stop_all_frame in E5.
  repeat ok_step E1. repeat ok_step E2. repeat ok_step E5.
  injection E1 as <- <-. injection E2 as <- <-. injection E5 as <- <-.
  split.
  - rewrite !length_app, L3, L4'. simpl. lia.
  - intros HL. rewrite Forall_forall in F3.
    repeat (apply Forall_app; split); auto;
      try (constructor; [full_frame_tac | constructor]).
    apply Forall_forall. intros f Hf. apply (F3 f Hf HL).
Qed.

(** ** The format flags of the transmit list *)

Lemma transmit_entries_flags idf ffd brs id spacing frames :
  forall delay total entries total',
    transmit_entries idf ffd brs id spacing frames delay total = (entries, total') ->
    forall i e, nth_error entries i = Some e ->
      tx_state e = 1 /\ tx_log e = 1 /\ tx_period e = 0 /\ tx_brs e = brs /\
      tx_frame_format e
      = (if (16 <? String.length (tx_data e))%nat then 1 else ffd).
Proof.
  induction frames as [| f frames IH]; intros delay total entries total' H;
    cbn [transmit_entries] in H.
  - injection H as <- <-. intros [| i] e He; discriminate.
  - match type of H with
    | (let '(_, _) := ?x in _) = _ => destruct x as [es t] eqn:E
    end.
    injection H as <- <-. intros [| i] e He; simpl in He.
    + injection He as <-. cbn. auto.
    + eapply IH; eassumption.
Qed.

Lemma total_payload_full (frames : list Frame) :
  Forall full_frame frames ->
  total_payload_bytes frames = 8 * Z.of_nat (List.length frames).
Proof.
  induction 1 as [| f frames Hf _ IH]; [reflexivity |].
  unfold total_payload_bytes in *. cbn [fold_right List.length].
  rewrite IH, Hf. change (Z.of_nat (16 / 2)) with 8. lia.
Qed.

(** ** The bit layout of the decode rows *)

Lemma create_dbc_rows_flag sg p pr dbc :
  create_dbc sg p pr = Ok dbc ->
  dbc_daq_lists (match BYTE_ORDER p with little => "1" | big => "0" end)%char
                sg p pr (daq_lists_of sg) 0 = Ok (dbc_rows dbc).
Proof.
  unfold create_dbc. intros Hok.
  destruct (int16 (CAN_ID_SLAVE p)); [| discriminate]. simpl bind in Hok.
  destruct (int16 (MAX_CTO p)); [| discriminate]. simpl bind in Hok.
  match type of Hok with
  | bind ?m _ = _ => destruct m; [| discriminate]
  end. simpl bind in Hok.
  match type of Hok with
  | bind (dbc_daq_lists ?f _ _ _ _ _) _ = _ =>
      destruct (dbc_daq_lists f sg p pr (daq_lists_of sg) 0) eqn:E;
      [| discriminate]
  end.
  simpl in Hok. injection Hok as <-. reflexivity.
Qed.

Lemma sum_length_app l1 l2 : sum_length (l1 ++ l2) = sum_length l1 + sum_length l2.
Proof.
  induction l1 as [| g l1 IH]; [reflexivity |].
  unfold sum_length in *. simpl. rewrite IH. lia.
Qed.

(** The rows of one ODT, from the bit cursor [b]: row [i] starts where the
    signals before it end. *)
Lemma dbc_odt_rows_layout flag pid sigs :
  forall b i r, nth_error (dbc_odt_rows flag pid sigs b) i = Some r ->
    nth_error sigs i = Some (row_signal r) /\
    bit_length r = Length (signal (row_signal r)) * 8 /\
    start_bit r = b + 8 * sum_length (firstn i sigs)
                  + (if (flag =? "0")%char then 7 else 0) /\
    byte_order_flag r = flag /\
    sign r = (if (Signage (signal (row_signal r)) =? "unsigned")%string
              then "+" else "-")%char.
Proof.
  induction sigs as [| s sigs IH]; intros b i r H; [destruct i; discriminate |].
  destruct i as [| i]; simpl in H.
  - injection H as <-. cbn.
    repeat split; try reflexivity. destruct (flag =? "0")%char; lia.
  - destruct (IH _ _ _ H) as [Hs [Hb [Hst [Hf Hsg]]]].
    repeat split; auto. rewrite Hst.
    change (firstn (S i) (s :: sigs)) with (s :: firstn i sigs).
    change (sum_length (s :: firstn i sigs))
      with (Length (signal s) + sum_length (firstn i sigs)). lia.
Qed.

(** A filter whose test every element passes keeps the list, and one whose
    test no element passes empties it. *)
Lemma filter_keeps_every {A : Type} (keep : A -> bool) (xs : list A) :
  (forall x, In x xs -> keep x = true) -> filter keep xs = xs.
Proof.
  intros H. induction xs as [| x xs IH]; [reflexivity |]. simpl.
  rewrite (H x (or_introl eq_refl)). f_equal.
  apply IH. intros y Hy. apply H. right. exact Hy.
Qed.

Lemma filter_keeps_nothing {A : Type} (keep : A -> bool) (xs : list A) :
  (forall x, In x xs -> keep x = false) -> filter keep xs = [].
Proof.
  intros H. induction xs as [| x xs IH]; [reflexivity |]. simpl.
  rewrite (H x (or_introl eq_refl)).
  apply IH. intros y Hy. apply H. right. exact Hy.
Qed.

(** The rows of the ODTs of one DAQ list: those of ODT [o] are the rows
    the inner loop builds for the signals of that ODT. *)
Lemma dbc_odts_rows_of flag sg d odts :
  NoDup odts ->
  forall pid rows pid',
    dbc_odts flag sg d odts pid = (rows, pid') ->
    forall o,
      (In o odts ->
       exists pid_o,
         rows_of_odt d o rows = dbc_odt_rows flag pid_o (odt_signals_of sg d o) 8) /\
      (~ In o odts -> rows_of_odt d o rows = []).
Proof.
  induction 1 as [| o1 odts Hn1 Hnd IH]; intros pid rows pid' H o; simpl in H.
  - injection H as <- <-. split; [intros [] | reflexivity].
  - destruct (dbc_odts flag sg d odts (pid + 1)) as [rows' p'] eqn:E.
    injection H as <- <-.
    destruct (dbc_odt_rows_spec flag pid (odt_signals_of sg d o1) 8) as [Es _].
    assert (Hblock : forall r, In r (dbc_odt_rows flag pid (odt_signals_of sg d o1) 8) ->
              DAQ_LIST_NUMBER (row_signal r) = d /\ ODT_NUMBER (row_signal r) = o1).
    { intros r Hr.
      assert (Hs : In (row_signal r) (odt_signals_of sg d o1))
        by (rewrite <- Es; apply in_map; exact Hr).
      apply odt_signals_of_In in Hs. tauto. }
    destruct (dbc_odts_spec _ _ _ _ _ _ _ E) as [_ [_ Hrest]].
    destruct (IH _ _ _ E o) as [IHin IHout].
    unfold rows_of_odt in *. rewrite filter_app.
    destruct (String.eqb_spec o1 o) as [-> | Hne].
    + rewrite filter_keeps_every.
      2:{ intros r Hr. destruct (Hblock r Hr) as [-> ->].
          rewrite !String.eqb_refl. reflexivity. }
      rewrite IHout by exact Hn1. rewrite app_nil_r.
      split; [intros _; eauto | intros Hc; exfalso; apply Hc; left; reflexivity].
    + rewrite filter_keeps_nothing.
      2:{ intros r Hr. destruct (Hblock r Hr) as [_ ->].
          apply andb_false_iff. right. apply String.eqb_neq. exact Hne. }
      simpl. split.
      * intros [Heq | Hin]; [congruence | apply IHin; exact Hin].
      * intros Hc. apply IHout. intros Hin. apply Hc. right. exact Hin.
Qed.

Lemma dbc_daq_lists_rows_of flag sg p pr dls :
  NoDup dls ->
  forall pid rows,
    dbc_daq_lists flag sg p pr dls pid = Ok rows ->
    forall d o,
      (In d dls ->
       exists pid_o,
         rows_of_odt d o rows = dbc_odt_rows flag pid_o (odt_signals_of sg d o) 8) /\
      (~ In d dls -> rows_of_odt d o rows = []).
Proof.
  induction 1 as [| d1 dls Hn1 Hnd IH]; intros pid rows H d o; simpl in H.
  - injection H as <-. split; [intros [] | reflexivity].
  - destruct (first_pid p pr d1 pid) as [pid0 |]; simpl in H; [| discriminate].
    destruct (dbc_odts flag sg d1 (odts_of sg d1) pid0) as [rows_d pid1] eqn:Eo.
    destruct (dbc_daq_lists flag sg p pr dls pid1) as [rows_r |] eqn:Er;
      simpl in H; [| discriminate].
    injection H as <-.
    destruct (dbc_odts_spec _ _ _ _ _ _ _ Eo) as [_ [_ Hrows_d]].
    destruct (IH _ _ Er d o) as [IHin IHout].
    destruct (dbc_odts_rows_of flag sg d1 (odts_of sg d1)
                (sorted_set_NoDup _) _ _ _ Eo o) as [Hin1 Hout1].
    unfold rows_of_odt in *. rewrite filter_app.
    destruct (String.eqb_spec d1 d) as [-> | Hne].
    + rewrite IHout by exact Hn1. rewrite app_nil_r.
      split; [| intros Hc; exfalso; apply Hc; left; reflexivity].
      intros _. destruct (in_dec string_dec o (odts_of sg d)) as [Ho | Ho].
      * apply Hin1. exact Ho.
      * rewrite (Hout1 Ho). exists 0.
        replace (odt_signals_of sg d o) with (@nil GroupedSignal); [reflexivity |].
        symmetry. apply filter_keeps_nothing. intros g Hg.
        destruct (String.eqb_spec (DAQ_LIST_NUMBER g) d) as [Ed |]; [| reflexivity].
        destruct (String.eqb_spec (ODT_NUMBER g) o) as [Eo' |];
          [| reflexivity].
        exfalso. apply Ho. apply odts_of_In. eauto.
    + rewrite (filter_keeps_nothing _ rows_d).
      2:{ intros r Hr. destruct (Hrows_d r Hr) as [_ [-> _]].
          apply andb_false_iff. left. apply String.eqb_neq. exact Hne. }
      simpl. split.
      * intros [Heq | Hin]; [congruence | apply IHin; exact Hin].
      * intros Hc. apply IHout. intros Hin. apply Hc. right. exact Hin.
Qed.

(** The rows of every ODT of the table of [create_dbc]. *)
Lemma create_dbc_rows_of sg p pr dbc d o :
  create_dbc sg p pr = Ok dbc ->
  exists pid_o,
    rows_of_odt d o (dbc_rows dbc)
    = dbc_odt_rows (match BYTE_ORDER p with little => "1" | big => "0" end)%char
                   pid_o (odt_signals_of sg d o) 8.
Proof.
  intros Hok. apply create_dbc_rows_flag in Hok.
  destruct (dbc_daq_lists_rows_of _ sg p pr _ (sorted_set_NoDup _) _ _ Hok d o)
    as [Hin Hout].
  destruct (in_dec string_dec d (daq_lists_of sg)) as [Hd | Hd];
    [apply Hin; exact Hd |].
  rewrite (Hout Hd). exists 0.
  replace (odt_signals_of sg d o) with (@nil GroupedSignal); [reflexivity |].
  symmetry. apply filter_keeps_nothing. intros g Hg.
  destruct (String.eqb_spec (DAQ_LIST_NUMBER g) d) as [Ed |]; [| reflexivity].
  exfalso. apply Hd. apply daq_lists_of_In. eauto.
Qed.

(** ** The ODTs of a grouping and their payload *)

Lemma grouped_signal_In signals p pr out g :
  group_signals signals p pr = Ok out -> In g out -> In (signal g) signals.
Proof.
  intros Hok Hg. destruct (group_signals_ok _ _ _ _ Hok) as [_ [mp [_ ->]]].
  apply (Permutation_in _ (group_by_event_concat signals)).
  rewrite <- (assign_daq_lists_signals mp _ 0%nat). apply in_map. exact Hg.
Qed.

(** The payload of the ODT of a grouped signal, when no signal is longer
    than [mp]. *)
Lemma odt_payload_bound signals mp g :
  Forall (fun s => Length s <= mp) signals ->
  let out := assign_daq_lists mp (group_by_event signals) 0%nat in
  In g out ->
  sum_length (odt_signals_of out (DAQ_LIST_NUMBER g) (ODT_NUMBER g)) <= mp.
Proof.
  intros Hlen out Hg. unfold out in *.
  destruct (assign_daq_lists_daq _ _ _ _ Hg) as [j [_ Hj]].
  rewrite Hj, odt_signals_of_with_odt, assign_daq_lists_daq_signals.
  assert (Hb : Forall (fun s => Length s <= mp)
                 (nth j (map snd (group_by_event signals)) [])).
  { rewrite Forall_forall in *. intros s Hs. apply Hlen.
    eapply bucket_incl. exact Hs. }
  pose proof (assign_odts_sum mp (0 + j) (ODT_NUMBER g) _ Hb 0%nat 0 []) as Hsum.
  cbv zeta in Hsum. destruct Hsum as [Hnil | Hle].
  - exfalso.
    assert (Hin : In g (with_odt (ODT_NUMBER g)
                     (daq_signals_of (assign_daq_lists mp
                        (group_by_event signals) 0) (daq_id (0 + j))))).
    { unfold with_odt, daq_signals_of. rewrite !filter_In, Hj, !String.eqb_refl. auto. }
    rewrite assign_daq_lists_daq_signals, Hnil in Hin. exact Hin.
  - destruct (ODT_NUMBER g =? odt_id 0)%string; lia.
Qed.

Lemma sum_length_nonneg sigs :
  Forall (fun g => 0 <= Length (signal g)) sigs -> 0 <= sum_length sigs.
Proof.
  induction 1 as [| g l Hg _ IH]; [unfold sum_length; simpl; lia |].
  change (sum_length (g :: l)) with (Length (signal g) + sum_length l). lia.
Qed.

(** The signals before position [i] and the signal at [i] are part of the
    whole. *)
Lemma sum_length_prefix sigs :
  Forall (fun g => 0 <= Length (signal g)) sigs ->
  forall i g, nth_error sigs i = Some g ->
    0 <= sum_length (firstn i sigs) /\
    sum_length (firstn i sigs) + Length (signal g) <= sum_length sigs.
Proof.
  induction 1 as [| g0 l Hg0 Hl IH]; intros i g Hi; [destruct i; discriminate |].
  destruct i as [| i]; simpl in Hi.
  - injection Hi as <-. pose proof (sum_length_nonneg l Hl).
    change (sum_length (g0 :: l)) with (Length (signal g0) + sum_length l).
    change (sum_length (firstn 0 (g0 :: l))) with 0. lia.
  - destruct (IH i g Hi) as [H0 H1].
    change (firstn (S i) (g0 :: l)) with (g0 :: firstn i l).
    change (sum_length (g0 :: l)) with (Length (signal g0) + sum_length l).
    change (sum_length (g0 :: firstn i l))
      with (Length (signal g0) + sum_length (firstn i l)). lia.
Qed.

(** The message length of the DBC covers the DTO size the grouping packs
    for. *)
Lemma create_dbc_dlc sg p pr dbc max_dto :
  create_dbc sg p pr = Ok dbc ->
  int16 (MAX_DTO p) = Ok max_dto ->
  (dbc_dlc dbc = 8 \/ dbc_dlc dbc = 64) /\ Z.min max_dto 64 <= dbc_dlc dbc.
Proof.
  unfold create_dbc. intros Hok Hdto.
  destruct (int16 (CAN_ID_SLAVE p)); [| discriminate]. simpl bind in Hok.
  destruct (int16 (MAX_CTO p)) as [cto |]; [| discriminate]. simpl bind in Hok.
  rewrite Hdto in Hok. simpl bind in Hok.
  destruct (cto >? 8) eqn:Ec; simpl bind in Hok.
  - destruct (dbc_daq_lists _ _ _ _ _ _); [| discriminate].
    simpl in Hok. injection Hok as <-. simpl. lia.
  - destruct (dbc_daq_lists _ _ _ _ _ _); [| discriminate].
    simpl in Hok. injection Hok as <-. simpl.
    destruct (max_dto >? 8) eqn:Ed; [lia |].
    rewrite Z.gtb_ltb in Ed. apply Z.ltb_ge in Ed. lia.
Qed.

(** ** When the packing loop opens an ODT *)

(** Two signals appended one after the other, from any state of the loop:
    the second stays in the ODT of the first, or opens the next one because
    it does not fit. *)
Lemma assign_odts_adjacent mp d sigs :
  forall oc sz es i g1 g2,
    let run := assign_odts mp d sigs oc sz es in
    nth_error run i = Some g1 ->
    nth_error run (S i) = Some g2 ->
    ODT_NUMBER g2 = ODT_NUMBER g1 \/
    exists n, ODT_NUMBER g1 = odt_id n /\ ODT_NUMBER g2 = odt_id (S n) /\
              sum_length (with_odt (odt_id n) run)
              + (if (n =? oc)%nat then sz else 0)
              + Length (signal g2) > mp.
Proof.
  induction sigs as [| s rest IH]; intros oc sz es i g1 g2 run H1 H2;
    [destruct i; discriminate |].
  unfold run in *. clear run. rewrite assign_odts_cons in *.
  assert (Hstep : forall oc' sz' es' x,
            ODT_NUMBER x = odt_id oc' -> sz' = Length (signal x) +
              (if (oc' =? oc)%nat then sz else 0) -> (oc <= oc')%nat ->
            nth_error (x :: assign_odts mp d rest oc' sz' es') i = Some g1 ->
            nth_error (x :: assign_odts mp d rest oc' sz' es') (S i) = Some g2 ->
            ODT_NUMBER g2 = ODT_NUMBER g1 \/
            exists n, ODT_NUMBER g1 = odt_id n /\ ODT_NUMBER g2 = odt_id (S n) /\
              sum_length (with_odt (odt_id n)
                            (x :: assign_odts mp d rest oc' sz' es'))
              + (if (n =? oc)%nat then sz else 0)
              + Length (signal g2) > mp).
  { intros oc' sz' es' x Hx Hsz Hle Hn1 Hn2. destruct i as [| i]; simpl in Hn1, Hn2.
    - injection Hn1 as <-. destruct rest as [| s2 rest2]; [discriminate |].
      rewrite assign_odts_cons in Hn2 |- *.
      destruct (sz' + Length s2 >? mp) eqn:E2; simpl in Hn2; injection Hn2 as <-.
      + right. exists oc'. split; [exact Hx |]. split; [reflexivity |].
        rewrite with_odt_cons_eq by exact Hx.
        rewrite with_odt_cons_neq
          by (simpl; intros E; apply odt_id_inj in E; lia).
        rewrite assign_odts_no_earlier
          by (intros c Hc; apply odt_id_later; exact Hc).
        rewrite Z.gtb_ltb in E2. apply Z.ltb_lt in E2.
        change (sum_length [x]) with (Length (signal x) + 0). simpl signal. lia.
      + left. simpl. symmetry. exact Hx.
    - destruct (IH oc' sz' es' i g1 g2 Hn1 Hn2) as [Hsame | [n [E1 [E2 Hgt]]]];
        [left; exact Hsame |].
      right. exists n. split; [exact E1 |]. split; [exact E2 |].
      destruct (Nat.eqb_spec n oc') as [-> | Hne].
      + rewrite with_odt_cons_eq by exact Hx.
        change (sum_length (x :: ?l)) with (Length (signal x) + sum_length l).
        lia.
      + rewrite with_odt_cons_neq
          by (rewrite Hx; intros E; apply odt_id_inj in E; congruence).
        destruct (Nat.eqb_spec n oc) as [-> | _]; [| lia]. exfalso.
        assert (Hlt : (S oc <= oc')%nat) by lia.
        assert (Hin : In g1 (with_odt (odt_id oc)
                               (assign_odts mp d rest oc' sz' es'))).
        { unfold with_odt. rewrite filter_In. split.
          - eapply nth_error_In. exact Hn1.
          - rewrite E1. apply String.eqb_refl. }
        rewrite assign_odts_no_earlier in Hin; [exact Hin |].
        intros c Hc E. apply odt_id_inj in E. lia. }
  destruct (sz + Length s >? mp) eqn:E.
  - apply (Hstep (S oc) (0 + Length s)); auto; try reflexivity.
    simpl signal. destruct (Nat.eqb_spec (S oc) oc); lia.
  - apply (Hstep oc (sz + Length s)); auto; try reflexivity.
    simpl signal. rewrite Nat.eqb_refl. lia.
Qed.

Lemma assign_odts_length mp d sigs :
  forall oc sz es, List.length (assign_odts mp d sigs oc sz es) = List.length sigs.
Proof.
  intros oc sz es. rewrite <- (assign_odts_signals mp d sigs oc sz es) at 2.
  rewrite length_map. reflexivity.
Qed.

(** Two neighbours of the grouping with the same DAQ list number are
    neighbours in the packing of one bucket. *)
Lemma assign_daq_lists_adjacent mp B :
  forall d0 i g1 g2,
    nth_error (assign_daq_lists mp B d0) i = Some g1 ->
    nth_error (assign_daq_lists mp B d0) (S i) = Some g2 ->
    DAQ_LIST_NUMBER g1 = DAQ_LIST_NUMBER g2 ->
    exists j k,
      DAQ_LIST_NUMBER g1 = daq_id (d0 + j) /\
      let run := assign_odts mp (d0 + j) (nth j (map snd B) []) 0%nat 0 [] in
      nth_error run k = Some g1 /\ nth_error run (S k) = Some g2.
Proof.
  induction B as [| [ch sigs] B IH]; intros d0 i g1 g2 H1 H2 Hd;
    [destruct i; discriminate |].
  simpl assign_daq_lists in H1, H2.
  set (blk := assign_odts mp d0 sigs 0%nat 0 []) in *.
  destruct (Nat.lt_ge_cases (S i) (List.length blk)) as [Hlt | Hge].
  - rewrite nth_error_app1 in H1, H2 by lia.
    exists 0%nat, i. rewrite Nat.add_0_r. simpl. fold blk.
    split; [| split; assumption].
    eapply assign_odts_daq. eapply nth_error_In. exact H1.
  - destruct (Nat.lt_ge_cases i (List.length blk)) as [Hlt1 | Hge1].
    + exfalso. rewrite nth_error_app1 in H1 by lia.
      rewrite nth_error_app2 in H2 by lia.
      apply nth_error_In in H1, H2.
      apply assign_odts_daq in H1.
      destruct (assign_daq_lists_daq _ _ _ _ H2) as [j [_ Hj]].
      rewrite H1, Hj in Hd. apply daq_id_inj in Hd. lia.
    + rewrite nth_error_app2 in H1, H2 by lia.
      replace (S i - List.length blk)%nat with (S (i - List.length blk)) in H2 by lia.
      destruct (IH _ _ _ _ H1 H2 Hd) as [j [k [Ed Hrun]]].
      exists (S j), k. replace (d0 + S j)%nat with (S d0 + j)%nat by lia.
      split; [exact Ed | exact Hrun].
Qed.

(** The rows of a decode table lie behind the PID byte and within the
    payload of their ODT, when no length is negative and every ODT holds
    at most [mp] bytes. *)
Lemma rows_within_payload sg p pr dbc mp :
  create_dbc sg p pr = Ok dbc ->
  Forall (fun g => 0 <= Length (signal g)) sg ->
  (forall g, In g sg ->
     sum_length (odt_signals_of sg (DAQ_LIST_NUMBER g) (ODT_NUMBER g)) <= mp) ->
  forall r, In r (dbc_rows dbc) ->
    8 <= start_bit r - msb_offset (BYTE_ORDER p) /\
    start_bit r - msb_offset (BYTE_ORDER p) + bit_length r <= 8 * (mp + 1).
Proof.
  intros Hdbc Hnn Hsum r Hr.
  set (d := DAQ_LIST_NUMBER (row_signal r)). set (o := ODT_NUMBER (row_signal r)).
  assert (Hin : In r (rows_of_odt d o (dbc_rows dbc))).
  { unfold rows_of_odt. rewrite filter_In. split; [exact Hr |].
    unfold d, o. rewrite !String.eqb_refl. reflexivity. }
  destruct (create_dbc_rows_of sg p pr dbc d o Hdbc) as [pid E].
  rewrite E in Hin. apply In_nth_error in Hin. destruct Hin as [i Hi].
  destruct (dbc_odt_rows_layout _ _ _ _ _ _ Hi) as [Hsig [Hb [Hs _]]].
  assert (Hsg : In (row_signal r) sg).
  { apply nth_error_In in Hsig. apply odt_signals_of_In in Hsig. tauto. }
  assert (Hnn' : Forall (fun g => 0 <= Length (signal g)) (odt_signals_of sg d o)).
  { rewrite Forall_forall in *. intros g Hgin. apply odt_signals_of_In in Hgin.
    apply Hnn. tauto. }
  destruct (sum_length_prefix _ Hnn' _ _ Hsig) as [H0 H1].
  pose proof (Hsum _ Hsg) as Hle. fold d o in Hle.
  rewrite Hs, Hb. unfold msb_offset.
  destruct (BYTE_ORDER p);
    [change (("0" =? "0")%char) with true | change (("1" =? "0")%char) with false];
    lia.
Qed.

(** The grouping of signals with lengths from 0 to [mp]: no length is
    negative and every ODT holds at most [mp] bytes. *)
Lemma grouping_within_payload signals p pr sg max_dto :
  group_signals signals p pr = Ok sg ->
  int16 (MAX_DTO p) = Ok max_dto ->
  Forall (fun s => 0 <= Length s <= Z.min max_dto 64 - 1) signals ->
  Forall (fun g => 0 <= Length (signal g)) sg /\
  (forall g, In g sg ->
     sum_length (odt_signals_of sg (DAQ_LIST_NUMBER g) (ODT_NUMBER g))
     <= Z.min max_dto 64 - 1).
Proof.
  intros Hg Hdto Hlen. split.
  - apply Forall_forall. intros g Hgin.
    pose proof (grouped_signal_In _ _ _ _ _ Hg Hgin) as Hs0.
    rewrite Forall_forall in Hlen. apply (Hlen _ Hs0).
  - intros g Hin.
    destruct (group_signals_ok _ _ _ _ Hg) as [_ [mp [Hmp Hout]]].
    destruct (max_payload_of_ok _ _ Hmp) as [v [Hv ->]].
    rewrite Hdto in Hv. injection Hv as <-. subst sg.
    apply (odt_payload_bound signals (Z.min max_dto 64 - 1) g); [| exact Hin].
    rewrite Forall_forall in *. intros s Hs. apply (Hlen s Hs).
Qed.

(** ** Dictionaries *)

Lemma dict_mem_In {V : Type} (d : list (string * V)) (k : string) :
  dict_mem d k = true <-> In k (map fst d).
Proof.
  unfold dict_mem. rewrite existsb_exists, in_map_iff. split.
  - intros [kv [Hin E]]. apply String.eqb_eq in E. eauto.
  - intros [kv [E Hin]]. exists kv. split; [exact Hin | apply String.eqb_eq; exact E].
Qed.

Lemma dict_mem_false {V : Type} (d : list (string * V)) (k : string) :
  dict_mem d k = false <-> ~ In k (map fst d).
Proof.
  rewrite <- dict_mem_In. destruct (dict_mem d k); split; congruence.
Qed.

Lemma dict_set_new {V : Type} (d : list (string * V)) (k : string) (v : V) :
  dict_mem d k = false -> dict_set d k v = d ++ [(k, v)].
Proof.
  induction d as [| [k' v'] d IH]; intros H; [reflexivity |].
  unfold dict_mem in H. simpl in *. apply orb_false_iff in H. destruct H as [H1 H2].
  rewrite H1. f_equal. apply IH. exact H2.
Qed.

Lemma dict_set_keys {V : Type} (d : list (string * V)) (k : string) (v : V) :
  map fst (dict_set d k v) = if dict_mem d k then map fst d else map fst d ++ [k].
Proof.
  induction d as [| [k' v'] d IH]; [reflexivity |].
  unfold dict_mem in *. simpl.
  destruct (String.eqb_spec k' k) as [-> | Hne]; simpl; [reflexivity |].
  rewrite IH. destruct (existsb _ d); reflexivity.
Qed.

Lemma dict_get_set {V : Type} (d : list (string * V)) (k k' : string) (v : V) :
  dict_get (dict_set d k v) k' = if (k =? k')%string then Some v else dict_get d k'.
Proof.
  induction d as [| [k0 v0] d IH]; simpl.
  - reflexivity.
  - destruct (String.eqb_spec k0 k) as [-> | Hne]; simpl.
    + destruct (String.eqb_spec k k'); reflexivity.
    + rewrite IH. destruct (String.eqb_spec k0 k') as [-> | Hne'];
        [| reflexivity].
      destruct (String.eqb_spec k k'); [congruence | reflexivity].
Qed.

Lemma dict_get_mem {V : Type} (d : list (string * V)) (k : string) :
  dict_mem d k = match dict_get d k with Some _ => true | None => false end.
Proof.
  induction d as [| [k0 v0] d IH]; [reflexivity |].
  unfold dict_mem in *. simpl.
  destruct (k0 =? k)%string; [reflexivity | exact IH].
Qed.

(** ** Decimal suffixes *)

Lemma append_inj_l (p a b : string) : (p ++ a)%string = (p ++ b)%string -> a = b.
Proof.
  induction p as [| c p IH]; simpl; intros H; [exact H |].
  injection H as H. apply IH. exact H.
Qed.

Lemma uint_of_zeros (k : nat) (s : string) :
  option_map Nat.of_uint (DecimalString.NilEmpty.uint_of_string (Hex.zeros k ++ s)) =
  option_map Nat.of_uint (DecimalString.NilEmpty.uint_of_string s).
Proof.
  induction k as [| k IH]; [reflexivity |].
  cbn [Hex.zeros String.append DecimalString.NilEmpty.uint_of_string].
  rewrite <- IH.
  destruct (DecimalString.NilEmpty.uint_of_string (Hex.zeros k ++ s));
    reflexivity.
Qed.

(** The two-digit rendering reads back as the number. *)
Lemma fmt_02d_read (n : nat) :
  option_map Nat.of_uint (DecimalString.NilEmpty.uint_of_string (fmt_02d n)) = Some n.
Proof.
  unfold fmt_02d, Hex.zfill, decimal. rewrite uint_of_zeros.
  rewrite DecimalString.NilEmpty.usu. simpl.
  rewrite DecimalNat.Unsigned.of_to. reflexivity.
Qed.

Lemma fmt_02d_inj (a b : nat) : fmt_02d a = fmt_02d b -> a = b.
Proof.
  intros H. pose proof (fmt_02d_read a) as Ha. rewrite H, fmt_02d_read in Ha.
  congruence.
Qed.

Lemma suffixed_inj (base : string) (a b : nat) :
  suffixed base a = suffixed base b -> a = b.
Proof.
  unfold suffixed. intros H. apply append_inj_l in H.
  simpl in H. injection H as H. apply fmt_02d_inj. exact H.
Qed.

Lemma fmt_02d_length (k : nat) : (k < 100)%nat -> String.length (fmt_02d k) = 2%nat.
Proof.
  intros H.
  assert (E : forallb (fun x => (String.length (fmt_02d x) =? 2)%nat) (seq 0 100) = true)
    by (vm_compute; reflexivity).
  rewrite forallb_forall in E. apply Nat.eqb_eq. apply E. apply in_seq. lia.
Qed.

Lemma substring_length_le (n : nat) (s : string) :
  (String.length (substring 0 n s) <= n)%nat.
Proof.
  revert s. induction n as [| n IH]; intros [| c s]; simpl; try lia.
  specialize (IH s). lia.
Qed.

(** ** The search for an unused name *)

Lemma NoDup_map_injective {A B : Type} (f : A -> B) (l : list A) :
  (forall a b, f a = f b -> a = b) -> NoDup l -> NoDup (map f l).
Proof.
  intros Hinj. induction 1 as [| a l Ha Hl IH]; simpl; constructor; [| exact IH].
  intros Hin. apply in_map_iff in Hin. destruct Hin as [b [E Hb]].
  apply Hinj in E. subst b. exact (Ha Hb).
Qed.

(** Among the first [length map + 1] suffixes one gives a name that the
    map does not hold. *)
Lemma unused_suffix (base : string) (m : list (string * string)) :
  exists k, (k <= List.length m)%nat /\ dict_mem m (suffixed base k) = false.
Proof.
  set (cands := map (suffixed base) (seq 0 (S (List.length m)))).
  destruct (forallb (dict_mem m) cands) eqn:E.
  - exfalso. rewrite forallb_forall in E.
    assert (Hnd : NoDup cands).
    { unfold cands. apply NoDup_map_injective; [| apply seq_NoDup].
      intros a b. apply suffixed_inj. }
    assert (Hincl : incl cands (map fst m)).
    { intros c Hc. apply dict_mem_In. apply E. exact Hc. }
    pose proof (NoDup_incl_length Hnd Hincl) as Hlen.
    unfold cands in Hlen. rewrite !length_map, length_seq in Hlen. lia.
  - assert (Hex : existsb (fun c => negb (dict_mem m c)) cands = true).
    { clear -E. induction cands as [| c l IH]; [discriminate |]. simpl in *.
      destruct (dict_mem m c); simpl in *; [apply IH; exact E | reflexivity]. }
    apply existsb_exists in Hex. destruct Hex as [c [Hc Hneg]].
    unfold cands in Hc. apply in_map_iff in Hc. destruct Hc as [k [<- Hk]].
    apply in_seq in Hk. exists k. split; [lia |].
    destruct (dict_mem m (suffixed base k)); [discriminate | reflexivity].
Qed.

Lemma free_suffix_finds (base : string) (m : list (string * string)) :
  forall fuel s,
    (exists k, (s <= k <= s + fuel)%nat /\ dict_mem m (suffixed base k) = false) ->
    exists k, (s <= k <= s + fuel)%nat /\
              free_suffix fuel base m s = Some (suffixed base k) /\
              dict_mem m (suffixed base k) = false.
Proof.
  induction fuel as [| fuel IH]; intros s [k [Hk Hfree]]; simpl.
  - assert (k = s) by lia. subst k. rewrite Hfree. exists s. repeat split; auto; lia.
  - destruct (dict_mem m (suffixed base s)) eqn:E.
    + assert (Hne : k <> s) by (intros ->; congruence).
      destruct (IH (S s)) as [k' [Hk' [Hres Hfree']]].
      { exists k. split; [lia | exact Hfree]. }
      exists k'. repeat split; auto; lia.
    + exists s. repeat split; auto; lia.
Qed.

(** Shortening one name always ends, with a name the map does not hold. *)
Lemma shortened_name_spec (m : list (string * string)) (n : string) :
  let base := substring 0 29 n in
  exists name,
    shortened_name m n = Some (name, m ++ [(name, n)]) /\
    dict_mem m name = false /\
    (name = base \/
     exists k, (k <= List.length m)%nat /\ name = suffixed base k).
Proof.
  intros base. unfold shortened_name. fold base.
  destruct (dict_mem m base) eqn:E.
  - destruct (unused_suffix base m) as [k0 [Hk0 Hfree0]].
    destruct (free_suffix_finds base m (List.length m) 0%nat) as [k [Hk [Hres Hfree]]].
    { exists k0. split; [lia | exact Hfree0]. }
    rewrite Hres. exists (suffixed base k).
    rewrite dict_set_new by exact Hfree.
    split; [reflexivity |]. split; [exact Hfree |].
    right. exists k. split; [lia | reflexivity].
  - exists base. rewrite dict_set_new by exact E.
    split; [reflexivity |]. split; [exact E |]. left. reflexivity.
Qed.

(** The names of a list of signals, from any state of the name map. *)
Lemma dbc_signal_names_spec (sigs : list GroupedSignal) :
  forall m, exists names,
    dbc_signal_names true m sigs = Some names /\
    NoDup names /\
    (forall n, In n names -> dict_mem m n = false) /\
    Forall2 (fun s n =>
               let base := substring 0 29 (replace_dots (Name (signal s))) in
               n = base \/
               exists k, (k < List.length m + List.length sigs)%nat /\
                         n = suffixed base k) sigs names.
Proof.
  induction sigs as [| s sigs IH]; intros m.
  - exists []. repeat split; [constructor | intros n [] | constructor].
  - cbn [dbc_signal_names dbc_signal_name_of].
    destruct (shortened_name_spec m (replace_dots (Name (signal s))))
      as [name [Hres [Hfree Hshape]]].
    rewrite Hres.
    destruct (IH (m ++ [(name, replace_dots (Name (signal s)))]))
      as [names [Hn [Hnd [Hout Hsh]]]].
    rewrite Hn. exists (name :: names).
    split; [reflexivity |]. split; [| split].
    + constructor; [| exact Hnd]. intros Hin.
      apply Hout in Hin. apply dict_mem_false in Hin. apply Hin.
      rewrite map_app, in_app_iff. right. left. reflexivity.
    + intros n [<- | Hin]; [exact Hfree |].
      apply Hout in Hin. apply dict_mem_false in Hin. apply dict_mem_false.
      intros Hc. apply Hin. rewrite map_app, in_app_iff. left. exact Hc.
    + constructor.
      * cbv zeta. destruct Hshape as [-> | [k [Hk ->]]]; [left; reflexivity |].
        right. exists k. split; [simpl; lia | reflexivity].
      * eapply Forall2_impl; [| exact Hsh]. cbv zeta.
        intros g n [-> | [k [Hk ->]]]; [left; reflexivity |].
        right. exists k. split; [| reflexivity].
        rewrite length_app in Hk. simpl in *. lia.
Qed.

Lemma Forall2_length_eq {A B : Type} (R : A -> B -> Prop) l l' :
  Forall2 R l l' -> List.length l = List.length l'.
Proof. induction 1; simpl; congruence. Qed.

Lemma Forall2_Forall_right {A B : Type} (R : A -> B -> Prop) (P : B -> Prop) l l' :
  Forall2 R l l' -> (forall a b, R a b -> P b) -> Forall P l'.
Proof. induction 1; intros H'; constructor; eauto. Qed.

(** ** The second pass of [filter_a2l_signals] *)

(** The two outcomes of one iteration: the state is left as it is, or the
    signal is inserted under its stripped name. *)
Lemma filter_step_cases max_dto user st a :
  let name := strip (A2L.Name a) in
  let inserted event :=
    {| signals_filtered_dict :=
         signals_filtered_dict st ++ [(name, new_signal_of name event a)];
       matched_signals :=
         match matrix_base name with
         | Some base_name =>
             if dict_mem user base_name
             then set_add base_name (set_add name (matched_signals st))
             else set_add name (matched_signals st)
         | None => set_add name (matched_signals st)
         end |} in
  match event_for user name with
  | Some event =>
      if negb (dict_mem (signals_filtered_dict st) name)
         && keeps_length max_dto (A2L.Length a)
      then filter_step max_dto user st a = inserted event
      else filter_step max_dto user st a = st
  | None => filter_step max_dto user st a = st
  end.
Proof.
  intros name inserted. unfold inserted. clear inserted.
  unfold filter_step, event_for, keeps_length. fold name.
  rewrite (dict_get_mem user name).
  destruct (dict_get user name) as [ev |] eqn:Eu; simpl.
  - destruct (dict_mem (signals_filtered_dict st) name) eqn:Em; simpl;
      [reflexivity |].
    destruct (A2L.Length a =? 0); simpl; [reflexivity |].
    destruct ((A2L.Length a =? 8) && (max_dto =? 8)); simpl; [reflexivity |].
    rewrite dict_set_new by exact Em.
    destruct (matrix_base name); reflexivity.
  - destruct (matrix_base name) as [b |] eqn:Eb; [| reflexivity].
    destruct (dict_get user b) as [ev |] eqn:Eub;
      rewrite (dict_get_mem user b), Eub; [| reflexivity].
    destruct (dict_mem (signals_filtered_dict st) name) eqn:Em; simpl;
      [reflexivity |].
    destruct (A2L.Length a =? 0); simpl; [reflexivity |].
    destruct ((A2L.Length a =? 8) && (max_dto =? 8)); simpl; [reflexivity |].
    rewrite dict_set_new by exact Em. reflexivity.
Qed.

Lemma NoDup_snoc {A : Type} (l : list A) (x : A) :
  NoDup l -> ~ In x l -> NoDup (l ++ [x]).
Proof.
  induction 1 as [| y l Hy Hl IH]; intros Hx; simpl.
  - constructor; [intros [] | constructor].
  - constructor.
    + rewrite in_app_iff. intros [H | [H | []]]; [contradiction |].
      apply Hx. left. symmetry. exact H.
    + apply IH. intros H. apply Hx. right. exact H.
Qed.

Lemma filter_step_inv max_dto user universe st a :
  In a universe ->
  filter_inv max_dto user universe st ->
  filter_inv max_dto user universe (filter_step max_dto user st a).
Proof.
  intros Ha Hinv. pose proof (filter_step_cases max_dto user st a) as Hc.
  cbv zeta in Hc.
  destruct (event_for user (strip (A2L.Name a))) as [ev |] eqn:Eev;
    [| rewrite Hc; exact Hinv].
  destruct (dict_mem (signals_filtered_dict st) (strip (A2L.Name a))) eqn:Em;
    simpl in Hc; [rewrite Hc; exact Hinv |].
  destruct (keeps_length max_dto (A2L.Length a)) eqn:Ek;
    [| rewrite Hc; exact Hinv].
  rewrite Hc. clear Hc. destruct Hinv as [Hnd [Hgood Hmatched]].
  set (name := strip (A2L.Name a)) in *.
  unfold filter_inv. cbn [signals_filtered_dict matched_signals].
  split; [| split].
  - rewrite map_app. simpl. apply NoDup_snoc; [exact Hnd |].
    apply dict_mem_false. exact Em.
  - intros k s Hin. apply in_app_iff in Hin. destruct Hin as [Hin | [E | []]];
      [apply Hgood; exact Hin |].
    injection E as <- <-. cbn [Length EventConfigured new_signal_of].
    split; [exact Ek |]. split; [exact Eev |].
    exists a. repeat split. exact Ha.
  - intros u.
    assert (Hadd : In u (match matrix_base name with
                         | Some base_name =>
                             if dict_mem user base_name
                             then set_add base_name (set_add name (matched_signals st))
                             else set_add name (matched_signals st)
                         | None => set_add name (matched_signals st)
                         end) <->
                   (u = name \/ matrix_base name = Some u /\ dict_mem user u = true)
                   \/ In u (matched_signals st)).
    { destruct (matrix_base name) as [b |] eqn:Eb.
      - destruct (dict_mem user b) eqn:Eub.
        + rewrite !set_add_In. split.
          * intros [-> | [-> | H]]; auto.
          * intros [[-> | [E Hu]] | H]; auto.
            injection E as <-. auto.
        + rewrite set_add_In. split.
          * intros [-> | H]; auto.
          * intros [[-> | [E Hu]] | H]; auto.
            injection E as <-. congruence.
      - rewrite set_add_In. split.
        + intros [-> | H]; auto.
        + intros [[-> | [E _]] | H]; auto. discriminate. }
    rewrite Hadd, Hmatched. split.
    + intros [H | [k [s [Hin H]]]].
      * exists name, (new_signal_of name ev a). split; [| exact H].
        apply in_app_iff. right. left. reflexivity.
      * exists k, s. split; [| exact H]. apply in_app_iff. left. exact Hin.
    + intros [k [s [Hin H]]]. apply in_app_iff in Hin.
      destruct Hin as [Hin | [E | []]].
      * right. exists k, s. split; assumption.
      * injection E as <- <-. left. exact H.
Qed.

Lemma filter_fold_inv max_dto user universe l :
  incl l universe ->
  forall st, filter_inv max_dto user universe st ->
    filter_inv max_dto user universe (fold_left (filter_step max_dto user) l st).
Proof.
  induction l as [| a l IH]; intros Hincl st Hinv; [exact Hinv |].
  simpl. apply IH.
  - intros x Hx. apply Hincl. right. exact Hx.
  - apply filter_step_inv; [apply Hincl; left; reflexivity | exact Hinv].
Qed.

(** The names in the dictionary only grow. *)
Lemma filter_step_keeps max_dto user st a k :
  dict_mem (signals_filtered_dict st) k = true ->
  dict_mem (signals_filtered_dict (filter_step max_dto user st a)) k = true.
Proof.
  intros Hk. pose proof (filter_step_cases max_dto user st a) as Hc.
  cbv zeta in Hc.
  destruct (event_for user (strip (A2L.Name a))); [| rewrite Hc; exact Hk].
  destruct (negb _ && _); rewrite Hc; [| exact Hk].
  cbn [signals_filtered_dict]. apply dict_mem_In. rewrite map_app, in_app_iff.
  left. apply dict_mem_In. exact Hk.
Qed.

Lemma filter_fold_keeps max_dto user l k :
  forall st, dict_mem (signals_filtered_dict st) k = true ->
    dict_mem (signals_filtered_dict (fold_left (filter_step max_dto user) l st)) k
    = true.
Proof.
  induction l as [| a l IH]; intros st Hk; [exact Hk |].
  simpl. apply IH. apply filter_step_keeps. exact Hk.
Qed.

(** A signal that passes the filter leaves its name in the dictionary. *)
Lemma filter_fold_complete max_dto user l a :
  In a l -> passes_filter max_dto user a ->
  forall st,
    dict_mem (signals_filtered_dict (fold_left (filter_step max_dto user) l st))
             (strip (A2L.Name a)) = true.
Proof.
  intros Hin [Hlen [ev Hev]]. induction l as [| x l IH]; [destruct Hin |].
  intros st. simpl. destruct Hin as [-> | Hin]; [| apply IH; exact Hin].
  apply filter_fold_keeps.
  pose proof (filter_step_cases max_dto user st a) as Hc. cbv zeta in Hc.
  rewrite Hev, Hlen in Hc.
  destruct (dict_mem (signals_filtered_dict st) (strip (A2L.Name a))) eqn:Em;
    simpl in Hc; rewrite Hc; [exact Em |].
  cbn [signals_filtered_dict]. apply dict_mem_In. rewrite map_app, in_app_iff.
  right. left. reflexivity.
Qed.

Lemma filter_inv_init max_dto user universe :
  filter_inv max_dto user universe
    {| signals_filtered_dict := []; matched_signals := [] |}.
Proof.
  split; [constructor |]. split; [intros k s [] |].
  intros u. split; [intros [] | intros [k [s [[] _]]]].
Qed.

(** What [filter_a2l_signals] returns, in terms of its final state. *)
Lemma filter_a2l_signals_ok all user p signals matched :
  filter_a2l_signals all user p = Ok (signals, matched) ->
  exists max_dto st,
    int16 (MAX_DTO p) = Ok max_dto /\
    st = fold_left (filter_step (Z.min max_dto 64) user) all
           {| signals_filtered_dict := []; matched_signals := [] |} /\
    filter_inv (Z.min max_dto 64) user all st /\
    signals = map snd (signals_filtered_dict st) /\
    matched = matched_signals st /\
    map Name signals = map fst (signals_filtered_dict st).
Proof.
  unfold filter_a2l_signals. destruct (int16 (MAX_DTO p)) as [v |]; [| discriminate].
  simpl. intros H. injection H as <- <-.
  exists v. eexists. split; [reflexivity |]. split; [reflexivity |].
  pose proof (filter_fold_inv (Z.min v 64) user all all (incl_refl _) _
                (filter_inv_init _ _ _)) as Hinv.
  split; [exact Hinv |]. split; [reflexivity |]. split; [reflexivity |].
  destruct Hinv as [_ [Hgood _]]. rewrite map_map.
  apply map_ext_in. intros [k s] Hin. simpl.
  destruct (Hgood k s Hin) as [_ [_ [a [_ [_ ->]]]]]. reflexivity.
Qed.

Lemma keeps_length_spec max_dto l :
  keeps_length max_dto l = true <-> l <> 0 /\ (max_dto = 8 -> l <> 8).
Proof.
  unfold keeps_length. rewrite andb_true_iff, !negb_true_iff, andb_false_iff.
  rewrite !Z.eqb_neq. split.
  - intros [H0 [H | H]]; split; auto; intros; congruence.
  - intros [H0 H]. split; [exact H0 |].
    destruct (Z.eq_dec max_dto 8) as [E | E]; [left; auto | right; exact E].
Qed.

(** ** The lengths of the data types *)

Lemma dict_get_In {V : Type} (d : list (string * V)) (k : string) (v : V) :
  dict_get d k = Some v -> In (k, v) d.
Proof.
  induction d as [| [k0 v0] d IH]; simpl; [discriminate |].
  destruct (String.eqb_spec k0 k) as [-> | _].
  - intros H. injection H as <-. left. reflexivity.
  - intros H. right. apply IH. exact H.
Qed.

Lemma data_type_lengths (datatype : string) :
  In (snd (data_type_of datatype)) [0; 1; 2; 4; 8].
Proof.
  unfold data_type_of.
  destruct (dict_get data_type_map (str_lower (strip datatype))) as [[sg l] |] eqn:E;
    [| left; reflexivity].
  apply dict_get_In in E.
  assert (H : forallb (fun kv => existsb (Z.eqb (snd (snd kv))) [0; 1; 2; 4; 8])
                       data_type_map = true) by reflexivity.
  rewrite forallb_forall in H. specialize (H _ E). simpl snd in H.
  apply existsb_exists in H. destruct H as [x [Hx Ex]].
  apply Z.eqb_eq in Ex. subst x. exact Hx.
Qed.

(** The signals the filter returns satisfy the precondition of the packing
    bound when the lengths are those of the data types and [MAX_DTO] is at
    least 8. *)
Lemma filtered_lengths all user p signals matched max_dto :
  filter_a2l_signals all user p = Ok (signals, matched) ->
  int16 (MAX_DTO p) = Ok max_dto ->
  8 <= max_dto ->
  Forall typed_length all ->
  Forall (fun s => 0 <= Length s <= Z.min max_dto 64 - 1) signals.
Proof.
  intros Hok Hdto H8 Htyped.
  destruct (filter_a2l_signals_ok _ _ _ _ _ Hok)
    as [v [st [Hv [_ [[_ [Hgood _]] [Hsig _]]]]]].
  rewrite Hdto in Hv. injection Hv as <-.
  apply Forall_forall. intros s Hs. rewrite Hsig in Hs. apply in_map_iff in Hs.
  destruct Hs as [[k s'] [E Hin]]. simpl in E. subst s'.
  destruct (Hgood k s Hin) as [Hk [_ [a [Ha [_ Hs]]]]].
  apply keeps_length_spec in Hk. destruct Hk as [Hne0 Hne8].
  rewrite Forall_forall in Htyped. destruct (Htyped a Ha) as [dt Hdt].
  assert (Hl : Length s = A2L.Length a) by (rewrite Hs; reflexivity).
  pose proof (data_type_lengths dt) as Hin5. rewrite <- Hdt, <- Hl in Hin5.
  simpl in Hin5. lia.
Qed.

(** Case analysis on the eight bits of a character. *)
Ltac ascii_cases c :=
  let b0 := fresh "b" in let b1 := fresh "b" in let b2 := fresh "b" in
  let b3 := fresh "b" in let b4 := fresh "b" in let b5 := fresh "b" in
  let b6 := fresh "b" in let b7 := fresh "b" in
  destruct c as [b0 b1 b2 b3 b4 b5 b6 b7];
  destruct b0, b1, b2, b3, b4, b5, b6, b7.

(** ** Decimal digits *)

Lemma decimal_digits (n : nat) : all_chars is_digit (decimal n) = true.
Proof.
  unfold decimal. induction (Nat.to_uint n); simpl; auto.
Qed.

Lemma decimal_nonempty (n : nat) : decimal n <> EmptyString.
Proof.
  unfold decimal. intros E.
  pose proof (DecimalString.NilEmpty.usu (Nat.to_uint n)) as H.
  rewrite E in H. simpl in H. injection H as H.
  pose proof (DecimalNat.Unsigned.of_to n) as Hn. rewrite <- H in Hn.
  simpl in Hn. subst n. discriminate H.
Qed.

Lemma digit_not_newline (c : ascii) : is_digit c = true -> (c =? newline)%char = false.
Proof.
  intros H. destruct (Ascii.eqb_spec c newline) as [-> | _]; [discriminate | reflexivity].
Qed.

Lemma digits_to_end_digits (s : string) :
  all_chars is_digit s = true ->
  forall seen, seen = true \/ s <> EmptyString -> digits_to_end s seen = true.
Proof.
  induction s as [| c r IH]; simpl; intros H seen Hs.
  - destruct Hs as [-> | Hs]; [reflexivity | congruence].
  - apply andb_true_iff in H. destruct H as [Hc Hr]. rewrite Hc.
    apply IH; [exact Hr | left; reflexivity].
Qed.

(** ** The matrix pattern *)

Lemma matrix_base_cons (c : ascii) (r : string) :
  matrix_base (String c r) =
  if (c =? newline)%char then None
  else match matrix_base r with
       | Some base_name => Some (String c base_name)
       | None => if matrix_tail r then Some (String c EmptyString) else None
       end.
Proof. reflexivity. Qed.

Lemma matrix_tail_inv (s : string) :
  matrix_tail s = true ->
  exists r, s = String "_" (String "M" (String "X" (String "_" r))).
Proof.
  destruct s as [| c1 s]; [discriminate |].
  ascii_cases c1; try discriminate.
  destruct s as [| c2 s]; [discriminate |].
  ascii_cases c2; try discriminate.
  destruct s as [| c3 s]; [discriminate |].
  ascii_cases c3; try discriminate.
  destruct s as [| c4 s]; [discriminate |].
  ascii_cases c4; try discriminate.
  intros _. exists s. reflexivity.
Qed.

Lemma matrix_tail_digits (s : string) :
  all_chars is_digit s = true -> matrix_tail s = false.
Proof.
  intros H. destruct (matrix_tail s) eqn:E; [| reflexivity].
  apply matrix_tail_inv in E. destruct E as [r ->]. discriminate H.
Qed.

Lemma matrix_base_digits (s : string) :
  all_chars is_digit s = true -> matrix_base s = None.
Proof.
  induction s as [| c r IH]; [reflexivity |]. intros H.
  cbn [all_chars] in H. apply andb_true_iff in H. destruct H as [Hc Hr].
  rewrite matrix_base_cons, (digit_not_newline c Hc), (IH Hr),
    (matrix_tail_digits r Hr). reflexivity.
Qed.

Lemma matrix_base_suffix_only (ds : string) :
  all_chars is_digit ds = true ->
  matrix_base (String "_" (String "M" (String "X" (String "_" ds)))) = None.
Proof.
  intros H.
  assert (H1 : matrix_tail (String "_" ds) = false).
  { destruct (matrix_tail (String "_" ds)) eqn:E; [| reflexivity].
    apply matrix_tail_inv in E. destruct E as [r E]. injection E as ->.
    discriminate H. }
  assert (H2 : matrix_tail (String "X" (String "_" ds)) = false) by reflexivity.
  assert (H3 : matrix_tail (String "M" (String "X" (String "_" ds))) = false)
    by reflexivity.
  rewrite !matrix_base_cons, (matrix_base_digits ds H),
    (matrix_tail_digits ds H), H1, H2, H3. reflexivity.
Qed.

(** The pattern gives back the base name of a name built as
    [f"{base_name}_MX_{i}"]. *)
Lemma matrix_base_round_trip (base ds : string) :
  base <> EmptyString -> has_char newline base = false ->
  all_chars is_digit ds = true -> ds <> EmptyString ->
  matrix_base (base ++ "_MX_" ++ ds) = Some base.
Proof.
  intros Hne Hnl Hd Hds. induction base as [| c b IH]; [congruence |].
  cbn [has_char] in Hnl. apply orb_false_iff in Hnl. destruct Hnl as [Hc Hb].
  change (String c b ++ "_MX_" ++ ds)%string
    with (String c (b ++ "_MX_" ++ ds)%string).
  rewrite matrix_base_cons, Hc.
  destruct b as [| c' b'].
  - cbn [String.append]. rewrite (matrix_base_suffix_only ds Hd).
    cbn [matrix_tail]. rewrite (digits_to_end_digits ds Hd false); auto.
  - rewrite IH; [reflexivity | discriminate | exact Hb].
Qed.

(** ** Lower-case hexadecimal *)

Lemma digit_val_lower (c : ascii) :
  Hex.digit_val (lower_char c) = Hex.digit_val c.
Proof. ascii_cases c; reflexivity. Qed.

Lemma parse_lower (s : string) :
  forall acc, Hex.parse (str_lower s) acc = Hex.parse s acc.
Proof.
  induction s as [| c r IH]; intros acc; [reflexivity |].
  simpl. rewrite digit_val_lower. destruct (Hex.digit_val c); [apply IH | reflexivity].
Qed.

(** [int(hex(n), 16) == n]. *)
Lemma int16_hex (n : Z) : 0 <= n -> int16 (hex n) = Ok n.
Proof.
  intros Hn. unfold hex. replace (n <? 0) with false by (symmetry; apply Z.ltb_ge; lia).
  unfold int16. cbn [String.append Hex.parse_unsigned].
  unfold Hex.parse_digits.
  destruct (str_lower (Hex.upper n)) eqn:E.
  - exfalso. destruct (Hex.upper n) eqn:E'; [| discriminate].
    revert E'. apply digits_nonempty.
  - rewrite <- E, parse_lower, parse_upper by exact Hn. reflexivity.
Qed.

Lemma digit_is_upper_hex (d : Z) : is_upper_hex (Hex.digit d) = true.
Proof.
  destruct d as [| p | p]; try reflexivity.
  do 5 (try (destruct p as [p | p |]; try reflexivity)).
Qed.

Lemma digits_upper_hex (fuel : nat) :
  forall n acc, all_chars is_upper_hex acc = true ->
    all_chars is_upper_hex (Hex.digits fuel n acc) = true.
Proof.
  induction fuel as [| fuel IH]; intros n acc H; simpl.
  - rewrite digit_is_upper_hex. exact H.
  - destruct (n <? 16); simpl.
    + rewrite digit_is_upper_hex. exact H.
    + apply IH. simpl. rewrite digit_is_upper_hex. exact H.
Qed.

Lemma upper_is_upper_hex (n : Z) : all_chars is_upper_hex (Hex.upper n) = true.
Proof. apply digits_upper_hex. reflexivity. Qed.

Lemma upper_lower_char (c : ascii) :
  is_upper_hex c = true ->
  upper_char (lower_char c) = c /\ (lower_char c =? "x")%char = false.
Proof. ascii_cases c; try discriminate; split; reflexivity. Qed.

Lemma str_upper_lower (s : string) :
  all_chars is_upper_hex s = true -> str_upper (str_lower s) = s.
Proof.
  induction s as [| c r IH]; [reflexivity |]. simpl. intros H.
  apply andb_true_iff in H. destruct H as [Hc Hr].
  rewrite (proj1 (upper_lower_char c Hc)), IH by exact Hr. reflexivity.
Qed.

Lemma remove_0x_cons (c : ascii) (s : string) :
  (forall r, s <> String "x" r) ->
  remove_0x (String c s) = String c (remove_0x s).
Proof.
  intros H. ascii_cases c; try reflexivity.
  destruct s as [| c2 r]; [reflexivity |].
  ascii_cases c2; try reflexivity.
  exfalso. exact (H r eq_refl).
Qed.

Lemma remove_0x_lower (s : string) :
  all_chars is_upper_hex s = true -> remove_0x (str_lower s) = str_lower s.
Proof.
  induction s as [| c r IH]; [reflexivity |]. intros H.
  cbn [all_chars] in H. apply andb_true_iff in H. destruct H as [Hc Hr].
  cbn [str_lower]. rewrite remove_0x_cons; [rewrite (IH Hr); reflexivity |].
  intros r' E. destruct r as [| c2 r2]; [discriminate |].
  cbn [str_lower] in E. injection E as E _.
  cbn [all_chars] in Hr. apply andb_true_iff in Hr. destruct Hr as [Hc2 _].
  pose proof (proj2 (upper_lower_char c2 Hc2)) as Hx. rewrite E in Hx. discriminate.
Qed.

(** The text of [hex(n)] as [create_transmit_list] renders it. *)
Lemma upper_of_hex (n : Z) : 0 <= n -> str_upper (remove_0x (hex n)) = Hex.upper n.
Proof.
  intros Hn. unfold hex. replace (n <? 0) with false by (symmetry; apply Z.ltb_ge; lia).
  change ("0x" ++ str_lower (Hex.upper n))%string
    with (String "0" (String "x" (str_lower (Hex.upper n)))).
  change (remove_0x (String "0" (String "x" (str_lower (Hex.upper n)))))
    with (remove_0x (str_lower (Hex.upper n))).
  rewrite remove_0x_lower, str_upper_lower by apply upper_is_upper_hex.
  reflexivity.
Qed.

(** ** Bit 31 of a CAN identifier *)

Lemma extended_id_bits (can_id : Z) :
  0x80000000 <= can_id < 0xA0000000 ->
  Z.land can_id 0x80000000 <> 0 /\
  Z.lor (Z.land can_id 0x1FFFFFFF) 0x80000000 = can_id.
Proof.
  intros H.
  assert (Hr : Z.land can_id 0x1FFFFFFF = can_id - 0x80000000).
  { change 0x1FFFFFFF with (Z.ones 29). rewrite Z.land_ones by lia.
    change (2 ^ 29) with 536870912.
    replace can_id with ((can_id - 2147483648) + 4 * 536870912) at 1 by lia.
    rewrite Z.mod_add by lia. apply Z.mod_small. lia. }
  assert (Hbit : Z.testbit can_id 31 = true).
  { apply Z.testbit_true; [lia |]. change (2 ^ 31) with 2147483648.
    replace (can_id / 2147483648) with 1; [reflexivity |].
    apply Z.div_unique with (r := can_id - 2147483648); lia. }
  split.
  - intros E. apply (f_equal (fun z => Z.testbit z 31)) in E.
    rewrite Z.land_spec, Hbit in E. discriminate E.
  - rewrite Hr.
    assert (Hdisj : Z.land (can_id - 2147483648) 2147483648 = 0).
    { apply Z.bits_inj'. intros n Hn. rewrite Z.land_spec, Z.bits_0.
      change 2147483648 with (2 ^ 31). rewrite Z.pow2_bits_eqb by lia.
      destruct (Z.eqb_spec 31 n) as [<- | _]; [| apply andb_false_r].
      rewrite andb_true_r. apply Z.testbit_false; [lia |].
      rewrite Z.div_small; [reflexivity |]. change (2 ^ 31) with 2147483648. lia. }
    rewrite <- Z.lxor_lor, <- Z.add_nocarry_lxor by exact Hdisj. lia.
Qed.

(** ** The rows of the signal file *)

Lemma load_signal_row_item (m : list (string * string)) (row : list string) :
  load_signal_row m row =
  match row_item row with
  | Some (k, v) => dict_set m k v
  | None => m
  end.
Proof.
  unfold load_signal_row, row_item. destruct row as [| c0 [| c1 rest]]; try reflexivity.
  destruct (_ || _); reflexivity.
Qed.

Lemma find_snoc {A : Type} (f : A -> bool) (l : list A) (x : A) :
  find f (l ++ [x]) =
  match find f l with
  | Some y => Some y
  | None => if f x then Some x else None
  end.
Proof.
  induction l as [| y l IH]; simpl; [reflexivity |].
  destruct (f y); [reflexivity | exact IH].
Qed.

Lemma dict_set_NoDup {V : Type} (d : list (string * V)) (k : string) (v : V) :
  NoDup (map fst d) -> NoDup (map fst (dict_set d k v)).
Proof.
  intros H. rewrite dict_set_keys. destruct (dict_mem d k) eqn:E; [exact H |].
  apply dict_mem_false in E. clear -H E.
  induction (map fst d) as [| x l IH]; simpl.
  - constructor; [intros [] | constructor].
  - inversion H; subst. constructor.
    + rewrite in_app_iff. intros [Hx | [Hx | []]]; [contradiction |].
      apply E. left. symmetry. exact Hx.
    + apply IH; [assumption |]. intros Hc. apply E. right. exact Hc.
Qed.

(** The mapping after the rows [rows], from any mapping: the keys stay
    pairwise different, and the value of a key is that of the last row
    that sets it. *)
Lemma load_signal_rows_spec (rows : list (list string)) :
  forall m, NoDup (map fst m) ->
    let m' := fold_left load_signal_row rows m in
    NoDup (map fst m') /\
    forall k, dict_get m' k =
              match find (fun kv => (fst kv =? k)%string)
                         (rev (row_items rows)) with
              | Some kv => Some (snd kv)
              | None => dict_get m k
              end.
Proof.
  unfold row_items.
  induction rows as [| row rows IH]; intros m Hnd; cbv zeta.
  - split; [exact Hnd | reflexivity].
  - cbn [fold_left flat_map]. rewrite load_signal_row_item.
    destruct (row_item row) as [[k0 v0] |].
    + destruct (IH (dict_set m k0 v0) (dict_set_NoDup _ _ _ Hnd)) as [H1 H2].
      split; [exact H1 |]. intros k. rewrite H2. cbn [app rev].
      rewrite find_snoc. cbn [fst snd].
      destruct (find _ (rev _)); [reflexivity |].
      rewrite dict_get_set. destruct (k0 =? k)%string; reflexivity.
    + destruct (IH m Hnd) as [H1 H2]. split; [exact H1 |]. exact H2.
Qed.

Lemma create_dbc_can_id sg p pr dbc v :
  create_dbc sg p pr = Ok dbc ->
  int16 (CAN_ID_SLAVE p) = Ok v ->
  dbc_can_id dbc = if CAN_ID_SLAVE_EXTENDED p then Z.lor v 0x80000000 else v.
Proof.
  unfold create_dbc. intros Hok Hv. rewrite Hv in Hok. simpl bind in Hok.
  destruct (int16 (MAX_CTO p)); [| discriminate]. simpl bind in Hok.
  match type of Hok with
  | bind ?m _ = _ => destruct m; [| discriminate]
  end. simpl bind in Hok.
  match type of Hok with
  | bind ?m _ = _ => destruct m; [| discriminate]
  end.
  simpl in Hok. injection Hok as <-. reflexivity.
Qed.

(** ** The loops of the XCP encoder *)

Ltac frame_len_tac :=
  unfold classic_frame; cbn [DATA];
  unfold Xcp.address_extension, Xcp.prescaler, Xcp.start_stop_mode;
  repeat (progress cbn [String.length String.append]
          || rewrite str_length_app
          || rewrite fmt2_length by lia);
  lia.

Lemma mapM_shape {A : Type} (f : A -> result Frame) (n : A -> string)
    (P : Frame -> Prop) (xs : list A) :
  (forall x y, In x xs -> f x = Ok y -> FrameName y = n x /\ P y) ->
  forall ys, mapM f xs = Ok ys ->
    map FrameName ys = map n xs /\ Forall P ys.
Proof.
  induction xs as [| x xs IH]; intros Hf ys H; simpl in H.
  - injection H as <-. split; constructor.
  - destruct (f x) as [y |] eqn:Ey; cbn [bind] in H; [| discriminate].
    destruct (mapM f xs) as [ys' |] eqn:Eys; cbn [bind] in H; [| discriminate].
    injection H as <-.
    destruct (Hf x y (or_introl eq_refl) Ey) as [Hn Hp].
    destruct (IH (fun x' y' Hin => Hf x' y' (or_intror Hin)) ys' eq_refl) as [Hns Hps].
    split; [simpl; rewrite Hn, Hns; reflexivity | constructor; assumption].
Qed.

Lemma concatM_shape {A : Type} (f : A -> result (list Frame))
    (n : A -> list string) (P : Frame -> Prop) (xs : list A) :
  (forall x ys, In x xs -> f x = Ok ys -> map FrameName ys = n x /\ Forall P ys) ->
  forall zs, Xcp.concatM f xs = Ok zs ->
    map FrameName zs = flat_map n xs /\ Forall P zs.
Proof.
  induction xs as [| x xs IH]; intros Hf zs H; simpl in H.
  - injection H as <-. split; constructor.
  - destruct (f x) as [ys |] eqn:Ey; cbn [bind] in H; [| discriminate].
    destruct (Xcp.concatM f xs) as [zs' |] eqn:Ezs; cbn [bind] in H; [| discriminate].
    injection H as <-.
    destruct (Hf x ys (or_introl eq_refl) Ey) as [Hn Hp].
    destruct (IH (fun x' y' Hin => Hf x' y' (or_intror Hin)) zs' eq_refl) as [Hns Hps].
    split; [simpl; rewrite map_app, Hn, Hns; reflexivity |].
    apply Forall_app. split; assumption.
Qed.

Lemma write_daq_each_shape order sigs :
  forall idx fs,
    Xcp.write_daq_each order sigs idx = Ok fs ->
    map FrameName fs
    = map (fun i => "WRITE_DAQ_0x" ++ Hex.fmt 2 (Z.of_nat i))%string
          (seq idx (List.length sigs)) /\
    Forall (fun f =>
              Forall (fun s => 0 <= Length (signal s) < 256) sigs ->
              classic_frame f) fs.
Proof.
  induction sigs as [| s sigs IH]; intros idx fs H; simpl in H.
  - injection H as <-. split; constructor.
  - destruct (hex_field 4 order (ECU_ADDRESS (signal s))) as [a |] eqn:Ea;
      cbn [bind] in H; [| discriminate].
    destruct (Xcp.write_daq_each order sigs (S idx)) as [fs' |] eqn:Efs;
      cbn [bind] in H; [| discriminate].
    injection H as <-. destruct (IH _ _ Efs) as [Hn Hp].
    split; [simpl; rewrite Hn; reflexivity |].
    constructor.
    + intros HL. inversion HL as [| ? ? Hs _]; subst.
      apply hex_field_length in Ea. frame_len_tac.
    + eapply Forall_impl; [| exact Hp]. intros f Hf HL. apply Hf.
      inversion HL; assumption.
Qed.

Lemma xcp_odt_frames_shape order max_cto daq_signals d o fs :
  max_cto <> 64 ->
  Xcp.odt_frames order max_cto daq_signals d o = Ok fs ->
  map FrameName fs
  = "SET_DAQ_PTR"
    :: map (fun i => "WRITE_DAQ_0x" ++ Hex.fmt 2 (Z.of_nat i))%string
           (seq 0 (List.length (with_odt o daq_signals))) /\
  Forall (fun f =>
            Forall (fun s => 0 <= Length (signal s) < 256) daq_signals ->
            classic_frame f) fs.
Proof.
  intros Hcto H. unfold Xcp.odt_frames in H.
  destruct (hex_field 2 order d) as [dn |] eqn:Edn; cbn [bind] in H; [| discriminate].
  destruct (hex_field 1 big o) as [on |] eqn:Eon; cbn [bind] in H; [| discriminate].
  replace (max_cto =? 64) with false in H by (symmetry; apply Z.eqb_neq; exact Hcto).
  match type of H with
  | bind (Xcp.write_daq_each ?a ?b ?c) _ = _ =>
      destruct (Xcp.write_daq_each a b c) as [ws |] eqn:Ew;
      cbn [bind] in H; [| discriminate]
  end.
  injection H as <-. destruct (write_daq_each_shape _ _ _ _ Ew) as [Hn Hp].
  split; [simpl; rewrite Hn; reflexivity |].
  constructor.
  - intros _. apply hex_field_length in Edn, Eon. frame_len_tac.
  - eapply Forall_impl; [| exact Hp]. intros f Hf HL. apply Hf.
    rewrite Forall_forall in *. intros s Hs. apply HL.
    apply filter_In in Hs. apply Hs.
Qed.

Lemma sorted_set_length (l : list string) :
  (List.length (sorted_set l) <= List.length l)%nat.
Proof.
  apply NoDup_incl_length; [apply sorted_set_NoDup |].
  intros x Hx. apply sorted_set_In. exact Hx.
Qed.

Lemma odts_of_length sg d : (List.length (odts_of sg d) <= List.length sg)%nat.
Proof.
  unfold odts_of. etransitivity; [apply sorted_set_length |].
  rewrite length_map. unfold daq_signals_of. apply filter_length_le.
Qed.

Lemma daq_lists_of_length sg : (List.length (daq_lists_of sg) <= List.length sg)%nat.
Proof.
  unfold daq_lists_of. etransitivity; [apply sorted_set_length |].
  rewrite length_map. reflexivity.
Qed.

Lemma event_priority_length events ch :
  Forall (fun e => (String.length (remove_0X (str_upper (EventPriority e))) <= 2)%nat)
         events ->
  (String.length (Xcp.event_priority_of events ch) <= 2)%nat.
Proof.
  induction 1 as [| e events He _ IH]; simpl; [lia |].
  destruct (EventChannelNumber e =? ch); [exact He | exact IH].
Qed.

(** The number of signals of a grouping, ODT by ODT. *)
Lemma odt_keys_signals sg :
  list_sum (map (fun k => List.length (odt_signals_of sg (fst k) (snd k)))
                (odt_keys sg))
  = List.length sg.
Proof.
  assert (Hlen : forall l : list GroupedSignal,
            List.length l = entries_written false l).
  { intros l. unfold entries_written. induction l; simpl; auto. }
  unfold odt_keys.
  rewrite (Hlen sg), <- (entries_written_by_daq_list false sg).
  induction (daq_lists_of sg) as [| d ds IH]; [reflexivity |].
  cbn [flat_map map]. rewrite map_app, list_sum_app, IH.
  change (list_sum (?a :: ?l)) with (a + list_sum l)%nat. f_equal.
  rewrite <- (entries_written_by_odt false (daq_signals_of sg d)).
  fold (odts_of sg d). rewrite map_map. f_equal. apply map_ext. intros o.
  cbn [fst snd]. rewrite odt_signals_of_with_odt. apply Hlen.
Qed.

Lemma flat_map_length_sum {A B : Type} (f : A -> list B) (l : list A) :
  List.length (flat_map f l) = list_sum (map (fun x => List.length (f x)) l).
Proof.
  induction l as [| a l IH]; [reflexivity |]. simpl.
  rewrite length_app, IH. reflexivity.
Qed.

Lemma xcp_frame_names_length sg :
  List.length (xcp_frame_names sg)
  = (5 + 3 * List.length (daq_lists_of sg) + 2 * List.length (odt_keys sg)
       + List.length sg)%nat.
Proof.
  unfold xcp_frame_names. rewrite !length_app, !length_map, flat_map_length_sum.
  pose proof (odt_keys_signals sg) as Hs.
  rewrite (map_ext _ (fun k => S (List.length (odt_signals_of sg (fst k) (snd k)))))
    by (intros k; simpl; rewrite length_map, length_seq; reflexivity).
  rewrite list_sum_succ, Hs. simpl. lia.
Qed.

(** The command sequence for classic CAN frames. *)
Lemma xcp_classic_shape sg p fs max_cto :
  Xcp.create_daq_frames_xcp sg p = Ok fs ->
  int16 (MAX_CTO p) = Ok max_cto ->
  max_cto < 64 ->
  map FrameName fs = xcp_frame_names sg /\
  (Forall (fun s => 0 <= Length (signal s) < 256) sg ->
   (List.length sg < 256)%nat ->
   Forall (fun e => (String.length (remove_0X (str_upper (EventPriority e))) <= 2)%nat)
          (EVENTS p) ->
   Forall classic_frame fs).
Proof.
  intros H Hcto Hlt. unfold Xcp.create_daq_frames_xcp in H.
  rewrite Hcto in H. cbn [bind] in H.
  destruct (to_bytes_hex 2 (BYTE_ORDER p) _) as [dc |] eqn:Edc;
    cbn [bind] in H; [| discriminate].
  destruct (mapM (Xcp.al_odt _ _) _) as [f1 |] eqn:E1; cbn [bind] in H; [| discriminate].
  destruct (Xcp.concatM (Xcp.al_odt_entries _ _) _) as [f2 |] eqn:E2;
    cbn [bind] in H; [| discriminate].
  destruct (Xcp.concatM (Xcp.set_daq_ptr_and_writes _ _ _) _) as [f3 |] eqn:E3;
    cbn [bind] in H; [| discriminate].
  destruct (mapM (Xcp.set_daq_list_mode _ _ _) _) as [f4 |] eqn:E4;
    cbn [bind] in H; [| discriminate].
  destruct (mapM (Xcp.start_stop_daq_list _) _) as [f5 |] eqn:E5;
    cbn [bind] in H; [| discriminate].
  injection H as <-.
  set (Q := fun f : Frame =>
              Forall (fun s => 0 <= Length (signal s) < 256) sg ->
              (List.length sg < 256)%nat ->
              Forall (fun e => (String.length
                                  (remove_0X (str_upper (EventPriority e))) <= 2)%nat)
                     (EVENTS p) ->
              classic_frame f).
  assert (Hmin : Z.min max_cto 64 <> 64) by lia.
  (* AL_ODT *)
  destruct (mapM_shape _ (fun d => "AL_ODT_" ++ d)%string Q _
              (fun d y _ (Hy : Xcp.al_odt (BYTE_ORDER p) sg d = Ok y) =>
                 ltac:(unfold Xcp.al_odt in Hy;
                       destruct (hex_field 2 (BYTE_ORDER p) d) as [dn |] eqn:Edn;
                       cbn [bind] in Hy; [| discriminate];
                       injection Hy as <-; split; [reflexivity |];
                       intros _ Hn _;
                       apply hex_field_length in Edn;
                       pose proof (odts_of_length sg d);
                       frame_len_tac))
              _ E1) as [N1 P1].
  (* AL_ODT_ENT *)
  destruct (concatM_shape _ (fun d => map (fun o => "AL_ODT_ENT_" ++ o)%string
                                         (odts_of sg d)) Q _
              (fun d ys _ (Hy : Xcp.al_odt_entries (BYTE_ORDER p) sg d = Ok ys) =>
                 ltac:(unfold Xcp.al_odt_entries in Hy;
                       destruct (hex_field 2 (BYTE_ORDER p) d) as [dn |] eqn:Edn;
                       cbn [bind] in Hy; [| discriminate];
                       apply hex_field_length in Edn;
                       refine (mapM_shape _ (fun o => "AL_ODT_ENT_" ++ o)%string Q _
                                 _ _ Hy);
                       intros o y _ Ho; unfold Xcp.al_odt_entry in Ho;
                       destruct (hex_field 1 big o) as [on |] eqn:Eon;
                       cbn [bind] in Ho; [| discriminate];
                       apply hex_field_length in Eon;
                       injection Ho as <-; split; [reflexivity |];
                       intros _ Hn _;
                       assert (List.length (odt_signals_of sg d o)
                               <= List.length sg)%nat
                         by (unfold odt_signals_of; apply filter_length_le);
                       frame_len_tac))
              _ E2) as [N2 P2].
  (* SET_DAQ_PTR and WRITE_DAQ *)
  destruct (concatM_shape _
              (fun d => flat_map (fun o =>
                 "SET_DAQ_PTR"
                 :: map (fun i => "WRITE_DAQ_0x" ++ Hex.fmt 2 (Z.of_nat i))%string
                        (seq 0 (List.length (odt_signals_of sg d o))))
                 (odts_of sg d)) Q _
              (fun d ys _ (Hy : Xcp.set_daq_ptr_and_writes (BYTE_ORDER p)
                                  (Z.min max_cto 64) sg d = Ok ys) =>
                 ltac:(unfold Xcp.set_daq_ptr_and_writes in Hy;
                       fold (odts_of sg d) in Hy;
                       refine (concatM_shape _ _ Q _ _ _ Hy);
                       intros o zs _ Ho;
                       destruct (xcp_odt_frames_shape _ _ _ _ _ _ Hmin Ho) as [Hn Hp];
                       split; [rewrite Hn, odt_signals_of_with_odt; reflexivity |];
                       eapply Forall_impl; [| exact Hp];
                       intros f Hf HL _ _; apply Hf;
                       rewrite Forall_forall in *; intros s Hs; apply HL;
                       apply daq_signals_of_In in Hs; apply Hs))
              _ E3) as [N3 P3].
  (* SET_DAQ_LIST_MODE *)
  destruct (mapM_shape _ (fun _ => "SET_DAQ_LIST_MOD") Q _
              (fun d y _ (Hy : Xcp.set_daq_list_mode (BYTE_ORDER p) (EVENTS p) sg d
                               = Ok y) =>
                 ltac:(unfold Xcp.set_daq_list_mode in Hy;
                       destruct (first_signal_of sg d) as [s |]; [| discriminate];
                       destruct (int16 (EventConfigured (signal s))) as [ch |];
                       cbn [bind] in Hy; [| discriminate];
                       destruct (hex_field 2 (BYTE_ORDER p) d) as [dn |] eqn:Edn;
                       cbn [bind] in Hy; [| discriminate];
                       destruct (to_bytes_hex 2 (BYTE_ORDER p) ch) as [ec |] eqn:Eec;
                       cbn [bind] in Hy; [| discriminate];
                       apply hex_field_length in Edn;
                       apply to_bytes_hex_length in Eec;
                       injection Hy as <-; split; [reflexivity |];
                       intros _ _ He;
                       pose proof (event_priority_length _ ch He);
                       frame_len_tac))
              _ E4) as [N4 P4].
  (* START_STOP_DAQ_LIST *)
  destruct (mapM_shape _ (fun _ => "START_STOP_DAQ") Q _
              (fun d y _ (Hy : Xcp.start_stop_daq_list (BYTE_ORDER p) d = Ok y) =>
                 ltac:(unfold Xcp.start_stop_daq_list in Hy;
                       destruct (hex_field 2 (BYTE_ORDER p) d) as [dn |] eqn:Edn;
                       cbn [bind] in Hy; [| discriminate];
                       apply hex_field_length in Edn;
                       injection Hy as <-; split; [reflexivity |];
                       intros _ _ _; frame_len_tac))
              _ E5) as [N5 P5].
  split.
  - cbn [app map FrameName].
    rewrite !map_app, N1, N2, N3, N4, N5. unfold xcp_frame_names, odt_keys.
    rewrite flat_map_pairs.
    cbn [map FrameName app fst snd]. repeat f_equal.
    clear. induction (daq_lists_of sg) as [| d ds IH]; [reflexivity |].
    cbn [flat_map]. rewrite map_app, map_map, IH. reflexivity.
  - intros HL Hn He. apply to_bytes_hex_length in Edc.
    assert (Hq : forall l, Forall Q l -> Forall classic_frame l).
    { intros l Hl. eapply Forall_impl; [| exact Hl]. intros f Hf.
      exact (Hf HL Hn He). }
    repeat (constructor; [frame_len_tac |]).
    repeat (apply Forall_app; split); auto.
    constructor; [frame_len_tac | constructor].
Qed.

Lemma total_payload_classic (frames : list Frame) :
  Forall classic_frame frames ->
  0 <= total_payload_bytes frames <= 8 * Z.of_nat (List.length frames).
Proof.
  induction 1 as [| f frames Hf _ IH]; [simpl; lia |].
  unfold total_payload_bytes in *. cbn [fold_right List.length].
  unfold classic_frame in Hf.
  assert (String.length (DATA f) / 2 <= 8)%nat
    by (apply Nat.Div0.div_le_upper_bound; lia).
  lia.
Qed.

(** ** The bytes of a field *)

Lemma payload_byte_succ (i : nat) (a b : ascii) (rest : string) :
  payload_byte (S i) (String a (String b rest)) = payload_byte i rest.
Proof.
  unfold payload_byte. replace (2 * S i)%nat with (S (S (2 * i))) by lia.
  reflexivity.
Qed.

Lemma payload_byte_of_bytes (bs : list Z) :
  Forall (fun b => 0 <= b < 256) bs ->
  forall i, payload_byte i (Hex.of_bytes bs) = nth_error bs i.
Proof.
  induction 1 as [| b bs Hb _ IH]; intros i.
  - destruct i; reflexivity.
  - cbn [Hex.of_bytes]. unfold Hex.byte. cbn [String.append].
    destruct i as [| i].
    + rewrite (payload_byte_0 _ _ (b / 16) (b mod 16)).
      * change (nth_error (b :: bs) 0) with (Some b). f_equal.
        pose proof (Z.div_mod b 16 ltac:(lia)). lia.
      * apply digit_val_digit. split; [apply Z.div_pos; lia |].
        apply Z.div_lt_upper_bound; lia.
      * apply digit_val_digit. apply Z.mod_pos_bound. lia.
    + rewrite payload_byte_succ. apply IH.
Qed.

Lemma be_bytes_range (n : nat) :
  forall v, Forall (fun b => 0 <= b < 256) (Hex.be_bytes n v).
Proof.
  induction n as [| n IH]; intros v; simpl; [constructor |].
  apply Forall_app. split; [apply IH |].
  constructor; [apply Z.mod_pos_bound; lia | constructor].
Qed.

(** Byte [i] of the big-endian rendering in [n] bytes. *)
Lemma be_bytes_nth (n : nat) :
  forall v i, (i < n)%nat ->
    nth_error (Hex.be_bytes n v) i
    = Some ((v / 256 ^ Z.of_nat (n - 1 - i)) mod 256).
Proof.
  induction n as [| n IH]; intros v i Hi; [lia |]. simpl Hex.be_bytes.
  destruct (Nat.eq_dec i n) as [-> | Hne].
  - rewrite nth_error_app2 by (rewrite be_bytes_length; lia).
    rewrite be_bytes_length, Nat.sub_diag.
    replace (S n - 1 - n)%nat with 0%nat by lia. simpl.
    rewrite Z.div_1_r. reflexivity.
  - rewrite nth_error_app1 by (rewrite be_bytes_length; lia).
    rewrite IH by lia.
    replace (S n - 1 - i)%nat with (S (n - 1 - i)) by lia.
    rewrite Nat2Z.inj_succ, Z.pow_succ_r by lia.
    rewrite Z.div_div by lia. reflexivity.
Qed.

Lemma nth_error_rev_lt {A : Type} (l : list A) :
  forall i, (i < List.length l)%nat ->
    nth_error (rev l) i = nth_error l (List.length l - 1 - i).
Proof.
  induction l as [| a l IH] using rev_ind; intros i Hi; [simpl in Hi; lia |].
  rewrite rev_app_distr. rewrite length_app in *. simpl in Hi |- *.
  destruct i as [| i]; simpl.
  - rewrite nth_error_app2 by lia.
    replace (_ - _ - _ - _)%nat with 0%nat by lia. reflexivity.
  - rewrite IH by lia. rewrite nth_error_app1 by lia.
    f_equal. lia.
Qed.

(** ** A list and its classes by a key *)

Lemma flat_map_ext_In {A B : Type} (f g : A -> list B) (l : list A) :
  (forall x, In x l -> f x = g x) -> flat_map f l = flat_map g l.
Proof.
  induction l as [| x l IH]; intros H; [reflexivity |]. cbn [flat_map].
  rewrite (H x (or_introl eq_refl)), IH; [reflexivity |].
  intros y Hy. apply H. right. exact Hy.
Qed.

Lemma flat_map_insert {A : Type} (x : string) (a : A) (g : string -> list A)
    (ks : list string) :
  NoDup ks -> In x ks ->
  Permutation
    (flat_map (fun k => (if (x =? k)%string then [a] else []) ++ g k) ks)
    (a :: flat_map g ks).
Proof.
  induction 1 as [| k ks Hk Hnd IH]; intros Hin; [destruct Hin |].
  cbn [flat_map]. destruct (String.eqb_spec x k) as [-> | Hne].
  - cbn [app]. constructor. apply Permutation_app_head.
    rewrite (flat_map_ext_In _ g); [reflexivity |]. intros k' Hk'.
    destruct (String.eqb_spec k k') as [<- | _]; [contradiction | reflexivity].
  - destruct Hin as [-> | Hin]; [congruence |].
    cbn [app]. rewrite (IH Hin). apply Permutation_sym, Permutation_middle.
Qed.

(** The classes of a list by a key, one after the other, hold the
    elements of the list. *)
Lemma classes_by_key {A : Type} (key : A -> string) (ks : list string) (l : list A) :
  NoDup ks -> (forall a, In a l -> In (key a) ks) ->
  Permutation (flat_map (fun k => filter (fun a => (key a =? k)%string) l) ks) l.
Proof.
  intros Hnd. induction l as [| a l IH]; intros Hin.
  - assert (E : flat_map (fun k => filter (fun a => (key a =? k)%string)
                                          (@nil A)) ks = [])
      by (clear; induction ks; simpl; auto).
    rewrite E. constructor.
  - rewrite (flat_map_ext _
               (fun k => (if (key a =? k)%string then [a] else [])
                         ++ filter (fun a0 => (key a0 =? k)%string) l)).
    + rewrite flat_map_insert; [| exact Hnd | apply Hin; left; reflexivity].
      constructor. apply IH. intros b Hb. apply Hin. right. exact Hb.
    + intros k. cbn [filter]. destruct (key a =? k)%string; reflexivity.
Qed.

Lemma flat_map_Permutation {A B : Type} (f g : A -> list B) (l : list A) :
  (forall x, In x l -> Permutation (f x) (g x)) ->
  Permutation (flat_map f l) (flat_map g l).
Proof.
  induction l as [| x l IH]; intros H; [constructor |]. cbn [flat_map].
  apply Permutation_app; [apply H; left; reflexivity |].
  apply IH. intros y Hy. apply H. right. exact Hy.
Qed.

(** The signals of a grouping, ODT by ODT. *)
Lemma odts_hold_signals sg :
  Permutation
    (flat_map (fun d => flat_map (odt_signals_of sg d) (odts_of sg d))
              (daq_lists_of sg))
    sg.
Proof.
  transitivity (flat_map (daq_signals_of sg) (daq_lists_of sg)).
  - apply flat_map_Permutation. intros d _.
    rewrite (flat_map_ext _ (fun o => filter (fun g => (ODT_NUMBER g =? o)%string)
                                             (daq_signals_of sg d)))
      by (intros o; apply odt_signals_of_with_odt).
    apply classes_by_key; [apply sorted_set_NoDup |].
    intros g Hg. apply sorted_set_In, in_map, Hg.
  - unfold daq_signals_of, daq_lists_of.
    apply classes_by_key; [apply sorted_set_NoDup |].
    intros g Hg. apply sorted_set_In, in_map, Hg.
Qed.

(** ** How [create_dbc] ends *)

Lemma find_daq_list_by_number_failure declared d e :
  find_daq_list_by_number declared d = Raise e -> e = ValueError.
Proof.
  induction declared as [| dl rest IH]; simpl; [discriminate |].
  destruct (int16 (DaqList.Id dl)) as [a |] eqn:Ea; cbn [bind];
    [| intros H; injection H as <-; exact (int16_failure _ _ Ea)].
  destruct (int16 d) as [b |] eqn:Eb; cbn [bind];
    [| intros H; injection H as <-; exact (int16_failure _ _ Eb)].
  destruct (a =? b); [discriminate | exact IH].
Qed.

Lemma first_pid_failure p pr d pid e :
  first_pid p pr d pid = Raise e ->
  e = ValueError \/ (pr = ccp /\ e = KeyError /\ DAQ_LISTS p = None).
Proof.
  unfold first_pid. destruct pr; [| discriminate].
  destruct (DAQ_LISTS p) as [declared |].
  - destruct (find_daq_list_by_number declared d) as [[dl |] |] eqn:Ef;
      cbn [bind]; try discriminate.
    + intros H. left. exact (int16_failure _ _ H).
    + intros H. injection H as <-. left.
      exact (find_daq_list_by_number_failure _ _ _ Ef).
  - intros H. injection H as <-. right. auto.
Qed.

Lemma dbc_daq_lists_failure flag sg p pr dls :
  forall pid e, dbc_daq_lists flag sg p pr dls pid = Raise e ->
    e = ValueError \/ (pr = ccp /\ e = KeyError /\ DAQ_LISTS p = None).
Proof.
  induction dls as [| d dls IH]; intros pid e H; simpl in H; [discriminate |].
  destruct (first_pid p pr d pid) as [pid0 |] eqn:Ef; cbn [bind] in H.
  - destruct (dbc_odts flag sg d (odts_of sg d) pid0) as [rows_d pid1].
    destruct (dbc_daq_lists flag sg p pr dls pid1) as [rows_r |] eqn:Er;
      cbn [bind] in H; [discriminate |].
    injection H as <-. exact (IH _ _ Er).
  - injection H as <-. exact (first_pid_failure _ _ _ _ _ Ef).
Qed.

Lemma dbc_daq_lists_xcp flag sg p dls :
  forall pid, exists rows, dbc_daq_lists flag sg p xcp dls pid = Ok rows.
Proof.
  induction dls as [| d dls IH]; intros pid; simpl; [eauto |].
  destruct (dbc_odts flag sg d (odts_of sg d) pid) as [rows_d pid1].
  destruct (IH pid1) as [rows_r ->]. simpl. eauto.
Qed.

Lemma dbc_daq_lists_no_key flag sg p d dls pid :
  DAQ_LISTS p = None ->
  dbc_daq_lists flag sg p ccp (d :: dls) pid = Raise KeyError.
Proof. intros H. simpl. unfold first_pid. rewrite H. reflexivity. Qed.

Lemma daq_lists_of_nonempty sg : sg <> [] -> daq_lists_of sg <> [].
Proof.
  destruct sg as [| g sg]; [congruence |]. intros _ E.
  assert (H : In (DAQ_LIST_NUMBER g) (daq_lists_of (g :: sg)))
    by (apply daq_lists_of_In; exists g; split; [left |]; reflexivity).
  rewrite E in H. exact H.
Qed.

(** ** Failures of the CCP encoder *)

Lemma overflow_only_bind {A B : Type} (m : result A) (k : A -> result B) :
  overflow_only m -> (forall a, m = Ok a -> overflow_only (k a)) ->
  overflow_only (bind m k).
Proof.
  unfold overflow_only. intros Hm Hk e. destruct m as [a | e0]; simpl.
  - apply (Hk a eq_refl).
  - intros H. injection H as <-. apply Hm. reflexivity.
Qed.

Lemma overflow_only_ok {A : Type} (a : A) : overflow_only (Ok a).
Proof. intros e H. discriminate. Qed.

Lemma to_bytes_hex_overflow n order v : overflow_only (to_bytes_hex n order v).
Proof.
  intros e. unfold to_bytes_hex.
  destruct ((v <? 0) || (256 ^ Z.of_nat n <=? v)); congruence.
Qed.

Lemma ctr_hex_overflow c : overflow_only (ctr_hex c).
Proof. apply to_bytes_hex_overflow. Qed.

Lemma int16_overflow s : is_hex_text s -> overflow_only (int16 s).
Proof. intros [v E] e. rewrite E. discriminate. Qed.

Lemma hex_field_overflow n order s :
  is_hex_text s -> overflow_only (hex_field n order s).
Proof.
  intros H. unfold hex_field. apply overflow_only_bind.
  - apply int16_overflow. exact H.
  - intros v _. apply to_bytes_hex_overflow.
Qed.

Ltac overflow_steps :=
  repeat first
    [ apply overflow_only_ok
    | apply ctr_hex_overflow
    | apply to_bytes_hex_overflow
    | apply hex_field_overflow; assumption
    | apply int16_overflow; assumption
    | apply overflow_only_bind;
      [| first [intros [[? ?] ?] _ | intros [? ?] _ | intros ? _]] ].

Lemma for_each_overflow {A : Type} (body : A -> Ccp.emitter) (xs : list A) :
  (forall x c, In x xs -> overflow_only (body x c)) ->
  forall c, overflow_only (Ccp.for_each body xs c).
Proof.
  induction xs as [| x xs IH]; intros Hb c; cbn [Ccp.for_each].
  - apply overflow_only_ok.
  - apply overflow_only_bind; [apply Hb; left; reflexivity |].
    intros [fs c1] _. apply overflow_only_bind.
    + apply IH. intros y c' Hy. apply Hb. right. exact Hy.
    + intros [fs' c2] _. apply overflow_only_ok.
Qed.

Lemma entry_frames_overflow order dn on s c :
  is_hex_text (ODT_ENTRY_NUMBER s) -> is_hex_text (ECU_ADDRESS (signal s)) ->
  overflow_only (Ccp.entry_frames order dn on s c).
Proof.
  intros He Ha. unfold Ccp.entry_frames. cbv zeta. overflow_steps.
Qed.

Lemma chunk_frames_overflow order dn on s chunks :
  is_hex_text (ECU_ADDRESS (signal s)) ->
  forall e c, overflow_only (Ccp.chunk_frames order dn on s chunks e c).
Proof.
  intros Ha. induction chunks as [| k chunks IH]; intros e c;
    cbn [Ccp.chunk_frames].
  - apply overflow_only_ok.
  - cbv zeta. overflow_steps. apply IH.
Qed.

Lemma bytes_only_frames_overflow order dn on sigs :
  Forall (fun s => is_hex_text (ECU_ADDRESS (signal s))) sigs ->
  forall e c, overflow_only (Ccp.bytes_only_frames order dn on sigs e c).
Proof.
  induction 1 as [| s sigs Hs Hsigs IH]; intros e c;
    cbn [Ccp.bytes_only_frames].
  - apply overflow_only_ok.
  - cbv zeta. apply overflow_only_bind; [apply chunk_frames_overflow; exact Hs |].
    intros [[fs e1] c1] _. apply overflow_only_bind; [apply IH |].
    intros [fs' c2] _. apply overflow_only_ok.
Qed.

Lemma odt_frames_overflow order bytes_only daq_signals dn o c :
  is_hex_text o ->
  Forall (fun s => is_hex_text (ODT_ENTRY_NUMBER s) /\
                   is_hex_text (ECU_ADDRESS (signal s))) daq_signals ->
  overflow_only (Ccp.odt_frames order bytes_only daq_signals dn o c).
Proof.
  intros Ho Hs. unfold Ccp.odt_frames. cbv zeta.
  apply overflow_only_bind; [apply hex_field_overflow; exact Ho |].
  intros on _.
  assert (Hf : Forall (fun s => is_hex_text (ODT_ENTRY_NUMBER s) /\
                                is_hex_text (ECU_ADDRESS (signal s)))
                      (filter (fun s => (ODT_NUMBER s =? o)%string) daq_signals)).
  { rewrite Forall_forall in *. intros s Hin. apply filter_In in Hin.
    apply Hs. apply Hin. }
  destruct bytes_only.
  - apply bytes_only_frames_overflow. eapply Forall_impl; [| exact Hf].
    intros s [_ H]. exact H.
  - apply for_each_overflow. intros s c' Hin.
    rewrite Forall_forall in Hf. destruct (Hf s Hin) as [He Ha].
    apply entry_frames_overflow; assumption.
Qed.

(** What the texts of a grouping that parse give for its DAQ lists and
    ODTs. *)
Lemma texts_of_daq_list sg p d :
  ccp_texts_parse sg p -> In d (daq_lists_of sg) ->
  is_hex_text d /\
  (forall o, In o (sorted_set (map ODT_NUMBER (daq_signals_of sg d))) ->
             is_hex_text o) /\
  Forall (fun s => is_hex_text (ODT_ENTRY_NUMBER s) /\
                   is_hex_text (ECU_ADDRESS (signal s))) (daq_signals_of sg d) /\
  exists s, first_signal_of sg d = Some s /\
            is_hex_text (EventConfigured (signal s)) /\
            sorted_set (map ODT_NUMBER (daq_signals_of sg d)) <> [].
Proof.
  intros [_ [_ [_ [_ Hsg]]]] Hd. rewrite Forall_forall in Hsg.
  apply daq_lists_of_In in Hd. destruct Hd as [g [Hg Ed]].
  split; [rewrite <- Ed; apply (Hsg g Hg) |].
  split; [| split].
  - intros o Ho. apply sorted_set_In, in_map_iff in Ho.
    destruct Ho as [s [<- Hs]]. apply daq_signals_of_In in Hs.
    apply (Hsg s (proj1 Hs)).
  - apply Forall_forall. intros s Hs. apply daq_signals_of_In in Hs.
    destruct (Hsg s (proj1 Hs)) as [_ [_ [He [Ha _]]]]. split; assumption.
  - unfold first_signal_of.
    destruct (find (fun s => (DAQ_LIST_NUMBER s =? d)%string) sg) as [s |] eqn:Ef.
    + exists s. split; [reflexivity |]. apply find_some in Ef.
      split; [apply (Hsg s (proj1 Ef)) |].
      intros E. destruct Ef as [Hin Heq]. apply String.eqb_eq in Heq.
      assert (Hi : In (ODT_NUMBER s)
                      (sorted_set (map ODT_NUMBER (daq_signals_of sg d)))).
      { apply sorted_set_In, in_map. apply daq_signals_of_In. tauto. }
      rewrite E in Hi. exact Hi.
    + exfalso. apply (find_none _ _ Ef) in Hg.
      apply String.eqb_neq in Hg. contradiction.
Qed.

Lemma daq_list_frames_overflow sg p can_id d c :
  ccp_texts_parse sg p -> In d (daq_lists_of sg) ->
  overflow_only
    (Ccp.daq_list_frames (BYTE_ORDER p) (BYTES_ONLY p) can_id sg d c).
Proof.
  intros Ht Hd. destruct (texts_of_daq_list sg p d Ht Hd) as [Hdt [Ho [Hs _]]].
  unfold Ccp.daq_list_frames. cbv zeta.
  apply overflow_only_bind; [apply hex_field_overflow; exact Hdt |].
  intros dn _. apply overflow_only_bind; [apply ctr_hex_overflow |].
  intros ch _. apply overflow_only_bind; [apply to_bytes_hex_overflow |].
  intros cid _. apply overflow_only_bind.
  - apply for_each_overflow. intros o c' Hin.
    apply odt_frames_overflow; [apply Ho; exact Hin | exact Hs].
  - intros [fs c'] _. apply overflow_only_ok.
Qed.

Lemma last_odt_numbers_overflow d odts :
  is_hex_text d -> (forall o, In o odts -> is_hex_text o) ->
  forall numbers,
    overflow_only (Ccp.last_odt_numbers d odts numbers) /\
    (odts <> [] \/ numbers <> None ->
     Ccp.last_odt_numbers d odts numbers <> Ok None).
Proof.
  intros Hd. induction odts as [| o odts IH]; intros Ho numbers;
    cbn [Ccp.last_odt_numbers].
  - split; [apply overflow_only_ok |].
    intros [H | H] E; [congruence | injection E as E; contradiction].
  - assert (Hrest : forall o', In o' odts -> is_hex_text o')
      by (intros o' Hin; apply Ho; right; exact Hin).
    assert (Hot : is_hex_text o) by (apply Ho; left; reflexivity).
    split.
    + apply overflow_only_bind; [apply hex_field_overflow; exact Hd |].
      intros dn _. apply overflow_only_bind; [apply hex_field_overflow; exact Hot |].
      intros on _. apply (IH Hrest).
    + intros _. destruct (hex_field 1 big d) as [dn |]; cbn [bind]; [| discriminate].
      destruct (hex_field 1 big o) as [on |]; cbn [bind]; [| discriminate].
      apply (IH Hrest). right. discriminate.
Qed.

Lemma start_stop_frame_overflow sg p d c :
  ccp_texts_parse sg p -> In d (daq_lists_of sg) ->
  overflow_only (Ccp.start_stop_frame (BYTE_ORDER p) sg d c).
Proof.
  intros Ht Hd.
  destruct (texts_of_daq_list sg p d Ht Hd) as [Hdt [Ho [_ [s [Ef [Hev Hne]]]]]].
  unfold Ccp.start_stop_frame. cbv zeta. rewrite Ef.
  apply overflow_only_bind; [apply int16_overflow; exact Hev |].
  intros ev _. apply overflow_only_bind; [apply to_bytes_hex_overflow |].
  intros evh _.
  destruct (last_odt_numbers_overflow d _ Hdt Ho None) as [Hov Hsome].
  apply overflow_only_bind; [exact Hov |].
  intros [[dn on] |] E.
  - apply overflow_only_bind; [apply ctr_hex_overflow |].
    intros ch _. apply overflow_only_ok.
  - exfalso. apply Hsome; [left; exact Hne | exact E].
Qed.

(** With texts that parse, the CCP encoder returns or raises
    [OverflowError]. *)
Lemma encode_overflow sg p :
  ccp_texts_parse sg p -> overflow_only (Ccp.encode sg p).
Proof.
  intros Ht. pose proof Ht as [Hcto [Hdto [Hst [Hdl _]]]].
  unfold Ccp.encode. cbv zeta.
  apply overflow_only_bind; [apply int16_overflow; exact Hcto |].
  intros max_cto _.
  apply overflow_only_bind; [apply int16_overflow; exact Hdto |].
  intros can_id _.
  destruct (DAQ_LISTS p) as [declared |]; [| contradiction].
  apply overflow_only_bind.
  { unfold Ccp.connect_frame. overflow_steps. }
  intros [f1 c1] _. apply overflow_only_bind.
  { unfold Ccp.exchange_id_frame. overflow_steps. }
  intros [f2 c2] _. apply overflow_only_bind.
  { apply for_each_overflow. intros d c Hd.
    apply daq_list_frames_overflow; assumption. }
  intros [f3 c3] _. apply overflow_only_bind.
  { apply for_each_overflow. intros d c Hd.
    apply start_stop_frame_overflow; assumption. }
  intros [f4 c4] _. apply overflow_only_bind.
  { unfold Ccp.start_stop_all_frame. overflow_steps. }
  intros [f5 c5] _. apply overflow_only_ok.
Qed.

(** ** Blocks of frames in the XCP encoder *)

Lemma concatM_blocks {A B : Type} (f : A -> result (list B)) (xs : list A) :
  forall zs, Xcp.concatM f xs = Ok zs ->
    exists yss, Forall2 (fun x ys => f x = Ok ys) xs yss /\ zs = List.concat yss.
Proof.
  induction xs as [| x xs IH]; intros zs H; cbn [Xcp.concatM] in H.
  - injection H as <-. exists []. split; constructor.
  - destruct (f x) as [ys |] eqn:Ey; cbn [bind] in H; [| discriminate].
    destruct (Xcp.concatM f xs) as [zs' |] eqn:Ez; cbn [bind] in H; [| discriminate].
    injection H as <-. destruct (IH zs' eq_refl) as [yss [Hf ->]].
    exists (ys :: yss). split; [constructor; assumption | reflexivity].
Qed.

(** Two nested loops that append frames: one block per pair of the
    enumeration. *)
Lemma concatM_nested {B : Type} (g : string -> string -> result (list B))
    (f : string -> list string) (ds : list string) :
  forall zs, Xcp.concatM (fun d => Xcp.concatM (g d) (f d)) ds = Ok zs ->
    exists blocks,
      Forall2 (fun k b => g (fst k) (snd k) = Ok b)
              (flat_map (fun d => map (pair d) (f d)) ds) blocks /\
      zs = List.concat blocks.
Proof.
  induction ds as [| d ds IH]; intros zs H; cbn [Xcp.concatM] in H.
  - injection H as <-. exists []. split; constructor.
  - destruct (Xcp.concatM (g d) (f d)) as [ys |] eqn:Ey; cbn [bind] in H;
      [| discriminate].
    destruct (Xcp.concatM _ ds) as [zs' |] eqn:Ez; cbn [bind] in H; [| discriminate].
    injection H as <-. destruct (IH zs' eq_refl) as [blocks [Hb ->]].
    destruct (concatM_blocks _ _ _ Ey) as [yss [Hy ->]].
    exists (yss ++ blocks). split; [| rewrite concat_app; reflexivity].
    cbn [flat_map]. apply Forall2_app; [| exact Hb].
    clear -Hy. induction Hy; simpl; constructor; assumption.
Qed.

Lemma Forall2_impl_In {A B : Type} (R R' : A -> B -> Prop) (l : list A) (l' : list B) :
  (forall a b, In a l -> R a b -> R' a b) -> Forall2 R l l' -> Forall2 R' l l'.
Proof.
  intros H HF. induction HF as [| a b l l' Hab HF IH]; constructor.
  - apply H; [left; reflexivity | exact Hab].
  - apply IH. intros a' b' Hin. apply H. right. exact Hin.
Qed.

(* ================================================================== *)
(** * The claims *)
(* ================================================================== *)

(** C1 (counterexample): XCP, 257 signals of 4 bytes on one channel with
    [MAX_DTO = 0x08]: [group_signals] returns 257 ODTs, [0x00] to [0x100],
    in one DAQ list.  [create_dbc] enumerates them by [sorted], which
    compares the identifiers as texts: [0x100] comes after [0x10] and
    before [0x11].  ODT 256 gets the multiplexor value 17 and ODT 17 the
    value 18: the values do not ascend with the numbers of the ODTs. *)
Lemma create_dbc_text_order_past_255 :
  exists sg dbc r1 r2,
    group_signals (four_byte_signals 257)
      (Sample.params "0x08" "0x08" little None) xcp = Ok sg /\
    List.length (odt_keys sg) = 257%nat /\
    create_dbc sg (Sample.params "0x08" "0x08" little None) xcp = Ok dbc /\
    nth_error (dbc_rows dbc) 17 = Some r1 /\
    row_key r1 = (daq_id 0, odt_id 256) /\ multiplexor_value r1 = 17 /\
    nth_error (dbc_rows dbc) 18 = Some r2 /\
    row_key r2 = (daq_id 0, odt_id 17) /\ multiplexor_value r2 = 18 /\
    ~ numbered_in_id_order dbc.
Proof.
  eexists. eexists. eexists. eexists.
  split; [vm_compute; reflexivity |].
  split; [vm_compute; reflexivity |].
  split; [vm_compute; reflexivity |].
  split; [vm_compute; reflexivity |].
  split; [vm_compute; reflexivity |].
  split; [vm_compute; reflexivity |].
  split; [vm_compute; reflexivity |].
  split; [vm_compute; reflexivity |].
  split; [vm_compute; reflexivity |].
  intros H.
  match goal with
  | H : numbered_in_id_order ?dbc |- _ =>
      match type of H with
      | numbered_in_id_order ?dbc =>
          pose proof (fun r2 r1 E2 E1 =>
                        H r2 r1 0%nat 17%nat 256%nat
                          (nth_error_In (dbc_rows dbc) 18 E2)
                          (nth_error_In (dbc_rows dbc) 17 E1)) as H'
      end
  end.
  specialize (H' _ _ ltac:(vm_compute; reflexivity) ltac:(vm_compute; reflexivity)
                 ltac:(vm_compute; reflexivity) ltac:(vm_compute; reflexivity)
                 ltac:(lia)).
  vm_compute in H'. discriminate.
Qed.

(** C1 (amended): the decode table lists the signals ODT by ODT, the ODTs
    in the ascending order of their (DAQ list, ODT) identifiers as
    [sorted] compares them, which is the order of the texts.  It is the
    order of the numbers as long as the DAQ lists are numbered below
    65536 and the ODTs below 256, and a grouping that [group_signals] has
    returned and the encoder of the protocol has accepted stays in that
    range.  All rows of an ODT carry one multiplexor value; from one ODT
    of a DAQ list to the next the value grows by 1; for XCP the [k]-th
    ODT of the enumeration carries [k] (counting from 0); for CCP the ODTs
    of a DAQ list with a declared first PID carry that PID plus their
    position in the list, and a DAQ list without a declared entry
    continues where the preceding one ended. *)
Theorem create_dbc_multiplexor_values sg p pr dbc :
  create_dbc sg p pr = Ok dbc ->
  let rows := dbc_rows dbc in
  let keys := odt_keys sg in
  let daq r := DAQ_LIST_NUMBER (row_signal r) in
  let odt r := ODT_NUMBER (row_signal r) in
  (StronglySorted odt_key_lt keys /\
   forall d o, In (d, o) keys <->
               exists g, In g sg /\ DAQ_LIST_NUMBER g = d /\ ODT_NUMBER g = o) /\
  (forall i j d1 o1 d2 o2,
     nth_error keys i = Some (daq_id d1, odt_id o1) ->
     nth_error keys j = Some (daq_id d2, odt_id o2) ->
     Z.of_nat d1 < 65536 -> Z.of_nat d2 < 65536 ->
     (o1 < 256)%nat -> (o2 < 256)%nat ->
     ((i < j)%nat <-> (d1 < d2)%nat \/ (d1 = d2 /\ (o1 < o2)%nat))) /\
  (forall signals frames,
     group_signals signals p pr = Ok sg ->
     match pr with
     | xcp => Xcp.create_daq_frames_xcp sg p
     | ccp => Ccp.create_daq_frames_ccp sg p
     end = Ok frames ->
     forall k, In k keys ->
       exists d o, k = (daq_id d, odt_id o) /\
                   Z.of_nat d < 65536 /\ (o < 256)%nat) /\
  map row_signal rows = flat_map (fun k => odt_signals_of sg (fst k) (snd k)) keys /\
  (forall r1 r2, In r1 rows -> In r2 rows -> row_key r1 = row_key r2 ->
     multiplexor_value r1 = multiplexor_value r2) /\
  (forall r1 r2 j, In r1 rows -> In r2 rows -> daq r1 = daq r2 ->
     nth_error (odts_of sg (daq r1)) j = Some (odt r1) ->
     nth_error (odts_of sg (daq r1)) (S j) = Some (odt r2) ->
     multiplexor_value r2 = multiplexor_value r1 + 1) /\
  (pr = xcp ->
   forall r k, In r rows -> nth_error keys k = Some (row_key r) ->
     multiplexor_value r = Z.of_nat k) /\
  (forall r pid0 j, In r rows ->
     declares_first_pid p pr (daq r) pid0 ->
     nth_error (odts_of sg (daq r)) j = Some (odt r) ->
     multiplexor_value r = pid0 + Z.of_nat j) /\
  (forall r1 r2 m, In r1 rows -> In r2 rows ->
     nth_error (daq_lists_of sg) m = Some (daq r1) ->
     nth_error (daq_lists_of sg) (S m) = Some (daq r2) ->
     carries_over p pr (daq r2) ->
     nth_error (odts_of sg (daq r2)) 0 = Some (odt r2) ->
     last (odts_of sg (daq r1)) EmptyString = odt r1 ->
     multiplexor_value r2 = multiplexor_value r1 + 1).
Proof.
  intros Hok rows keys daq odt.
  destruct (create_dbc_rows _ _ _ _ Hok) as [flag Hrows].
  pose proof (sorted_set_NoDup (map DAQ_LIST_NUMBER sg)) as Hnd.
  fold (daq_lists_of sg) in Hnd.
  destruct (dbc_daq_lists_spec flag sg p pr _ Hnd _ _ Hrows)
    as [Hsig [start [Hr [Hdecl [Hfirst Hnext]]]]].
  assert (Hodts : forall d, NoDup (odts_of sg d))
    by (intros d; apply sorted_set_NoDup).
  assert (Hmux : forall r j, In r rows ->
            nth_error (odts_of sg (daq r)) j = Some (odt r) ->
            multiplexor_value r = start (daq r) + Z.of_nat j).
  { intros r j Hin Hj. destruct (Hr r Hin) as [_ [_ [j' [Hj' Hm]]]].
    rewrite (nth_error_NoDup_eq _ _ _ _ (Hodts _) Hj Hj'). exact Hm. }
  split; [split; [apply odt_keys_sorted | apply odt_keys_In] |].
  split; [| split].
  { intros i j d1 o1 d2 o2 Hi Hj Hd1 Hd2 Ho1 Ho2.
    pose proof (odt_key_order d1 o1 d2 o2 Hd1 Hd2 Ho1 Ho2) as Hfwd.
    pose proof (odt_key_order d2 o2 d1 o1 Hd2 Hd1 Ho2 Ho1) as Hbwd.
    pose proof (odt_key_order d1 o1 d1 o1 Hd1 Hd1 Ho1 Ho1) as Hsame.
    split.
    - intros Hij. apply Hfwd.
      exact (StronglySorted_nth_error _ _ (odt_keys_sorted sg) _ _ _ _ Hij Hi Hj).
    - intros Hnum. destruct (Nat.lt_trichotomy i j) as [H | [H | H]]; [exact H | |].
      + subst j.
        assert (E : (daq_id d1, odt_id o1) = (daq_id d2, odt_id o2))
          by (unfold keys in Hi, Hj; congruence).
        apply Hfwd in Hnum. rewrite <- E in Hnum. apply Hsame in Hnum. lia.
      + pose proof (StronglySorted_nth_error _ _ (odt_keys_sorted sg) _ _ _ _ H Hj Hi)
          as Hlt.
        apply Hbwd in Hlt. lia. }
  { intros signals frames Hgr Henc [d o] Hk.
    apply odt_keys_In in Hk. destruct Hk as [g [Hg [Ed Eo]]].
    destruct (script_id_range _ _ _ _ _ _ Hgr Henc Hg) as [dn [on [Edn [Eon [Hdn Hon]]]]].
    exists dn, on. split; [congruence | auto]. }
  split; [| split; [| split; [| split; [| split]]]].
  - fold rows in Hsig. rewrite Hsig. unfold keys, odt_keys.
    rewrite flat_map_pairs. reflexivity.
  - intros r1 r2 H1 H2 E. unfold row_key in E. injection E as Ed Eo.
    destruct (Hr r1 H1) as [_ [_ [j [Hj ->]]]].
    rewrite (Hmux r2 j H2); [unfold daq; rewrite Ed; reflexivity |].
    unfold daq, odt. rewrite <- Ed, <- Eo. exact Hj.
  - intros r1 r2 j H1 H2 Ed Hj1 Hj2.
    rewrite (Hmux r1 j H1 Hj1), (Hmux r2 (S j) H2) by (rewrite <- Ed; exact Hj2).
    rewrite Ed. lia.
  - intros -> r k Hin Hk.
    assert (Hstart : forall m d, nth_error (daq_lists_of sg) m = Some d ->
              start d = Z.of_nat (List.length
                          (flat_map (odts_of sg) (firstn m (daq_lists_of sg))))).
    { induction m as [| m IHm]; intros d Hd.
      - rewrite (Hfirst d Hd I). reflexivity.
      - assert (Hlt : (m < List.length (daq_lists_of sg))%nat)
          by (apply Nat.lt_le_incl, nth_error_Some; congruence).
        destruct (nth_error (daq_lists_of sg) m) as [d0 |] eqn:Ed0;
          [| apply nth_error_Some in Hlt; contradiction].
        rewrite (Hnext m d0 d Ed0 Hd I), (IHm d0 eq_refl).
        rewrite (flat_map_firstn_succ _ _ m d0 Ed0), Nat2Z.inj_add. reflexivity. }
    destruct (Hr r Hin) as [_ [Hd [j [Hj Hm]]]].
    apply In_nth_error in Hd. destruct Hd as [m Hd].
    assert (Hpos : nth_error keys
                     (List.length (flat_map (odts_of sg) (firstn m (daq_lists_of sg))) + j)
                   = Some (row_key r)).
    { unfold keys, odt_keys.
      rewrite <- (flat_map_pairs_length (odts_of sg)).
      eapply flat_map_nth_error; [exact Hd |].
      apply map_nth_error. exact Hj. }
    rewrite (nth_error_NoDup_eq _ _ _ _ (odt_keys_NoDup sg) Hk Hpos).
    rewrite Hm, (Hstart m _ Hd), Nat2Z.inj_add. reflexivity.
  - intros r pid0 j Hin Hd Hj.
    rewrite (Hmux r j Hin Hj).
    destruct (Hr r Hin) as [_ [Hdin _]].
    unfold daq in *. rewrite (Hdecl _ _ Hdin Hd). reflexivity.
  - intros r1 r2 m H1 H2 Hm1 Hm2 Hc Hfirst2 Hlast1.
    rewrite (Hmux r2 0%nat H2 Hfirst2), (Hnext m _ _ Hm1 Hm2 Hc).
    destruct (Hr r1 H1) as [_ [_ [j [Hj ->]]]]. unfold daq, odt in *.
    set (os := odts_of sg (DAQ_LIST_NUMBER (row_signal r1))) in *.
    assert (Hne : os <> [])
      by (intros E; rewrite E in Hj; destruct j; discriminate).
    assert (Hjlast : nth_error os (List.length os - 1)
                     = Some (ODT_NUMBER (row_signal r1))).
    { destruct (exists_last Hne) as [l' [x E]]. rewrite E in *.
      rewrite last_last in Hlast1. subst x.
      rewrite length_app, nth_error_app2 by (simpl; lia).
      replace (_ - _ - _)%nat with 0%nat by (simpl; lia). reflexivity. }
    rewrite (nth_error_NoDup_eq _ _ _ _ (Hodts _) Hj Hjlast).
    assert (0 < List.length os)%nat by (destruct os; [congruence | simpl; lia]).
    lia.
Qed.

(** C1 (witness): CCP, DAQ list 0 declared with first PID 0x10, DAQ list 1
    not declared: the ODTs carry 16, 17 and then 18; ODT 1 of DAQ list 0
    comes before ODT 0 of DAQ list 1. *)
Lemma create_dbc_multiplexor_values_witness :
  exists dbc,
    create_dbc Sample.signals_grouped (Sample.ccp_params "0x00") ccp = Ok dbc /\
    map multiplexor_value (dbc_rows dbc) = [16; 16; 17; 18] /\
    nth_error (odt_keys Sample.signals_grouped) 1 = Some (daq_id 0, odt_id 1) /\
    nth_error (odt_keys Sample.signals_grouped) 2 = Some (daq_id 1, odt_id 0) /\
    ((1 < 2)%nat <-> (0 < 1)%nat \/ (0%nat = 1%nat /\ (1 < 0)%nat)) /\
    (forall r pid0 j, In r (dbc_rows dbc) ->
       declares_first_pid (Sample.ccp_params "0x00") ccp
         (DAQ_LIST_NUMBER (row_signal r)) pid0 ->
       nth_error (odts_of Sample.signals_grouped (DAQ_LIST_NUMBER (row_signal r))) j
         = Some (ODT_NUMBER (row_signal r)) ->
       multiplexor_value r = pid0 + Z.of_nat j).
Proof.
  eexists. split; [vm_compute; reflexivity |]. split; [vm_compute; reflexivity |].
  split; [reflexivity |]. split; [reflexivity |].
  pose proof (create_dbc_multiplexor_values Sample.signals_grouped
                (Sample.ccp_params "0x00") ccp _ eq_refl) as H.
  cbv zeta in H. destruct H as [_ [Hnum [_ [_ [_ [_ [_ [H _]]]]]]]].
  split; [| exact H].
  apply (Hnum 1%nat 2%nat 0%nat 1%nat 1%nat 0%nat); try reflexivity; lia.
Defined.

(** C2 (counterexample): a 4-byte signal with [MAX_DTO = 0x04] is placed
    alone in ODT 1, whose 4 bytes exceed [max_dto - 1 = 3]. *)
Lemma packing_bound_fails_on_oversize_signal :
  ~ packing_bound [Sample.wide] (Sample.params "0x08" "0x04" little None) xcp.
Proof.
  intros H.
  specialize (H ltac:(discriminate) [grouped Sample.wide 0 1 0] 4
                eq_refl eq_refl _ (or_introl eq_refl)).
  vm_compute in H. apply H. reflexivity.
Qed.

(** C2 (amended): when no signal is longer than [max_dto - 1] (with
    [max_dto = min(MAX_DTO, 64)]), every ODT of the grouping holds at most
    [max_dto - 1] bytes of signals. *)
Theorem group_signals_packing_bound signals p pr max_dto :
  int16 (MAX_DTO p) = Ok max_dto ->
  Forall (fun s => Length s <= Z.min max_dto 64 - 1) signals ->
  packing_bound signals p pr.
Proof.
  intros Hdto Hlen _ out max_dto' Hok Hdto' g Hg.
  rewrite Hdto in Hdto'. injection Hdto' as <-.
  destruct (group_signals_ok _ _ _ _ Hok) as [_ [mp [Hmp ->]]].
  destruct (max_payload_of_ok _ _ Hmp) as [v [Hv ->]].
  rewrite Hdto in Hv. injection Hv as <-.
  destruct (assign_daq_lists_daq _ _ _ _ Hg) as [j [_ Hj]].
  rewrite Hj, odt_signals_of_with_odt, assign_daq_lists_daq_signals.
  pose proof (assign_odts_sum (Z.min max_dto 64 - 1) (0 + j) (ODT_NUMBER g)
                (nth j (map snd (group_by_event signals)) [])) as Hsum.
  cbv zeta in Hsum.
  destruct (Hsum ltac:(rewrite Forall_forall in *; intros s Hs; apply Hlen;
                        eapply bucket_incl; exact Hs) 0%nat 0 []) as [Hnil | Hle].
  - exfalso.
    assert (Hin : In g (with_odt (ODT_NUMBER g)
                     (daq_signals_of (assign_daq_lists (Z.min max_dto 64 - 1)
                        (group_by_event signals) 0) (daq_id (0 + j))))).
    { unfold with_odt, daq_signals_of. rewrite !filter_In, Hj, !String.eqb_refl. auto. }
    rewrite assign_daq_lists_daq_signals, Hnil in Hin. exact Hin.
  - destruct (ODT_NUMBER g =? odt_id 0)%string; lia.
Qed.

(** C2 (witness): the sample signals with [MAX_DTO = 0x08]. *)
Lemma group_signals_packing_bound_witness :
  int16 "0x08" = Ok 8 /\
  Forall (fun s => Length s <= Z.min 8 64 - 1) Sample.signals /\
  packing_bound Sample.signals (Sample.params "0x08" "0x08" little None) xcp.
Proof.
  split; [reflexivity |]. split.
  - repeat constructor; simpl; lia.
  - apply (group_signals_packing_bound Sample.signals
             (Sample.params "0x08" "0x08" little None) xcp 8).
    + reflexivity.
    + repeat constructor; simpl; lia.
Defined.

(** C3: one XCP event channel (3), two unsigned 2-byte signals, [MAX_DTO]
    and [MAX_CTO] of 8.  Both signals go to DAQ list 0, ODT 0, entries 0 and
    1; the encoder emits one SET_DAQ_PTR and then two WRITE_DAQ frames for
    the ODT (and no WRITE_DAQ_MULTIPLE); the decode table has two rows with
    multiplexor value 0, bit length 16 and start bits 8 and 24 (little
    endian) or 15 and 31 (big endian). *)
Theorem xcp_two_signals_end_to_end (s1 s2 : Signal) (p : A2LParams)
    (a1 a2 : string) (can_id : Z) :
  EventConfigured s1 = "3" -> EventConfigured s2 = "3" ->
  Length s1 = 2 -> Length s2 = 2 ->
  Signage s1 = "unsigned" -> Signage s2 = "unsigned" ->
  MAX_DTO p = "0x08" -> MAX_CTO p = "0x08" ->
  hex_field 4 (BYTE_ORDER p) (ECU_ADDRESS s1) = Ok a1 ->
  hex_field 4 (BYTE_ORDER p) (ECU_ADDRESS s2) = Ok a2 ->
  int16 (CAN_ID_SLAVE p) = Ok can_id ->
  let sg := [grouped s1 0 0 0; grouped s2 0 0 1] in
  let word v := match BYTE_ORDER p with
                | little => Hex.byte v ++ "00"
                | big => "00" ++ Hex.byte v
                end%string in
  group_signals [s1; s2] p xcp = Ok sg /\
  Xcp.create_daq_frames_xcp sg p =
    Ok [ {| FrameName := "CONNECT"; DATA := "FF00" |};
         {| FrameName := "GET_STATUS"; DATA := "FD" |};
         {| FrameName := "FREE_DAQ"; DATA := "D6" |};
         {| FrameName := "AL_DAQ"; DATA := "D500" ++ word 1 |};
         {| FrameName := "AL_ODT_0x0000"; DATA := "D400000001" |};
         {| FrameName := "AL_ODT_ENT_0x00"; DATA := "D30000000002" |};
         {| FrameName := "SET_DAQ_PTR"; DATA := "E20000000000" |};
         {| FrameName := "WRITE_DAQ_0x00"; DATA := "E1FF0200" ++ a1 |};
         {| FrameName := "WRITE_DAQ_0x01"; DATA := "E1FF0200" ++ a2 |};
         {| FrameName := "SET_DAQ_LIST_MOD";
            DATA := "E0000000" ++ word 3 ++ "01"
                      ++ Xcp.event_priority_of (EVENTS p) 3 |};
         {| FrameName := "START_STOP_DAQ"; DATA := "DE020000" |};
         {| FrameName := "START_STOP_SYNCH"; DATA := "DD01" |} ] /\
  exists dbc,
    create_dbc sg p xcp = Ok dbc /\
    map (fun r => (row_signal r, multiplexor_value r, start_bit r,
                   bit_length r, sign r)) (dbc_rows dbc) =
    match BYTE_ORDER p with
    | little => [ (grouped s1 0 0 0, 0, 8, 16, "+"%char);
                  (grouped s2 0 0 1, 0, 24, 16, "+"%char) ]
    | big => [ (grouped s1 0 0 0, 0, 15, 16, "+"%char);
               (grouped s2 0 0 1, 0, 31, 16, "+"%char) ]
    end.
Proof.
  destruct s1 as [n1 ev1 len1 addr1 sgn1 lo1 hi1 sc1 off1 un1].
  destruct s2 as [n2 ev2 len2 addr2 sgn2 lo2 hi2 sc2 off2 un2].
  destruct p as [cto dto order idm idmx ids idsx iddto station bytes_only
                 baud fdbaud events declared].
  cbn [EventConfigured Length Signage MAX_DTO MAX_CTO
       BYTE_ORDER ECU_ADDRESS CAN_ID_SLAVE EVENTS].
  intros -> -> -> -> -> -> -> -> Ha1 Ha2 Hc.
  split; [| split].
  - destruct order; vm_compute; reflexivity.
  - unfold Xcp.create_daq_frames_xcp.
    destruct order;
      cbv - [hex_field Xcp.event_priority_of];
      cbv - [hex_field Xcp.event_priority_of] in Ha1, Ha2;
      rewrite Ha1, Ha2; reflexivity.
  - unfold create_dbc. cbn [CAN_ID_SLAVE MAX_CTO MAX_DTO BYTE_ORDER]. rewrite Hc.
    destruct order; (eexists; split; [vm_compute; reflexivity |]);
      vm_compute; reflexivity.
Qed.

(** C3 (witness): two sample signals, little endian. *)
Lemma xcp_two_signals_end_to_end_witness :
  hex_field 4 little "0x1000" = Ok "00100000" /\
  hex_field 4 little "0x100C" = Ok "0C100000" /\
  int16 "0x7e8" = Ok 2024 /\
  group_signals [Sample.speed; Sample.temp]
    (Sample.params "0x08" "0x08" little None) xcp
  = Ok [grouped Sample.speed 0 0 0; grouped Sample.temp 0 0 1].
Proof.
  split; [reflexivity |]. split; [reflexivity |]. split; [reflexivity |].
  exact (proj1 (xcp_two_signals_end_to_end Sample.speed Sample.temp
                  (Sample.params "0x08" "0x08" little None)
                  "00100000" "0C100000" 2024
                  eq_refl eq_refl eq_refl eq_refl eq_refl eq_refl eq_refl eq_refl
                  eq_refl eq_refl eq_refl)).
Defined.

(** C4 (the code at the failing input): the A2L declares DAQ list 0 as
    ["0x00"] with room for 2 ODTs; three ODTs are assigned to it, and
    [group_signals] returns the grouping: the check looks the list up by
    the text of its identifier, ["0x0000"], and finds no entry.  The
    lookup of [create_dbc], which compares the numbers, finds the entry;
    with the identifier spelled ["0x0000"] the check fires. *)
Theorem capacity_check_misses_respelled_id :
  group_signals Sample.three_odts (Sample.ccp_params "0x00") ccp
    = Ok [ grouped (Sample.sig "A" "3" 4 "0x1000") 0 0 0;
           grouped (Sample.sig "B" "3" 4 "0x1004") 0 1 0;
           grouped (Sample.sig "C" "3" 4 "0x1008") 0 2 0 ] /\
  find_daq_list_by_text [Sample.daq_list_0 "0x00"] (daq_id 0) = None /\
  find_daq_list_by_number [Sample.daq_list_0 "0x00"] (daq_id 0)
    = Ok (Some (Sample.daq_list_0 "0x00")) /\
  int16 (DaqList.Length (Sample.daq_list_0 "0x00")) = Ok 2 /\
  group_signals Sample.three_odts (Sample.ccp_params "0x0000") ccp
    = Raise (CapacityExceeded "0x0000" 3 2).
Proof. repeat split; vm_compute; reflexivity. Qed.

(** C5: when [MAX_CTO] is 64 or more, [create_daq_frames_xcp] works with
    [max_cto = 64] and writes the entries of every ODT with
    WRITE_DAQ_MULTIPLE.  Its frames are the opening commands (CONNECT,
    GET_STATUS, FREE_DAQ, AL_DAQ, the AL_ODT and AL_ODT_ENT frames), then
    one block per ODT in the order of [odt_keys], then the closing
    commands (SET_DAQ_LIST_MOD, START_STOP_DAQ, START_STOP_SYNCH).  The
    block of an ODT is SET_DAQ_PTR followed by one or more
    WRITE_DAQ_MULTIPLE frames; each signal of the ODT yields one 8-byte
    descriptor (FF, length, 4-byte address, extension, pad); the
    descriptors are distributed in order over the frames, 7 (as many as
    fit 63 bytes) in every frame but the last, which holds between 1 and
    7; each frame is opcode C7, the number of its descriptors, the
    descriptors, padded with zeros to 64 bytes. *)
Theorem xcp_write_daq_multiple_frames sg p max_cto frames :
  int16 (MAX_CTO p) = Ok max_cto ->
  64 <= max_cto ->
  Forall (fun s => 0 <= Length (signal s) < 256) sg ->
  Xcp.create_daq_frames_xcp sg p = Ok frames ->
  exists opening blocks closing,
    frames = opening ++ List.concat blocks ++ closing /\
    map FrameName opening
    = [ "CONNECT"; "GET_STATUS"; "FREE_DAQ"; "AL_DAQ" ]
      ++ map (fun d => "AL_ODT_" ++ d)%string (daq_lists_of sg)
      ++ map (fun k => "AL_ODT_ENT_" ++ snd k)%string (odt_keys sg) /\
    map FrameName closing
    = map (fun _ => "SET_DAQ_LIST_MOD") (daq_lists_of sg)
      ++ map (fun _ => "START_STOP_DAQ") (daq_lists_of sg)
      ++ [ "START_STOP_SYNCH" ] /\
    Forall2
      (fun k block =>
         exists set_daq_ptr descriptors groups,
           block = set_daq_ptr :: map Xcp.write_daq_multi_frame groups /\
           FrameName set_daq_ptr = "SET_DAQ_PTR" /\
           Forall2 (is_descriptor (BYTE_ORDER p))
                   (odt_signals_of sg (fst k) (snd k)) descriptors /\
           List.concat groups = descriptors /\
           groups <> [] /\
           Forall (fun g => (1 <= List.length g <= Xcp.max_payload_size / 8)%nat)
                  groups /\
           (forall i g, nth_error groups i = Some g ->
                        (S i < List.length groups)%nat ->
                        List.length g = (Xcp.max_payload_size / 8)%nat) /\
           Forall (fun g => is_write_daq_multiple g (Xcp.write_daq_multi_frame g))
                  groups)
      (odt_keys sg) blocks.
Proof.
  intros Hcto Hge HL H. unfold Xcp.create_daq_frames_xcp in H.
  rewrite Hcto in H. cbn [bind] in H.
  replace (Z.min max_cto 64) with 64 in H by lia.
  destruct (to_bytes_hex 2 (BYTE_ORDER p) _) as [dc |] eqn:Edc;
    cbn [bind] in H; [| discriminate].
  destruct (mapM (Xcp.al_odt _ _) _) as [f1 |] eqn:E1; cbn [bind] in H; [| discriminate].
  destruct (Xcp.concatM (Xcp.al_odt_entries _ _) _) as [f2 |] eqn:E2;
    cbn [bind] in H; [| discriminate].
  destruct (Xcp.concatM (Xcp.set_daq_ptr_and_writes _ _ _) _) as [f3 |] eqn:E3;
    cbn [bind] in H; [| discriminate].
  destruct (mapM (Xcp.set_daq_list_mode _ _ _) _) as [f4 |] eqn:E4;
    cbn [bind] in H; [| discriminate].
  destruct (mapM (Xcp.start_stop_daq_list _) _) as [f5 |] eqn:E5;
    cbn [bind] in H; [| discriminate].
  injection H as <-.
  (* the labels of the opening and closing commands *)
  destruct (mapM_shape _ (fun d => "AL_ODT_" ++ d)%string (fun _ => True) _
              (fun d y _ (Hy : Xcp.al_odt (BYTE_ORDER p) sg d = Ok y) =>
                 ltac:(unfold Xcp.al_odt in Hy;
                       destruct (hex_field 2 (BYTE_ORDER p) d) as [dn |];
                       cbn [bind] in Hy; [| discriminate];
                       injection Hy as <-; split; [reflexivity | exact I]))
              _ E1) as [N1 _].
  destruct (concatM_shape _ (fun d => map (fun o => "AL_ODT_ENT_" ++ o)%string
                                         (odts_of sg d)) (fun _ => True) _
              (fun d ys _ (Hy : Xcp.al_odt_entries (BYTE_ORDER p) sg d = Ok ys) =>
                 ltac:(unfold Xcp.al_odt_entries in Hy;
                       destruct (hex_field 2 (BYTE_ORDER p) d) as [dn |];
                       cbn [bind] in Hy; [| discriminate];
                       refine (mapM_shape _ (fun o => "AL_ODT_ENT_" ++ o)%string
                                 (fun _ => True) _ _ _ Hy);
                       intros o y _ Ho; unfold Xcp.al_odt_entry in Ho;
                       destruct (hex_field 1 big o) as [on |];
                       cbn [bind] in Ho; [| discriminate];
                       injection Ho as <-; split; [reflexivity | exact I]))
              _ E2) as [N2 _].
  destruct (mapM_shape _ (fun _ => "SET_DAQ_LIST_MOD") (fun _ => True) _
              (fun d y _ (Hy : Xcp.set_daq_list_mode (BYTE_ORDER p) (EVENTS p) sg d
                               = Ok y) =>
                 ltac:(unfold Xcp.set_daq_list_mode in Hy;
                       destruct (first_signal_of sg d) as [s |]; [| discriminate];
                       destruct (int16 (EventConfigured (signal s))) as [ch |];
                       cbn [bind] in Hy; [| discriminate];
                       destruct (hex_field 2 (BYTE_ORDER p) d) as [dn |];
                       cbn [bind] in Hy; [| discriminate];
                       destruct (to_bytes_hex 2 (BYTE_ORDER p) ch) as [ec |];
                       cbn [bind] in Hy; [| discriminate];
                       injection Hy as <-; split; [reflexivity | exact I]))
              _ E4) as [N4 _].
  destruct (mapM_shape _ (fun _ => "START_STOP_DAQ") (fun _ => True) _
              (fun d y _ (Hy : Xcp.start_stop_daq_list (BYTE_ORDER p) d = Ok y) =>
                 ltac:(unfold Xcp.start_stop_daq_list in Hy;
                       destruct (hex_field 2 (BYTE_ORDER p) d) as [dn |];
                       cbn [bind] in Hy; [| discriminate];
                       injection Hy as <-; split; [reflexivity | exact I]))
              _ E5) as [N5 _].
  (* the blocks of the ODTs *)
  destruct (concatM_nested
              (fun d o => Xcp.odt_frames (BYTE_ORDER p) 64 (daq_signals_of sg d) d o)
              (odts_of sg) (daq_lists_of sg) f3 E3) as [blocks [Hblocks ->]].
  fold (odt_keys sg) in Hblocks.
  eexists (_ :: _ :: _ :: _ :: f1 ++ f2), blocks, (f4 ++ f5 ++ [_]).
  split; [cbn [app]; rewrite <- !app_assoc; reflexivity |].
  split; [| split].
  - cbn [map FrameName app]. rewrite map_app, N1, N2. repeat f_equal.
    unfold odt_keys. clear.
    induction (daq_lists_of sg) as [| d ds IH]; [reflexivity |].
    cbn [flat_map]. rewrite map_app, map_map, IH. reflexivity.
  - rewrite !map_app, N4, N5. reflexivity.
  - eapply Forall2_impl_In; [| exact Hblocks].
    intros [d o] block Hk Hb. cbn [fst snd] in *.
    assert (Hlen : Forall (fun s => 0 <= Length (signal s) < 256)
                          (with_odt o (daq_signals_of sg d))).
    { rewrite Forall_forall in *. intros s Hs. apply HL.
      unfold with_odt in Hs. apply filter_In in Hs.
      apply (daq_signals_of_In sg d s). apply Hs. }
    destruct (odt_frames_write_daq_multiple _ _ _ _ _ Hlen Hb)
      as [ptr [descs [groups [Hf [Hn [Hd [Hc [Hne [Hsz [Hfull Hw]]]]]]]]]].
    rewrite <- odt_signals_of_with_odt in Hd, Hne.
    exists ptr, descs, groups.
    repeat (split; [assumption |]). split; [| repeat (split; [assumption |]); assumption].
    apply Hne. apply odt_keys_In in Hk. destruct Hk as [g [Hg [Ed Eo]]].
    intros E.
    assert (Hin : In g (odt_signals_of sg d o)) by (apply odt_signals_of_In; tauto).
    rewrite E in Hin. exact Hin.
Qed.

(** C5 (witness): [MAX_CTO = 0x40], nine 4-byte signals in one ODT: after
    SET_DAQ_PTR a frame of 7 descriptors and a frame of 2. *)
Lemma xcp_write_daq_multiple_frames_witness :
  exists frames,
    Xcp.create_daq_frames_xcp Sample.nine
      (Sample.params "0x40" "0x40" little None) = Ok frames /\
    map FrameName frames
    = [ "CONNECT"; "GET_STATUS"; "FREE_DAQ"; "AL_DAQ"; "AL_ODT_0x0000";
        "AL_ODT_ENT_0x00"; "SET_DAQ_PTR"; "WRITE_DAQ_MULTI"; "WRITE_DAQ_MULTI";
        "SET_DAQ_LIST_MOD"; "START_STOP_DAQ"; "START_STOP_SYNCH" ] /\
    exists opening blocks closing,
      frames = opening ++ List.concat blocks ++ closing /\
      List.length opening = 6%nat /\ List.length closing = 3%nat /\
      Forall2
        (fun k block =>
           exists set_daq_ptr descriptors groups,
             block = set_daq_ptr :: map Xcp.write_daq_multi_frame groups /\
             FrameName set_daq_ptr = "SET_DAQ_PTR" /\
             Forall2 (is_descriptor little)
                     (odt_signals_of Sample.nine (fst k) (snd k)) descriptors /\
             List.concat groups = descriptors /\
             groups <> [] /\
             Forall (fun g => (1 <= List.length g <= Xcp.max_payload_size / 8)%nat)
                    groups /\
             (forall i g, nth_error groups i = Some g ->
                          (S i < List.length groups)%nat ->
                          List.length g = (Xcp.max_payload_size / 8)%nat) /\
             Forall (fun g => is_write_daq_multiple g (Xcp.write_daq_multi_frame g))
                    groups)
        (odt_keys Sample.nine) blocks.
Proof.
  assert (HL : Forall (fun s => 0 <= Length (signal s) < 256) Sample.nine)
    by (repeat (constructor; [cbn; lia |]); constructor).
  eexists. split; [vm_compute; reflexivity |]. split; [vm_compute; reflexivity |].
  destruct (xcp_write_daq_multiple_frames Sample.nine
              (Sample.params "0x40" "0x40" little None) 64 _
              eq_refl ltac:(lia) HL eq_refl)
    as [opening [blocks [closing [Hf [Ho [Hc Hb]]]]]].
  exists opening, blocks, closing.
  split; [exact Hf |].
  split; [rewrite <- (length_map FrameName), Ho; reflexivity |].
  split; [rewrite <- (length_map FrameName), Hc; reflexivity |].
  exact Hb.
Defined.

(** C6 (counterexample): with a frame spacing of 0 the call returns (and
    writes) its two entries with the same delay, 1000 and 1000: the delays
    are not strictly increasing. *)
Lemma create_transmit_list_equal_delays :
  exists transmit_list,
    tx_result (create_transmit_list Sample.two_frames
                 (Sample.params "0x08" "0x08" little None) Sample.no_spacing)
      = Ok transmit_list /\
    map tx_delay transmit_list = [1000; 1000] /\
    ~ delays_increase transmit_list.
Proof.
  eexists. split; [vm_compute; reflexivity |]. split; [reflexivity |].
  intros H.
  specialize (H 0%nat 1%nat _ _ ltac:(repeat constructor) eq_refl eq_refl).
  vm_compute in H. discriminate.
Qed.

(** C6 (amended): [create_transmit_list] fails exactly when the frame count
    exceeds [max_frames] or the cumulative payload byte count exceeds
    [max_data_bytes], and then writes nothing; otherwise it writes the
    list it returns, one entry per frame, entry [i] with delay
    [start_delay + i * frame_spacing], every entry with the master CAN id
    and its id-format flag.  The delays are strictly increasing when the
    frame spacing is positive, and only then once there are two frames. *)
Theorem create_transmit_list_schedule frames p settings :
  let out := create_transmit_list frames p settings in
  let over_budget :=
    Z.of_nat (List.length frames) > max_frames settings \/
    total_payload_bytes frames > max_data_bytes settings in
  ((exists e, tx_result out = Raise e) <-> over_budget) /\
  ((exists e, tx_result out = Raise e) -> tx_written out = []) /\
  (forall transmit_list, tx_result out = Ok transmit_list ->
     tx_written out = [transmit_list] /\
     List.length transmit_list = List.length frames /\
     (forall i e, nth_error transmit_list i = Some e ->
        tx_delay e = start_delay settings + Z.of_nat i * frame_spacing settings /\
        tx_id e = str_upper (remove_0x (CAN_ID_MASTER p)) /\
        tx_id_format e = (if CAN_ID_MASTER_EXTENDED p then 1 else 0) /\
        exists f, nth_error frames i = Some f /\
                  tx_name e = FrameName f /\ tx_data e = DATA f) /\
     (0 < frame_spacing settings -> delays_increase transmit_list) /\
     ((2 <= List.length frames)%nat -> delays_increase transmit_list ->
      0 < frame_spacing settings)).
Proof.
  intros out over_budget. subst out over_budget. unfold create_transmit_list.
  match goal with
  | |- context [transmit_entries ?a ?b ?c ?d ?e ?f ?g ?h] =>
      destruct (transmit_entries a b c d e f g h) as [tl total] eqn:E
  end.
  destruct (transmit_entries_spec _ _ _ _ _ _ _ _ _ _ E) as [-> [Hlen Hes]].
  rewrite Hlen, Z.add_0_l.
  destruct (Z.of_nat (List.length frames) >? max_frames settings) eqn:E1;
    [| destruct (total_payload_bytes frames >? max_data_bytes settings) eqn:E2];
    cbn [tx_result tx_written];
    rewrite ?Z.gtb_ltb in *;
    try apply Z.ltb_lt in E1; try apply Z.ltb_ge in E1;
    try apply Z.ltb_lt in E2; try apply Z.ltb_ge in E2.
  - split; [split; [intros _; left; lia | intros _; eauto] |].
    split; [reflexivity | intros ? H; discriminate].
  - split; [split; [intros _; right; lia | intros _; eauto] |].
    split; [reflexivity | intros ? H; discriminate].
  - split; [split; [intros [e H]; discriminate | intros [H | H]; lia] |].
    split; [intros [e H]; discriminate |].
    intros transmit_list H. injection H as <-.
    split; [reflexivity |]. split; [exact Hlen |]. split; [exact Hes |]. split.
    + intros Hpos i j ei ej Hij Hi Hj.
      destruct (Hes _ _ Hi) as [-> _]. destruct (Hes _ _ Hj) as [-> _]. nia.
    + intros H2 Hinc.
      destruct tl as [| e0 [| e1 tl]]; try (simpl in Hlen; lia).
      specialize (Hinc 0%nat 1%nat e0 e1 ltac:(repeat constructor) eq_refl eq_refl).
      destruct (Hes 0%nat e0 eq_refl) as [H0 _].
      destruct (Hes 1%nat e1 eq_refl) as [H1 _].
      rewrite H0, H1 in Hinc. lia.
Qed.

(** C6 (witness): two frames under the settings of the script, due at
    1000 and 1010. *)
Lemma create_transmit_list_schedule_witness :
  0 < frame_spacing script_settings /\
  tx_result (create_transmit_list Sample.two_frames
               (Sample.params "0x08" "0x08" little None) script_settings)
  = Ok [ {| tx_name := "CONNECT"; tx_state := 1; tx_id_format := 0;
            tx_frame_format := 0; tx_brs := 0; tx_log := 1; tx_period := 0;
            tx_delay := 1000; tx_id := "7E0"; tx_data := "FF00" |};
         {| tx_name := "GET_STATUS"; tx_state := 1; tx_id_format := 0;
            tx_frame_format := 0; tx_brs := 0; tx_log := 1; tx_period := 0;
            tx_delay := 1010; tx_id := "7E0"; tx_data := "FD" |} ] /\
  1000 < 1010.
Proof.
  pose proof (create_transmit_list_schedule Sample.two_frames
                (Sample.params "0x08" "0x08" little None) script_settings)
    as [_ [_ H]].
  split; [reflexivity |]. split; [reflexivity |].
  destruct (H _ eq_refl) as [_ [_ [_ [Hinc _]]]].
  exact (Hinc ltac:(reflexivity) 0%nat 1%nat _ _ ltac:(repeat constructor) eq_refl eq_refl).
Defined.

(** C7: in a CCP encoding of at most 255 frames, the second payload byte of
    frame [i] (counting from 0) is [i + 1]. *)
Theorem ccp_counter_numbers_frames sg p frames :
  Ccp.create_daq_frames_ccp sg p = Ok frames ->
  (List.length frames <= 255)%nat ->
  forall i f, nth_error frames i = Some f ->
    payload_byte 1 (DATA f) = Some (Z.of_nat i + 1).
Proof.
  unfold Ccp.create_daq_frames_ccp. intros H _ i f Hi.
  destruct (Ccp.encode sg p) as [[fs c] |] eqn:E; [| discriminate].
  cbn in H. injection H as <-.
  destruct (encode_numbers _ _ _ _ E) as [_ Hc].
  destruct (Hc i f Hi) as [_ ->]. f_equal. lia.
Qed.

(** C7 (witness): the sample grouping encodes to 16 frames; frame 3 is the
    first SET_DAQ_PTR and carries the counter 4. *)
Lemma ccp_counter_numbers_frames_witness :
  exists frames f,
    Ccp.create_daq_frames_ccp Sample.signals_grouped
      (Sample.params "0x08" "0x08" little (Some [])) = Ok frames /\
    (List.length frames <= 255)%nat /\
    nth_error frames 3 = Some f /\
    payload_byte 1 (DATA f) = Some 4.
Proof.
  eexists. eexists.
  split; [vm_compute; reflexivity |].
  split; [vm_compute; repeat constructor |].
  split; [reflexivity |].
  refine (ccp_counter_numbers_frames Sample.signals_grouped
            (Sample.params "0x08" "0x08" little (Some [])) _ eq_refl _ 3%nat _ eq_refl).
  vm_compute. repeat constructor.
Defined.

(** C8 (counterexample): 126 signals in one DAQ list need
    2 + 1 + 2 * 126 + 1 + 1 = 257 frames; the encoder does not return them:
    [ctr_hex(256)] raises [OverflowError].  (With 125 signals it returns
    255 frames.) *)
Lemma ccp_counter_overflow_is_fatal :
  exists sg,
    group_signals (Sample.many 126) (Sample.params "0x08" "0x08" little (Some [])) ccp
      = Ok sg /\
    Ccp.create_daq_frames_ccp sg (Sample.params "0x08" "0x08" little (Some []))
      = Raise OverflowError /\
    ~ counter_wraps sg (Sample.params "0x08" "0x08" little (Some [])).
Proof.
  eexists. split; [vm_compute; reflexivity |].
  assert (E : Ccp.create_daq_frames_ccp
                (assign_daq_lists 7 (group_by_event (Sample.many 126)) 0)
                (Sample.params "0x08" "0x08" little (Some []))
              = Raise OverflowError) by (vm_compute; reflexivity).
  split; [vm_compute; reflexivity |].
  intros [frames [H _]].
  assert (E' : Ccp.create_daq_frames_ccp
                 (assign_daq_lists 7 (group_by_event (Sample.many 126)) 0)
                 (Sample.params "0x08" "0x08" little (Some []))
               = Ok frames) by exact H.
  rewrite E in E'. discriminate.
Qed.

(** C8 (amended): the command counter never wraps.  The CCP command
    sequence of a grouping has [ccp_frames_required] frames (3, 2 per DAQ
    list and 2 per ODT entry).  When the encoder returns, these are at most
    255 frames and frame [i] (counting from 0) carries the counter [i + 1]
    in its second payload byte: 1, 2, ..., never 0 again.  When more than
    255 frames are required the encoder returns nothing: it fails, and
    with texts that [int(.., 16)] accepts the failure is the
    [OverflowError] of [to_bytes], which [ctr_hex] raises on the counter
    value 256. *)
Theorem ccp_counter_never_wraps sg p :
  (forall frames,
     Ccp.create_daq_frames_ccp sg p = Ok frames ->
     List.length frames = ccp_frames_required sg p /\
     (ccp_frames_required sg p <= 255)%nat /\
     forall i f, nth_error frames i = Some f ->
       payload_byte 1 (DATA f) = Some (Z.of_nat i + 1) /\
       1 <= Z.of_nat i + 1 <= 255) /\
  ((255 < ccp_frames_required sg p)%nat ->
   (exists e, Ccp.create_daq_frames_ccp sg p = Raise e) /\
   (ccp_texts_parse sg p ->
    Ccp.create_daq_frames_ccp sg p = Raise OverflowError)) /\
  ctr_hex 256 = Raise OverflowError.
Proof.
  assert (Hok : forall fs c, Ccp.encode sg p = Ok (fs, c) ->
            List.length fs = ccp_frames_required sg p /\
            (ccp_frames_required sg p <= 255)%nat /\
            forall i f, nth_error fs i = Some f ->
              payload_byte 1 (DATA f) = Some (Z.of_nat i + 1) /\
              1 <= Z.of_nat i + 1 <= 255).
  { intros fs c E.
    destruct (encode_shape _ _ _ _ E) as [Hlen _].
    destruct (encode_numbers _ _ _ _ E) as [_ Hc].
    assert (Hbound : (List.length fs <= 255)%nat).
    { destruct fs as [| f fs] using rev_ind; [simpl; lia |].
      assert (Hl : nth_error (fs ++ [f]) (List.length fs) = Some f)
        by (rewrite nth_error_app2, Nat.sub_diag; [reflexivity | lia]).
      destruct (Hc _ _ Hl) as [Hb _]. rewrite length_app. simpl. lia. }
    unfold ccp_frames_required. rewrite <- Hlen.
    split; [reflexivity |]. split; [exact Hbound |].
    intros i f Hi. destruct (Hc i f Hi) as [Hr ->].
    split; [f_equal; lia | lia]. }
  split; [| split; [| reflexivity]].
  - unfold Ccp.create_daq_frames_ccp. intros frames H.
    destruct (Ccp.encode sg p) as [[fs c] |] eqn:E; [| discriminate].
    cbn in H. injection H as <-. exact (Hok fs c eq_refl).
  - intros Hmany.
    assert (Hfail : exists e, Ccp.encode sg p = Raise e).
    { destruct (Ccp.encode sg p) as [[fs c] |] eqn:E; [| eexists; reflexivity].
      destruct (Hok fs c eq_refl) as [_ [Hle _]]. lia. }
    destruct Hfail as [e E]. unfold Ccp.create_daq_frames_ccp. rewrite E.
    split; [exists e; reflexivity |].
    intros Ht. rewrite (encode_overflow sg p Ht e E). reflexivity.
Qed.

(** C8 (witness): 125 signals in one DAQ list need 255 frames, which are
    returned, the last with the counter 255; 126 signals need 257 and the
    encoder raises [OverflowError]. *)
Lemma ccp_counter_never_wraps_witness :
  (exists frames f,
     Ccp.create_daq_frames_ccp
       (assign_daq_lists 7 (group_by_event (Sample.many 125)) 0)
       (Sample.params "0x08" "0x08" little (Some [])) = Ok frames /\
     List.length frames = 255%nat /\
     nth_error frames 254 = Some f /\
     payload_byte 1 (DATA f) = Some 255) /\
  (255 < ccp_frames_required
           (assign_daq_lists 7 (group_by_event (Sample.many 126)) 0)
           (Sample.params "0x08" "0x08" little (Some [])))%nat /\
  Ccp.create_daq_frames_ccp
    (assign_daq_lists 7 (group_by_event (Sample.many 126)) 0)
    (Sample.params "0x08" "0x08" little (Some [])) = Raise OverflowError.
Proof.
  split; [| split].
  - destruct (Ccp.create_daq_frames_ccp
                (assign_daq_lists 7 (group_by_event (Sample.many 125)) 0)
                (Sample.params "0x08" "0x08" little (Some [])))
      as [frames |] eqn:E; [| vm_compute in E; discriminate].
    destruct (proj1 (ccp_counter_never_wraps
                       (assign_daq_lists 7 (group_by_event (Sample.many 125)) 0)
                       (Sample.params "0x08" "0x08" little (Some [])))
                    frames E) as [Hlen [_ Hctr]].
    assert (Hreq : ccp_frames_required
                     (assign_daq_lists 7 (group_by_event (Sample.many 125)) 0)
                     (Sample.params "0x08" "0x08" little (Some [])) = 255%nat)
      by (vm_compute; reflexivity).
    rewrite Hreq in Hlen.
    destruct (nth_error frames 254) as [f |] eqn:Ef.
    + exists frames, f. split; [reflexivity |]. split; [exact Hlen |].
      split; [exact Ef |]. exact (proj1 (Hctr 254%nat f Ef)).
    + apply nth_error_None in Ef. lia.
  - vm_compute. lia.
  - apply (proj1 (proj2 (ccp_counter_never_wraps
                           (assign_daq_lists 7 (group_by_event (Sample.many 126)) 0)
                           (Sample.params "0x08" "0x08" little (Some []))))).
    + vm_compute. lia.
    + unfold ccp_texts_parse. repeat split; try (eexists; reflexivity);
        try discriminate.
      apply Forall_forall. intros g Hg.
      assert (Hall : forallb (fun g =>
                match int16 (DAQ_LIST_NUMBER g), int16 (ODT_NUMBER g),
                      int16 (ODT_ENTRY_NUMBER g), int16 (ECU_ADDRESS (signal g)),
                      int16 (EventConfigured (signal g)) with
                | Ok _, Ok _, Ok _, Ok _, Ok _ => true
                | _, _, _, _, _ => false
                end)
                (assign_daq_lists 7 (group_by_event (Sample.many 126)) 0) = true)
        by (vm_compute; reflexivity).
      rewrite forallb_forall in Hall. specialize (Hall g Hg).
      unfold is_hex_text.
      destruct (int16 (DAQ_LIST_NUMBER g)); [| discriminate].
      destruct (int16 (ODT_NUMBER g)); [| discriminate].
      destruct (int16 (ODT_ENTRY_NUMBER g)); [| discriminate].
      destruct (int16 (ECU_ADDRESS (signal g))); [| discriminate].
      destruct (int16 (EventConfigured (signal g))); [| discriminate].
      repeat split; eexists; reflexivity.
Defined.

(** C9: the signals of DAQ list [k] of the grouping are, unchanged and in
    input order, the input signals of the [k]-th event channel in order of
    first occurrence; every grouped signal lies in such a DAQ list. *)
Theorem group_signals_keeps_channel_order signals p pr out :
  group_signals signals p pr = Ok out ->
  let channels := first_seen (map EventConfigured signals) in
  (forall g, In g out ->
     exists k, (k < List.length channels)%nat /\ DAQ_LIST_NUMBER g = daq_id k) /\
  (forall k,
     map signal (daq_signals_of out (daq_id k)) =
     match nth_error channels k with
     | Some ch => on_channel ch signals
     | None => []
     end).
Proof.
  intros Hok channels.
  destruct (group_signals_ok _ _ _ _ Hok) as [_ [mp [_ ->]]]. split.
  - intros g Hg. destruct (assign_daq_lists_daq _ _ _ _ Hg) as [j [Hj E]].
    exists j. split; [| exact E].
    rewrite group_by_event_spec, length_map in Hj. exact Hj.
  - intros k. change (daq_id k) with (daq_id (0 + k)).
    rewrite assign_daq_lists_daq_signals, assign_odts_signals.
    apply bucket_of_grouping.
Qed.

(** C9 (witness): the sample signals; channel "3" is seen first. *)
Lemma group_signals_keeps_channel_order_witness :
  group_signals Sample.signals (Sample.params "0x08" "0x08" little None) xcp
    = Ok Sample.signals_grouped /\
  map signal (daq_signals_of Sample.signals_grouped (daq_id 0))
    = [Sample.speed; Sample.rpm; Sample.temp] /\
  map signal (daq_signals_of Sample.signals_grouped (daq_id 1))
    = [Sample.torque].
Proof.
  pose proof (group_signals_keeps_channel_order Sample.signals
                (Sample.params "0x08" "0x08" little None) xcp
                Sample.signals_grouped eq_refl) as [_ H].
  split; [reflexivity |]. split; [exact (H 0%nat) | exact (H 1%nat)].
Defined.

(** C10: the grouping holds exactly the input signals, each once and
    unchanged under the three assigned keys, and the entry numbers of every
    ODT count from 0 in output order. *)
Theorem group_signals_permutes_input signals p pr out :
  signals <> [] ->
  group_signals signals p pr = Ok out ->
  Permutation (map signal out) signals /\
  (forall d o,
     map ODT_ENTRY_NUMBER (odt_signals_of out d o) =
     map entry_id (seq 0 (List.length (odt_signals_of out d o)))).
Proof.
  intros _ Hok.
  destruct (group_signals_ok _ _ _ _ Hok) as [_ [mp [_ ->]]]. split.
  - rewrite assign_daq_lists_signals. apply group_by_event_concat.
  - intros d o. rewrite odt_signals_of_with_odt.
    destruct (daq_signals_of _ d) as [| g l] eqn:E; [reflexivity |].
    assert (Hg : In g (daq_signals_of (assign_daq_lists mp (group_by_event signals) 0) d))
      by (rewrite E; left; reflexivity).
    unfold daq_signals_of in Hg. apply filter_In in Hg. destruct Hg as [Hg Hd].
    apply String.eqb_eq in Hd.
    destruct (assign_daq_lists_daq _ _ _ _ Hg) as [j [_ Hj]].
    rewrite <- E, <- Hd, Hj, assign_daq_lists_daq_signals.
    pose proof (assign_odts_entries mp (0 + j) o
                  (nth j (map snd (group_by_event signals)) []) 0%nat 0 []) as H.
    cbv zeta in H. rewrite H.
    destruct (o =? odt_id 0)%string; reflexivity.
Qed.

(** C10 (witness): the sample signals. *)
Lemma group_signals_permutes_input_witness :
  Sample.signals <> [] /\
  group_signals Sample.signals (Sample.params "0x08" "0x08" little None) xcp
    = Ok Sample.signals_grouped /\
  Permutation (map signal Sample.signals_grouped) Sample.signals /\
  map ODT_ENTRY_NUMBER (odt_signals_of Sample.signals_grouped (daq_id 0) (odt_id 0))
    = [entry_id 0; entry_id 1].
Proof.
  pose proof (group_signals_permutes_input Sample.signals
                (Sample.params "0x08" "0x08" little None) xcp
                Sample.signals_grouped ltac:(discriminate) eq_refl) as [H1 H2].
  split; [discriminate |]. split; [reflexivity |]. split; [exact H1 |].
  exact (H2 (daq_id 0) (odt_id 0)).
Defined.

(* ================================================================== *)
(** * Further properties of the code *)
(* ================================================================== *)

(** X1: every frame of a CCP command sequence carries exactly 8 bytes (16
    hexadecimal characters), provided the signal lengths fit the length
    byte of WRITE_DAQ; when the ECU addresses bytes only, the length byte
    is always 01 and no condition is needed. *)
Theorem ccp_frames_are_eight_bytes sg p frames :
  Ccp.create_daq_frames_ccp sg p = Ok frames ->
  (BYTES_ONLY p = false -> Forall (fun s => 0 <= Length (signal s) < 256) sg) ->
  Forall (fun f => String.length (DATA f) = 16%nat) frames.
Proof.
  unfold Ccp.create_daq_frames_ccp. intros H HL.
  destruct (Ccp.encode sg p) as [[fs c] |] eqn:E; [| discriminate].
  cbn in H. injection H as <-.
  exact (proj2 (encode_shape _ _ _ _ E) HL).
Qed.

(** X1 (witness): the sample grouping. *)
Lemma ccp_frames_are_eight_bytes_witness :
  exists frames,
    Ccp.create_daq_frames_ccp Sample.signals_grouped
      (Sample.params "0x08" "0x08" little (Some [])) = Ok frames /\
    Forall (fun f => String.length (DATA f) = 16%nat) frames.
Proof.
  eexists. split; [vm_compute; reflexivity |].
  apply (ccp_frames_are_eight_bytes Sample.signals_grouped
           (Sample.params "0x08" "0x08" little (Some []))).
  - vm_compute. reflexivity.
  - intros _. repeat (constructor; [cbn; lia |]). constructor.
Defined.

(** X2: a CCP command sequence has 3 + 2 D + 2 E frames, for D DAQ lists
    and E ODT entries: CONNECT, EXCHANGE_ID and START_STOP_ALL, a
    GET_DAQ_SIZE and a START_STOP per DAQ list, a SET_DAQ_PTR and a
    WRITE_DAQ per entry; an entry is a signal, or a byte of a signal when
    the ECU addresses bytes only. *)
Theorem ccp_frame_count sg p frames :
  Ccp.create_daq_frames_ccp sg p = Ok frames ->
  List.length frames
  = (3 + 2 * List.length (daq_lists_of sg)
       + 2 * entries_written (BYTES_ONLY p) sg)%nat.
Proof.
  unfold Ccp.create_daq_frames_ccp. intros H.
  destruct (Ccp.encode sg p) as [[fs c] |] eqn:E; [| discriminate].
  cbn in H. injection H as <-.
  exact (proj1 (encode_shape _ _ _ _ E)).
Qed.

(** X2 (witness): the sample grouping: 2 DAQ lists, 4 signals, 15 frames. *)
Lemma ccp_frame_count_witness :
  exists frames,
    Ccp.create_daq_frames_ccp Sample.signals_grouped
      (Sample.params "0x08" "0x08" little (Some [])) = Ok frames /\
    List.length frames = 15%nat.
Proof.
  eexists. split; [vm_compute; reflexivity |].
  exact (ccp_frame_count Sample.signals_grouped
           (Sample.params "0x08" "0x08" little (Some [])) _ eq_refl).
Defined.

(** X3: the transmit list of a CCP command sequence is limited by the
    frame count alone.  The frames carry 8 bytes each, so under settings
    whose byte budget is at least 8 bytes per allowed frame (those of the
    script: 224 frames, 4096 bytes) [create_transmit_list] fails exactly
    when [3 + 2 D + 2 E] exceeds [max_frames], and then with the frame
    count error. *)
Theorem ccp_transmit_list_budget sg p settings frames :
  Ccp.create_daq_frames_ccp sg p = Ok frames ->
  (BYTES_ONLY p = false -> Forall (fun s => 0 <= Length (signal s) < 256) sg) ->
  8 * max_frames settings <= max_data_bytes settings ->
  let n := 3 + 2 * Z.of_nat (List.length (daq_lists_of sg))
             + 2 * Z.of_nat (entries_written (BYTES_ONLY p) sg) in
  let out := create_transmit_list frames p settings in
  total_payload_bytes frames = 8 * n /\
  (n <= max_frames settings ->
   exists transmit_list,
     tx_result out = Ok transmit_list /\ tx_written out = [transmit_list] /\
     Z.of_nat (List.length transmit_list) = n) /\
  (max_frames settings < n ->
   tx_result out = Raise (TooManyFrames n (max_frames settings)) /\
   tx_written out = []).
Proof.
  intros H HL Hb n out. unfold Ccp.create_daq_frames_ccp in H.
  destruct (Ccp.encode sg p) as [[fs c] |] eqn:E; [| discriminate].
  cbn in H. injection H as <-.
  destruct (encode_shape _ _ _ _ E) as [Hlen Hfull]. specialize (Hfull HL).
  assert (Hn : Z.of_nat (List.length fs) = n) by (subst n; rewrite Hlen; lia).
  pose proof (total_payload_full fs Hfull) as Ht. rewrite Hn in Ht.
  split; [exact Ht |].
  subst out. unfold create_transmit_list.
  match goal with
  | |- context [transmit_entries ?a ?b ?c ?d ?e ?f ?g ?h] =>
      destruct (transmit_entries a b c d e f g h) as [tl total] eqn:Et
  end.
  destruct (transmit_entries_spec _ _ _ _ _ _ _ _ _ _ Et) as [-> [Hl _]].
  rewrite Hl, Hn, Ht, Z.add_0_l.
  destruct (n >? max_frames settings) eqn:E1;
    rewrite Z.gtb_ltb in E1; [apply Z.ltb_lt in E1 | apply Z.ltb_ge in E1].
  - split; [intros; lia | intros _; split; reflexivity].
  - destruct (8 * n >? max_data_bytes settings) eqn:E2;
      rewrite Z.gtb_ltb in E2; [apply Z.ltb_lt in E2; lia | ].
    split; [| intros; lia].
    intros _. exists tl. cbn. repeat split. lia.
Qed.

(** X3 (witness): the sample grouping under the settings of the script. *)
Lemma ccp_transmit_list_budget_witness :
  exists frames transmit_list,
    Ccp.create_daq_frames_ccp Sample.signals_grouped
      (Sample.params "0x08" "0x08" little (Some [])) = Ok frames /\
    8 * max_frames script_settings <= max_data_bytes script_settings /\
    total_payload_bytes frames = 120 /\
    tx_result (create_transmit_list frames
                 (Sample.params "0x08" "0x08" little (Some [])) script_settings)
      = Ok transmit_list /\
    Z.of_nat (List.length transmit_list) = 15.
Proof.
  pose proof (ccp_transmit_list_budget Sample.signals_grouped
                (Sample.params "0x08" "0x08" little (Some [])) script_settings
                _ eq_refl
                ltac:(intros _; repeat (constructor; [cbn; lia |]); constructor)
                ltac:(cbn; lia)) as H.
  cbv zeta in H. destruct H as [Ht [Hok _]].
  destruct (Hok ltac:(vm_compute; discriminate)) as [tl [Hr [_ Hl]]].
  eexists. exists tl.
  split; [reflexivity |]. split; [cbn; lia |]. split; [exact Ht |].
  split; [exact Hr | exact Hl].
Defined.

(** X4: the format flags of the transmit list.  Every entry is enabled,
    logged and sent once; bit-rate switching is set exactly when a
    data-phase bit rate is configured that differs from the arbitration
    bit rate; an entry is marked CAN FD exactly when its payload text is
    longer than 16 characters (8 bytes) or bit-rate switching is set.  So a
    frame marked classic never carries more than 8 bytes. *)
Theorem create_transmit_list_formats frames p settings transmit_list :
  tx_result (create_transmit_list frames p settings) = Ok transmit_list ->
  let switching :=
    exists rate, CAN_FD_DATA_TRANSFER_BAUDRATE p = Some rate /\
                 rate <> BAUDRATE p in
  forall i e, nth_error transmit_list i = Some e ->
    tx_state e = 1 /\ tx_log e = 1 /\ tx_period e = 0 /\
    (tx_brs e = 1 \/ tx_brs e = 0) /\
    (tx_brs e = 1 <-> switching) /\
    (tx_frame_format e = 1 \/ tx_frame_format e = 0) /\
    (tx_frame_format e = 1 <->
     (16 < String.length (tx_data e))%nat \/ switching) /\
    (tx_frame_format e = 0 -> (String.length (tx_data e) / 2 <= 8)%nat).
Proof.
  intros H switching i e He. unfold create_transmit_list in H.
  match type of H with
  | context [transmit_entries ?a ?b ?c ?d ?e ?f ?g ?h] =>
      destruct (transmit_entries a b c d e f g h) as [tl total] eqn:Et
  end.
  destruct (_ >? max_frames settings); [discriminate |].
  destruct (_ >? max_data_bytes settings); [discriminate |].
  cbn in H. injection H as <-.
  destruct (transmit_entries_flags _ _ _ _ _ _ _ _ _ _ Et i e He)
    as [Hs [Hl [Hp [Hb Hf]]]].
  assert (Hsw : switching <->
                match CAN_FD_DATA_TRANSFER_BAUDRATE p with
                | Some rate => negb (rate =? BAUDRATE p)
                | None => false
                end = true).
  { subst switching. destruct (CAN_FD_DATA_TRANSFER_BAUDRATE p) as [rate |].
    - rewrite negb_true_iff, Z.eqb_neq. split.
      + intros [r [Er Hr]]. injection Er as <-. exact Hr.
      + intros Hr. exists rate. auto.
    - split; [intros [r [Er _]]; discriminate | discriminate]. }
  assert (Hdiv : (String.length (tx_data e) <= 16 ->
                  String.length (tx_data e) / 2 <= 8)%nat)
    by (intros; apply Nat.Div0.div_le_upper_bound; lia).
  rewrite Hb, Hf. clear Hb Hf.
  destruct (match CAN_FD_DATA_TRANSFER_BAUDRATE p with
            | Some rate => negb (rate =? BAUDRATE p)
            | None => false
            end);
    destruct (Nat.ltb_spec 16 (String.length (tx_data e))) as [E16 | E16];
    (split; [exact Hs |]; split; [exact Hl |]; split; [exact Hp |]);
    intuition (try discriminate; try lia; auto).
Qed.

(** X4 (witness): two short frames without a data-phase bit rate are
    classic frames without bit-rate switching. *)
Lemma create_transmit_list_formats_witness :
  exists transmit_list e,
    tx_result (create_transmit_list Sample.two_frames
                 (Sample.params "0x08" "0x08" little None) script_settings)
      = Ok transmit_list /\
    nth_error transmit_list 1 = Some e /\
    tx_state e = 1 /\ tx_brs e = 0 /\ tx_frame_format e = 0.
Proof.
  eexists. eexists. split; [vm_compute; reflexivity |].
  split; [reflexivity |].
  pose proof (create_transmit_list_formats Sample.two_frames
                (Sample.params "0x08" "0x08" little None) script_settings
                _ eq_refl 1%nat _ eq_refl) as H.
  cbv zeta in H. destruct H as [Hs _].
  split; [exact Hs |]. split; reflexivity.
Defined.

(** X5: the capacity error of [group_signals] is accurate.  When the CCP
    grouping ends with it, [DAQ_LISTS] holds an entry whose [Id] is, as
    text, the identifier of a DAQ list of the grouping; the reported limit
    is the [Length] of the first such entry, the reported count is the
    number of distinct ODTs assigned to that DAQ list, and the count
    exceeds the limit. *)
Theorem group_signals_capacity_report signals p d used limit :
  group_signals signals p ccp = Raise (CapacityExceeded d used limit) ->
  exists mp declared e,
    max_payload_of p = Ok mp /\
    DAQ_LISTS p = Some declared /\
    find_daq_list_by_text declared d = Some e /\
    int16 (DaqList.Length e) = Ok limit /\
    let sg := assign_daq_lists mp (group_by_event signals) 0 in
    In d (daq_lists_of sg) /\
    used = Z.of_nat (List.length (odts_of sg d)) /\
    used > limit.
Proof.
  unfold group_signals. destruct signals as [| s l]; [discriminate |].
  destruct (max_payload_of p) as [mp |] eqn:Emp; cbn [bind].
  2:{ intros E. injection E as ->. unfold max_payload_of in Emp.
      destruct (int16 (MAX_DTO p)) eqn:Ei; [discriminate |].
      cbn [bind] in Emp. injection Emp as ->.
      apply int16_failure in Ei. discriminate. }
  destruct (DAQ_LISTS p) as [declared |] eqn:Ed; [| discriminate].
  pose proof (check_all_result declared
                (count_odts (assign_daq_lists mp (group_by_event (s :: l)) 0))) as H.
  destruct (foldM _ _ tt); [discriminate |]. cbn [bind]. intros E.
  injection E as ->. destruct H as [[d' set] [Hin Hc]].
  unfold check_capacity in Hc.
  destruct (find_daq_list_by_text declared d') as [e |] eqn:Ef; [| discriminate].
  destruct (int16 (DaqList.Length e)) as [L |] eqn:EL; cbn [bind] in Hc;
    [| apply int16_failure in EL; congruence].
  destruct (Z.of_nat (List.length set) >? L) eqn:Egt; [| discriminate].
  injection Hc as -> <- ->.
  destruct (count_odts_length _ _ _ Hin) as [Hlen Hd].
  rewrite Z.gtb_ltb in Egt. apply Z.ltb_lt in Egt.
  exists mp, declared, e.
  split; [reflexivity |]. split; [reflexivity |]. split; [exact Ef |].
  split; [exact EL |]. cbv zeta. split; [exact Hd |].
  split; [rewrite Hlen; reflexivity | lia].
Qed.

(** X5 (witness): three ODTs in a DAQ list declared, as ["0x0000"], with
    room for two. *)
Lemma group_signals_capacity_report_witness :
  group_signals Sample.three_odts (Sample.ccp_params "0x0000") ccp
    = Raise (CapacityExceeded "0x0000" 3 2) /\
  exists e,
    find_daq_list_by_text [Sample.daq_list_0 "0x0000"] "0x0000" = Some e /\
    int16 (DaqList.Length e) = Ok 2.
Proof.
  split; [vm_compute; reflexivity |].
  destruct (group_signals_capacity_report Sample.three_odts
              (Sample.ccp_params "0x0000") "0x0000" 3 2 eq_refl)
    as [mp [declared [e [_ [Hd [Hf [HL _]]]]]]].
  injection Hd as <-. exists e. split; [exact Hf | exact HL].
Defined.

(** X6: a CCP grouping that [group_signals] returns respects every
    capacity its check can find: for a DAQ list whose identifier is, as
    text, the [Id] of an entry of [DAQ_LISTS], the number of distinct ODTs
    of the list is at most the [Length] of the first such entry. *)
Theorem group_signals_capacity_respected signals p out declared d e limit :
  group_signals signals p ccp = Ok out ->
  DAQ_LISTS p = Some declared ->
  In d (daq_lists_of out) ->
  find_daq_list_by_text declared d = Some e ->
  int16 (DaqList.Length e) = Ok limit ->
  Z.of_nat (List.length (odts_of out d)) <= limit.
Proof.
  intros Hok Hd Hin Hf HL.
  destruct (group_signals_ok _ _ _ _ Hok) as [Hne [mp [Hmp Hout]]].
  unfold group_signals in Hok. destruct signals as [| s l]; [congruence |].
  rewrite Hmp, Hd in Hok. cbn [bind] in Hok. rewrite <- Hout in Hok.
  pose proof (check_all_result declared (count_odts out)) as H.
  destruct (foldM _ _ tt); [| discriminate].
  destruct (count_odts_complete _ _ Hin) as [set Hset].
  specialize (H _ Hset). unfold check_capacity in H. rewrite Hf, HL in H.
  cbn [bind] in H. destruct (count_odts_length _ _ _ Hset) as [<- _].
  destruct (Z.of_nat (List.length set) >? limit) eqn:E; [discriminate |].
  rewrite Z.gtb_ltb in E. apply Z.ltb_ge in E. exact E.
Qed.

(** X6 (witness): the sample signals use two ODTs of DAQ list 0, declared
    with room for two. *)
Lemma group_signals_capacity_respected_witness :
  group_signals Sample.signals (Sample.ccp_params "0x0000") ccp
    = Ok Sample.signals_grouped /\
  Z.of_nat (List.length (odts_of Sample.signals_grouped "0x0000")) <= 2.
Proof.
  split; [vm_compute; reflexivity |].
  apply (group_signals_capacity_respected Sample.signals
           (Sample.ccp_params "0x0000") Sample.signals_grouped
           [Sample.daq_list_0 "0x0000"] "0x0000" (Sample.daq_list_0 "0x0000"));
    try reflexivity.
  vm_compute. auto.
Defined.

(** X7: how [group_signals] ends.  An empty signal list ends the run with
    "No matched signals", whatever the parameters; a non-empty list is
    grouped whenever [MAX_DTO] is a hexadecimal literal and no capacity
    check applies (XCP, or no [DAQ_LISTS] key); and the only failures are
    the empty-list exit, a [ValueError] of [int(.., 16)] and, for CCP, the
    capacity exit. *)
Theorem group_signals_outcomes signals p pr :
  (signals = [] -> group_signals signals p pr = Raise NoMatchedSignals) /\
  (signals <> [] ->
   forall max_dto, int16 (MAX_DTO p) = Ok max_dto ->
     pr = xcp \/ DAQ_LISTS p = None ->
     group_signals signals p pr
     = Ok (assign_daq_lists (Z.min max_dto 64 - 1) (group_by_event signals) 0)) /\
  (forall e, group_signals signals p pr = Raise e ->
     (e = NoMatchedSignals /\ signals = []) \/
     (e = ValueError /\ signals <> []) \/
     (pr = ccp /\ signals <> [] /\
      exists d used limit, e = CapacityExceeded d used limit)).
Proof.
  split; [intros ->; reflexivity |]. split.
  - intros Hne m Hm Hpr. unfold group_signals, max_payload_of.
    destruct signals as [| s l]; [congruence |]. rewrite Hm. cbn [bind].
    destruct Hpr as [-> | ->]; [reflexivity |]. destruct pr; reflexivity.
  - intros e H. unfold group_signals in H.
    destruct signals as [| s l]; [injection H as <-; auto |].
    right. unfold max_payload_of in H.
    destruct (int16 (MAX_DTO p)) as [m |] eqn:Em; cbn [bind] in H.
    2:{ injection H as <-. apply int16_failure in Em. left.
        split; [exact Em | discriminate]. }
    destruct pr; [| discriminate].
    destruct (DAQ_LISTS p) as [declared |]; [| discriminate].
    match type of H with
    | context [foldM ?f ?items tt] =>
        pose proof (check_all_result declared items) as Hc;
        destruct (foldM f items tt) as [u | e']; cbn [bind] in H; [discriminate |]
    end.
    injection H as <-. destruct Hc as [[d set] [_ Hc]].
    unfold check_capacity in Hc.
    destruct (find_daq_list_by_text declared d) as [entry |]; [| discriminate].
    destruct (int16 (DaqList.Length entry)) as [L |] eqn:EL; cbn [bind] in Hc.
    + destruct (_ >? L); [| discriminate]. injection Hc as <-.
      right. split; [reflexivity |]. split; [discriminate | eauto].
    + injection Hc as <-. apply int16_failure in EL. left.
      split; [exact EL | discriminate].
Qed.

(** X7 (witness): the sample signals under XCP. *)
Lemma group_signals_outcomes_witness :
  Sample.signals <> [] /\
  int16 "0x08" = Ok 8 /\
  group_signals Sample.signals (Sample.params "0x08" "0x08" little None) xcp
  = Ok (assign_daq_lists 7 (group_by_event Sample.signals) 0).
Proof.
  split; [discriminate |]. split; [reflexivity |].
  exact (proj1 (proj2 (group_signals_outcomes Sample.signals
                          (Sample.params "0x08" "0x08" little None) xcp))
           ltac:(discriminate) 8 eq_refl (or_introl eq_refl)).
Defined.

(** X8: DAQ lists are event channels.  Two signals of a grouping returned
    by [group_signals] carry the same DAQ list number exactly when they
    request the same event channel. *)
Theorem group_signals_one_list_per_channel signals p pr out g1 g2 :
  group_signals signals p pr = Ok out ->
  In g1 out -> In g2 out ->
  (DAQ_LIST_NUMBER g1 = DAQ_LIST_NUMBER g2 <->
   EventConfigured (signal g1) = EventConfigured (signal g2)).
Proof.
  intros Hok H1 H2.
  destruct (group_signals_ok _ _ _ _ Hok) as [_ [mp [_ ->]]].
  set (channels := first_seen (map EventConfigured signals)).
  assert (Hch : forall g,
            In g (assign_daq_lists mp (group_by_event signals) 0) ->
            exists k, DAQ_LIST_NUMBER g = daq_id k /\
                      nth_error channels k = Some (EventConfigured (signal g))).
  { intros g Hg. destruct (assign_daq_lists_daq _ _ _ _ Hg) as [j [Hj E]].
    exists (0 + j)%nat. split; [exact E |].
    assert (Hin : In (signal g)
                     (map signal (daq_signals_of
                        (assign_daq_lists mp (group_by_event signals) 0)
                        (daq_id (0 + j)))))
      by (apply in_map, daq_signals_of_In; auto).
    rewrite assign_daq_lists_daq_signals, assign_odts_signals in Hin.
    rewrite bucket_of_grouping in Hin. fold channels in Hin.
    simpl Nat.add. destruct (nth_error channels j) as [ch |]; [| destruct Hin].
    unfold on_channel in Hin. apply filter_In in Hin. destruct Hin as [_ Hin].
    apply String.eqb_eq in Hin. congruence. }
  destruct (Hch g1 H1) as [k1 [E1 N1]]. destruct (Hch g2 H2) as [k2 [E2 N2]].
  rewrite E1, E2. split.
  - intros E. apply daq_id_inj in E. subst k2. congruence.
  - intros E. rewrite <- E in N2.
    pose proof (first_seen_NoDup (map EventConfigured signals)) as Hnd.
    fold channels in Hnd.
    rewrite (proj1 (NoDup_nth_error channels) Hnd k1 k2); [reflexivity | |congruence].
    apply nth_error_Some. congruence.
Qed.

(** X8 (witness): in the sample grouping, speed and rpm share channel 3 and
    DAQ list 0. *)
Lemma group_signals_one_list_per_channel_witness :
  group_signals Sample.signals (Sample.params "0x08" "0x08" little None) xcp
    = Ok Sample.signals_grouped /\
  DAQ_LIST_NUMBER (grouped Sample.speed 0 0 0)
    = DAQ_LIST_NUMBER (grouped Sample.rpm 0 0 1).
Proof.
  split; [reflexivity |].
  apply (group_signals_one_list_per_channel Sample.signals
           (Sample.params "0x08" "0x08" little None) xcp Sample.signals_grouped
           (grouped Sample.speed 0 0 0) (grouped Sample.rpm 0 0 1) eq_refl);
    [simpl; auto | simpl; auto | reflexivity].
Defined.

(** X9: in the decode table of [create_dbc] the rows of an ODT are the
    signals of that ODT in the order of the grouping, laid out back to back
    after the PID byte: row [i] starts at bit 8 plus 8 times the lengths of
    the signals before it (plus 7 for big endian, where the start bit names
    the most significant bit of the first byte), spans 8 bits per byte of
    its signal, and carries the byte-order flag of the parameters and the
    sign [+] exactly for unsigned signals. *)
Theorem create_dbc_odt_layout sg p pr dbc d o :
  create_dbc sg p pr = Ok dbc ->
  let rows := rows_of_odt d o (dbc_rows dbc) in
  let sigs := odt_signals_of sg d o in
  map row_signal rows = sigs /\
  forall i r, nth_error rows i = Some r ->
    start_bit r = 8 + 8 * sum_length (firstn i sigs) + msb_offset (BYTE_ORDER p) /\
    bit_length r = 8 * Length (signal (row_signal r)) /\
    byte_order_flag r = match BYTE_ORDER p with little => "1" | big => "0" end%char /\
    sign r = (if (Signage (signal (row_signal r)) =? "unsigned")%string
              then "+" else "-")%char.
Proof.
  intros Hok rows sigs. destruct (create_dbc_rows_of sg p pr dbc d o Hok) as [pid E].
  fold rows sigs in E. rewrite E. split; [apply dbc_odt_rows_spec |].
  intros i r Hi.
  destruct (dbc_odt_rows_layout _ _ _ _ _ _ Hi) as [_ [Hb [Hs [Hf Hsg]]]].
  rewrite Hs, Hb, Hf, Hsg. unfold msb_offset.
  destruct (BYTE_ORDER p); repeat split; try reflexivity; lia.
Qed.

(** X9 (witness): the first ODT of the sample grouping, big endian: the
    2-byte signal at bit 15, the 4-byte signal behind it at bit 31. *)
Lemma create_dbc_odt_layout_witness :
  exists dbc,
    create_dbc Sample.signals_grouped (Sample.params "0x08" "0x08" big None) xcp
      = Ok dbc /\
    map start_bit (rows_of_odt (daq_id 0) (odt_id 0) (dbc_rows dbc)) = [15; 31] /\
    map row_signal (rows_of_odt (daq_id 0) (odt_id 0) (dbc_rows dbc))
      = odt_signals_of Sample.signals_grouped (daq_id 0) (odt_id 0).
Proof.
  eexists. split; [vm_compute; reflexivity |]. split; [vm_compute; reflexivity |].
  pose proof (create_dbc_odt_layout Sample.signals_grouped
                (Sample.params "0x08" "0x08" big None) xcp _
                (daq_id 0) (odt_id 0) eq_refl) as H.
  cbv zeta in H. destruct H as [H _]. exact H.
Defined.

(** X10: grouping followed by the decode table: when every signal has a
    length between 0 and [max_dto - 1] bytes (with
    [max_dto = min(MAX_DTO, 64)]), every row of the table lies behind the
    PID byte and ends within the first [max_dto] bytes of the DTO, which
    the message length of the DBC (8 or 64) covers. *)
Theorem grouped_rows_fit_dto signals p pr sg dbc max_dto :
  group_signals signals p pr = Ok sg ->
  create_dbc sg p pr = Ok dbc ->
  int16 (MAX_DTO p) = Ok max_dto ->
  Forall (fun s => 0 <= Length s <= Z.min max_dto 64 - 1) signals ->
  (dbc_dlc dbc = 8 \/ dbc_dlc dbc = 64) /\
  Z.min max_dto 64 <= dbc_dlc dbc /\
  forall r, In r (dbc_rows dbc) ->
    let first_bit := start_bit r - msb_offset (BYTE_ORDER p) in
    8 <= first_bit /\ first_bit + bit_length r <= 8 * Z.min max_dto 64.
Proof.
  intros Hg Hdbc Hdto Hlen.
  destruct (create_dbc_dlc _ _ _ _ _ Hdbc Hdto) as [Hd Hle].
  split; [exact Hd |]. split; [exact Hle |].
  destruct (grouping_within_payload _ _ _ _ _ Hg Hdto Hlen) as [Hnn Hsum].
  intros r Hr first_bit. unfold first_bit.
  destruct (rows_within_payload sg p pr dbc (Z.min max_dto 64 - 1)
              Hdbc Hnn Hsum r Hr) as [H8 Hend].
  split; [exact H8 | lia].
Qed.

(** X10 (witness): the sample signals with [MAX_DTO = 0x08], big endian. *)
Lemma grouped_rows_fit_dto_witness :
  exists sg dbc,
    group_signals Sample.signals (Sample.params "0x08" "0x08" big None) xcp = Ok sg /\
    create_dbc sg (Sample.params "0x08" "0x08" big None) xcp = Ok dbc /\
    int16 "0x08" = Ok 8 /\
    Forall (fun s => 0 <= Length s <= Z.min 8 64 - 1) Sample.signals /\
    dbc_dlc dbc = 8 /\
    forall r, In r (dbc_rows dbc) ->
      8 <= start_bit r - 7 /\ start_bit r - 7 + bit_length r <= 64.
Proof.
  eexists. eexists.
  split; [vm_compute; reflexivity |]. split; [vm_compute; reflexivity |].
  split; [reflexivity |].
  assert (Hlen : Forall (fun s => 0 <= Length s <= Z.min 8 64 - 1) Sample.signals)
    by (repeat constructor; simpl; lia).
  split; [exact Hlen |]. split; [reflexivity |].
  pose proof (grouped_rows_fit_dto Sample.signals
                (Sample.params "0x08" "0x08" big None) xcp _ _ 8
                eq_refl eq_refl eq_refl Hlen) as H.
  destruct H as [_ [_ H]]. exact H.
Defined.

(** X11: [group_signals] opens an ODT only when it must: of two signals
    that follow each other in a DAQ list, the second lies in the ODT of
    the first, or it lies in the ODT numbered one higher and would not have
    fitted: the payload of the first signal's ODT plus its length exceeds
    [max_dto - 1]. *)
Theorem group_signals_opens_odt_when_full signals p pr out max_dto i g1 g2 :
  group_signals signals p pr = Ok out ->
  int16 (MAX_DTO p) = Ok max_dto ->
  nth_error out i = Some g1 ->
  nth_error out (S i) = Some g2 ->
  DAQ_LIST_NUMBER g1 = DAQ_LIST_NUMBER g2 ->
  ODT_NUMBER g2 = ODT_NUMBER g1 \/
  exists n, ODT_NUMBER g1 = odt_id n /\ ODT_NUMBER g2 = odt_id (S n) /\
    sum_length (odt_signals_of out (DAQ_LIST_NUMBER g1) (ODT_NUMBER g1))
    + Length (signal g2) > Z.min max_dto 64 - 1.
Proof.
  intros Hg Hdto H1 H2 Hd.
  destruct (group_signals_ok _ _ _ _ Hg) as [_ [mp [Hmp Hout]]].
  destruct (max_payload_of_ok _ _ Hmp) as [v [Hv ->]].
  rewrite Hdto in Hv. injection Hv as <-. subst out.
  destruct (assign_daq_lists_adjacent _ _ _ _ _ _ H1 H2 Hd) as [j [k [Ed [Hk1 Hk2]]]].
  destruct (assign_odts_adjacent _ _ _ _ _ _ _ _ _ Hk1 Hk2)
    as [Hsame | [n [E1 [E2 Hgt]]]]; [left; exact Hsame |].
  right. exists n. split; [exact E1 |]. split; [exact E2 |].
  rewrite Ed, E1, odt_signals_of_with_odt, assign_daq_lists_daq_signals.
  destruct (n =? 0)%nat; lia.
Qed.

(** X11 (witness): the sample signals with [MAX_DTO = 0x08]: the third
    signal of the grouping opens ODT 1 of DAQ list 0, since 6 + 2 > 7. *)
Lemma group_signals_opens_odt_when_full_witness :
  exists out g1 g2,
    group_signals Sample.signals (Sample.params "0x08" "0x08" little None) xcp
      = Ok out /\
    int16 "0x08" = Ok 8 /\
    nth_error out 1 = Some g1 /\ nth_error out 2 = Some g2 /\
    DAQ_LIST_NUMBER g1 = DAQ_LIST_NUMBER g2 /\
    ODT_NUMBER g1 = odt_id 0 /\ ODT_NUMBER g2 = odt_id 1 /\
    (ODT_NUMBER g2 = ODT_NUMBER g1 \/
     exists n, ODT_NUMBER g1 = odt_id n /\ ODT_NUMBER g2 = odt_id (S n) /\
       sum_length (odt_signals_of out (DAQ_LIST_NUMBER g1) (ODT_NUMBER g1))
       + Length (signal g2) > Z.min 8 64 - 1).
Proof.
  eexists. eexists. eexists.
  split; [vm_compute; reflexivity |]. split; [reflexivity |].
  split; [reflexivity |]. split; [reflexivity |].
  split; [reflexivity |]. split; [reflexivity |]. split; [reflexivity |].
  exact (group_signals_opens_odt_when_full Sample.signals
           (Sample.params "0x08" "0x08" little None) xcp _ 8 1 _ _
           eq_refl eq_refl eq_refl eq_refl eq_refl).
Defined.

(** X12: with [shorten_signals] on, [create_dbc] names the rows of any
    decode table with pairwise different names; the search for an unused
    suffix always ends.  Every name is the first 29 characters of the
    signal's name (dots replaced by underscores), alone or followed by an
    underscore and a two-digit suffix below the number of rows; up to 100
    rows no name is longer than 32 characters. *)
Theorem dbc_names_are_unique (dbc : Dbc) :
  exists names,
    create_dbc_names true dbc = Some names /\
    NoDup names /\
    Forall2 (fun r n =>
               let base :=
                 substring 0 29 (replace_dots (Name (signal (row_signal r)))) in
               n = base \/
               exists k, (k < List.length (dbc_rows dbc))%nat /\
                         n = suffixed base k)
            (dbc_rows dbc) names /\
    ((List.length (dbc_rows dbc) <= 100)%nat ->
     Forall (fun n => (String.length n <= 32)%nat) names).
Proof.
  unfold create_dbc_names.
  destruct (dbc_signal_names_spec (map row_signal (dbc_rows dbc)) [])
    as [names [Hres [Hnd [_ Hshape]]]].
  exists names. split; [exact Hres |]. split; [exact Hnd |].
  rewrite length_map in Hshape. simpl in Hshape.
  assert (Hrows : Forall2 (fun r n =>
               let base :=
                 substring 0 29 (replace_dots (Name (signal (row_signal r)))) in
               n = base \/
               exists k, (k < List.length (dbc_rows dbc))%nat /\
                         n = suffixed base k)
            (dbc_rows dbc) names).
  { clear -Hshape. remember (List.length (dbc_rows dbc)) as bound. clear Heqbound.
    revert names Hshape. induction (dbc_rows dbc) as [| r rows IH]; intros names H;
      inversion H; subst; constructor; auto. }
  split; [exact Hrows |].
  intros Hlen. eapply Forall2_Forall_right; [exact Hrows |].
  cbv zeta. intros r n [-> | [k [Hk ->]]].
  - pose proof (substring_length_le 29
                  (replace_dots (Name (signal (row_signal r))))). lia.
  - unfold suffixed. rewrite !str_length_app, fmt_02d_length by lia.
    pose proof (substring_length_le 29
                  (replace_dots (Name (signal (row_signal r))))).
    simpl. lia.
Qed.

(** X13: what [filter_a2l_signals] returns.  The names of the signals are
    pairwise different.  Every signal is an A2L signal under its stripped
    name, with a length other than 0 (and other than 8 when
    [min(MAX_DTO, 64)] is 8), and its event is the one the user's file
    gives for its name or, failing that, for its matrix base name.
    Conversely the name of every A2L signal that has such an event and such
    a length is the name of a returned signal. *)
Theorem filter_a2l_signals_output all user p signals matched :
  filter_a2l_signals all user p = Ok (signals, matched) ->
  exists max_dto,
    int16 (MAX_DTO p) = Ok max_dto /\
    NoDup (map Name signals) /\
    (forall s, In s signals ->
       Length s <> 0 /\ (Z.min max_dto 64 = 8 -> Length s <> 8) /\
       event_for user (Name s) = Some (EventConfigured s) /\
       exists a, In a all /\
                 s = new_signal_of (strip (A2L.Name a)) (EventConfigured s) a) /\
    (forall a, In a all ->
       A2L.Length a <> 0 -> (Z.min max_dto 64 = 8 -> A2L.Length a <> 8) ->
       (exists event, event_for user (strip (A2L.Name a)) = Some event) ->
       In (strip (A2L.Name a)) (map Name signals)).
Proof.
  intros Hok.
  destruct (filter_a2l_signals_ok _ _ _ _ _ Hok)
    as [max_dto [st [Hdto [Hst [[Hnd [Hgood _]] [Hsig [_ Hnames]]]]]]].
  exists max_dto. split; [exact Hdto |]. split; [rewrite Hnames; exact Hnd |].
  split.
  - intros s Hs. rewrite Hsig in Hs. apply in_map_iff in Hs.
    destruct Hs as [[k s'] [E Hin]]. simpl in E. subst s'.
    destruct (Hgood k s Hin) as [Hk [Hev [a [Ha [Hname Hs]]]]].
    apply keeps_length_spec in Hk. destruct Hk as [H0 H8].
    assert (Hn : Name s = k) by (rewrite Hs; reflexivity).
    split; [exact H0 |]. split; [exact H8 |]. split; [rewrite Hn; exact Hev |].
    exists a. split; [exact Ha |]. rewrite Hname. exact Hs.
  - intros a Ha H0 H8 Hev. rewrite Hnames. apply dict_mem_In. rewrite Hst.
    apply filter_fold_complete; [exact Ha |].
    split; [apply keeps_length_spec; auto | exact Hev].
Qed.

(** X13 (witness): of the sample signals the filter keeps the 2-byte signal
    and the two matrix elements; the signal of length 0, the 8-byte signal
    (with [MAX_DTO = 0x08]) and the unlisted signal are left out. *)
Lemma filter_a2l_signals_output_witness :
  exists signals matched,
    filter_a2l_signals A2LSample.a2l_signals_all A2LSample.user_signals
      (Sample.params "0x08" "0x08" little None) = Ok (signals, matched) /\
    map Name signals = ["Speed"; "Arr_MX_0"; "Arr_MX_1"] /\
    map EventConfigured signals = ["3"; "1"; "1"] /\
    NoDup (map Name signals).
Proof.
  eexists. eexists. split; [vm_compute; reflexivity |].
  split; [reflexivity |]. split; [reflexivity |].
  destruct (filter_a2l_signals_output A2LSample.a2l_signals_all
              A2LSample.user_signals (Sample.params "0x08" "0x08" little None)
              _ _ eq_refl) as [max_dto [_ [H _]]].
  exact H.
Defined.

(** X14: from the A2L to the decode table.  When the lengths of the A2L
    signals are those of [data_type_map] and [MAX_DTO] is at least 8, the
    signals [filter_a2l_signals] returns are packed by [group_signals] into
    ODTs of at most [max_dto - 1] bytes (with [max_dto = min(MAX_DTO, 64)]),
    and every row [create_dbc] writes for them lies behind the PID byte and
    within the first [max_dto] bytes of the DTO. *)
Theorem filtered_signals_fit_dto all user p pr signals matched sg dbc max_dto :
  filter_a2l_signals all user p = Ok (signals, matched) ->
  group_signals signals p pr = Ok sg ->
  create_dbc sg p pr = Ok dbc ->
  int16 (MAX_DTO p) = Ok max_dto ->
  8 <= max_dto ->
  Forall typed_length all ->
  (forall g, In g sg ->
     sum_length (odt_signals_of sg (DAQ_LIST_NUMBER g) (ODT_NUMBER g))
     <= Z.min max_dto 64 - 1) /\
  (forall r, In r (dbc_rows dbc) ->
     let first_bit := start_bit r - msb_offset (BYTE_ORDER p) in
     8 <= first_bit /\ first_bit + bit_length r <= 8 * Z.min max_dto 64).
Proof.
  intros Hf Hg Hdbc Hdto H8 Htyped.
  pose proof (filtered_lengths _ _ _ _ _ _ Hf Hdto H8 Htyped) as Hlen.
  destruct (grouping_within_payload _ _ _ _ _ Hg Hdto Hlen) as [Hnn Hsum].
  split; [exact Hsum |].
  intros r Hr first_bit. unfold first_bit.
  destruct (rows_within_payload sg p pr dbc (Z.min max_dto 64 - 1)
              Hdbc Hnn Hsum r Hr) as [Hfirst Hend].
  split; [exact Hfirst | lia].
Qed.

(** X14 (witness): the sample signals with [MAX_DTO = 0x08], XCP. *)
Lemma filtered_signals_fit_dto_witness :
  exists signals matched sg dbc,
    filter_a2l_signals A2LSample.a2l_signals_all A2LSample.user_signals
      (Sample.params "0x08" "0x08" little None) = Ok (signals, matched) /\
    group_signals signals (Sample.params "0x08" "0x08" little None) xcp = Ok sg /\
    create_dbc sg (Sample.params "0x08" "0x08" little None) xcp = Ok dbc /\
    int16 "0x08" = Ok 8 /\ 8 <= 8 /\
    Forall typed_length A2LSample.a2l_signals_all /\
    List.length (dbc_rows dbc) = 3%nat /\
    forall r, In r (dbc_rows dbc) ->
      8 <= start_bit r - 0 /\ start_bit r - 0 + bit_length r <= 8 * Z.min 8 64.
Proof.
  assert (Htyped : Forall typed_length A2LSample.a2l_signals_all).
  { repeat constructor;
      first [ exists "uword"; reflexivity | exists "ubyte"; reflexivity
            | exists "ulong"; reflexivity | exists "a_uint64"; reflexivity
            | exists "none"; reflexivity ]. }
  eexists. eexists. eexists. eexists.
  split; [vm_compute; reflexivity |]. split; [vm_compute; reflexivity |].
  split; [vm_compute; reflexivity |]. split; [reflexivity |].
  split; [lia |]. split; [exact Htyped |]. split; [reflexivity |].
  destruct (filtered_signals_fit_dto A2LSample.a2l_signals_all
              A2LSample.user_signals (Sample.params "0x08" "0x08" little None)
              xcp _ _ _ _ 8 eq_refl eq_refl eq_refl eq_refl ltac:(lia) Htyped)
    as [_ H].
  exact H.
Defined.

(** X15: the status report after the filter.  [create_status_csv] gives
    every entry of the user's file one row, the unmatched entries first;
    an entry is reported as matched exactly when a signal the filter
    returned bears its name or has it as matrix base name. *)
Theorem status_csv_after_filter all user p signals matched :
  filter_a2l_signals all user p = Ok (signals, matched) ->
  let rows := create_status_csv user matched in
  Permutation (map (firstn 2) rows) (map (fun kv => [fst kv; snd kv]) user) /\
  (exists n, Forall (fun r => nth 2 r EmptyString = "Not Matched") (firstn n rows) /\
             Forall (fun r => nth 2 r EmptyString = "Matched") (skipn n rows)) /\
  forall name event, In (name, event) user ->
    let yields :=
      exists s, In s signals /\
                (Name s = name \/ matrix_base (Name s) = Some name) in
    (In [name; event; "Matched"] rows <-> yields) /\
    (In [name; event; "Not Matched"] rows <-> ~ yields).
Proof.
  intros Hok rows.
  destruct (filter_a2l_signals_ok _ _ _ _ _ Hok)
    as [max_dto [st [_ [_ [[_ [Hgood Hm]] [Hsig [Hmatched _]]]]]]].
  set (is_matched := fun kv : string * string =>
                       existsb (String.eqb (fst kv)) matched).
  assert (Hrows : rows =
            map (fun kv => [fst kv; snd kv; "Not Matched"])
                (filter (fun kv => negb (is_matched kv)) user)
            ++ map (fun kv => [fst kv; snd kv; "Matched"])
                   (filter is_matched user)) by reflexivity.
  assert (His : forall kv, is_matched kv = true <-> In (fst kv) matched).
  { intros kv. unfold is_matched. rewrite existsb_exists. split.
    - intros [x [Hx E]]. apply String.eqb_eq in E. subst x. exact Hx.
    - intros H. exists (fst kv). split; [exact H | apply String.eqb_refl]. }
  assert (Hyield : forall name event, In (name, event) user ->
            (In name matched <->
             exists s, In s signals /\
                       (Name s = name \/ matrix_base (Name s) = Some name))).
  { intros name event Hin. rewrite Hmatched, Hm. split.
    - intros [k [s [Hks H]]]. exists s. split.
      + rewrite Hsig. apply in_map_iff. exists (k, s). auto.
      + destruct (Hgood k s Hks) as [_ [_ [a [_ [_ Hs]]]]].
        assert (Hn : Name s = k) by (rewrite Hs; reflexivity). rewrite Hn.
        destruct H as [-> | [H _]]; auto.
    - intros [s [Hs H]]. rewrite Hsig in Hs. apply in_map_iff in Hs.
      destruct Hs as [[k s'] [E Hks]]. simpl in E. subst s'.
      destruct (Hgood k s Hks) as [_ [_ [a [_ [_ Hs]]]]].
      assert (Hn : Name s = k) by (rewrite Hs; reflexivity). rewrite Hn in H.
      exists k, s. split; [exact Hks |].
      destruct H as [-> | H]; [left; reflexivity | right].
      split; [exact H |]. apply dict_mem_In.
      apply in_map_iff. exists (name, event). auto. }
  split; [| split].
  - rewrite Hrows, map_app, !map_map. simpl.
    clear. induction user as [| kv user IH]; [constructor |]. simpl.
    destruct (is_matched kv); simpl.
    + apply Permutation_sym, Permutation_cons_app, Permutation_sym. exact IH.
    + constructor. exact IH.
  - exists (List.length (filter (fun kv => negb (is_matched kv)) user)).
    rewrite Hrows.
    rewrite firstn_app, skipn_app, !length_map, Nat.sub_diag.
    rewrite firstn_all2, skipn_all2 by (rewrite length_map; lia).
    simpl. rewrite app_nil_r. split; apply Forall_forall; intros r Hr;
      apply in_map_iff in Hr; destruct Hr as [kv [<- _]]; reflexivity.
  - intros name event Hin yields.
    assert (HM : In [name; event; "Matched"] rows <-> In name matched).
    { rewrite Hrows, in_app_iff, !in_map_iff. split.
      - intros [[kv [E _]] | [kv [E Hkv]]]; [discriminate |].
        injection E as <- <-. apply filter_In in Hkv. apply His. tauto.
      - intros H. right. exists (name, event). split; [reflexivity |].
        apply filter_In. split; [exact Hin | apply His; exact H]. }
    assert (HN : In [name; event; "Not Matched"] rows <-> ~ In name matched).
    { rewrite Hrows, in_app_iff, !in_map_iff. split.
      - intros [[kv [E Hkv]] | [kv [E _]]]; [| discriminate].
        injection E as <- <-. apply filter_In in Hkv. destruct Hkv as [_ Hkv].
        apply negb_true_iff in Hkv. intros Hc. apply His in Hc. congruence.
      - intros H. left. exists (name, event). split; [reflexivity |].
        apply filter_In. split; [exact Hin |]. apply negb_true_iff.
        destruct (is_matched (name, event)) eqn:E; [| reflexivity].
        exfalso. apply H. apply (His (name, event)). exact E. }
    rewrite HM, HN. unfold yields. rewrite (Hyield name event Hin). tauto.
Qed.

(** X15 (witness): the sample: the 2-byte signal and the matrix are
    reported as matched, the two rejected signals as not matched. *)
Lemma status_csv_after_filter_witness :
  exists signals matched,
    filter_a2l_signals A2LSample.a2l_signals_all A2LSample.user_signals
      (Sample.params "0x08" "0x08" little None) = Ok (signals, matched) /\
    create_status_csv A2LSample.user_signals matched =
      [ ["Ghost"; "3"; "Not Matched"]; ["Wide"; "3"; "Not Matched"];
        ["Speed"; "3"; "Matched"]; ["Arr"; "1"; "Matched"] ] /\
    Permutation (map (firstn 2) (create_status_csv A2LSample.user_signals matched))
                (map (fun kv => [fst kv; snd kv]) A2LSample.user_signals).
Proof.
  eexists. eexists. split; [vm_compute; reflexivity |].
  split; [vm_compute; reflexivity |].
  destruct (status_csv_after_filter A2LSample.a2l_signals_all
              A2LSample.user_signals (Sample.params "0x08" "0x08" little None)
              _ _ eq_refl) as [H _].
  exact H.
Defined.

(** X16: [expand_matrix_signal] on a signal with a positive matrix
    dimension and an address that reads as a hexadecimal number: it
    returns one signal per element; element [i] keeps the length, is named
    [<name>_MX_<i>] and, unless the sum is negative, its address text
    reads as the base address plus [i] times the length.  The pattern of
    [filter_a2l_signals] gives back the base name from the name of every
    element, when the base name is not empty and has no newline. *)
Theorem expand_matrix_signal_elements s ecu_addr :
  0 < A2L.MatrixDim s ->
  A2L.ECU_ADDRESS s <> EmptyString ->
  int16 (remove_0x (A2L.ECU_ADDRESS s)) = Ok ecu_addr ->
  let out := expand_matrix_signal s in
  List.length out = Z.to_nat (A2L.MatrixDim s) /\
  forall i e, nth_error out i = Some e ->
    let address := ecu_addr + Z.of_nat i * A2L.Length s in
    A2L.Name e = (A2L.Name s ++ "_MX_" ++ decimal i)%string /\
    A2L.Length e = A2L.Length s /\
    (0 <= address -> int16 (A2L.ECU_ADDRESS e) = Ok address) /\
    (A2L.Name s <> EmptyString -> has_char newline (A2L.Name s) = false ->
     matrix_base (A2L.Name e) = Some (A2L.Name s)).
Proof.
  intros Hdim Hne Haddr out.
  assert (Hout : out = map (matrix_element s ecu_addr)
                           (seq 0 (Z.to_nat (A2L.MatrixDim s)))).
  { unfold out, expand_matrix_signal.
    replace (A2L.MatrixDim s <=? 0) with false by (symmetry; apply Z.leb_gt; lia).
    destruct (A2L.ECU_ADDRESS s) eqn:E; [congruence |].
    rewrite Haddr. reflexivity. }
  rewrite Hout. split; [rewrite length_map, length_seq; reflexivity |].
  intros i e Hi address.
  assert (Hlt : (i < Z.to_nat (A2L.MatrixDim s))%nat).
  { assert (H : nth_error (map (matrix_element s ecu_addr)
                             (seq 0 (Z.to_nat (A2L.MatrixDim s)))) i <> None)
      by congruence.
    apply nth_error_Some in H. rewrite length_map, length_seq in H. exact H. }
  rewrite nth_error_map, nth_error_seq in Hi.
  replace (i <? Z.to_nat (A2L.MatrixDim s))%nat with true in Hi
    by (symmetry; apply Nat.ltb_lt; exact Hlt).
  simpl in Hi. injection Hi as <-.
  cbn [matrix_element renamed A2L.Name A2L.Length A2L.ECU_ADDRESS].
  split; [reflexivity |]. split; [reflexivity |]. split.
  - intros H0. apply int16_0x_fmt. exact H0.
  - intros Hn Hnl. apply matrix_base_round_trip;
      [exact Hn | exact Hnl | apply decimal_digits | apply decimal_nonempty].
Qed.

(** X16 (witness): the sample matrix of two bytes at 0x2000. *)
Lemma expand_matrix_signal_elements_witness :
  map A2L.Name (expand_matrix_signal A2LSample.arr) = ["Arr_MX_0"; "Arr_MX_1"] /\
  map A2L.ECU_ADDRESS (expand_matrix_signal A2LSample.arr) = ["0x2000"; "0x2001"] /\
  List.length (expand_matrix_signal A2LSample.arr) = 2%nat.
Proof.
  split; [reflexivity |]. split; [reflexivity |].
  destruct (expand_matrix_signal_elements A2LSample.arr 8192) as [H _].
  - simpl. lia.
  - discriminate.
  - reflexivity.
  - exact H.
Defined.

(** X17: [extract_can_id] on a text that reads as the number [can_id]:
    the flag says whether bit 31 is set; the text it returns reads back as
    the low 29 bits (extended) or the low 11 bits of [can_id], and gives
    their upper-case digits when [0x] is removed as [create_transmit_list]
    does.  [create_dbc] sets bit 31 again on an extended identifier of the
    slave, so that an identifier with bit 31 set and bits 29 and 30 clear
    reaches the DBC unchanged. *)
Theorem extract_can_id_round_trip s can_id :
  int16 s = Ok can_id ->
  let extended := negb (Z.land can_id 0x80000000 =? 0) in
  let kept := Z.land can_id (if extended then 0x1FFFFFFF else 0x7FF) in
  exists text,
    extract_can_id s = Ok (text, extended) /\
    int16 text = Ok kept /\
    str_upper (remove_0x text) = Hex.upper kept /\
    (forall sg p pr dbc,
       CAN_ID_SLAVE p = text -> CAN_ID_SLAVE_EXTENDED p = extended ->
       create_dbc sg p pr = Ok dbc ->
       dbc_can_id dbc = if extended then Z.lor kept 0x80000000 else kept) /\
    (0x80000000 <= can_id < 0xA0000000 ->
     extended = true /\ Z.lor kept 0x80000000 = can_id).
Proof.
  intros Hs extended kept.
  assert (Hk : 0 <= kept).
  { unfold kept. apply Z.land_nonneg. right. destruct extended; lia. }
  exists (hex kept). split; [| split; [| split; [| split]]].
  - unfold extract_can_id. rewrite Hs. simpl bind. unfold kept, extended.
    destruct (negb (Z.land can_id 2147483648 =? 0)); reflexivity.
  - apply int16_hex. exact Hk.
  - apply upper_of_hex. exact Hk.
  - intros sg p pr dbc Ht He Hdbc.
    rewrite (create_dbc_can_id sg p pr dbc kept Hdbc)
      by (rewrite Ht; apply int16_hex; exact Hk).
    rewrite He. reflexivity.
  - intros Hr. destruct (extended_id_bits can_id Hr) as [Hb Hl].
    assert (He : extended = true).
    { unfold extended. apply negb_true_iff. apply Z.eqb_neq. exact Hb. }
    split; [exact He |]. unfold kept. rewrite He. exact Hl.
Qed.

(** X17 (witness): the 29-bit identifier 0x18FF0001 with bit 31 set. *)
Lemma extract_can_id_round_trip_witness :
  int16 "0x98FF0001" = Ok 0x98FF0001 /\
  exists text,
    extract_can_id "0x98FF0001" = Ok (text, true) /\
    text = "0x18ff0001" /\
    int16 text = Ok 0x18FF0001 /\
    str_upper (remove_0x text) = "18FF0001".
Proof.
  split; [reflexivity |].
  destruct (extract_can_id_round_trip "0x98FF0001" 0x98FF0001 eq_refl)
    as [text [H1 [H2 [H3 _]]]].
  exists text.
  assert (E : text = "0x18ff0001").
  { vm_compute in H1. injection H1 as <-. reflexivity. }
  split; [exact H1 |]. split; [exact E |]. split; [exact H2 |].
  rewrite H3. reflexivity.
Defined.

(** X18: the mapping [load_signal_file] builds from the rows of the
    signal file has one item per name; the event of a name is that of the
    last row that sets it; a row sets an item only if it has two cells, a
    first cell that is not blank and no bracket in it, so that no name of
    the mapping is empty. *)
Theorem load_signal_file_mapping (rows : list (list string)) :
  let m := load_signal_file rows in
  NoDup (map fst m) /\
  (forall k, dict_get m k =
             option_map snd (find (fun kv => (fst kv =? k)%string)
                                  (rev (row_items rows)))) /\
  (forall k v, dict_get m k = Some v ->
     k <> EmptyString /\
     exists c0 c1 rest,
       In (c0 :: c1 :: rest) rows /\ has_char "[" c0 = false /\
       k = strip c0 /\ v = strip c1).
Proof.
  intros m. destruct (load_signal_rows_spec rows [] (NoDup_nil _)) as [Hnd Hget].
  cbv zeta in Hnd, Hget. fold (load_signal_file rows) in Hnd, Hget. fold m in Hnd, Hget.
  assert (Hget' : forall k, dict_get m k =
             option_map snd (find (fun kv => (fst kv =? k)%string)
                                  (rev (row_items rows)))).
  { intros k. rewrite Hget. destruct (find _ _); reflexivity. }
  split; [exact Hnd |]. split; [exact Hget' |].
  intros k v Hkv. rewrite Hget' in Hkv.
  destruct (find _ _) as [[k' v'] |] eqn:Ef; [| discriminate].
  simpl in Hkv. injection Hkv as ->.
  apply find_some in Ef. destruct Ef as [Hin Hk]. simpl in Hk.
  apply String.eqb_eq in Hk. subst k'.
  apply in_rev in Hin. unfold row_items in Hin. apply in_flat_map in Hin.
  destruct Hin as [row [Hrow Hitem]].
  destruct (row_item row) as [kv |] eqn:Ei; [| destruct Hitem].
  destruct Hitem as [-> | []].
  unfold row_item in Ei. destruct row as [| c0 [| c1 rest]]; try discriminate.
  destruct (String.length (strip c0) =? 0)%nat eqn:E0; [discriminate |].
  destruct (has_char "[" c0) eqn:Eb; [discriminate |].
  simpl in Ei. injection Ei as <- <-.
  split.
  - intros E. rewrite E in E0. discriminate.
  - exists c0, c1, rest. auto.
Qed.

(** X19: the XCP command sequence when [MAX_CTO] is below 64 (one
    WRITE_DAQ per signal): CONNECT, GET_STATUS, FREE_DAQ, AL_DAQ, an AL_ODT
    per DAQ list, an AL_ODT_ENT per ODT, then per ODT a SET_DAQ_PTR
    followed by the WRITE_DAQ frames of its signals, numbered from 0, then
    a SET_DAQ_LIST_MOD and a START_STOP_DAQ per DAQ list, and
    START_STOP_SYNCH.  The ODTs come in the ascending (DAQ list, ODT)
    order in which [create_dbc] numbers them.  With D DAQ lists, K ODTs
    and N signals that makes 5 + 3 D + 2 K + N frames. *)
Theorem xcp_command_sequence sg p frames max_cto :
  Xcp.create_daq_frames_xcp sg p = Ok frames ->
  int16 (MAX_CTO p) = Ok max_cto ->
  max_cto < 64 ->
  map FrameName frames = xcp_frame_names sg /\
  List.length frames
  = (5 + 3 * List.length (daq_lists_of sg) + 2 * List.length (odt_keys sg)
       + List.length sg)%nat.
Proof.
  intros H Hcto Hlt.
  destruct (xcp_classic_shape sg p frames max_cto H Hcto Hlt) as [Hn _].
  split; [exact Hn |].
  rewrite <- (length_map FrameName frames), Hn. apply xcp_frame_names_length.
Qed.

(** X19 (witness): the sample grouping: 2 DAQ lists, 3 ODTs, 4 signals,
    21 frames. *)
Lemma xcp_command_sequence_witness :
  exists frames,
    Xcp.create_daq_frames_xcp Sample.signals_grouped
      (Sample.params "0x08" "0x08" little None) = Ok frames /\
    int16 "0x08" = Ok 8 /\ 8 < 64 /\
    List.length frames = 21%nat /\
    map FrameName frames = xcp_frame_names Sample.signals_grouped.
Proof.
  eexists. split; [vm_compute; reflexivity |]. split; [reflexivity |].
  split; [lia |]. split; [reflexivity |].
  destruct (xcp_command_sequence Sample.signals_grouped
              (Sample.params "0x08" "0x08" little None) _ 8 eq_refl eq_refl
              ltac:(lia)) as [H _].
  exact H.
Defined.

(** X20: when [MAX_CTO] is below 64, every frame of the XCP command
    sequence fits a classic CAN frame (at most 8 bytes), provided the
    grouping has fewer than 256 signals with lengths that fit one byte and
    the event priorities of the parameters are at most two characters
    without their prefix. *)
Theorem xcp_classic_frames_fit sg p frames max_cto :
  Xcp.create_daq_frames_xcp sg p = Ok frames ->
  int16 (MAX_CTO p) = Ok max_cto ->
  max_cto < 64 ->
  Forall (fun s => 0 <= Length (signal s) < 256) sg ->
  (List.length sg < 256)%nat ->
  Forall (fun e => (String.length (remove_0X (str_upper (EventPriority e))) <= 2)%nat)
         (EVENTS p) ->
  Forall classic_frame frames.
Proof.
  intros H Hcto Hlt HL Hn He.
  exact (proj2 (xcp_classic_shape sg p frames max_cto H Hcto Hlt) HL Hn He).
Qed.

(** X20 (witness): the sample grouping. *)
Lemma xcp_classic_frames_fit_witness :
  exists frames,
    Xcp.create_daq_frames_xcp Sample.signals_grouped
      (Sample.params "0x08" "0x08" little None) = Ok frames /\
    Forall classic_frame frames.
Proof.
  eexists. split; [vm_compute; reflexivity |].
  apply (xcp_classic_frames_fit Sample.signals_grouped
           (Sample.params "0x08" "0x08" little None) _ 8).
  - vm_compute. reflexivity.
  - reflexivity.
  - lia.
  - repeat (constructor; [cbn; lia |]). constructor.
  - simpl. lia.
  - constructor; [vm_compute; lia | constructor].
Defined.

(** X21: the text [to_bytes(n, order).hex().upper()] of a number, as the
    encoders write DAQ numbers, event channels and addresses into the
    frames: it exists only for a number from 0 to [256^n - 1], has [2 n]
    characters, and its byte [i] is the [i]-th base-256 digit of the number
    counted from the low end for little endian and from the high end for
    big endian. *)
Theorem to_bytes_hex_bytes n order v s :
  to_bytes_hex n order v = Ok s ->
  0 <= v < 256 ^ Z.of_nat n /\
  String.length s = (2 * n)%nat /\
  forall i, (i < n)%nat ->
    payload_byte i s
    = Some ((v / 256 ^ Z.of_nat (match order with
                                 | big => n - 1 - i
                                 | little => i
                                 end)) mod 256).
Proof.
  intros H. pose proof (to_bytes_hex_length _ _ _ _ H) as Hlen.
  unfold to_bytes_hex in H.
  destruct ((v <? 0) || (256 ^ Z.of_nat n <=? v)) eqn:E; [discriminate |].
  apply orb_false_iff in E. destruct E as [E1 E2].
  apply Z.ltb_ge in E1. apply Z.leb_gt in E2.
  injection H as <-. split; [lia |]. split; [exact Hlen |].
  intros i Hi. destruct order.
  - rewrite payload_byte_of_bytes by apply be_bytes_range.
    apply be_bytes_nth. exact Hi.
  - rewrite payload_byte_of_bytes
      by (apply Forall_rev, be_bytes_range).
    rewrite nth_error_rev_lt by (rewrite be_bytes_length; exact Hi).
    rewrite be_bytes_length, be_bytes_nth by lia.
    replace (n - 1 - (n - 1 - i))%nat with i by lia. reflexivity.
Qed.

(** X21 (witness): 0x1234 in two bytes, little endian: 34 12. *)
Lemma to_bytes_hex_bytes_witness :
  to_bytes_hex 2 little 0x1234 = Ok "3412" /\
  payload_byte 0 "3412" = Some 0x34 /\ payload_byte 1 "3412" = Some 0x12 /\
  0 <= 0x1234 < 256 ^ Z.of_nat 2.
Proof.
  split; [reflexivity |]. split; [reflexivity |]. split; [reflexivity |].
  exact (proj1 (to_bytes_hex_bytes 2 little 0x1234 "3412" eq_refl)).
Defined.

(** X22: the decode table of [create_dbc] has exactly one row per
    grouped signal: the signals of its rows are a rearrangement of the
    grouping, none left out and none repeated. *)
Theorem create_dbc_covers_signals sg p pr dbc :
  create_dbc sg p pr = Ok dbc ->
  Permutation (map row_signal (dbc_rows dbc)) sg /\
  List.length (dbc_rows dbc) = List.length sg.
Proof.
  intros Hok. destruct (create_dbc_rows _ _ _ _ Hok) as [flag Hrows].
  destruct (dbc_daq_lists_spec flag sg p pr _ (sorted_set_NoDup _) _ _ Hrows)
    as [Hsig _].
  fold (daq_lists_of sg) in Hsig.
  assert (Hp : Permutation (map row_signal (dbc_rows dbc)) sg)
    by (rewrite Hsig; apply odts_hold_signals).
  split; [exact Hp |].
  rewrite <- (length_map row_signal). apply Permutation_length. exact Hp.
Qed.

(** X22 (witness): the four rows of the sample grouping. *)
Lemma create_dbc_covers_signals_witness :
  exists dbc,
    create_dbc Sample.signals_grouped (Sample.params "0x08" "0x08" little None) xcp
      = Ok dbc /\
    List.length (dbc_rows dbc) = 4%nat /\
    Permutation (map row_signal (dbc_rows dbc)) Sample.signals_grouped.
Proof.
  eexists. split; [vm_compute; reflexivity |]. split; [reflexivity |].
  exact (proj1 (create_dbc_covers_signals Sample.signals_grouped
                  (Sample.params "0x08" "0x08" little None) xcp _ eq_refl)).
Defined.

(** X23: how [create_dbc] ends.  Its only failures are a [ValueError] of
    [int(.., 16)] and, for CCP, the [KeyError] of a missing [DAQ_LISTS]
    key.  When the slave identifier and [MAX_CTO] are hexadecimal literals
    (and [MAX_DTO] too, which is read only if [MAX_CTO] is at most 8), the
    table is built for XCP and for an empty grouping, and a non-empty CCP
    grouping without the [DAQ_LISTS] key ends with the [KeyError]. *)
Theorem create_dbc_outcomes sg p pr :
  (forall e, create_dbc sg p pr = Raise e ->
     e = ValueError \/
     (pr = ccp /\ e = KeyError /\ DAQ_LISTS p = None /\ sg <> [])) /\
  (forall id cto,
     int16 (CAN_ID_SLAVE p) = Ok id -> int16 (MAX_CTO p) = Ok cto ->
     (8 < cto \/ exists dto, int16 (MAX_DTO p) = Ok dto) ->
     (pr = xcp \/ sg = [] -> exists dbc, create_dbc sg p pr = Ok dbc) /\
     (pr = ccp -> DAQ_LISTS p = None -> sg <> [] ->
      create_dbc sg p pr = Raise KeyError)).
Proof.
  split.
  - intros e H. unfold create_dbc in H.
    destruct (int16 (CAN_ID_SLAVE p)) eqn:E1; cbn [bind] in H;
      [| injection H as <-; left; exact (int16_failure _ _ E1)].
    destruct (int16 (MAX_CTO p)) as [cto |] eqn:E2; cbn [bind] in H;
      [| injection H as <-; left; exact (int16_failure _ _ E2)].
    destruct (cto >? 8); cbn [bind] in H.
    + match type of H with
      | bind ?m _ = _ => destruct m as [rows |] eqn:Er; cbn [bind] in H;
                         [discriminate |]
      end.
      injection H as <-.
      destruct (dbc_daq_lists_failure _ _ _ _ _ _ _ Er) as [-> | [-> [-> Hd]]];
        [left; reflexivity | right].
      repeat split; auto. intros ->. discriminate Er.
    + destruct (int16 (MAX_DTO p)) eqn:E3; cbn [bind] in H;
        [| injection H as <-; left; exact (int16_failure _ _ E3)].
      match type of H with
      | bind ?m _ = _ => destruct m as [rows |] eqn:Er; cbn [bind] in H;
                         [discriminate |]
      end.
      injection H as <-.
      destruct (dbc_daq_lists_failure _ _ _ _ _ _ _ Er) as [-> | [-> [-> Hd]]];
        [left; reflexivity | right].
      repeat split; auto. intros ->. discriminate Er.
  - intros id cto Hid Hcto Hdto.
    assert (Hhead : forall rows,
              dbc_daq_lists (match BYTE_ORDER p with
                             | little => "1" | big => "0" end)%char
                sg p pr (daq_lists_of sg) 0 = rows ->
              match rows with
              | Ok _ => exists dbc, create_dbc sg p pr = Ok dbc
              | Raise e => create_dbc sg p pr = Raise e
              end).
    { intros rows Hrows. unfold create_dbc. rewrite Hid, Hcto. cbn [bind].
      destruct (cto >? 8) eqn:Ec; cbn [bind].
      - rewrite Hrows. destruct rows; cbn [bind]; eauto.
      - destruct Hdto as [Hgt | [dto Hd]];
          [rewrite Z.gtb_ltb in Ec; apply Z.ltb_ge in Ec; lia |].
        rewrite Hd. cbn [bind]. rewrite Hrows. destruct rows; cbn [bind]; eauto. }
    split.
    + intros Hcase.
      assert (Hrows : exists rows,
                dbc_daq_lists (match BYTE_ORDER p with
                               | little => "1" | big => "0" end)%char
                  sg p pr (daq_lists_of sg) 0 = Ok rows).
      { destruct Hcase as [-> | ->]; [apply dbc_daq_lists_xcp |].
        exists []. reflexivity. }
      destruct Hrows as [rows Hrows]. exact (Hhead _ Hrows).
    + intros -> Hnone Hne.
      pose proof (daq_lists_of_nonempty sg Hne) as Hdl.
      apply (Hhead (Raise KeyError)).
      destruct (daq_lists_of sg) as [| d dls]; [congruence |].
      apply dbc_daq_lists_no_key. exact Hnone.
Qed.

(** X23 (witness): the sample grouping as CCP without the [DAQ_LISTS]
    key. *)
Lemma create_dbc_outcomes_witness :
  int16 (CAN_ID_SLAVE (Sample.params "0x08" "0x08" little None)) = Ok 0x7e8 /\
  create_dbc Sample.signals_grouped (Sample.params "0x08" "0x08" little None) ccp
    = Raise KeyError /\
  exists dbc,
    create_dbc Sample.signals_grouped (Sample.params "0x08" "0x08" little None) xcp
      = Ok dbc.
Proof.
  split; [reflexivity |].
  destruct (create_dbc_outcomes Sample.signals_grouped
              (Sample.params "0x08" "0x08" little None) ccp) as [_ H].
  destruct (create_dbc_outcomes Sample.signals_grouped
              (Sample.params "0x08" "0x08" little None) xcp) as [_ H'].
  split.
  - apply (H 0x7e8 8); try reflexivity.
    + right. exists 8. reflexivity.
    + discriminate.
  - apply (H' 0x7e8 8); try reflexivity.
    + right. exists 8. reflexivity.
    + left. reflexivity.
Defined.

(** X24: the transmit list of an XCP command sequence for classic CAN is
    limited by the frame count alone.  With fewer than 256 signals, lengths
    that fit one byte and event priorities of at most two characters no
    frame has more than 8 bytes, so under settings whose byte budget is at
    least 8 bytes per allowed frame (those of the script: 224 frames, 4096
    bytes) [create_transmit_list] fails exactly when [5 + 3 D + 2 K + N]
    exceeds [max_frames], and then with the frame count error. *)
Theorem xcp_transmit_list_budget sg p settings frames max_cto :
  Xcp.create_daq_frames_xcp sg p = Ok frames ->
  int16 (MAX_CTO p) = Ok max_cto ->
  max_cto < 64 ->
  Forall (fun s => 0 <= Length (signal s) < 256) sg ->
  (List.length sg < 256)%nat ->
  Forall (fun e => (String.length (remove_0X (str_upper (EventPriority e))) <= 2)%nat)
         (EVENTS p) ->
  8 * max_frames settings <= max_data_bytes settings ->
  let n := 5 + 3 * Z.of_nat (List.length (daq_lists_of sg))
             + 2 * Z.of_nat (List.length (odt_keys sg))
             + Z.of_nat (List.length sg) in
  let out := create_transmit_list frames p settings in
  total_payload_bytes frames <= 8 * n /\
  (n <= max_frames settings ->
   exists transmit_list,
     tx_result out = Ok transmit_list /\ tx_written out = [transmit_list] /\
     Z.of_nat (List.length transmit_list) = n) /\
  (max_frames settings < n ->
   tx_result out = Raise (TooManyFrames n (max_frames settings)) /\
   tx_written out = []).
Proof.
  intros H Hcto Hlt HL Hsg He Hb n out.
  destruct (xcp_classic_shape sg p frames max_cto H Hcto Hlt) as [Hnames Hfit].
  specialize (Hfit HL Hsg He).
  assert (Hn : Z.of_nat (List.length frames) = n).
  { subst n. rewrite <- (length_map FrameName frames), Hnames,
      xcp_frame_names_length. lia. }
  pose proof (total_payload_classic frames Hfit) as Ht. rewrite Hn in Ht.
  split; [lia |].
  subst out. unfold create_transmit_list.
  match goal with
  | |- context [transmit_entries ?a ?b ?c ?d ?e ?f ?g ?h] =>
      destruct (transmit_entries a b c d e f g h) as [tl total] eqn:Et
  end.
  destruct (transmit_entries_spec _ _ _ _ _ _ _ _ _ _ Et) as [-> [Hl _]].
  rewrite Hl, Hn, Z.add_0_l.
  destruct (n >? max_frames settings) eqn:E1;
    rewrite Z.gtb_ltb in E1; [apply Z.ltb_lt in E1 | apply Z.ltb_ge in E1].
  - split; [intros; lia | intros _; split; reflexivity].
  - destruct (total_payload_bytes frames >? max_data_bytes settings) eqn:E2;
      rewrite Z.gtb_ltb in E2; [apply Z.ltb_lt in E2; lia |].
    split; [| intros; lia].
    intros _. exists tl. cbn. repeat split. lia.
Qed.

(** X24 (witness): the sample grouping under the settings of the script. *)
Lemma xcp_transmit_list_budget_witness :
  exists frames transmit_list,
    Xcp.create_daq_frames_xcp Sample.signals_grouped
      (Sample.params "0x08" "0x08" little None) = Ok frames /\
    8 * max_frames script_settings <= max_data_bytes script_settings /\
    tx_result (create_transmit_list frames
                 (Sample.params "0x08" "0x08" little None) script_settings)
      = Ok transmit_list /\
    Z.of_nat (List.length transmit_list) = 21.
Proof.
  pose proof (xcp_transmit_list_budget Sample.signals_grouped
                (Sample.params "0x08" "0x08" little None) script_settings
                _ 8 eq_refl eq_refl ltac:(lia)
                ltac:(repeat (constructor; [cbn; lia |]); constructor)
                ltac:(simpl; lia)
                ltac:(constructor; [vm_compute; lia | constructor])
                ltac:(cbn; lia)) as H.
  cbv zeta in H. destruct H as [_ [Hok _]].
  destruct (Hok ltac:(vm_compute; discriminate)) as [tl [Hr [_ Hl]]].
  eexists. exists tl.
  split; [reflexivity |]. split; [cbn; lia |].
  split; [exact Hr | exact Hl].
Defined.
